(** * BitMap image editing: the BMP codec and the pixel filters

    A shallow embedding of [bitmap.h] and [bitmap.cpp].

    - Integers of the program are [Z]; every conversion to an unsigned type
      is written out as a reduction modulo the type's range.  Where the
      program multiplies or adds header fields or counters in [int] (the
      buffer size in [operator>>], the byte offset [x * b.imageType] of a
      pixel, the row length [width * imageType] of the flips, the new width,
      stride and height of the scalings), the operation is [int_mul] or
      [int_add], which reports a result outside [int].
    - A [std::vector<uint8_t>] is a [list byte]; element access goes through
      [load] and [store], which report an access outside the vector.
    - A call either completes with a value, runs into undefined behaviour, or
      never returns: the [outcome] type.
    - Streams are byte lists with a position and a failure flag. *)

From Stdlib Require Import ZArith Lia List Bool.
From Stdlib Require Import Strings.Byte.
From stdpp Require Import base list.

Local Open Scope Z_scope.

(** ** Machine integers and bytes *)

Definition u8 (z : Z) : Z := z mod 256.
Definition u16 (z : Z) : Z := z mod 65536.
Definition u32 (z : Z) : Z := z mod 4294967296.

(** The value of a 32-bit pattern read as [int32_t]. *)
Definition i32 (z : Z) : Z :=
  let u := u32 z in if u <? 2147483648 then u else u - 4294967296.

Definition INT_MAX : Z := 2147483647.
Definition INT_MIN : Z := -2147483648.

Definition in_int (z : Z) : bool := (INT_MIN <=? z) && (z <=? INT_MAX).

Definition byte_val (b : byte) : Z := Z.of_N (Byte.to_N b).

(** Conversion of an integer value to [uint8_t]. *)
Definition byte_of (z : Z) : byte :=
  match Byte.of_N (Z.to_N (z mod 256)) with
  | Some b => b
  | None => x00
  end.

(** ** Outcomes *)

Inductive fault : Type :=
| BufferIndex (i : Z)      (* an access to a vector outside [0, size) *)
| TableIndex (i : Z)       (* an index outside a local array *)
| DivisionByZero
| SignedOverflow
| MissingReturn.           (* flowing off the end of a function that returns a value *)

Inductive outcome (A : Type) : Type :=
| Ok (a : A)
| Undefined (f : fault)
| Diverges.

Arguments Ok {A} a.
Arguments Undefined {A} f.
Arguments Diverges {A}.

Definition bind {A B : Type} (m : outcome A) (k : A -> outcome B) : outcome B :=
  match m with
  | Ok a => k a
  | Undefined f => Undefined f
  | Diverges => Diverges
  end.

Notation "'let*' x ':=' m 'in' k" := (bind m (fun x => k))
  (at level 10, x name, m at level 100, k at level 200, only parsing).

(** ** Vector element access *)

Definition load (d : list byte) (i : Z) : outcome Z :=
  if i <? 0 then Undefined (BufferIndex i)
  else match d !! Z.to_nat i with
       | Some v => Ok (byte_val v)
       | None => Undefined (BufferIndex i)
       end.

(** [store d i v] is the assignment [d[i] = v] of an integer value to a
    [uint8_t] element: the value is reduced modulo 256. *)
Definition store (d : list byte) (i : Z) (v : Z) : outcome (list byte) :=
  if i <? 0 then Undefined (BufferIndex i)
  else if i <? Z.of_nat (length d) then Ok (<[Z.to_nat i := byte_of v]> d)
  else Undefined (BufferIndex i).

(** Reading a local array of the program. *)
Definition table (t : list Z) (i : Z) : outcome Z :=
  if i <? 0 then Undefined (TableIndex i)
  else match t !! Z.to_nat i with
       | Some v => Ok v
       | None => Undefined (TableIndex i)
       end.

(** ** Loops

    [for_loop fuel bound next body i s] runs
    [for (c = i; c < bound; c = next c) body], the counter being compared as
    an [int].  A counter of an unsigned [w]-bit type takes at most [2^w]
    values and the exit test looks at the counter only, so a loop that has
    not left after [2^w + 1] tests never leaves; a counter of type [int] that
    grows to [bound] leaves after at most [bound - i + 1] tests.  The callers
    pass these numbers as [fuel]; running out of it is [Diverges]. *)

Fixpoint for_loop {S : Type} (fuel : nat) (bound : Z) (next : Z -> Z)
    (body : Z -> S -> outcome S) (i : Z) (s : S) : outcome S :=
  match fuel with
  | O => Diverges
  | Datatypes.S fuel' =>
      if i <? bound
      then let* s' := body i s in for_loop fuel' bound next body (next i) s'
      else Ok s
  end.

(** [for (int c = from; c < bound; c += step)]. *)
Definition for_int {S : Type} (from bound step : Z)
    (body : Z -> S -> outcome S) (s : S) : outcome S :=
  for_loop (Datatypes.S (Z.to_nat (bound - from))) bound (fun c => c + step) body from s.

(** [for (uint8_t c = 0; c < bound; c += step)]. *)
Definition for_u8 {S : Type} (bound step : Z)
    (body : Z -> S -> outcome S) (s : S) : outcome S :=
  for_loop (Z.to_nat 257) bound (fun c => u8 (c + step)) body 0 s.

(** [for (uint16_t c = 0; c < bound; c += step)]. *)
Definition for_u16 {S : Type} (bound step : Z)
    (body : Z -> S -> outcome S) (s : S) : outcome S :=
  for_loop (Z.to_nat 65537) bound (fun c => u16 (c + step)) body 0 s.

(** ** The headers ([bitmap.h])

    The three structs are packed ([#pragma pack(push, 1)]): 14, 40 and 84
    bytes. *)

Record BMPFileHeader : Type := {
  file_type : Z;      (* uint16_t, always 0x4D42 *)
  file_size : Z;      (* uint32_t *)
  reserved1 : Z;      (* uint16_t *)
  reserved2 : Z;      (* uint16_t *)
  offset_data : Z     (* uint32_t *)
}.

Record BMPInfoHeader : Type := {
  size : Z;                 (* uint32_t *)
  width : Z;                (* int32_t *)
  height : Z;               (* int32_t *)
  planes : Z;               (* uint16_t *)
  bit_count : Z;            (* uint16_t *)
  compression : Z;          (* uint32_t *)
  size_image : Z;           (* uint32_t *)
  x_pixels_per_meter : Z;   (* int32_t *)
  y_pixels_per_meter : Z;   (* int32_t *)
  colors_used : Z;          (* uint32_t *)
  colors_important : Z      (* uint32_t *)
}.

Record BMPColorHeader : Type := {
  red_mask : Z;
  green_mask : Z;
  blue_mask : Z;
  alpha_mask : Z;
  color_space_type : Z;
  unused : list Z           (* uint32_t unused[16] *)
}.

Record Bitmap : Type := {
  row_stride : Z;           (* uint32_t *)
  imageType : Z;            (* uint16_t *)
  file_header : BMPFileHeader;
  bmp_info_header : BMPInfoHeader;
  bmp_color_header : BMPColorHeader;
  data : list byte
}.

Definition sizeof_BMPFileHeader : Z := 14.
Definition sizeof_BMPInfoHeader : Z := 40.
Definition sizeof_BMPColorHeader : Z := 84.

(** The member initialisers of the structs and [Bitmap()]. *)
Definition BMPFileHeader_init : BMPFileHeader :=
  {| file_type := 0; file_size := 0; reserved1 := 0; reserved2 := 0; offset_data := 0 |}.

Definition BMPInfoHeader_init : BMPInfoHeader :=
  {| size := 0; width := 0; height := 0; planes := 0; bit_count := 0;
     compression := 0; size_image := 0; x_pixels_per_meter := 0;
     y_pixels_per_meter := 0; colors_used := 0; colors_important := 0 |}.

Definition BMPColorHeader_init : BMPColorHeader :=
  {| red_mask := 0x00ff0000; green_mask := 0x0000ff00; blue_mask := 0x000000ff;
     alpha_mask := 0xff000000; color_space_type := 0x73524742;
     unused := replicate 16 0 |}.

Definition Bitmap_init : Bitmap :=
  {| row_stride := 0; imageType := 0; file_header := BMPFileHeader_init;
     bmp_info_header := BMPInfoHeader_init;
     bmp_color_header := BMPColorHeader_init; data := [] |}.

(** Field updates. *)
Definition set_data (b : Bitmap) (d : list byte) : Bitmap :=
  {| row_stride := row_stride b; imageType := imageType b;
     file_header := file_header b; bmp_info_header := bmp_info_header b;
     bmp_color_header := bmp_color_header b; data := d |}.

Definition set_row_stride (b : Bitmap) (r : Z) : Bitmap :=
  {| row_stride := r; imageType := imageType b;
     file_header := file_header b; bmp_info_header := bmp_info_header b;
     bmp_color_header := bmp_color_header b; data := data b |}.

Definition set_imageType (b : Bitmap) (t : Z) : Bitmap :=
  {| row_stride := row_stride b; imageType := t;
     file_header := file_header b; bmp_info_header := bmp_info_header b;
     bmp_color_header := bmp_color_header b; data := data b |}.

Definition set_file_header (b : Bitmap) (h : BMPFileHeader) : Bitmap :=
  {| row_stride := row_stride b; imageType := imageType b;
     file_header := h; bmp_info_header := bmp_info_header b;
     bmp_color_header := bmp_color_header b; data := data b |}.

Definition set_info_header (b : Bitmap) (h : BMPInfoHeader) : Bitmap :=
  {| row_stride := row_stride b; imageType := imageType b;
     file_header := file_header b; bmp_info_header := h;
     bmp_color_header := bmp_color_header b; data := data b |}.

Definition set_color_header (b : Bitmap) (h : BMPColorHeader) : Bitmap :=
  {| row_stride := row_stride b; imageType := imageType b;
     file_header := file_header b; bmp_info_header := bmp_info_header b;
     bmp_color_header := h; data := data b |}.

Definition set_file_size (h : BMPFileHeader) (v : Z) : BMPFileHeader :=
  {| file_type := file_type h; file_size := v; reserved1 := reserved1 h;
     reserved2 := reserved2 h; offset_data := offset_data h |}.

Definition set_offset_data (h : BMPFileHeader) (v : Z) : BMPFileHeader :=
  {| file_type := file_type h; file_size := file_size h; reserved1 := reserved1 h;
     reserved2 := reserved2 h; offset_data := v |}.

Definition set_size (h : BMPInfoHeader) (v : Z) : BMPInfoHeader :=
  {| size := v; width := width h; height := height h; planes := planes h;
     bit_count := bit_count h; compression := compression h;
     size_image := size_image h; x_pixels_per_meter := x_pixels_per_meter h;
     y_pixels_per_meter := y_pixels_per_meter h; colors_used := colors_used h;
     colors_important := colors_important h |}.

Definition set_width (h : BMPInfoHeader) (v : Z) : BMPInfoHeader :=
  {| size := size h; width := v; height := height h; planes := planes h;
     bit_count := bit_count h; compression := compression h;
     size_image := size_image h; x_pixels_per_meter := x_pixels_per_meter h;
     y_pixels_per_meter := y_pixels_per_meter h; colors_used := colors_used h;
     colors_important := colors_important h |}.

Definition set_height (h : BMPInfoHeader) (v : Z) : BMPInfoHeader :=
  {| size := size h; width := width h; height := v; planes := planes h;
     bit_count := bit_count h; compression := compression h;
     size_image := size_image h; x_pixels_per_meter := x_pixels_per_meter h;
     y_pixels_per_meter := y_pixels_per_meter h; colors_used := colors_used h;
     colors_important := colors_important h |}.

(** ** Object representation of the headers (little-endian) *)

Definition le16 (v : Z) : list byte := [byte_of v; byte_of (v / 256)].

Definition le32 (v : Z) : list byte :=
  [byte_of v; byte_of (v / 256); byte_of (v / 65536); byte_of (v / 16777216)].

Definition byte_at (bs : list byte) (i : nat) : Z := byte_val (nth i bs x00).

Definition get16 (bs : list byte) (i : nat) : Z :=
  byte_at bs i + 256 * byte_at bs (i + 1).

Definition get32 (bs : list byte) (i : nat) : Z :=
  byte_at bs i + 256 * byte_at bs (i + 1) + 65536 * byte_at bs (i + 2)
  + 16777216 * byte_at bs (i + 3).

Definition get32s (bs : list byte) (i : nat) : Z := i32 (get32 bs i).

Definition bytes_of_file_header (h : BMPFileHeader) : list byte :=
  le16 (file_type h) ++ le32 (file_size h) ++ le16 (reserved1 h)
  ++ le16 (reserved2 h) ++ le32 (offset_data h).

Definition file_header_of_bytes (bs : list byte) : BMPFileHeader :=
  {| file_type := get16 bs 0; file_size := get32 bs 2; reserved1 := get16 bs 6;
     reserved2 := get16 bs 8; offset_data := get32 bs 10 |}.

Definition bytes_of_info_header (h : BMPInfoHeader) : list byte :=
  le32 (size h) ++ le32 (width h) ++ le32 (height h) ++ le16 (planes h)
  ++ le16 (bit_count h) ++ le32 (compression h) ++ le32 (size_image h)
  ++ le32 (x_pixels_per_meter h) ++ le32 (y_pixels_per_meter h)
  ++ le32 (colors_used h) ++ le32 (colors_important h).

Definition info_header_of_bytes (bs : list byte) : BMPInfoHeader :=
  {| size := get32 bs 0; width := get32s bs 4; height := get32s bs 8;
     planes := get16 bs 12; bit_count := get16 bs 14;
     compression := get32 bs 16; size_image := get32 bs 20;
     x_pixels_per_meter := get32s bs 24; y_pixels_per_meter := get32s bs 28;
     colors_used := get32 bs 32; colors_important := get32 bs 36 |}.

Definition bytes_of_color_header (h : BMPColorHeader) : list byte :=
  le32 (red_mask h) ++ le32 (green_mask h) ++ le32 (blue_mask h)
  ++ le32 (alpha_mask h) ++ le32 (color_space_type h)
  ++ flat_map le32 (unused h).

Definition color_header_of_bytes (bs : list byte) : BMPColorHeader :=
  {| red_mask := get32 bs 0; green_mask := get32 bs 4; blue_mask := get32 bs 8;
     alpha_mask := get32 bs 12; color_space_type := get32 bs 16;
     unused := map (fun k => get32 bs (20 + 4 * k)) (seq 0 16) |}.

(** ** Streams

    An input stream is its content, the get position and the failure state.
    [in.read(p, n)] on a failed stream stores nothing; otherwise it stores the
    bytes that are left, at most [n], and a short count sets the failure
    state.  [seekg] on a stream that has not failed sets the position. *)

Record istream : Type := {
  content : list byte;
  gpos : nat;
  failbit : bool
}.

Definition istream_of (bs : list byte) : istream :=
  {| content := bs; gpos := 0; failbit := false |}.

Definition stream_read (s : istream) (n : nat) : list byte * istream :=
  if failbit s then ([], s)
  else
    let got := take n (drop (gpos s) (content s)) in
    (got, {| content := content s; gpos := (gpos s + length got)%nat;
             failbit := negb (length got =? n)%nat |}).

Definition seekg (s : istream) (off : Z) : istream :=
  if failbit s then s
  else {| content := content s; gpos := Z.to_nat off; failbit := false |}.

(** The destination of a read: the bytes from [off] on are overwritten by
    the bytes read. *)
Definition overlay (dst : list byte) (off : nat) (got : list byte) : list byte :=
  take off dst ++ got ++ drop (off + length got) dst.

(** An output stream: the bytes written so far and the failure state. *)
Record ostream : Type := {
  written : list byte;
  badbit : bool
}.

Definition ostream_init : ostream := {| written := []; badbit := false |}.

Definition stream_write (o : ostream) (bs : list byte) : ostream :=
  if badbit o then o else {| written := written o ++ bs; badbit := false |}.

(** ** Exceptions and the ways a stream operator ends *)

Inductive exn : Type :=
| runtime_error_format    (* "Error! Not a correct file format" *)
| runtime_error_input     (* "Unable to open the input image file." *)
| runtime_error_depth     (* "The program can treat only 24 or 32 bits per pixel BMP files" *)
| runtime_error_output    (* "Unable to open the output image file." *)
| length_error            (* vector::resize with a size above max_size() *)
| BitmapException (position : Z).

Inductive completion : Type :=
| Returned
| Thrown (e : exn)        (* the exception leaves the function *)
| Swallowed (e : exn)     (* caught by the function's own handler, printed;
                             control then reaches the end of the body *)
| Broken (f : fault)      (* undefined behaviour *)
| Hangs.                  (* a loop that never leaves *)

(** ** [Bitmap::make_stride_aligned]

    [while (new_stride % align_stride != 0) new_stride++] on [uint32_t].  Zero
    is a multiple of every [align_stride], so the loop leaves after fewer than
    [align_stride] increments, wrapped or not; [make_stride_aligned_exits]
    below shows that with [align_stride = 4], the only value the program
    passes, the loop leaves through its test. *)

Fixpoint make_stride_aligned_loop (fuel : nat) (align_stride new_stride : Z) : Z :=
  match fuel with
  | O => new_stride
  | Datatypes.S fuel' =>
      if negb (new_stride mod align_stride =? 0)
      then make_stride_aligned_loop fuel' align_stride (u32 (new_stride + 1))
      else new_stride
  end.

Definition make_stride_aligned (b : Bitmap) (align_stride : Z) : Z :=
  make_stride_aligned_loop (Z.to_nat align_stride) align_stride (row_stride b).

(** ** [operator>>] *)

(** Arithmetic on [int]: a result outside the type is undefined. *)
Definition int_mul (x y : Z) : outcome Z :=
  if in_int (x * y) then Ok (x * y) else Undefined SignedOverflow.

Definition int_add (x y : Z) : outcome Z :=
  if in_int (x + y) then Ok (x + y) else Undefined SignedOverflow.

(** [std::vector::resize] for a size that can be allocated. *)
Definition resize (d : list byte) (n : nat) : list byte :=
  take n d ++ replicate (n - length d) x00.

(** The row loop of [operator>>]: each row is read to [data + row_stride * y],
    the padding to a scratch vector of [pad] bytes. *)
Definition read_rows (b : Bitmap) (pad : Z)
    (st : list byte * istream) : outcome (list byte * istream) :=
  for_int 0 (height (bmp_info_header b)) 1
    (fun y st =>
       let off := u32 (row_stride b * y) in
       if off + row_stride b <=? Z.of_nat (length (fst st)) then
         let r := stream_read (snd st) (Z.to_nat (row_stride b)) in
         let p := stream_read (snd r) (Z.to_nat pad) in
         Ok (overlay (fst st) (Z.to_nat off) (fst r), snd p)
       else Undefined (BufferIndex (off + row_stride b)))
    st.

(** [operator>>] up to the adjustment of the header fields: either the
    call ends there, or it goes on with the bitmap and the stream placed at
    the pixel data. *)
Definition read_headers (inp : istream) (b : Bitmap)
  : (completion * Bitmap * istream) + (Bitmap * istream) :=
  if failbit inp then inl (Thrown runtime_error_input, b, inp) else
  (* in.read(&b.file_header, sizeof(b.file_header)) *)
  let r1 := stream_read inp (Z.to_nat sizeof_BMPFileHeader) in
  let fh := file_header_of_bytes
              (overlay (bytes_of_file_header (file_header b)) 0 (fst r1)) in
  let b := set_file_header b fh in
  if negb (file_type fh =? 0x4D42)
  then inl (Thrown runtime_error_format, b, snd r1) else
  (* in.read(&b.bmp_info_header, sizeof(b.bmp_info_header)) *)
  let r2 := stream_read (snd r1) (Z.to_nat sizeof_BMPInfoHeader) in
  let ih := info_header_of_bytes
              (overlay (bytes_of_info_header (bmp_info_header b)) 0 (fst r2)) in
  let b := set_imageType (set_info_header b ih) (u16 (Z.quot (bit_count ih) 8)) in
  if (bit_count ih =? 32)
     && negb (sizeof_BMPInfoHeader + sizeof_BMPColorHeader <=? size ih)
  then inl (Swallowed (BitmapException 74), b, snd r2) else
  let r3 := if bit_count ih =? 32
            then stream_read (snd r2) (Z.to_nat sizeof_BMPColorHeader)
            else ([], snd r2) in
  let b := if bit_count ih =? 32
           then set_color_header b
                  (color_header_of_bytes
                     (overlay (bytes_of_color_header (bmp_color_header b)) 0 (fst r3)))
           else b in
  (* Jump to the pixel data location *)
  let s := seekg (snd r3) (offset_data fh) in
  (* Adjust the header fields for output. *)
  let hsize := if bit_count ih =? 32
               then sizeof_BMPInfoHeader + sizeof_BMPColorHeader
               else sizeof_BMPInfoHeader in
  let ih := set_size ih hsize in
  let fh := set_offset_data fh (sizeof_BMPFileHeader + hsize) in
  let fh := set_file_size fh (offset_data fh) in
  inr (set_file_header (set_info_header b ih) fh, s).

(** The rest of [operator>>]: the buffer is sized and filled. *)
Definition read_pixels (b : Bitmap) (s : istream) : completion * Bitmap * istream :=
  let ih := bmp_info_header b in
  let fh := file_header b in
  (* b.data.resize(width * 3 * 3 * height * bit_count / 8) *)
  match (let* a := int_mul (width ih) 3 in
         let* a := int_mul a 3 in
         let* a := int_mul a (height ih) in
         int_mul a (bit_count ih)) with
  | Undefined f => (Broken f, b, s)
  | Diverges => (Hangs, b, s)
  | Ok a =>
      let n := Z.quot a 8 in
      if n <? 0 then (Thrown length_error, b, s) else
      let b := set_data b (resize (data b) (Z.to_nat n)) in
      (* Here we check if we need to take into account row padding *)
      if Z.rem (width ih) 4 =? 0 then
        let r := stream_read s (length (data b)) in
        let b := set_data b (overlay (data b) 0 (fst r)) in
        let fh := set_file_size fh
                    (u32 (file_size fh + u32 (Z.of_nat (length (data b))))) in
        (Returned, set_file_header b fh, snd r)
      else
        match int_mul (width ih) (bit_count ih) with
        | Undefined f => (Broken f, b, s)
        | Diverges => (Hangs, b, s)
        | Ok wb =>
            let b := set_row_stride b (u32 (Z.quot wb 8)) in
            let new_stride := make_stride_aligned b 4 in
            let pad := u32 (new_stride - row_stride b) in
            match read_rows b pad (data b, s) with
            | Undefined f => (Broken f, b, s)
            | Diverges => (Hangs, b, s)
            | Ok st =>
                let b := set_data b (fst st) in
                let fh := set_file_size fh
                            (u32 (file_size fh
                                  + u32 (u32 (Z.of_nat (length (data b)))
                                         + u32 (height ih * pad)))) in
                (Returned, set_file_header b fh, snd st)
            end
        end
  end.

Definition operator_extract (inp : istream) (b : Bitmap)
  : completion * Bitmap * istream :=
  match read_headers inp b with
  | inl ended => ended
  | inr (b, s) => read_pixels b s
  end.

(** ** [operator<<]

    The function returns [std::ostream&], but its body has no [return]
    statement: every path that does not throw reaches the closing brace, which
    is undefined behaviour ([MissingReturn]).  The stream given with that
    outcome holds the bytes written up to there. *)

Definition write_headers (b : Bitmap) (out : ostream) : ostream :=
  let o := stream_write out (bytes_of_file_header (file_header b)) in
  let o := stream_write o (bytes_of_info_header (bmp_info_header b)) in
  if bit_count (bmp_info_header b) =? 32
  then stream_write o (bytes_of_color_header (bmp_color_header b))
  else o.

Definition write_headers_and_data (b : Bitmap) (out : ostream) : ostream :=
  stream_write (write_headers b out) (data b).

(** [out.write(row, n)] from the vector: the [n] bytes from [off]. *)
Definition slice (d : list byte) (off n : Z) : outcome (list byte) :=
  if (0 <=? off) && (0 <=? n) && (off + n <=? Z.of_nat (length d))
  then Ok (take (Z.to_nat n) (drop (Z.to_nat off) d))
  else Undefined (BufferIndex (off + n)).

Definition write_rows (b : Bitmap) (pad : Z) (out : ostream) : outcome ostream :=
  for_int 0 (height (bmp_info_header b)) 1
    (fun y o =>
       let* row := slice (data b) (u32 (row_stride b * y)) (row_stride b) in
       Ok (stream_write (stream_write o row) (replicate (Z.to_nat pad) x00)))
    out.

Definition operator_insert (out : ostream) (b : Bitmap) : completion * ostream :=
  if badbit out then (Thrown runtime_error_output, out) else
  if bit_count (bmp_info_header b) =? 32 then
    (Broken MissingReturn, write_headers_and_data b out)
  else if bit_count (bmp_info_header b) =? 24 then
    if Z.rem (width (bmp_info_header b)) 4 =? 0 then
      (Broken MissingReturn, write_headers_and_data b out)
    else
      let new_stride := make_stride_aligned b 4 in
      let pad := u32 (new_stride - row_stride b) in
      match write_rows b pad (write_headers b out) with
      | Ok o => (Broken MissingReturn, o)
      | Undefined f => (Broken f, write_headers b out)
      | Diverges => (Hangs, write_headers b out)
      end
  else (Thrown runtime_error_depth, out).

(** ** The filters

    Every filter addresses the buffer through [&b.data[0] + row_stride * y]
    (a [uint32_t] product) and an [int] or [uint32_t] offset inside the
    row.  The [uint16_t] field [imageType] is promoted to [int] in arithmetic,
    so [x * b.imageType] with an [int] (or [uint16_t]) [x] is a product of
    [int]s, undefined when it overflows ([int_mul]); with a [uint32_t] operand
    the product wraps ([u32]).  Each filter returns the bitmap with the new
    buffer; the headers are fields the filter itself assigns, if it does. *)

Section Filters.

Variable b : Bitmap.

Let w : Z := width (bmp_info_header b).
Let h : Z := height (bmp_info_header b).
Let bpp : Z := imageType b.
Let rs : Z := row_stride b.

(** *** [nearesetNumber] and [cellShade] *)

Definition nearesetNumber (inValue : Z) : Z :=
  let val := [0; 128; 255] in
  let st :=
    fold_left
      (fun (st : Z * Z) (i : Z) =>
         let vi := nth (Z.to_nat i) val 0 in
         let curMin := u8 (if inValue >? vi then inValue - vi else vi - inValue) in
         if curMin <? fst st then (curMin, i) else st)
      [0; 1; 2] (255, 0) in
  nth (Z.to_nat (snd st)) val 0.

(** The channel loop of one pixel; [pixel] is the pixel's address. *)
Definition cellShade_pixel (pixel : Z) (d : list byte) : outcome (list byte) :=
  for_u8 bpp 1
    (fun ch d =>
       let* v := load d (pixel + ch) in
       store d (pixel + ch) (nearesetNumber v))
    d.

(** [row] is formed from the address of an element of the buffer and is
    never null, so the [BitmapException] of the source is not thrown. *)
Definition cellShade : outcome Bitmap :=
  let* d :=
    for_int 0 h 1
      (fun y d =>
         let row := u32 (rs * y) in
         for_int 0 w 1
           (fun x d =>
              let* off := int_mul x bpp in
              cellShade_pixel (row + off) d)
           d)
      (data b) in
  Ok (set_data b d).

(** *** [grayscale] *)

Definition grayscale_pixel (pixel : Z) (d : list byte) : outcome (list byte) :=
  let* p0 := load d pixel in
  let* p1 := load d (pixel + 1) in
  let* p2 := load d (pixel + 2) in
  let* gd :=
    if bpp =? 3 then Ok (u16 (Z.quot (p0 + p1 + p2) bpp), d)
    else
      let* p3 := load d (pixel + 3) in
      if bpp =? 0 then Undefined DivisionByZero
      else
        let gray := u16 (Z.quot (p0 + p1 + p2 + p3) bpp) in
        let* d := store d (pixel + 3) gray in
        Ok (gray, d) in
  let* d := store (snd gd) (pixel + 2) (fst gd) in
  let* d := store d (pixel + 1) (u8 (fst gd)) in
  store d pixel (u8 (fst gd)).

Definition grayscale : outcome Bitmap :=
  let* d :=
    for_int 0 h 1
      (fun y d =>
         let row := u32 (rs * y) in
         for_int 0 w 1
           (fun x d =>
              let* off := int_mul x bpp in
              grayscale_pixel (row + off) d)
           d)
      (data b) in
  Ok (set_data b d).

(** *** [pixelate] *)

Definition pixelate_offset : list Z :=
  [-8; -7; -6; -5; -4; -3; -2; -1; 0; 1; 2; 3; 4; 5; 6; 7].

(** The sums of the 16 x 16 block around [(x, y)], read from the copy
    [originalImage = b]; [value] is [uint32_t value[4]]. *)
Definition pixelate_sum (x y : Z) : outcome (Z * Z * Z * Z) :=
  for_int 0 16 1
    (fun oY value =>
       let* offY := table pixelate_offset oY in
       let oRow := u32 (rs * (y + offY)) in
       for_int 0 16 1
         (fun oX (value : Z * Z * Z * Z) =>
            let '(v0, v1, v2, v3) := value in
            let* offX := table pixelate_offset oX in
            let* off := int_mul (x + offX) bpp in
            let otherPixel := oRow + off in
            let* p0 := load (data b) otherPixel in
            let* p1 := load (data b) (otherPixel + 1) in
            let* p2 := load (data b) (otherPixel + 2) in
            if bpp =? 4 then
              let* p3 := load (data b) (otherPixel + 3) in
              Ok (u32 (v0 + p0), u32 (v1 + p1), u32 (v2 + p2), u32 (v3 + p3))
            else Ok (u32 (v0 + p0), u32 (v1 + p1), u32 (v2 + p2), v3))
         value)
    (0, 0, 0, 0).

(** The write-back loop: [oX] runs to 17 over the 16-entry offset table. *)
Definition pixelate_fill (x y : Z) (value : Z * Z * Z * Z) (d : list byte)
  : outcome (list byte) :=
  let '(v0, v1, v2, v3) := value in
  for_int 0 16 1
    (fun oY d =>
       let* offY := table pixelate_offset oY in
       let oRow := u32 (rs * (y + offY)) in
       for_int 0 17 1
         (fun oX d =>
            let* offX := table pixelate_offset oX in
            let* off := int_mul (x + offX) bpp in
            let otherPixel := oRow + off in
            let* d := store d otherPixel v0 in
            let* d := store d (otherPixel + 1) v1 in
            let* d := store d (otherPixel + 2) v2 in
            if bpp =? 4 then store d (otherPixel + 3) v3 else Ok d)
         d)
    d.

Definition pixelate : outcome Bitmap :=
  let* d :=
    for_int 8 (h - 8) 8
      (fun y d =>
         for_int 8 (w - 8) 8
           (fun x d =>
              let* value := pixelate_sum x y in
              let '(v0, v1, v2, v3) := value in
              let v0 := v0 / (16 * 16) in
              let v1 := v1 / (16 * 16) in
              let v2 := v2 / (16 * 16) in
              let v3 := if bpp =? 4 then v3 / (16 * 16) else v3 in
              pixelate_fill x y (v0, v1, v2, v3) d)
           d)
      (data b) in
  Ok (set_data b d).

(** *** [blur] *)

Definition blur_filter : list (list Z) :=
  [[1; 4; 6; 4; 1];
   [4; 16; 24; 16; 4];
   [6; 24; 36; 24; 6];
   [4; 16; 24; 16; 4];
   [1; 4; 6; 4; 1]].

Definition blur_offset : list Z := [-2; -1; 0; 1; 2].

Definition table2 (t : list (list Z)) (i j : Z) : outcome Z :=
  if i <? 0 then Undefined (TableIndex i)
  else match t !! Z.to_nat i with
       | Some r => table r j
       | None => Undefined (TableIndex i)
       end.

(** The weighted sums around [(x, y)], read from the buffer as it is at
    that moment; [filterValue] is [uint16_t filterValue[4]]. *)
Definition blur_sum (x y : Z) (d : list byte) : outcome (list Z) :=
  for_int 0 5 1
    (fun xOff filterValue =>
       for_int 0 5 1
         (fun yOff filterValue =>
            let* oy := table blur_offset yOff in
            let* ox := table blur_offset xOff in
            let yOffset := u32 (y + oy) in
            let xOffset := u32 (x + ox) in
            let row := u32 (rs * yOffset) in
            let otherPixel := row + u32 (xOffset * bpp) in
            let* k := table2 blur_filter yOff xOff in
            let* f0 := table filterValue 0 in
            let* f1 := table filterValue 1 in
            let* f2 := table filterValue 2 in
            let* f3 := table filterValue 3 in
            let* p0 := load d otherPixel in
            let* p1 := load d (otherPixel + 1) in
            let* p2 := load d (otherPixel + 2) in
            if bpp =? 4 then
              let* p3 := load d (otherPixel + 3) in
              Ok [u16 (f0 + p0 * k); u16 (f1 + p1 * k); u16 (f2 + p2 * k);
                  u16 (f3 + p3 * k)]
            else Ok [u16 (f0 + p0 * k); u16 (f1 + p1 * k); u16 (f2 + p2 * k); f3])
         filterValue)
    [0; 0; 0; 0].

(** [filterValue[ch] = filterValue[ch] / 255.0; pixel[ch] = filterValue[ch]].
    The division is one of two integers below [2^16] in [double], converted
    back to [uint16_t]: the exact quotient is either an integer or at least
    [1/255] away from one, so the truncated result is the integer quotient. *)
Definition blur_pixel (x y : Z) (d : list byte) : outcome (list byte) :=
  let* off := int_mul x bpp in
  let pixel := u32 (rs * y) + off in
  let* filterValue := blur_sum x y d in
  for_u8 bpp 1
    (fun ch d =>
       let* v := table filterValue ch in
       store d (pixel + ch) (u16 (v / 255)))
    d.

Definition blur : outcome Bitmap :=
  let* d :=
    for_int 2 (h - 3) 1
      (fun y d => for_int 2 (w - 3) 1 (fun x d => blur_pixel x y d) d)
      (data b) in
  Ok (set_data b d).

(** *** [flipv] and [fliph]: the source is the copy [original = b]

    The bound [b.bmp_info_header.width * b.imageType] of the column loop is a
    product of [int]s, the same at every test of the loop. *)

Definition copy_pixel (src dst : Z) (d : list byte) : outcome (list byte) :=
  let* v := load (data b) src in
  let* d := store d dst v in
  let* v := load (data b) (src + 1) in
  let* d := store d (dst + 1) v in
  let* v := load (data b) (src + 2) in
  let* d := store d (dst + 2) v in
  if bpp =? 4 then
    let* v := load (data b) (src + 3) in
    store d (dst + 3) v
  else Ok d.

Definition flipv : outcome Bitmap :=
  let* d :=
    for_u16 h 1
      (fun y d =>
         let originalPixel := u32 (rs * y) in
         let pixel := u32 (rs * u32 ((h - 1) - y)) in
         let* bound := int_mul w bpp in
         for_u16 bound bpp
           (fun x d => copy_pixel (originalPixel + x) (pixel + x) d) d)
      (data b) in
  Ok (set_data b d).

Definition fliph : outcome Bitmap :=
  let* d :=
    for_u16 h 1
      (fun y d =>
         let pixel := u32 (rs * y) in
         let originalPixel := u32 (rs * y) in
         let* bound := int_mul w bpp in
         for_u16 bound bpp
           (fun x d =>
              let* last := int_mul (w - 1) bpp in
              let offset := u16 (last - x) in
              copy_pixel (originalPixel + offset) (pixel + x) d) d)
      (data b) in
  Ok (set_data b d).

End Filters.

(** *** [scaleUp] and [scaleDown]

    Both assign the new width, stride and height first, in [int] arithmetic
    on the [int32_t] fields, and then fill the buffer of [b], which keeps its
    size, from the copy [original]. *)

Definition scaleUp_header (b : Bitmap) : outcome Bitmap :=
  let ih := bmp_info_header b in
  let* w2 := int_mul (width ih) 2 in
  let ih := set_width ih w2 in
  let* w4 := int_add (width ih) (Z.rem (width ih) 4) in
  let ih := set_width ih w4 in
  let* wb := int_mul (width ih) (bit_count ih) in
  let b := set_row_stride (set_info_header b ih) (u32 (Z.quot wb 8)) in
  let* h2 := int_mul (height ih) 2 in
  Ok (set_info_header b (set_height ih h2)).

(** One source pixel written to a destination pixel; [idx k] is the index
    expression [(c * b.imageType) + k] of the destination, an unsigned one in
    [scaleUp] (where [c] is [uint32_t]) and an [int] in [scaleDown]. *)
Definition scale_copy (original : Bitmap) (bpp : Z) (src dst : Z) (x : Z)
    (idx : Z -> Z) (d : list byte) : outcome (list byte) :=
  let* v := load (data original) (src + (x * bpp + 0)) in
  let* d := store d (dst + idx 0) v in
  let* v := load (data original) (src + (x * bpp + 1)) in
  let* d := store d (dst + idx 1) v in
  let* v := load (data original) (src + (x * bpp + 2)) in
  let* d := store d (dst + idx 2) v in
  if bpp =? 4 then
    let* v := load (data original) (src + (x * bpp + 3)) in
    store d (dst + idx 3) v
  else Ok d.

Definition scale_zero (bpp : Z) (dst : Z) (idx : Z -> Z) (d : list byte)
  : outcome (list byte) :=
  let* d := store d (dst + idx 0) 0 in
  let* d := store d (dst + idx 1) 0 in
  let* d := store d (dst + idx 2) 0 in
  if bpp =? 4 then store d (dst + idx 3) 0 else Ok d.

Definition scaleUp (b0 : Bitmap) : outcome Bitmap :=
  let original := b0 in
  let* b := scaleUp_header b0 in
  let bpp := imageType b in
  let wd := width (bmp_info_header b) in
  let* st :=
    for_u16 (height (bmp_info_header original)) 1
      (fun y (st : list byte * Z) =>
         let originalPixel := u32 (row_stride original * y) in
         for_u16 2 1
           (fun rCount (st : list byte * Z) =>
              let r := snd st in
              let pixel := u32 (row_stride b * r) in
              (* the column loops; the state is the buffer and [c] *)
              let* dc :=
                for_u16 wd 1
                  (fun x (dc : list byte * Z) =>
                     for_u16 2 1
                       (fun cCount (dc : list byte * Z) =>
                          let c := snd dc in
                          let* d := scale_copy original bpp originalPixel pixel
                                      x (fun k => u32 (u32 (c * bpp) + k))
                                      (fst dc) in
                          Ok (d, u32 (c + 1)))
                       dc)
                  (fst st, 0) in
              let r := u32 (r + 1) in
              (* while (c < width), [c] and the width compared as unsigned *)
              let* d :=
                for_loop (Datatypes.S (Z.to_nat (u32 wd - snd dc))) (u32 wd)
                  (fun c => u32 (c + 1))
                  (fun c d =>
                     scale_zero bpp pixel (fun k => u32 (u32 (c * bpp) + k)) d)
                  (snd dc) (fst dc) in
              Ok (d, r))
           st)
      (data b, 0) in
  Ok (set_data b (fst st)).

Definition scaleDown_header (b : Bitmap) : outcome Bitmap :=
  let ih := bmp_info_header b in
  let ih := set_width ih (Z.quot (width ih) 2) in
  let* w4 := int_add (width ih) (Z.rem (width ih) 4) in
  let ih := set_width ih w4 in
  let* wb := int_mul (width ih) (bit_count ih) in
  let b := set_row_stride (set_info_header b ih) (u32 (Z.quot wb 8)) in
  Ok (set_info_header b (set_height ih (Z.quot (height ih) 2))).

(** The column loop of [scaleDown] with its [break]: the state is the buffer
    and the [uint16_t] column [c]. *)
Fixpoint scaleDown_columns (fuel : nat) (original b : Bitmap) (src dst : Z)
    (x : Z) (dc : list byte * Z) : outcome (list byte * Z) :=
  match fuel with
  | O => Diverges
  | Datatypes.S fuel' =>
      if x <? width (bmp_info_header original) then
        if row_stride b <=? snd dc then Ok dc                       (* break *)
        else if Z.rem x 2 =? 0 then                                 (* continue *)
          scaleDown_columns fuel' original b src dst (u16 (x + 1)) dc
        else
          let* d := scale_copy original (imageType b) src dst x
                      (fun k => snd dc * imageType b + k) (fst dc) in
          scaleDown_columns fuel' original b src dst (u16 (x + 1))
            (d, u16 (snd dc + 1))
      else Ok dc
  end.

Definition scaleDown (b0 : Bitmap) : outcome Bitmap :=
  let original := b0 in
  let* b := scaleDown_header b0 in
  let bpp := imageType b in
  let* st :=
    for_u16 (height (bmp_info_header original)) 1
      (fun y (st : list byte * Z) =>
         if Z.rem y 2 =? 0 then Ok st
         else
           let r := snd st in
           let pixel := u32 (row_stride b * r) in
           let originalPixel := u32 (row_stride original * y) in
           let* dc := scaleDown_columns (Z.to_nat 65537) original b
                        originalPixel pixel 0 (fst st, 0) in
           (* while (c < width), [c] a uint16_t *)
           let* d :=
             for_loop (Z.to_nat 65537) (width (bmp_info_header b))
               (fun c => u16 (c + 1))
               (fun c d => scale_zero bpp pixel (fun k => c * bpp + k) d)
               (snd dc) (fst dc) in
           Ok (d, u16 (r + 1)))
      (data b, 0) in
  Ok (set_data b (fst st)).

(** * Vocabulary of the statements *)

(** The value of element [i], for stating what a buffer holds. *)
Definition peek (d : list byte) (i : Z) : Z := byte_val (nth (Z.to_nat i) d x00).

(** The geometry the filters rely on: 24 or 32 bits per pixel, and every
    row of [width] pixels that the addressing [row_stride * y + x * imageType]
    reaches lies inside the buffer.  The bound on the buffer is the range of
    the [uint32_t] row addresses; where a filter computes in [int], the
    statements bound what it computes ([rows_fit_int], [fits_counters]). *)
Record valid_geometry (b : Bitmap) : Prop := {
  vg_type : imageType b = 3 \/ imageType b = 4;
  vg_width : 0 <= width (bmp_info_header b);
  vg_height : 0 <= height (bmp_info_header b);
  vg_stride : 0 <= row_stride b;
  vg_rows : forall y, 0 <= y < height (bmp_info_header b) ->
      row_stride b * y + width (bmp_info_header b) * imageType b
      <= Z.of_nat (length (data b));
  vg_size : Z.of_nat (length (data b)) < 4294967296
}.

(** The bitmaps [scaleUp_header] and [scaleDown_header] give when none of
    their [int] results overflows. *)
Definition scaleUp_fields (b : Bitmap) : Bitmap :=
  let ih := bmp_info_header b in
  let ih := set_width ih (width ih * 2) in
  let ih := set_width ih (width ih + Z.rem (width ih) 4) in
  let b := set_row_stride (set_info_header b ih)
             (u32 (Z.quot (width ih * bit_count ih) 8)) in
  set_info_header b (set_height ih (height ih * 2)).

Definition scaleDown_fields (b : Bitmap) : Bitmap :=
  let ih := bmp_info_header b in
  let ih := set_width ih (Z.quot (width ih) 2) in
  let ih := set_width ih (width ih + Z.rem (width ih) 4) in
  let b := set_row_stride (set_info_header b ih)
             (u32 (Z.quot (width ih * bit_count ih) 8)) in
  set_info_header b (set_height ih (Z.quot (height ih) 2)).

(** The bytes of a row of pixels are counted in [int] by [cellShade],
    [grayscale], [flipv] and [fliph] ([x * b.imageType], [width * imageType]);
    [valid_geometry] alone allows rows of up to [2^32] bytes. *)
Definition rows_fit_int (b : Bitmap) : Prop :=
  width (bmp_info_header b) * imageType b <= INT_MAX.

(** Rows either coincide (stride 0, as [operator>>] leaves it when the width
    is a multiple of 4) or do not overlap. *)
Definition stride_ok (b : Bitmap) : Prop :=
  row_stride b = 0 \/ width (bmp_info_header b) * imageType b <= row_stride b.

(** The address of channel [ch] of pixel [(x, y)]. *)
Definition channel_addr (b : Bitmap) (x y ch : Z) : Z :=
  row_stride b * y + x * imageType b + ch.

(** The levels of [cellShade], in the order the program tries them. *)
Definition levels : list Z := [0; 128; 255].

(** [r] is the level closest to [v]; among equally close levels it is the
    first in the order of [levels]. *)
Definition closest_first (v r : Z) : Prop :=
  exists k : nat, levels !! k = Some r
    /\ forall (j : nat) (c : Z), levels !! j = Some c ->
         Z.abs (v - r) < Z.abs (v - c)
         \/ (Z.abs (v - r) = Z.abs (v - c) /\ (k <= j)%nat).

(** The state of the buffer while [cellShade] runs: every element is as it
    was or quantized; the elements of [D] are quantized. *)
Definition cellShade_inv (b : Bitmap) (D : Z -> Prop) (d : list byte) : Prop :=
  length d = length (data b)
  /\ (forall i, 0 <= i ->
        peek d i = peek (data b) i
        \/ peek d i = nearesetNumber (peek (data b) i))
  /\ (forall i, 0 <= i -> D i -> peek d i = nearesetNumber (peek (data b) i)).

(** The average [grayscale] stores for the pixel at address [a] of buffer
    [d]: of B, G, R for 24 bits per pixel, of B, G, R, A otherwise. *)
Definition average (b : Bitmap) (d : list byte) (a : Z) : Z :=
  if imageType b =? 3
  then (peek d a + peek d (a + 1) + peek d (a + 2)) / 3
  else (peek d a + peek d (a + 1) + peek d (a + 2) + peek d (a + 3)) / 4.

(** [a] is the address of a pixel of the image. *)
Definition pixel_slot (b : Bitmap) (a : Z) : Prop :=
  exists x y, 0 <= x < width (bmp_info_header b)
    /\ 0 <= y < height (bmp_info_header b) /\ a = channel_addr b x y 0.

(** The state of the buffer while [grayscale] runs: every pixel is as it was
    or gray; the pixels of [D] are gray. *)
Definition grayscale_inv (b : Bitmap) (D : Z -> Prop) (d : list byte) : Prop :=
  length d = length (data b)
  /\ (forall a, pixel_slot b a ->
        (forall ch, 0 <= ch < imageType b ->
           peek d (a + ch) = peek (data b) (a + ch))
        \/ (forall ch, 0 <= ch < imageType b ->
              peek d (a + ch) = average b (data b) a))
  /\ (forall a, pixel_slot b a -> D a ->
        forall ch, 0 <= ch < imageType b ->
          peek d (a + ch) = average b (data b) a).

(** ** Sample files and bitmaps *)

(** A 24-bit file: the file header, a 40-byte info header and the stored
    bytes. *)
Definition bmp24_stream (w h : Z) (stored : list Z) : list byte :=
  bytes_of_file_header
    {| file_type := 0x4D42; file_size := 54 + Z.of_nat (length stored);
       reserved1 := 0; reserved2 := 0; offset_data := 54 |}
  ++ bytes_of_info_header
       {| size := 40; width := w; height := h; planes := 1; bit_count := 24;
          compression := 0; size_image := 0; x_pixels_per_meter := 0;
          y_pixels_per_meter := 0; colors_used := 0; colors_important := 0 |}
  ++ map byte_of stored.

(** The bitmap [operator>>] leaves in a default-constructed [Bitmap]. *)
Definition decoded (file : list byte) : Bitmap :=
  snd (fst (operator_extract (istream_of file) Bitmap_init)).

(** Two rows of two pixels, each row padded to 8 bytes in the file. *)
Definition stream_2x2 : list byte :=
  Eval vm_compute in
    bmp24_stream 2 2 [10; 20; 30; 64; 65; 192; 0; 0;
                      70; 80; 90; 100; 110; 120; 0; 0].

Definition sample_2x2 : Bitmap := Eval vm_compute in decoded stream_2x2.

(** One pixel, stored as 3 bytes and 1 byte of padding. *)
Definition stream_1x1 : list byte :=
  Eval vm_compute in bmp24_stream 1 1 [10; 20; 30; 0].

Definition sample_1x1 : Bitmap := Eval vm_compute in decoded stream_1x1.

(** One row of 4 pixels, 12 bytes without padding. *)
Definition stream_4x1 : list byte :=
  Eval vm_compute in
    bmp24_stream 4 1 [10; 20; 30; 40; 50; 60; 70; 80; 90; 100; 110; 120].

Definition sample_4x1 : Bitmap := Eval vm_compute in decoded stream_4x1.

(** 6 x 6 white pixels, each row padded from 18 to 20 bytes. *)
Definition stream_6x6 : list byte :=
  Eval vm_compute in bmp24_stream 6 6 (repeat 255 (6 * 20)).

Definition sample_6x6 : Bitmap := Eval vm_compute in decoded stream_6x6.

(** 17 x 17 pixels, each row padded from 51 to 52 bytes. *)
Definition stream_17x17 : list byte :=
  Eval vm_compute in bmp24_stream 17 17 (repeat 7 (17 * 52)).

Definition sample_17x17 : Bitmap := Eval vm_compute in decoded stream_17x17.

(** ** Frame of the in-place filters *)

(** Everything of a bitmap but the bytes of its buffer. *)
Definition same_metadata (b b' : Bitmap) : Prop :=
  file_header b' = file_header b
  /\ bmp_info_header b' = bmp_info_header b
  /\ bmp_color_header b' = bmp_color_header b
  /\ row_stride b' = row_stride b
  /\ imageType b' = imageType b
  /\ length (data b') = length (data b).

(** ** The convolution of the blur, as the specification states it *)

(** The weighted sum of channel [ch] over the 5 x 5 neighbourhood of
    [(x, y)] in buffer [d]. *)
Definition kernel_sum (b : Bitmap) (d : list byte) (x y ch : Z) : Z :=
  fold_right Z.add 0
    (flat_map
       (fun i => map
          (fun j => nth (Z.to_nat j) (nth (Z.to_nat i) blur_filter []) 0
                    * peek d (channel_addr b (x + j - 2) (y + i - 2) ch))
          [0; 1; 2; 3; 4])
       [0; 1; 2; 3; 4]).

(** ** The flips

    The state of the buffer while a flip runs.  [sx] and [sy] give the source
    pixel of a destination pixel, [P] holds of the destination pixels already
    written: those hold the bytes of their source in the original buffer, and
    a byte outside them is as it was. *)
Definition flip_inv (b : Bitmap) (sx sy : Z -> Z) (P : Z -> Z -> Prop)
    (d : list byte) : Prop :=
  length d = length (data b)
  /\ (forall x y ch,
        0 <= x < width (bmp_info_header b) ->
        0 <= y < height (bmp_info_header b) ->
        0 <= ch < imageType b -> P x y ->
        peek d (channel_addr b x y ch)
        = peek (data b) (channel_addr b (sx x) (sy y) ch))
  /\ (forall i, 0 <= i ->
        (exists x y ch,
           0 <= x < width (bmp_info_header b)
           /\ 0 <= y < height (bmp_info_header b)
           /\ 0 <= ch < imageType b /\ P x y /\ i = channel_addr b x y ch)
        \/ peek d i = peek (data b) i).

(** The dimensions the [uint16_t] counters of [flipv] and [fliph] can
    count to. *)
Definition fits_counters (b : Bitmap) : Prop :=
  height (bmp_info_header b) <= 65535
  /\ width (bmp_info_header b) * imageType b <= 65535.

(** A black image of 21846 x 2 pixels, 24 bits per pixel, as [operator>>]
    lays it out: rows of 65538 bytes in a buffer of
    [21846 * 9 * 2 * 24 / 8] bytes. *)
Definition sample_wide : Bitmap :=
  {| row_stride := 65538; imageType := 3;
     file_header :=
       {| file_type := 0x4D42; file_size := 54 + 1179684 + 2 * 2;
          reserved1 := 0; reserved2 := 0; offset_data := 54 |};
     bmp_info_header :=
       {| size := 40; width := 21846; height := 2; planes := 1; bit_count := 24;
          compression := 0; size_image := 0; x_pixels_per_meter := 0;
          y_pixels_per_meter := 0; colors_used := 0; colors_important := 0 |};
     bmp_color_header := BMPColorHeader_init;
     data := replicate (Z.to_nat 1179684) x00 |}.

(** ** The round trip through the codec *)

(** The headers a file stores in its first 54 bytes. *)
Definition stored_file_header (file : list byte) : BMPFileHeader :=
  file_header_of_bytes (take 14 file).

Definition stored_info_header (file : list byte) : BMPInfoHeader :=
  info_header_of_bytes (take 40 (drop 14 file)).

Definition stored_color_header (file : list byte) : BMPColorHeader :=
  color_header_of_bytes (take 84 (drop 54 file)).

(** What the round trip needs of a well-formed file: the signature, the
    headers in full (with the color header and its declared size for 32 bits
    per pixel), 24 or 32 bits per pixel, a positive width and height, and a
    buffer size [width * 3 * 3 * height * bit_count] that an [int] holds. *)
Record well_formed (file : list byte) : Prop := {
  wf_type : file_type (stored_file_header file) = 0x4D42;
  wf_depth :
    (bit_count (stored_info_header file) = 24 /\ (54 <= length file)%nat)
    \/ (bit_count (stored_info_header file) = 32
        /\ 124 <= size (stored_info_header file)
        /\ (138 <= length file)%nat);
  wf_width : 0 < width (stored_info_header file);
  wf_height : 0 < height (stored_info_header file);
  wf_size :
    width (stored_info_header file) * 3 * 3 * height (stored_info_header file)
    * bit_count (stored_info_header file) <= INT_MAX
}.

(** The fields of each header are in the range of their types. *)
Definition file_header_ok (h : BMPFileHeader) : Prop :=
  0 <= file_type h < 65536 /\ 0 <= file_size h < 4294967296
  /\ 0 <= reserved1 h < 65536 /\ 0 <= reserved2 h < 65536
  /\ 0 <= offset_data h < 4294967296.

Definition info_header_ok (h : BMPInfoHeader) : Prop :=
  0 <= size h < 4294967296
  /\ INT_MIN <= width h <= INT_MAX /\ INT_MIN <= height h <= INT_MAX
  /\ 0 <= planes h < 65536 /\ 0 <= bit_count h < 65536
  /\ 0 <= compression h < 4294967296 /\ 0 <= size_image h < 4294967296
  /\ INT_MIN <= x_pixels_per_meter h <= INT_MAX
  /\ INT_MIN <= y_pixels_per_meter h <= INT_MAX
  /\ 0 <= colors_used h < 4294967296 /\ 0 <= colors_important h < 4294967296.

Definition color_header_ok (h : BMPColorHeader) : Prop :=
  0 <= red_mask h < 4294967296 /\ 0 <= green_mask h < 4294967296
  /\ 0 <= blue_mask h < 4294967296 /\ 0 <= alpha_mask h < 4294967296
  /\ 0 <= color_space_type h < 4294967296
  /\ length (unused h) = 16%nat
  /\ Forall (fun v => 0 <= v < 4294967296) (unused h).

(** The size [operator>>] gives the info header, and the bitmap it has
    built from a default-constructed one when the headers are read and
    adjusted: the state before the buffer is sized. *)
Definition header_size (ih : BMPInfoHeader) : Z :=
  if bit_count ih =? 32
  then sizeof_BMPInfoHeader + sizeof_BMPColorHeader
  else sizeof_BMPInfoHeader.

Definition headers_bitmap (fh : BMPFileHeader) (ih : BMPInfoHeader)
    (ch : BMPColorHeader) : Bitmap :=
  {| row_stride := 0;
     imageType := u16 (Z.quot (bit_count ih) 8);
     file_header :=
       {| file_type := file_type fh;
          file_size := sizeof_BMPFileHeader + header_size ih;
          reserved1 := reserved1 fh; reserved2 := reserved2 fh;
          offset_data := sizeof_BMPFileHeader + header_size ih |};
     bmp_info_header := set_size ih (header_size ih);
     bmp_color_header := if bit_count ih =? 32 then ch else BMPColorHeader_init;
     data := [] |}.

(** The stream for which the [BitmapException] of [operator>>] is thrown:
    32 bits per pixel, a declared header size of 40 and no color header. *)
Definition stream_no_masks : list byte :=
  Eval vm_compute in
    bytes_of_file_header
      {| file_type := 0x4D42; file_size := 58; reserved1 := 0; reserved2 := 0;
         offset_data := 54 |}
    ++ bytes_of_info_header
         {| size := 40; width := 1; height := 1; planes := 1; bit_count := 32;
            compression := 0; size_image := 0; x_pixels_per_meter := 0;
            y_pixels_per_meter := 0; colors_used := 0; colors_important := 0 |}
    ++ map byte_of [10; 20; 30; 255].

(** The conditions on the headers under which the round trip is shown. *)
Record codec_headers (fh : BMPFileHeader) (ih : BMPInfoHeader)
    (ch : BMPColorHeader) : Prop := {
  cd_file : file_header_ok fh;
  cd_info : info_header_ok ih;
  cd_color : color_header_ok ch;
  cd_type : file_type fh = 0x4D42;
  cd_depth : bit_count ih = 24 \/ bit_count ih = 32;
  cd_width : 0 < width ih;
  cd_height : 0 < height ih;
  cd_size : width ih * 3 * 3 * height ih * bit_count ih <= INT_MAX
}.

(** The size of the buffer and the stride of its rows. *)
Definition buffer_size (ih : BMPInfoHeader) : Z :=
  Z.quot (width ih * 3 * 3 * height ih * bit_count ih) 8.

Definition packed_stride (ih : BMPInfoHeader) : Z :=
  u32 (Z.quot (width ih * bit_count ih) 8).

(** The bitmap [operator>>] returns when, from the state [hb] left by the
    header phase, the pixel phase has filled the buffer with [d]. *)
Definition pixels_bitmap (hb : Bitmap) (d : list byte) : Bitmap :=
  let ih := bmp_info_header hb in
  let fh := file_header hb in
  if Z.rem (width ih) 4 =? 0 then
    set_file_header (set_data hb d)
      (set_file_size fh (u32 (file_size fh + u32 (Z.of_nat (length d)))))
  else
    let b := set_row_stride hb (packed_stride ih) in
    let pad := u32 (make_stride_aligned b 4 - row_stride b) in
    set_file_header (set_data b d)
      (set_file_size fh
         (u32 (file_size fh
               + u32 (u32 (Z.of_nat (length d)) + u32 (height ih * pad))))).

(** The rows [k], ..., [k + n - 1] of buffer [d] as [operator<<] writes them:
    [rs] bytes of the row and [pad] zero bytes. *)
Definition file_rows (d : list byte) (rs pad : nat) (k n : nat) : list byte :=
  flat_map (fun y => take rs (drop (rs * y) d) ++ replicate pad x00) (seq k n).

(** The bytes [write_headers] writes. *)
Definition header_bytes (b : Bitmap) : list byte :=
  bytes_of_file_header (file_header b)
  ++ bytes_of_info_header (bmp_info_header b)
  ++ (if bit_count (bmp_info_header b) =? 32
      then bytes_of_color_header (bmp_color_header b) else []).

(** The bytes [operator<<] writes for a bitmap of 24 or 32 bits per pixel. *)
Definition encoded (b : Bitmap) : list byte :=
  header_bytes b
  ++ (if (bit_count (bmp_info_header b) =? 32)
         || (Z.rem (width (bmp_info_header b)) 4 =? 0)
      then data b
      else file_rows (data b) (Z.to_nat (row_stride b))
             (Z.to_nat (u32 (make_stride_aligned b 4 - row_stride b)))
             0 (Z.to_nat (height (bmp_info_header b)))).

(** The headers of a 4000 x 3000 file of 24 bits per pixel; its rows of
    12000 bytes need no padding. *)
Definition headers_4000x3000 : list byte :=
  Eval vm_compute in
    bytes_of_file_header
      {| file_type := 0x4D42; file_size := 36000054; reserved1 := 0;
         reserved2 := 0; offset_data := 54 |}
    ++ bytes_of_info_header
         {| size := 40; width := 4000; height := 3000; planes := 1;
            bit_count := 24; compression := 0; size_image := 0;
            x_pixels_per_meter := 0; y_pixels_per_meter := 0; colors_used := 0;
            colors_important := 0 |}.

Definition stream_4000x3000 : list byte :=
  headers_4000x3000 ++ replicate (Z.to_nat 36000000) x00.


(** ** The footprint of a filter

    [d] has the size of [d0], and every element of [d] is one of [F] or as
    it is in [d0]. *)
Definition kept_outside (F : Z -> Prop) (d0 d : list byte) : Prop :=
  length d = length d0
  /\ forall i, 0 <= i -> F i \/ peek d i = peek d0 i.

(** The addresses of the channels of the pixels of the image. *)
Definition image_bytes (b : Bitmap) (i : Z) : Prop :=
  exists x y ch,
    0 <= x < width (bmp_info_header b)
    /\ 0 <= y < height (bmp_info_header b)
    /\ 0 <= ch < imageType b
    /\ i = channel_addr b x y ch.

(** Two rows of 4 pixels, 12 bytes each without padding. *)
Definition stream_4x2 : list byte :=
  Eval vm_compute in
    bmp24_stream 4 2 [10; 20; 30; 40; 50; 60; 70; 80; 90; 100; 110; 120;
                      1; 2; 3; 4; 5; 6; 7; 8; 9; 10; 11; 12].

(** The addresses of the channels of the pixels [blur] computes: those at
    least 2 away from the first row and column and more than 3 away from the
    end of the rows and columns. *)
Definition blur_interior (b : Bitmap) (i : Z) : Prop :=
  exists x y ch,
    2 <= x < width (bmp_info_header b) - 3
    /\ 2 <= y < height (bmp_info_header b) - 3
    /\ 0 <= ch < imageType b
    /\ i = channel_addr b x y ch.

(** The weights of [blur_filter] in the order in which [blur] adds them up,
    column by column, and the sum of the first [n] of them. *)
Definition blur_weights : list Z :=
  flat_map (fun xOff => map (fun row => nth xOff row 0) blur_filter)
    (seq 0 5).

Definition blur_partial (n : nat) : Z :=
  fold_right Z.add 0 (take n blur_weights).

(** One pixel of 32 bits per pixel: 138 bytes of headers, the color header
    among them, and the 4 bytes of the pixel. *)
Definition stream_1x1_32 : list byte :=
  Eval vm_compute in
    bytes_of_file_header
      {| file_type := 0x4D42; file_size := 142; reserved1 := 0; reserved2 := 0;
         offset_data := 138 |}
    ++ bytes_of_info_header
         {| size := 124; width := 1; height := 1; planes := 1; bit_count := 32;
            compression := 0; size_image := 0; x_pixels_per_meter := 0;
            y_pixels_per_meter := 0; colors_used := 0; colors_important := 0 |}
    ++ bytes_of_color_header BMPColorHeader_init
    ++ map byte_of [10; 20; 30; 255].

(** A [Bitmap] object used twice: the 32-bit pixel is read into it, and then
    the 4 x 2 file of 24 bits per pixel. *)
Definition sample_reused : Bitmap :=
  Eval vm_compute in
    snd (fst (operator_extract (istream_of stream_4x2) (decoded stream_1x1_32))).
(** * Properties *)

(** ** Bytes *)

Lemma byte_val_range (x : byte) : 0 <= byte_val x < 256.
Proof.
  unfold byte_val. pose proof (Byte.to_N_bounded x). lia.
Qed.

Lemma byte_of_val (x : byte) : byte_of (byte_val x) = x.
Proof.
  unfold byte_of. rewrite Z.mod_small by apply byte_val_range.
  unfold byte_val. rewrite N2Z.id, Byte.of_to_N. reflexivity.
Qed.

Lemma byte_val_of (z : Z) : byte_val (byte_of z) = z mod 256.
Proof.
  unfold byte_of, byte_val.
  assert (Hr : 0 <= z mod 256 < 256) by (apply Z.mod_pos_bound; lia).
  destruct (Byte.of_N (Z.to_N (z mod 256))) as [x|] eqn:E.
  - apply Byte.to_of_N in E. rewrite E. lia.
  - apply Byte.of_N_None_iff in E. lia.
Qed.

Lemma byte_val_inj (x y : byte) : byte_val x = byte_val y -> x = y.
Proof.
  intros H. rewrite <- (byte_of_val x), <- (byte_of_val y), H. reflexivity.
Qed.

(** ** Element access *)

Lemma peek_range d i : 0 <= peek d i < 256.
Proof. apply byte_val_range. Qed.

Lemma load_in_range d i :
  0 <= i < Z.of_nat (length d) -> load d i = Ok (peek d i).
Proof.
  intros Hi. unfold load, peek.
  destruct (Z.ltb_spec i 0); [lia|].
  destruct (d !! Z.to_nat i) as [v|] eqn:E.
  - rewrite (nth_lookup_Some _ _ _ _ E). reflexivity.
  - apply lookup_ge_None in E. lia.
Qed.

Lemma load_Ok d i v : load d i = Ok v -> 0 <= i < Z.of_nat (length d) /\ v = peek d i.
Proof.
  unfold load. destruct (Z.ltb_spec i 0); [discriminate|].
  destruct (d !! Z.to_nat i) as [x|] eqn:E; [|discriminate].
  intros [= <-]. split.
  - apply lookup_lt_Some in E. lia.
  - unfold peek. rewrite (nth_lookup_Some _ _ _ _ E). reflexivity.
Qed.

Lemma store_in_range d i v :
  0 <= i < Z.of_nat (length d) ->
  store d i v = Ok (<[Z.to_nat i := byte_of v]> d).
Proof.
  intros Hi. unfold store.
  destruct (Z.ltb_spec i 0); [lia|].
  destruct (Z.ltb_spec i (Z.of_nat (length d))); [reflexivity|lia].
Qed.

Lemma store_Ok d i v d' :
  store d i v = Ok d' ->
  0 <= i < Z.of_nat (length d) /\ d' = <[Z.to_nat i := byte_of v]> d.
Proof.
  unfold store. destruct (Z.ltb_spec i 0); [discriminate|].
  destruct (Z.ltb_spec i (Z.of_nat (length d))); [|discriminate].
  intros [= <-]. split; [lia|reflexivity].
Qed.

Lemma store_length d i v d' : store d i v = Ok d' -> length d' = length d.
Proof.
  intros H. apply store_Ok in H as [_ ->]. apply length_insert.
Qed.

Lemma peek_insert_eq d i v :
  0 <= i < Z.of_nat (length d) ->
  peek (<[Z.to_nat i := byte_of v]> d) i = v mod 256.
Proof.
  intros Hi. unfold peek.
  rewrite (nth_lookup_Some _ _ _ (byte_of v)).
  - apply byte_val_of.
  - apply list_lookup_insert_eq. lia.
Qed.

Lemma peek_insert_ne d i j v :
  0 <= i -> 0 <= j -> i <> j ->
  peek (<[Z.to_nat i := byte_of v]> d) j = peek d j.
Proof.
  intros Hi Hj Hne. unfold peek.
  assert (Hn : Z.to_nat i <> Z.to_nat j) by lia.
  destruct (d !! Z.to_nat j) as [x|] eqn:E.
  - rewrite (nth_lookup_Some _ _ _ x); [|by rewrite list_lookup_insert_ne].
    rewrite (nth_lookup_Some _ _ _ x E). reflexivity.
  - rewrite !nth_overflow; [reflexivity| |].
    + apply lookup_ge_None in E. lia.
    + rewrite length_insert. apply lookup_ge_None in E. lia.
Qed.

Lemma peek_ext (d1 d2 : list byte) :
  length d1 = length d2 ->
  (forall i, 0 <= i < Z.of_nat (length d1) -> peek d1 i = peek d2 i) ->
  d1 = d2.
Proof.
  intros Hlen Hpt. apply list_eq. intros n.
  destruct (Nat.lt_ge_cases n (length d1)) as [Hn|Hn].
  - destruct (lookup_lt_is_Some_2 d1 n Hn) as [x Hx].
    destruct (lookup_lt_is_Some_2 d2 n ltac:(lia)) as [y Hy].
    rewrite Hx, Hy. f_equal. apply byte_val_inj.
    specialize (Hpt (Z.of_nat n) ltac:(lia)). unfold peek in Hpt.
    rewrite Nat2Z.id in Hpt.
    rewrite (nth_lookup_Some _ _ _ _ Hx), (nth_lookup_Some _ _ _ _ Hy) in Hpt.
    exact Hpt.
  - rewrite (proj2 (lookup_ge_None d1 n)), (proj2 (lookup_ge_None d2 n)) by lia.
    reflexivity.
Qed.

(** What a store does, in terms of [peek]. *)
Lemma store_spec d i v :
  0 <= i < Z.of_nat (length d) ->
  exists d', store d i v = Ok d' /\ length d' = length d
    /\ peek d' i = v mod 256
    /\ (forall j, 0 <= j -> j <> i -> peek d' j = peek d j).
Proof.
  intros Hi. eexists. split; [apply store_in_range; exact Hi|].
  split; [apply length_insert|]. split.
  - apply peek_insert_eq; exact Hi.
  - intros j Hj Hne. apply peek_insert_ne; lia.
Qed.

(** ** Arithmetic on [int] *)

Lemma int_mul_Ok x y r : int_mul x y = Ok r -> r = x * y /\ INT_MIN <= r <= INT_MAX.
Proof.
  unfold int_mul, in_int.
  destruct (Z.leb_spec INT_MIN (x * y)); simpl; [|discriminate].
  destruct (Z.leb_spec (x * y) INT_MAX); simpl; [|discriminate].
  intros [= <-]. lia.
Qed.

Lemma int_mul_in x y : INT_MIN <= x * y <= INT_MAX -> int_mul x y = Ok (x * y).
Proof.
  intros H. unfold int_mul, in_int.
  destruct (Z.leb_spec INT_MIN (x * y)); [|lia].
  destruct (Z.leb_spec (x * y) INT_MAX); [|lia]. reflexivity.
Qed.

Lemma int_mul_out x y :
  ~ INT_MIN <= x * y <= INT_MAX -> int_mul x y = Undefined SignedOverflow.
Proof.
  intros H. unfold int_mul, in_int.
  destruct (Z.leb_spec INT_MIN (x * y)); [|reflexivity].
  destruct (Z.leb_spec (x * y) INT_MAX); [lia|reflexivity].
Qed.

Lemma int_add_in x y : INT_MIN <= x + y <= INT_MAX -> int_add x y = Ok (x + y).
Proof.
  intros H. unfold int_add, in_int.
  destruct (Z.leb_spec INT_MIN (x + y)); [|lia].
  destruct (Z.leb_spec (x + y) INT_MAX); [|lia]. reflexivity.
Qed.

(** The offset of a pixel of a row of at most [INT_MAX] bytes. *)
Lemma int_mul_index x w bpp :
  0 <= x <= w -> 0 <= bpp -> w * bpp <= INT_MAX ->
  int_mul x bpp = Ok (x * bpp).
Proof.
  intros Hx Hb Hw. apply int_mul_in.
  assert (0 <= x * bpp) by (apply Z.mul_nonneg_nonneg; lia).
  assert (x * bpp <= w * bpp) by (apply Z.mul_le_mono_nonneg_r; lia).
  unfold INT_MIN. lia.
Qed.

(** ** Loop rules *)

Section LoopRules.

Context {S : Type}.

(** A loop whose counter takes the values [i], [i + step], ... without
    wrapping leaves after [count] rounds and keeps an invariant indexed by
    the round. *)
Lemma for_loop_steps (count : nat) :
  forall (I : nat -> S -> Prop) fuel bound next (body : Z -> S -> outcome S)
         step i s,
    (forall n, (n < count)%nat ->
       i + Z.of_nat n * step < bound
       /\ next (i + Z.of_nat n * step) = i + (Z.of_nat n + 1) * step) ->
    bound <= i + Z.of_nat count * step ->
    (count < fuel)%nat ->
    I 0%nat s ->
    (forall n s, (n < count)%nat -> I n s ->
       exists s', body (i + Z.of_nat n * step) s = Ok s' /\ I (Datatypes.S n) s') ->
    exists s', for_loop fuel bound next body i s = Ok s' /\ I count s'.
Proof.
  induction count as [|c IH]; intros I fuel bound next body step i s Hcnt Hend Hfuel H0 Hbody.
  - destruct fuel as [|f]; [lia|]. simpl.
    destruct (Z.ltb_spec i bound); [lia|]. eauto.
  - destruct fuel as [|f]; [lia|]. simpl.
    destruct (Hcnt 0%nat ltac:(lia)) as [Hlt Hnext].
    replace (i + Z.of_nat 0 * step) with i in * by lia.
    destruct (Z.ltb_spec i bound); [|lia].
    destruct (Hbody 0%nat s ltac:(lia) H0) as [s1 [Hb1 H1]].
    replace (i + Z.of_nat 0 * step) with i in * by lia.
    rewrite Hb1. simpl.
    replace ((Z.of_nat 0 + 1) * step) with step in Hnext by lia.
    rewrite Hnext.
    apply (IH (fun n => I (Datatypes.S n)) f bound next body step (i + step) s1).
    + intros n Hn. destruct (Hcnt (Datatypes.S n) ltac:(lia)) as [Ha Hb].
      replace (i + step + Z.of_nat n * step)
        with (i + Z.of_nat (Datatypes.S n) * step) by lia.
      split; [exact Ha|]. rewrite Hb. lia.
    + lia.
    + lia.
    + exact H1.
    + intros n s' Hn Hs'.
      destruct (Hbody (Datatypes.S n) s' ltac:(lia) Hs') as [s2 [Hb2 H2]].
      exists s2. split; [|exact H2].
      replace (i + step + Z.of_nat n * step)
        with (i + Z.of_nat (Datatypes.S n) * step) by lia.
      exact Hb2.
Qed.

(** The same for a counter that goes up by one from zero. *)
Lemma for_loop_upto (I : Z -> S -> Prop) fuel bound next
    (body : Z -> S -> outcome S) s :
  0 <= bound ->
  (forall c, 0 <= c < bound -> next c = c + 1) ->
  (Z.to_nat bound < fuel)%nat ->
  I 0 s ->
  (forall c s, 0 <= c < bound -> I c s ->
     exists s', body c s = Ok s' /\ I (c + 1) s') ->
  exists s', for_loop fuel bound next body 0 s = Ok s' /\ I bound s'.
Proof.
  intros Hb Hnext Hfuel H0 Hbody.
  destruct (for_loop_steps (Z.to_nat bound) (fun n => I (Z.of_nat n))
              fuel bound next body 1 0 s) as [s' [Hs' HI]].
  - intros n Hn. split; [lia|]. rewrite Hnext by lia. lia.
  - lia.
  - exact Hfuel.
  - exact H0.
  - intros n s1 Hn Hs1.
    destruct (Hbody (Z.of_nat n) s1 ltac:(lia) Hs1) as [s2 [E H2]].
    exists s2. split.
    + replace (0 + Z.of_nat n * 1) with (Z.of_nat n) by lia. exact E.
    + replace (Z.of_nat (Datatypes.S n)) with (Z.of_nat n + 1) by lia. exact H2.
  - exists s'. split; [exact Hs'|]. rewrite Z2Nat.id in HI by lia. exact HI.
Qed.

Lemma for_int_rule (I : Z -> S -> Prop) bound (body : Z -> S -> outcome S) s :
  0 <= bound ->
  I 0 s ->
  (forall c s, 0 <= c < bound -> I c s ->
     exists s', body c s = Ok s' /\ I (c + 1) s') ->
  exists s', for_int 0 bound 1 body s = Ok s' /\ I bound s'.
Proof.
  intros Hb H0 Hbody. unfold for_int.
  apply (for_loop_upto I); auto.
  replace (bound - 0) with bound by lia. lia.
Qed.

Lemma for_u8_rule (I : Z -> S -> Prop) bound (body : Z -> S -> outcome S) s :
  0 <= bound <= 255 ->
  I 0 s ->
  (forall c s, 0 <= c < bound -> I c s ->
     exists s', body c s = Ok s' /\ I (c + 1) s') ->
  exists s', for_u8 bound 1 body s = Ok s' /\ I bound s'.
Proof.
  intros Hb H0 Hbody. unfold for_u8.
  apply (for_loop_upto I); auto; try lia.
  intros c Hc. unfold u8. apply Z.mod_small. lia.
Qed.

Lemma for_u16_rule (I : Z -> S -> Prop) bound (body : Z -> S -> outcome S) s :
  0 <= bound <= 65535 ->
  I 0 s ->
  (forall c s, 0 <= c < bound -> I c s ->
     exists s', body c s = Ok s' /\ I (c + 1) s') ->
  exists s', for_u16 bound 1 body s = Ok s' /\ I bound s'.
Proof.
  intros Hb H0 Hbody. unfold for_u16.
  apply (for_loop_upto I); auto; try lia.
  intros c Hc. unfold u16. apply Z.mod_small. lia.
Qed.

(** [for (uint16_t x = 0; x < count * step; x += step)]: round [n] runs the
    body at [n * step]. *)
Lemma for_u16_step_rule (I : Z -> S -> Prop) count step
    (body : Z -> S -> outcome S) s :
  0 < step -> 0 <= count -> count * step <= 65535 ->
  I 0 s ->
  (forall n s, 0 <= n < count -> I n s ->
     exists s', body (n * step) s = Ok s' /\ I (n + 1) s') ->
  exists s', for_u16 (count * step) step body s = Ok s' /\ I count s'.
Proof.
  intros Hstep Hcount Hmax H0 Hbody. unfold for_u16.
  destruct (for_loop_steps (Z.to_nat count) (fun n => I (Z.of_nat n))
              (Z.to_nat 65537) (count * step) (fun c => u16 (c + step)) body
              step 0 s) as [s' [Hs' HI]].
  - intros n Hn. split; [nia|].
    unfold u16. rewrite Z.mod_small by nia. lia.
  - lia.
  - nia.
  - exact H0.
  - intros n s1 Hn Hs1.
    destruct (Hbody (Z.of_nat n) s1 ltac:(lia) Hs1) as [s2 [E H2]].
    exists s2. split.
    + replace (0 + Z.of_nat n * step) with (Z.of_nat n * step) by lia. exact E.
    + replace (Z.of_nat (Datatypes.S n)) with (Z.of_nat n + 1) by lia. exact H2.
  - exists s'. split; [exact Hs'|]. rewrite Z2Nat.id in HI by lia. exact HI.
Qed.

(** Whatever the counter does, a property that every completed round keeps
    holds of the state a completed loop returns. *)
Lemma for_loop_preserves (P : S -> Prop) fuel bound next
    (body : Z -> S -> outcome S) :
  (forall c s s', body c s = Ok s' -> P s -> P s') ->
  forall i s s', for_loop fuel bound next body i s = Ok s' -> P s -> P s'.
Proof.
  intros Hbody. induction fuel as [|f IH]; intros i s s' Hrun Hs; simpl in Hrun.
  - discriminate.
  - destruct (i <? bound).
    + destruct (body i s) as [s1| |] eqn:E; simpl in Hrun; try discriminate.
      eapply IH; [exact Hrun|]. eapply Hbody; eauto.
    + injection Hrun as <-. exact Hs.
  Qed.

(** A counter that stays below the bound, with a body that always completes,
    never leaves the loop. *)
Lemma for_loop_diverges (P : S -> Prop) (R : Z -> Prop) fuel bound next
    (body : Z -> S -> outcome S) :
  (forall c, R c -> c < bound /\ R (next c)) ->
  (forall c s, R c -> P s -> exists s', body c s = Ok s' /\ P s') ->
  forall i s, R i -> P s -> for_loop fuel bound next body i s = Diverges.
Proof.
  intros Hstay Hbody. induction fuel as [|f IH]; intros i s Hi Hs; simpl.
  - reflexivity.
  - destruct (Hstay i Hi) as [Hlt Hn].
    destruct (Z.ltb_spec i bound); [|lia].
    destruct (Hbody i s Hi Hs) as [s1 [E H1]]. rewrite E. simpl.
    apply IH; assumption.
Qed.

End LoopRules.

(** ** [nearesetNumber] *)

Lemma nearesetNumber_table :
  forallb (fun v => nearesetNumber v
                    =? (if v <=? 64 then 0 else if v <=? 191 then 128 else 255))
    (map Z.of_nat (seq 0 256)) = true.
Proof. vm_compute. reflexivity. Qed.

Lemma nearesetNumber_cases v :
  0 <= v <= 255 ->
  nearesetNumber v = if v <=? 64 then 0 else if v <=? 191 then 128 else 255.
Proof.
  intros Hv. pose proof nearesetNumber_table as H.
  rewrite forallb_forall in H. apply Z.eqb_eq, H.
  apply in_map_iff. exists (Z.to_nat v). split; [lia|].
  apply in_seq. lia.
Qed.

Lemma nearesetNumber_range v : 0 <= v <= 255 -> 0 <= nearesetNumber v <= 255.
Proof.
  intros Hv. rewrite nearesetNumber_cases by lia.
  destruct (v <=? 64); [lia|]. destruct (v <=? 191); lia.
Qed.

Lemma nearesetNumber_idem v :
  0 <= v <= 255 -> nearesetNumber (nearesetNumber v) = nearesetNumber v.
Proof.
  intros Hv. rewrite (nearesetNumber_cases v) by lia.
  destruct (v <=? 64); [reflexivity|]. destruct (v <=? 191); reflexivity.
Qed.

Lemma nearesetNumber_closest v :
  0 <= v <= 255 -> closest_first v (nearesetNumber v).
Proof.
  intros Hv. rewrite nearesetNumber_cases by lia. unfold closest_first, levels.
  destruct (Z.leb_spec v 64); [|destruct (Z.leb_spec v 191)].
  - exists 0%nat. split; [reflexivity|].
    intros [|[|[|j]]] c Hc; simpl in Hc; try discriminate;
      injection Hc as <-; lia.
  - exists 1%nat. split; [reflexivity|].
    intros [|[|[|j]]] c Hc; simpl in Hc; try discriminate;
      injection Hc as <-; lia.
  - exists 2%nat. split; [reflexivity|].
    intros [|[|[|j]]] c Hc; simpl in Hc; try discriminate;
      injection Hc as <-; lia.
Qed.

(** ** [cellShade] *)

Section CellShade.

Variable b : Bitmap.
Hypothesis Hgeo : valid_geometry b.
Hypothesis Hint : width (bmp_info_header b) * imageType b <= INT_MAX.

Lemma cellShade_inv_weaken (D D' : Z -> Prop) d :
  cellShade_inv b D d -> (forall i, D' i -> D i) -> cellShade_inv b D' d.
Proof.
  intros (Hl & Hall & HD) Hsub. repeat split; auto.
Qed.

Lemma cellShade_channel (D : Z -> Prop) d a :
  cellShade_inv b D d ->
  0 <= a < Z.of_nat (length (data b)) ->
  exists d', (let* v := load d a in store d a (nearesetNumber v)) = Ok d'
    /\ cellShade_inv b (fun i => D i \/ i = a) d'.
Proof.
  intros (Hl & Hall & HD) Ha.
  rewrite load_in_range by (rewrite Hl; exact Ha). simpl.
  destruct (store_spec d a (nearesetNumber (peek d a)) ltac:(rewrite Hl; exact Ha))
    as (d' & Hst & Hl' & Hsame & Hother).
  exists d'. split; [exact Hst|].
  assert (Hnew : peek d' a = nearesetNumber (peek (data b) a)).
  { rewrite Hsame.
    pose proof (peek_range d a) as Hr.
    pose proof (peek_range (data b) a) as Hr0.
    rewrite Z.mod_small by (pose proof (nearesetNumber_range (peek d a)); lia).
    destruct (Hall a ltac:(lia)) as [E|E]; rewrite E; [reflexivity|].
    apply nearesetNumber_idem. lia. }
  repeat split.
  - congruence.
  - intros i Hi. destruct (Z.eq_dec i a) as [->|Hne].
    + right. exact Hnew.
    + rewrite (Hother i Hi Hne). apply Hall. exact Hi.
  - intros i Hi0 [Hi| ->]; [|exact Hnew].
    destruct (Z.eq_dec i a) as [->|Hne]; [exact Hnew|].
    rewrite (Hother i Hi0 Hne). apply HD; assumption.
Qed.

Lemma cellShade_pixel_spec (D : Z -> Prop) d pixel :
  cellShade_inv b D d ->
  0 <= pixel -> pixel + imageType b <= Z.of_nat (length (data b)) ->
  exists d', cellShade_pixel b pixel d = Ok d'
    /\ cellShade_inv b (fun i => D i \/ pixel <= i < pixel + imageType b) d'.
Proof.
  intros Hinv Hp Hend. unfold cellShade_pixel.
  assert (Hbpp : 0 <= imageType b <= 255) by (destruct (vg_type b Hgeo); lia).
  destruct (for_u8_rule
              (fun c d => cellShade_inv b (fun i => D i \/ pixel <= i < pixel + c) d)
              (imageType b)
              (fun ch d => let* v := load d (pixel + ch) in
                           store d (pixel + ch) (nearesetNumber v)) d)
    as (d' & Hrun & Hd'); auto.
  - eapply cellShade_inv_weaken; [exact Hinv|]. intros i [Hi|Hi]; [exact Hi|lia].
  - intros c s Hc Hs.
    destruct (cellShade_channel _ s (pixel + c) Hs ltac:(lia)) as (s' & E & Hs').
    exists s'. split; [exact E|].
    eapply cellShade_inv_weaken; [exact Hs'|].
    intros i [Hi|Hi]; [left; left; exact Hi|].
    destruct (Z.eq_dec i (pixel + c)); [right; assumption|left; right; lia].
  - exists d'. split; assumption.
Qed.

Lemma cellShade_row_spec (D : Z -> Prop) d y :
  cellShade_inv b D d ->
  0 <= y < height (bmp_info_header b) ->
  exists d',
    for_int 0 (width (bmp_info_header b)) 1
      (fun x d =>
         let* off := int_mul x (imageType b) in
         cellShade_pixel b (u32 (row_stride b * y) + off) d) d
    = Ok d'
    /\ cellShade_inv b
         (fun i => D i \/ exists x ch, 0 <= x < width (bmp_info_header b)
                     /\ 0 <= ch < imageType b /\ i = channel_addr b x y ch) d'.
Proof.
  intros Hinv Hy.
  pose proof (vg_rows b Hgeo y Hy) as Hrow.
  pose proof (vg_stride b Hgeo) as Hrs.
  pose proof (vg_size b Hgeo) as Hsz.
  pose proof (vg_width b Hgeo) as Hw.
  assert (Hbpp : 0 < imageType b) by (destruct (vg_type b Hgeo); lia).
  assert (Hu : u32 (row_stride b * y) = row_stride b * y).
  { unfold u32. apply Z.mod_small. nia. }
  rewrite Hu.
  destruct (for_int_rule
              (fun c d => cellShade_inv b
                 (fun i => D i \/ exists x ch, 0 <= x < c
                      /\ 0 <= ch < imageType b /\ i = channel_addr b x y ch) d)
              (width (bmp_info_header b))
              (fun x d =>
                 let* off := int_mul x (imageType b) in
                 cellShade_pixel b (row_stride b * y + off) d) d)
    as (d' & Hrun & Hd'); auto.
  - eapply cellShade_inv_weaken; [exact Hinv|].
    intros i [Hi|(x & ch & Hx & _)]; [exact Hi|lia].
  - intros c s Hc Hs.
    rewrite (int_mul_index c (width (bmp_info_header b))) by lia. cbn [bind].
    destruct (cellShade_pixel_spec _ s (row_stride b * y + c * imageType b) Hs)
      as (s' & E & Hs'); [nia|nia|].
    exists s'. split; [exact E|].
    eapply cellShade_inv_weaken; [exact Hs'|].
    intros i [Hi|(x & ch & Hx & Hch & ->)]; [left; left; exact Hi|].
    destruct (Z.eq_dec x c) as [->|Hne].
    + right. unfold channel_addr. lia.
    + left. right. exists x, ch. repeat split; lia.
  - exists d'. split; assumption.
Qed.

Lemma cellShade_spec :
  exists b', cellShade b = Ok b'
    /\ b' = set_data b (data b')
    /\ cellShade_inv b
         (fun i => exists x y ch, 0 <= x < width (bmp_info_header b)
             /\ 0 <= y < height (bmp_info_header b)
             /\ 0 <= ch < imageType b /\ i = channel_addr b x y ch) (data b').
Proof.
  unfold cellShade.
  destruct (for_int_rule
              (fun c d => cellShade_inv b
                 (fun i => exists x y ch, 0 <= x < width (bmp_info_header b)
                     /\ 0 <= y < c
                     /\ 0 <= ch < imageType b /\ i = channel_addr b x y ch) d)
              (height (bmp_info_header b))
              (fun y d =>
                 for_int 0 (width (bmp_info_header b)) 1
                   (fun x d =>
                      let* off := int_mul x (imageType b) in
                      cellShade_pixel b (u32 (row_stride b * y) + off) d) d)
              (data b))
    as (d' & Hrun & Hd').
  - apply (vg_height b Hgeo).
  - repeat split; auto. intros i _ (x & y & ch & _ & Hy & _). lia.
  - intros c s Hc Hs.
    destruct (cellShade_row_spec _ s c Hs Hc) as (s' & E & Hs').
    exists s'. split; [exact E|].
    eapply cellShade_inv_weaken; [exact Hs'|].
    intros i (x & y & ch & Hx & Hy & Hch & ->).
    destruct (Z.eq_dec y c) as [->|Hne].
    + right. exists x, ch. repeat split; lia.
    + left. exists x, y, ch. repeat split; lia.
  - rewrite Hrun. simpl. eexists. split; [reflexivity|]. split; [reflexivity|].
    exact Hd'.
Qed.

End CellShade.

(** ** Pixel addresses *)

Lemma pixel_slot_bounds b a :
  valid_geometry b -> pixel_slot b a ->
  0 <= a /\ a + imageType b <= Z.of_nat (length (data b)).
Proof.
  intros Hgeo (x & y & Hx & Hy & ->). unfold channel_addr.
  pose proof (vg_rows b Hgeo y Hy). pose proof (vg_stride b Hgeo).
  assert (0 < imageType b) by (destruct (vg_type b Hgeo); lia).
  split; nia.
Qed.

(** Two pixels of the image are the same bytes or disjoint. *)
Lemma pixel_slot_separate b a a' :
  valid_geometry b -> stride_ok b -> pixel_slot b a -> pixel_slot b a' ->
  a = a' \/ a + imageType b <= a' \/ a' + imageType b <= a.
Proof.
  intros Hgeo Hst (x & y & Hx & Hy & ->) (x' & y' & Hx' & Hy' & ->).
  unfold channel_addr.
  assert (0 < imageType b) by (destruct (vg_type b Hgeo); lia).
  destruct Hst as [Hz|Hwide].
  - rewrite Hz.
    destruct (Z.lt_trichotomy x x') as [Hlt|[->|Hgt]]; [right; left; nia|left; lia|right; right; nia].
  - pose proof (vg_stride b Hgeo).
    assert ((x + 1) * imageType b <= width (bmp_info_header b) * imageType b) by nia.
    assert ((x' + 1) * imageType b <= width (bmp_info_header b) * imageType b) by nia.
    assert (0 <= x * imageType b) by nia.
    assert (0 <= x' * imageType b) by nia.
    destruct (Z.lt_trichotomy y y') as [Hlt|[->|Hgt]].
    + right; left.
      assert (row_stride b * y + row_stride b <= row_stride b * y') by nia. lia.
    + destruct (Z.lt_trichotomy x x') as [Hlt|[->|Hgt]]; [right; left; nia|left; lia|right; right; nia].
    + right; right.
      assert (row_stride b * y' + row_stride b <= row_stride b * y) by nia. lia.
Qed.

(** ** [grayscale] *)

Lemma average_range b d a : 0 <= average b d a <= 255.
Proof.
  unfold average.
  pose proof (peek_range d a). pose proof (peek_range d (a + 1)).
  pose proof (peek_range d (a + 2)). pose proof (peek_range d (a + 3)).
  destruct (imageType b =? 3).
  - split; [apply Z.div_pos; lia|]. apply Z.div_le_upper_bound; lia.
  - split; [apply Z.div_pos; lia|]. apply Z.div_le_upper_bound; lia.
Qed.

Lemma average_ext b d d' a :
  (imageType b = 3 \/ imageType b = 4) ->
  (forall ch, 0 <= ch < imageType b -> peek d' (a + ch) = peek d (a + ch)) ->
  average b d' a = average b d a.
Proof.
  intros Hbpp Hsame. unfold average.
  pose proof (Hsame 0) as H0. rewrite Z.add_0_r in H0.
  destruct Hbpp as [E|E]; rewrite E in *; simpl.
  - rewrite H0, (Hsame 1), (Hsame 2) by lia. reflexivity.
  - rewrite H0, (Hsame 1), (Hsame 2), (Hsame 3) by lia. reflexivity.
Qed.

Lemma average_flat b d a g :
  (imageType b = 3 \/ imageType b = 4) ->
  (forall ch, 0 <= ch < imageType b -> peek d (a + ch) = g) ->
  average b d a = g.
Proof.
  intros Hbpp Hflat. unfold average.
  pose proof (Hflat 0) as H0. rewrite Z.add_0_r in H0.
  destruct Hbpp as [E|E]; rewrite E in *; simpl.
  - rewrite H0, (Hflat 1), (Hflat 2) by lia.
    replace (g + g + g) with (g * 3) by lia. apply Z.div_mul. lia.
  - rewrite H0, (Hflat 1), (Hflat 2), (Hflat 3) by lia.
    replace (g + g + g + g) with (g * 4) by lia. apply Z.div_mul. lia.
Qed.

Lemma grayscale_pixel_spec b d a :
  (imageType b = 3 \/ imageType b = 4) ->
  0 <= a -> a + imageType b <= Z.of_nat (length d) ->
  exists d', grayscale_pixel b a d = Ok d'
    /\ length d' = length d
    /\ (forall ch, 0 <= ch < imageType b -> peek d' (a + ch) = average b d a)
    /\ (forall j, 0 <= j -> j < a \/ a + imageType b <= j -> peek d' j = peek d j).
Proof.
  intros Hbpp Ha Hend. unfold grayscale_pixel.
  pose proof (average_range b d a) as Havg. unfold average in *.
  pose proof (peek_range d a). pose proof (peek_range d (a + 1)).
  pose proof (peek_range d (a + 2)). pose proof (peek_range d (a + 3)).
  rewrite !load_in_range by lia. simpl.
  destruct Hbpp as [E|E]; rewrite E in *; simpl in *.
  - rewrite Z.quot_div_nonneg by lia.
    set (g := (peek d a + peek d (a + 1) + peek d (a + 2)) / 3) in *.
    assert (Hg16 : u16 g = g) by (unfold u16; apply Z.mod_small; lia).
    assert (Hg8 : u8 g = g) by (unfold u8; apply Z.mod_small; lia).
    rewrite Hg16, Hg8.
    destruct (store_spec d (a + 2) g ltac:(lia)) as (d1 & S1 & L1 & V1 & O1).
    rewrite S1. simpl.
    destruct (store_spec d1 (a + 1) g ltac:(lia)) as (d2 & S2 & L2 & V2 & O2).
    rewrite S2. simpl.
    destruct (store_spec d2 a g ltac:(lia)) as (d3 & S3 & L3 & V3 & O3).
    rewrite S3. exists d3. split; [reflexivity|]. split; [lia|].
    rewrite Z.mod_small in V1, V2, V3 by lia. split.
    + intros ch Hch.
      assert (ch = 0 \/ ch = 1 \/ ch = 2) as [->|[->| ->]] by lia.
      * rewrite Z.add_0_r. exact V3.
      * rewrite O3 by lia. exact V2.
      * rewrite O3, O2 by lia. exact V1.
    + intros j Hj Hout. rewrite O3, O2, O1 by lia. reflexivity.
  - rewrite load_in_range by lia. simpl.
    rewrite Z.quot_div_nonneg by lia.
    set (g := (peek d a + peek d (a + 1) + peek d (a + 2) + peek d (a + 3)) / 4) in *.
    assert (Hg16 : u16 g = g) by (unfold u16; apply Z.mod_small; lia).
    assert (Hg8 : u8 g = g) by (unfold u8; apply Z.mod_small; lia).
    rewrite Hg16.
    destruct (store_spec d (a + 3) g ltac:(lia)) as (d0 & S0 & L0 & V0 & O0).
    rewrite S0. simpl. rewrite Hg8.
    destruct (store_spec d0 (a + 2) g ltac:(lia)) as (d1 & S1 & L1 & V1 & O1).
    rewrite S1. simpl.
    destruct (store_spec d1 (a + 1) g ltac:(lia)) as (d2 & S2 & L2 & V2 & O2).
    rewrite S2. simpl.
    destruct (store_spec d2 a g ltac:(lia)) as (d3 & S3 & L3 & V3 & O3).
    rewrite S3. exists d3. split; [reflexivity|]. split; [lia|].
    rewrite Z.mod_small in V0, V1, V2, V3 by lia. split.
    + intros ch Hch.
      assert (ch = 0 \/ ch = 1 \/ ch = 2 \/ ch = 3) as [->|[->|[->| ->]]] by lia.
      * rewrite Z.add_0_r. exact V3.
      * rewrite O3 by lia. exact V2.
      * rewrite O3, O2 by lia. exact V1.
      * rewrite O3, O2, O1 by lia. exact V0.
    + intros j Hj Hout. rewrite O3, O2, O1, O0 by lia. reflexivity.
Qed.

Section Grayscale.

Variable b : Bitmap.
Hypothesis Hgeo : valid_geometry b.
Hypothesis Hst : stride_ok b.
Hypothesis Hint : width (bmp_info_header b) * imageType b <= INT_MAX.

Lemma grayscale_inv_weaken (D D' : Z -> Prop) d :
  grayscale_inv b D d -> (forall a, D' a -> D a) -> grayscale_inv b D' d.
Proof.
  intros (Hl & Hall & HD) Hsub. repeat split; auto.
Qed.

Lemma grayscale_step (D : Z -> Prop) d a :
  grayscale_inv b D d -> pixel_slot b a ->
  exists d', grayscale_pixel b a d = Ok d'
    /\ grayscale_inv b (fun i => D i \/ i = a) d'.
Proof.
  intros (Hl & Hall & HD) Hslot.
  pose proof (vg_type b Hgeo) as Hbpp.
  destruct (pixel_slot_bounds b a Hgeo Hslot) as [Ha Hend].
  destruct (grayscale_pixel_spec b d a Hbpp Ha ltac:(rewrite Hl; exact Hend))
    as (d' & Hrun & Hl' & Hnew & Hother).
  exists d'. split; [exact Hrun|].
  assert (Havg : average b d a = average b (data b) a).
  { destruct (Hall a Hslot) as [Hsame|Hdone].
    - apply average_ext; assumption.
    - apply average_flat; assumption. }
  assert (Hkeep : forall a', pixel_slot b a' -> a' <> a ->
            forall ch, 0 <= ch < imageType b -> peek d' (a' + ch) = peek d (a' + ch)).
  { intros a' Hslot' Hne ch Hch.
    destruct (pixel_slot_bounds b a' Hgeo Hslot') as [Ha' _].
    apply Hother; [lia|].
    destruct (pixel_slot_separate b a a' Hgeo Hst Hslot Hslot') as [E|[E|E]]; [congruence|lia|lia]. }
  repeat split.
  - congruence.
  - intros a' Hslot'. destruct (Z.eq_dec a' a) as [->|Hne].
    + right. intros ch Hch. rewrite Hnew by exact Hch. exact Havg.
    + destruct (Hall a' Hslot') as [Hsame|Hdone].
      * left. intros ch Hch. rewrite Hkeep by assumption. auto.
      * right. intros ch Hch. rewrite Hkeep by assumption. auto.
  - intros a' Hslot' [HDa| ->] ch Hch.
    + destruct (Z.eq_dec a' a) as [->|Hne].
      * rewrite Hnew by exact Hch. exact Havg.
      * rewrite Hkeep by assumption. auto.
    + rewrite Hnew by exact Hch. exact Havg.
Qed.

Lemma grayscale_row_spec (D : Z -> Prop) d y :
  grayscale_inv b D d ->
  0 <= y < height (bmp_info_header b) ->
  exists d',
    for_int 0 (width (bmp_info_header b)) 1
      (fun x d =>
         let* off := int_mul x (imageType b) in
         grayscale_pixel b (u32 (row_stride b * y) + off) d) d
    = Ok d'
    /\ grayscale_inv b
         (fun a => D a \/ exists x, 0 <= x < width (bmp_info_header b)
                     /\ a = channel_addr b x y 0) d'.
Proof.
  intros Hinv Hy.
  pose proof (vg_rows b Hgeo y Hy) as Hrow.
  pose proof (vg_stride b Hgeo) as Hrs.
  pose proof (vg_size b Hgeo) as Hsz.
  pose proof (vg_width b Hgeo) as Hw.
  assert (Hbpp : 0 < imageType b) by (destruct (vg_type b Hgeo); lia).
  assert (Hu : u32 (row_stride b * y) = row_stride b * y).
  { unfold u32. apply Z.mod_small. nia. }
  rewrite Hu.
  destruct (for_int_rule
              (fun c d => grayscale_inv b
                 (fun a => D a \/ exists x, 0 <= x < c /\ a = channel_addr b x y 0) d)
              (width (bmp_info_header b))
              (fun x d =>
                 let* off := int_mul x (imageType b) in
                 grayscale_pixel b (row_stride b * y + off) d) d)
    as (d' & Hrun & Hd'); auto.
  - eapply grayscale_inv_weaken; [exact Hinv|].
    intros a [Ha|(x & Hx & _)]; [exact Ha|lia].
  - intros c s Hc Hs.
    rewrite (int_mul_index c (width (bmp_info_header b))) by lia. cbn [bind].
    destruct (grayscale_step _ s (row_stride b * y + c * imageType b) Hs)
      as (s' & E & Hs').
    { exists c, y. unfold channel_addr. repeat split; lia. }
    exists s'. split; [exact E|].
    eapply grayscale_inv_weaken; [exact Hs'|].
    intros a [Ha|(x & Hx & ->)]; [left; left; exact Ha|].
    destruct (Z.eq_dec x c) as [->|Hne].
    + right. unfold channel_addr. lia.
    + left. right. exists x. split; [lia|reflexivity].
  - exists d'. split; assumption.
Qed.

Lemma grayscale_spec :
  exists b', grayscale b = Ok b'
    /\ grayscale_inv b (pixel_slot b) (data b').
Proof.
  unfold grayscale.
  destruct (for_int_rule
              (fun c d => grayscale_inv b
                 (fun a => exists x y, 0 <= x < width (bmp_info_header b)
                     /\ 0 <= y < c /\ a = channel_addr b x y 0) d)
              (height (bmp_info_header b))
              (fun y d =>
                 for_int 0 (width (bmp_info_header b)) 1
                   (fun x d =>
                      let* off := int_mul x (imageType b) in
                      grayscale_pixel b (u32 (row_stride b * y) + off) d) d)
              (data b))
    as (d' & Hrun & Hd').
  - apply (vg_height b Hgeo).
  - repeat split; auto. intros a _ (x & y & _ & Hy & _). lia.
  - intros c s Hc Hs.
    destruct (grayscale_row_spec _ s c Hs Hc) as (s' & E & Hs').
    exists s'. split; [exact E|].
    eapply grayscale_inv_weaken; [exact Hs'|].
    intros a (x & y & Hx & Hy & ->).
    destruct (Z.eq_dec y c) as [->|Hne].
    + right. exists x. split; [lia|reflexivity].
    + left. exists x, y. repeat split; lia.
  - rewrite Hrun. simpl. eexists. split; [reflexivity|].
    eapply grayscale_inv_weaken; [exact Hd'|].
    intros a (x & y & Hx & Hy & ->). exists x, y. repeat split; lia.
Qed.

End Grayscale.

(** ** The in-place filters keep the size of the buffer *)

Lemma bind_Ok {A B : Type} (m : outcome A) (k : A -> outcome B) r :
  bind m k = Ok r -> exists a, m = Ok a /\ k a = Ok r.
Proof.
  destruct m as [a| |]; simpl; intros H; try discriminate. eauto.
Qed.

(** Split a completed sequence of steps into its steps. *)
Ltac unbind H :=
  repeat match type of H with
         | bind _ _ = Ok _ =>
             let a := fresh "a" in
             let E := fresh "E" in
             apply bind_Ok in H as (a & E & H)
         end.

Lemma for_loop_length fuel bound next (body : Z -> list byte -> outcome (list byte)) :
  (forall c d d', body c d = Ok d' -> length d' = length d) ->
  forall i d d', for_loop fuel bound next body i d = Ok d' -> length d' = length d.
Proof.
  intros Hbody i d d' Hrun.
  apply (for_loop_preserves (fun s => length s = length d) fuel bound next body)
    with (i := i) (s := d); auto.
  intros c s s' Hs E. rewrite (Hbody c s s' Hs). exact E.
Qed.

Lemma cellShade_pixel_length b pixel d d' :
  cellShade_pixel b pixel d = Ok d' -> length d' = length d.
Proof.
  unfold cellShade_pixel, for_u8. apply for_loop_length.
  intros c s s' H. unbind H. eapply store_length; eauto.
Qed.

Lemma grayscale_pixel_length b pixel d d' :
  grayscale_pixel b pixel d = Ok d' -> length d' = length d.
Proof.
  unfold grayscale_pixel. intros H.
  apply bind_Ok in H as (p0 & _ & H). apply bind_Ok in H as (p1 & _ & H).
  apply bind_Ok in H as (p2 & _ & H). apply bind_Ok in H as (gd & Egd & H).
  apply bind_Ok in H as (d1 & S1 & H). apply bind_Ok in H as (d2 & S2 & H).
  apply store_length in H, S1, S2.
  assert (length (snd gd) = length d); [|congruence].
  destruct (imageType b =? 3).
  - injection Egd as <-. reflexivity.
  - apply bind_Ok in Egd as (p3 & _ & Egd).
    destruct (imageType b =? 0); [discriminate|].
    apply bind_Ok in Egd as (d0 & S0 & Egd). injection Egd as <-.
    simpl. eapply store_length; eauto.
Qed.

Lemma pixelate_fill_length b x y value d d' :
  pixelate_fill b x y value d = Ok d' -> length d' = length d.
Proof.
  unfold pixelate_fill. destruct value as [[[v0 v1] v2] v3].
  unfold for_int. apply for_loop_length.
  intros oY s s' H. apply bind_Ok in H as (offY & _ & H).
  revert H. apply for_loop_length.
  intros oX t t' H. apply bind_Ok in H as (offX & _ & H).
  apply bind_Ok in H as (off & _ & H).
  apply bind_Ok in H as (d1 & S1 & H). apply bind_Ok in H as (d2 & S2 & H).
  apply bind_Ok in H as (d3 & S3 & H).
  apply store_length in S1, S2, S3.
  destruct (imageType b =? 4).
  - apply store_length in H. congruence.
  - injection H as <-. congruence.
Qed.

Lemma blur_pixel_length b x y d d' :
  blur_pixel b x y d = Ok d' -> length d' = length d.
Proof.
  unfold blur_pixel. intros H. apply bind_Ok in H as (off & _ & H).
  apply bind_Ok in H as (fv & _ & H). revert H.
  unfold for_u8. apply for_loop_length.
  intros c s s' H. apply bind_Ok in H as (v & _ & H).
  eapply store_length; eauto.
Qed.

Lemma copy_pixel_length b src dst d d' :
  copy_pixel b src dst d = Ok d' -> length d' = length d.
Proof.
  unfold copy_pixel. intros H.
  apply bind_Ok in H as (v0 & _ & H). apply bind_Ok in H as (d1 & S1 & H).
  apply bind_Ok in H as (v1 & _ & H). apply bind_Ok in H as (d2 & S2 & H).
  apply bind_Ok in H as (v2 & _ & H). apply bind_Ok in H as (d3 & S3 & H).
  apply store_length in S1, S2, S3.
  destruct (imageType b =? 4).
  - apply bind_Ok in H as (v3 & _ & H). apply store_length in H. congruence.
  - injection H as <-. congruence.
Qed.

Lemma cellShade_frame b b' : cellShade b = Ok b' -> same_metadata b b'.
Proof.
  unfold cellShade. intros H. unbind H. injection H as <-.
  repeat split. simpl. revert E. unfold for_int. apply for_loop_length.
  intros y s s'. apply for_loop_length.
  intros x t t' H. apply bind_Ok in H as (off & _ & H). revert H.
  apply cellShade_pixel_length.
Qed.

Lemma grayscale_frame b b' : grayscale b = Ok b' -> same_metadata b b'.
Proof.
  unfold grayscale. intros H. unbind H. injection H as <-.
  repeat split. simpl. revert E. unfold for_int. apply for_loop_length.
  intros y s s'. apply for_loop_length.
  intros x t t' H. apply bind_Ok in H as (off & _ & H). revert H.
  apply grayscale_pixel_length.
Qed.

Lemma pixelate_frame b b' : pixelate b = Ok b' -> same_metadata b b'.
Proof.
  unfold pixelate. intros H. unbind H. injection H as <-.
  repeat split. simpl. revert E. unfold for_int. apply for_loop_length.
  intros y s s'. apply for_loop_length.
  intros x t t' H. apply bind_Ok in H as (value & _ & H).
  destruct value as [[[v0 v1] v2] v3].
  eapply pixelate_fill_length; eauto.
Qed.

Lemma blur_frame b b' : blur b = Ok b' -> same_metadata b b'.
Proof.
  unfold blur. intros H. unbind H. injection H as <-.
  repeat split. simpl. revert E. unfold for_int. apply for_loop_length.
  intros y s s'. apply for_loop_length.
  intros x t t'. apply blur_pixel_length.
Qed.

Lemma flipv_frame b b' : flipv b = Ok b' -> same_metadata b b'.
Proof.
  unfold flipv. intros H. unbind H. injection H as <-.
  repeat split. simpl. revert E. unfold for_u16. apply for_loop_length.
  intros y s s' H. apply bind_Ok in H as (bound & _ & H). revert H.
  apply for_loop_length.
  intros x t t'. apply copy_pixel_length.
Qed.

Lemma fliph_frame b b' : fliph b = Ok b' -> same_metadata b b'.
Proof.
  unfold fliph. intros H. unbind H. injection H as <-.
  repeat split. simpl. revert E. unfold for_u16. apply for_loop_length.
  intros y s s' H. apply bind_Ok in H as (bound & _ & H). revert H.
  apply for_loop_length.
  intros x t t' H. apply bind_Ok in H as (last & _ & H). revert H.
  apply copy_pixel_length.
Qed.

(** ** [flipv] and [fliph] *)

Lemma copy_pixel_spec b src dst d :
  (imageType b = 3 \/ imageType b = 4) ->
  0 <= src -> src + imageType b <= Z.of_nat (length (data b)) ->
  0 <= dst -> dst + imageType b <= Z.of_nat (length d) ->
  exists d', copy_pixel b src dst d = Ok d'
    /\ length d' = length d
    /\ (forall k, 0 <= k < imageType b ->
          peek d' (dst + k) = peek (data b) (src + k))
    /\ (forall j, 0 <= j -> j < dst \/ dst + imageType b <= j ->
          peek d' j = peek d j).
Proof.
  intros Hbpp Hs Hse Hd Hde. unfold copy_pixel.
  pose proof (peek_range (data b) src). pose proof (peek_range (data b) (src + 1)).
  pose proof (peek_range (data b) (src + 2)). pose proof (peek_range (data b) (src + 3)).
  rewrite (load_in_range (data b) src) by lia. simpl.
  destruct (store_spec d dst (peek (data b) src) ltac:(lia)) as (d1 & S1 & L1 & V1 & O1).
  rewrite S1. simpl.
  rewrite (load_in_range (data b) (src + 1)) by lia. simpl.
  destruct (store_spec d1 (dst + 1) (peek (data b) (src + 1)) ltac:(lia))
    as (d2 & S2 & L2 & V2 & O2).
  rewrite S2. simpl.
  rewrite (load_in_range (data b) (src + 2)) by lia. simpl.
  destruct (store_spec d2 (dst + 2) (peek (data b) (src + 2)) ltac:(lia))
    as (d3 & S3 & L3 & V3 & O3).
  rewrite S3. simpl.
  rewrite Z.mod_small in V1, V2, V3 by lia.
  destruct Hbpp as [E|E]; rewrite E in *; simpl.
  - exists d3. split; [reflexivity|]. split; [lia|]. split.
    + intros k Hk.
      assert (k = 0 \/ k = 1 \/ k = 2) as [->|[->| ->]] by lia.
      * rewrite !Z.add_0_r. rewrite O3, O2 by lia. exact V1.
      * rewrite O3 by lia. exact V2.
      * exact V3.
    + intros j Hj Hout. rewrite O3, O2, O1 by lia. reflexivity.
  - rewrite (load_in_range (data b) (src + 3)) by lia. simpl.
    destruct (store_spec d3 (dst + 3) (peek (data b) (src + 3)) ltac:(lia))
      as (d4 & S4 & L4 & V4 & O4).
    rewrite S4. rewrite Z.mod_small in V4 by lia.
    exists d4. split; [reflexivity|]. split; [lia|]. split.
    + intros k Hk.
      assert (k = 0 \/ k = 1 \/ k = 2 \/ k = 3) as [->|[->|[->| ->]]] by lia.
      * rewrite !Z.add_0_r. rewrite O4, O3, O2 by lia. exact V1.
      * rewrite O4, O3 by lia. exact V2.
      * rewrite O4 by lia. exact V3.
      * exact V4.
    + intros j Hj Hout. rewrite O4, O3, O2, O1 by lia. reflexivity.
Qed.

Lemma channel_addr_split b x y ch :
  channel_addr b x y ch = channel_addr b x y 0 + ch.
Proof. unfold channel_addr. lia. Qed.

(** Pixels at the same address have the same column, and the same row unless
    all rows coincide. *)
Lemma channel_addr_same b x y x' y' :
  valid_geometry b -> stride_ok b ->
  0 <= x < width (bmp_info_header b) -> 0 <= y < height (bmp_info_header b) ->
  0 <= x' < width (bmp_info_header b) -> 0 <= y' < height (bmp_info_header b) ->
  channel_addr b x y 0 = channel_addr b x' y' 0 ->
  x = x' /\ (row_stride b = 0 \/ y = y').
Proof.
  intros Hgeo Hst Hx Hy Hx' Hy'. unfold channel_addr.
  assert (0 < imageType b) by (destruct (vg_type b Hgeo); lia).
  pose proof (vg_stride b Hgeo).
  destruct Hst as [Hz|Hwide].
  - rewrite Hz. intros E. split; [nia|left; reflexivity].
  - assert ((x + 1) * imageType b <= width (bmp_info_header b) * imageType b) by nia.
    assert ((x' + 1) * imageType b <= width (bmp_info_header b) * imageType b) by nia.
    assert (0 <= x * imageType b) by nia.
    assert (0 <= x' * imageType b) by nia.
    intros E.
    destruct (Z.lt_trichotomy y y') as [Hlt|[->|Hgt]].
    + assert (row_stride b * y + row_stride b <= row_stride b * y') by nia. lia.
    + split; [nia|right; reflexivity].
    + assert (row_stride b * y' + row_stride b <= row_stride b * y) by nia. lia.
Qed.

Section Flip.

Variable b : Bitmap.
Hypothesis Hgeo : valid_geometry b.
Hypothesis Hst : stride_ok b.

(** The source of a destination pixel: a pixel of the image, the same for
    destination pixels at the same address. *)
Variables sx sy : Z -> Z.
Hypothesis sx_range : forall x,
  0 <= x < width (bmp_info_header b) -> 0 <= sx x < width (bmp_info_header b).
Hypothesis sy_range : forall y,
  0 <= y < height (bmp_info_header b) -> 0 <= sy y < height (bmp_info_header b).
Hypothesis sy_stride0 : forall x y y',
  row_stride b = 0 ->
  channel_addr b (sx x) (sy y) 0 = channel_addr b (sx x) (sy y') 0.

Lemma flip_inv_weaken (P P' : Z -> Z -> Prop) d :
  flip_inv b sx sy P d ->
  (forall x y, 0 <= x < width (bmp_info_header b) ->
     0 <= y < height (bmp_info_header b) -> (P x y <-> P' x y)) ->
  flip_inv b sx sy P' d.
Proof.
  intros (Hl & Hdone & Hrest) Hiff. repeat split; auto.
  - intros x y ch Hx Hy Hch HP. apply Hdone; auto. apply Hiff; assumption.
  - intros i Hi. destruct (Hrest i Hi) as [(x & y & ch & Hx & Hy & Hch & HP & ->)|E].
    + left. exists x, y, ch.
      exact (conj Hx (conj Hy (conj Hch (conj (proj1 (Hiff x y Hx Hy) HP) eq_refl)))).
    + right. exact E.
Qed.

Lemma flip_step (P : Z -> Z -> Prop) d x0 y0 :
  flip_inv b sx sy P d ->
  0 <= x0 < width (bmp_info_header b) ->
  0 <= y0 < height (bmp_info_header b) ->
  exists d',
    copy_pixel b (channel_addr b (sx x0) (sy y0) 0) (channel_addr b x0 y0 0) d
    = Ok d'
    /\ flip_inv b sx sy (fun x y => P x y \/ (x = x0 /\ y = y0)) d'.
Proof.
  intros (Hl & Hdone & Hrest) Hx0 Hy0.
  pose proof (vg_type b Hgeo) as Hbpp.
  assert (Hslot : pixel_slot b (channel_addr b x0 y0 0))
    by (exists x0, y0; repeat split; lia).
  assert (Hsslot : pixel_slot b (channel_addr b (sx x0) (sy y0) 0)).
  { exists (sx x0), (sy y0). repeat split; try apply sx_range; try apply sy_range; lia. }
  destruct (pixel_slot_bounds b _ Hgeo Hslot) as [Hd Hde].
  destruct (pixel_slot_bounds b _ Hgeo Hsslot) as [Hs Hse].
  destruct (copy_pixel_spec b _ _ d Hbpp Hs Hse Hd ltac:(rewrite Hl; exact Hde))
    as (d' & Hrun & Hl' & Hnew & Hother).
  exists d'. split; [exact Hrun|]. repeat split.
  - congruence.
  - intros x y ch Hx Hy Hch HP.
    assert (Hslot' : pixel_slot b (channel_addr b x y 0))
      by (exists x, y; repeat split; lia).
    rewrite (channel_addr_split b x y ch), (channel_addr_split b (sx x) (sy y) ch).
    destruct (Z.eq_dec (channel_addr b x y 0) (channel_addr b x0 y0 0)) as [E|Hne].
    + rewrite E, Hnew by exact Hch. f_equal. f_equal.
      destruct (channel_addr_same b x y x0 y0 Hgeo Hst Hx Hy Hx0 Hy0 E) as [-> [Hz| ->]].
      * symmetry. apply sy_stride0. exact Hz.
      * reflexivity.
    + destruct (pixel_slot_bounds b _ Hgeo Hslot') as [Ha _].
      rewrite Hother.
      * rewrite <- !channel_addr_split.
        destruct HP as [HP|[-> ->]]; [|congruence]. apply Hdone; assumption.
      * lia.
      * destruct (pixel_slot_separate b _ _ Hgeo Hst Hslot Hslot') as [E|[E|E]];
          [congruence|lia|lia].
  - intros i Hi.
    destruct (Z_lt_le_dec i (channel_addr b x0 y0 0)) as [Hlo|Hlo];
      [|destruct (Z_lt_le_dec i (channel_addr b x0 y0 0 + imageType b)) as [Hhi|Hhi]].
    + rewrite Hother by lia.
      destruct (Hrest i Hi) as [(x & y & ch & Hx & Hy & Hch & HP & ->)|E].
      * left. exists x, y, ch.
        exact (conj Hx (conj Hy (conj Hch (conj (or_introl HP) eq_refl)))).
      * right. exact E.
    + left. exists x0, y0, (i - channel_addr b x0 y0 0).
      split; [exact Hx0|]. split; [exact Hy0|]. split; [lia|].
      split; [right; split; reflexivity|].
      rewrite (channel_addr_split b x0 y0 (i - _)). lia.
    + rewrite Hother by lia.
      destruct (Hrest i Hi) as [(x & y & ch & Hx & Hy & Hch & HP & ->)|E].
      * left. exists x, y, ch.
        exact (conj Hx (conj Hy (conj Hch (conj (or_introl HP) eq_refl)))).
      * right. exact E.
Qed.

(** What a flip leaves when it has written every pixel, and a second
    application of a flip with an involutive source map. *)
Lemma flip_inv_initial : flip_inv b sx sy (fun _ _ => False) (data b).
Proof.
  repeat split.
  - intros x y ch _ _ _ [].
  - intros i Hi. right. reflexivity.
Qed.

End Flip.

Lemma valid_geometry_set_data b d :
  valid_geometry b -> length d = length (data b) -> valid_geometry (set_data b d).
Proof.
  intros [H1 H2 H3 H4 H5 H6] Hl. constructor; simpl; try rewrite Hl; assumption.
Qed.

Lemma u32_row b y :
  valid_geometry b -> 0 <= y < height (bmp_info_header b) ->
  u32 (row_stride b * y) = row_stride b * y.
Proof.
  intros Hgeo Hy. unfold u32. apply Z.mod_small.
  pose proof (vg_rows b Hgeo y Hy). pose proof (vg_stride b Hgeo).
  pose proof (vg_size b Hgeo). pose proof (vg_width b Hgeo).
  assert (0 < imageType b) by (destruct (vg_type b Hgeo); lia). nia.
Qed.

Section Flipv.

Variable b : Bitmap.
Hypothesis Hgeo : valid_geometry b.
Hypothesis Hst : stride_ok b.
Hypothesis Hfit : fits_counters b.

Let h := height (bmp_info_header b).
Let w := width (bmp_info_header b).

Lemma flipv_row_spec (P : Z -> Z -> Prop) d y :
  flip_inv b (fun x => x) (fun yd => h - 1 - yd) P d ->
  0 <= y < h ->
  exists d',
    for_u16 (w * imageType b) (imageType b)
      (fun x d => copy_pixel b (u32 (row_stride b * y) + x)
                    (u32 (row_stride b * u32 (h - 1 - y)) + x) d) d
    = Ok d'
    /\ flip_inv b (fun x => x) (fun yd => h - 1 - yd)
         (fun x yd => P x yd \/ yd = h - 1 - y) d'.
Proof.
  intros Hinv Hy. subst h w.
  destruct Hfit as [Hfh Hfw].
  assert (Hbpp : 0 < imageType b) by (destruct (vg_type b Hgeo); lia).
  rewrite (u32_row b y Hgeo Hy).
  assert (Hu : u32 (height (bmp_info_header b) - 1 - y)
               = height (bmp_info_header b) - 1 - y).
  { unfold u32. apply Z.mod_small. lia. }
  rewrite Hu, (u32_row b _ Hgeo) by lia.
  destruct (for_u16_step_rule
              (fun n d => flip_inv b (fun x => x)
                 (fun yd => height (bmp_info_header b) - 1 - yd)
                 (fun x yd => P x yd
                    \/ (yd = height (bmp_info_header b) - 1 - y /\ x < n)) d)
              (width (bmp_info_header b)) (imageType b)
              (fun x d => copy_pixel b (row_stride b * y + x)
                 (row_stride b * (height (bmp_info_header b) - 1 - y) + x) d) d)
    as (d' & Hrun & Hd'); auto.
  - apply (vg_width b Hgeo).
  - eapply flip_inv_weaken; [exact Hinv|]. intros x yd Hx Hyd. split; [tauto|].
    intros [HP|[_ Hx']]; [exact HP|lia].
  - intros n s Hn Hs.
    destruct (flip_step b Hgeo Hst (fun x => x)
                (fun yd => height (bmp_info_header b) - 1 - yd)
                ltac:(auto) ltac:(intros; lia)
                ltac:(intros x0 y0 y0' Hz; unfold channel_addr; rewrite Hz; lia)
                _ s n (height (bmp_info_header b) - 1 - y) Hs Hn ltac:(lia))
      as (s' & E & Hs').
    exists s'. split.
    + rewrite <- E. unfold channel_addr. f_equal; lia.
    + eapply flip_inv_weaken; [exact Hs'|]. intros x yd Hx Hyd. split.
      * intros [[HP|[Hyd' Hx']]|[-> ->]]; [left; exact HP|right; lia|right; lia].
      * intros [HP|[Hyd' Hx']]; [left; left; exact HP|].
        destruct (Z.eq_dec x n) as [->|Hne]; [right; split; [reflexivity|exact Hyd']|].
        left. right. lia.
  - exists d'. split; [exact Hrun|].
    eapply flip_inv_weaken; [exact Hd'|]. intros x yd Hx Hyd. split.
    + intros [HP|[Hyd' _]]; [left; exact HP|right; exact Hyd'].
    + intros [HP|Hyd']; [left; exact HP|right; lia].
Qed.

Lemma flipv_spec :
  exists b', flipv b = Ok b'
    /\ b' = set_data b (data b')
    /\ flip_inv b (fun x => x) (fun yd => h - 1 - yd)
         (fun x yd => True) (data b').
Proof.
  unfold flipv. fold h w.
  destruct (for_u16_rule
              (fun y d => flip_inv b (fun x => x) (fun yd => h - 1 - yd)
                 (fun x yd => h - 1 - y < yd) d)
              h
              (fun y d =>
                 let* bound := int_mul w (imageType b) in
                 for_u16 bound (imageType b)
                   (fun x d => copy_pixel b (u32 (row_stride b * y) + x)
                                 (u32 (row_stride b * u32 (h - 1 - y)) + x) d) d)
              (data b))
    as (d' & Hrun & Hd').
  - subst h. pose proof (vg_height b Hgeo). destruct Hfit. lia.
  - eapply flip_inv_weaken; [apply flip_inv_initial|].
    intros x yd Hx Hyd. fold h in Hyd. split; [tauto|lia].
  - intros y s Hy Hs.
    destruct (flipv_row_spec _ s y Hs Hy) as (s' & E & Hs').
    exists s'. split.
    { rewrite (int_mul_index w w) by
        (subst w; pose proof (vg_width b Hgeo); destruct (vg_type b Hgeo);
         destruct Hfit; unfold INT_MAX; lia).
      exact E. }
    eapply flip_inv_weaken; [exact Hs'|]. intros x yd Hx Hyd. cbv beta. lia.
  - rewrite Hrun. simpl. eexists. split; [reflexivity|]. split; [reflexivity|].
    eapply flip_inv_weaken; [exact Hd'|]. intros x yd Hx Hyd. simpl.
    fold h in Hyd. split; [tauto|lia].
Qed.

End Flipv.

Section Fliph.

Variable b : Bitmap.
Hypothesis Hgeo : valid_geometry b.
Hypothesis Hst : stride_ok b.
Hypothesis Hfit : fits_counters b.

Let h := height (bmp_info_header b).
Let w := width (bmp_info_header b).

Lemma fliph_row_spec (P : Z -> Z -> Prop) d y :
  flip_inv b (fun x => w - 1 - x) (fun yd => yd) P d ->
  0 <= y < h ->
  exists d',
    for_u16 (w * imageType b) (imageType b)
      (fun x d =>
         let* last := int_mul (w - 1) (imageType b) in
         copy_pixel b (u32 (row_stride b * y) + u16 (last - x))
           (u32 (row_stride b * y) + x) d) d
    = Ok d'
    /\ flip_inv b (fun x => w - 1 - x) (fun yd => yd)
         (fun x yd => P x yd \/ yd = y) d'.
Proof.
  intros Hinv Hy. subst h w.
  destruct Hfit as [Hfh Hfw].
  assert (Hbpp : 0 < imageType b) by (destruct (vg_type b Hgeo); lia).
  rewrite (u32_row b y Hgeo Hy).
  destruct (for_u16_step_rule
              (fun n d => flip_inv b (fun x => width (bmp_info_header b) - 1 - x)
                 (fun yd => yd)
                 (fun x yd => P x yd \/ (yd = y /\ x < n)) d)
              (width (bmp_info_header b)) (imageType b)
              (fun x d =>
                 let* last := int_mul (width (bmp_info_header b) - 1)
                                (imageType b) in
                 copy_pixel b (row_stride b * y + u16 (last - x))
                   (row_stride b * y + x) d) d)
    as (d' & Hrun & Hd'); auto.
  - apply (vg_width b Hgeo).
  - eapply flip_inv_weaken; [exact Hinv|]. intros x yd Hx Hyd. split; [tauto|].
    intros [HP|[_ Hx']]; [exact HP|lia].
  - intros n s Hn Hs.
    destruct (flip_step b Hgeo Hst (fun x => width (bmp_info_header b) - 1 - x)
                (fun yd => yd)
                ltac:(intros; lia) ltac:(auto)
                ltac:(intros x0 y0 y0' Hz; unfold channel_addr; rewrite Hz; lia)
                _ s n y Hs Hn Hy)
      as (s' & E & Hs').
    exists s'. split.
    + rewrite (int_mul_index (width (bmp_info_header b) - 1)
                 (width (bmp_info_header b))) by (unfold INT_MAX; lia).
      cbn [bind].
      rewrite <- E. unfold channel_addr.
      assert (Hu : u16 ((width (bmp_info_header b) - 1) * imageType b - n * imageType b)
                   = (width (bmp_info_header b) - 1 - n) * imageType b).
      { unfold u16. rewrite Z.mod_small by nia. lia. }
      rewrite Hu. f_equal; lia.
    + eapply flip_inv_weaken; [exact Hs'|]. intros x yd Hx Hyd. split.
      * intros [[HP|[Hyd' Hx']]|[-> ->]]; [left; exact HP|right; lia|right; lia].
      * intros [HP|[Hyd' Hx']]; [left; left; exact HP|].
        destruct (Z.eq_dec x n) as [->|Hne]; [right; split; [reflexivity|exact Hyd']|].
        left. right. lia.
  - exists d'. split; [exact Hrun|].
    eapply flip_inv_weaken; [exact Hd'|]. intros x yd Hx Hyd. split.
    + intros [HP|[Hyd' _]]; [left; exact HP|right; exact Hyd'].
    + intros [HP|Hyd']; [left; exact HP|right; lia].
Qed.

Lemma fliph_spec :
  exists b', fliph b = Ok b'
    /\ b' = set_data b (data b')
    /\ flip_inv b (fun x => w - 1 - x) (fun yd => yd)
         (fun x yd => True) (data b').
Proof.
  unfold fliph. fold h w.
  destruct (for_u16_rule
              (fun y d => flip_inv b (fun x => w - 1 - x) (fun yd => yd)
                 (fun x yd => yd < y) d)
              h
              (fun y d =>
                 let* bound := int_mul w (imageType b) in
                 for_u16 bound (imageType b)
                   (fun x d =>
                      let* last := int_mul (w - 1) (imageType b) in
                      copy_pixel b (u32 (row_stride b * y) + u16 (last - x))
                        (u32 (row_stride b * y) + x) d) d)
              (data b))
    as (d' & Hrun & Hd').
  - subst h. pose proof (vg_height b Hgeo). destruct Hfit. lia.
  - eapply flip_inv_weaken; [apply flip_inv_initial|].
    intros x yd Hx Hyd. split; [tauto|lia].
  - intros y s Hy Hs.
    destruct (fliph_row_spec _ s y Hs Hy) as (s' & E & Hs').
    exists s'. split.
    { rewrite (int_mul_index w w) by
        (subst w; pose proof (vg_width b Hgeo); destruct (vg_type b Hgeo);
         destruct Hfit; unfold INT_MAX; lia).
      exact E. }
    eapply flip_inv_weaken; [exact Hs'|]. intros x yd Hx Hyd. cbv beta. lia.
  - rewrite Hrun. simpl. eexists. split; [reflexivity|]. split; [reflexivity|].
    eapply flip_inv_weaken; [exact Hd'|]. intros x yd Hx Hyd. simpl.
    fold h in Hyd. split; [tauto|lia].
Qed.

End Fliph.

(** A flip whose source map is an involution of the image, applied to its
    own result, restores the buffer. *)
Lemma flip_twice b d1 d2 (sx sy : Z -> Z) :
  (forall x, 0 <= x < width (bmp_info_header b) ->
     0 <= sx x < width (bmp_info_header b) /\ sx (sx x) = x) ->
  (forall y, 0 <= y < height (bmp_info_header b) ->
     0 <= sy y < height (bmp_info_header b) /\ sy (sy y) = y) ->
  flip_inv b sx sy (fun _ _ => True) d1 ->
  flip_inv (set_data b d1) sx sy (fun _ _ => True) d2 ->
  d2 = data b.
Proof.
  intros Hsx Hsy (Hl1 & Hdone1 & Hrest1) (Hl2 & Hdone2 & Hrest2).
  simpl in Hl2, Hdone2, Hrest2.
  assert (Hcell : forall x y ch,
            0 <= x < width (bmp_info_header b) ->
            0 <= y < height (bmp_info_header b) ->
            0 <= ch < imageType b ->
            peek d2 (channel_addr b x y ch) = peek (data b) (channel_addr b x y ch)).
  { intros x y ch Hx Hy Hch.
    destruct (Hsx x Hx) as [Hsxr Hsxx]. destruct (Hsy y Hy) as [Hsyr Hsyy].
    pose proof (Hdone2 x y ch Hx Hy Hch I) as E2.
    unfold channel_addr in E2 |- *. simpl in E2. rewrite E2.
    pose proof (Hdone1 (sx x) (sy y) ch Hsxr Hsyr Hch I) as E1.
    unfold channel_addr in E1. rewrite E1, Hsxx, Hsyy. reflexivity. }
  apply peek_ext; [congruence|].
  intros i Hi.
  destruct (Hrest2 i ltac:(lia)) as [(x & y & ch & Hx & Hy & Hch & _ & ->)|E2].
  - apply (Hcell x y ch Hx Hy Hch).
  - destruct (Hrest1 i ltac:(lia)) as [(x & y & ch & Hx & Hy & Hch & _ & ->)|E1].
    + apply (Hcell x y ch Hx Hy Hch).
    + congruence.
Qed.

Lemma fits_counters_set_data b d : fits_counters b -> fits_counters (set_data b d).
Proof. intros H. exact H. Qed.

Lemma stride_ok_set_data b d : stride_ok b -> stride_ok (set_data b d).
Proof. intros H. exact H. Qed.

Lemma set_data_data b : set_data b (data b) = b.
Proof. destruct b. reflexivity. Qed.

Lemma flipv_twice b :
  valid_geometry b -> stride_ok b -> fits_counters b ->
  exists b1, flipv b = Ok b1 /\ same_metadata b b1 /\ flipv b1 = Ok b.
Proof.
  intros Hgeo Hst Hfit.
  destruct (flipv_spec b Hgeo Hst Hfit) as (b1 & Hrun1 & Hb1 & Hinv1).
  assert (Hl1 : length (data b1) = length (data b)) by apply Hinv1.
  assert (Hgeo1 : valid_geometry b1).
  { rewrite Hb1. apply valid_geometry_set_data; assumption. }
  rewrite Hb1 in Hgeo1.
  destruct (flipv_spec (set_data b (data b1)) Hgeo1 Hst Hfit)
    as (b2 & Hrun2 & Hb2 & Hinv2).
  exists b1. split; [exact Hrun1|]. split.
  - apply flipv_frame. exact Hrun1.
  - rewrite Hb1 at 1. rewrite Hrun2. f_equal. rewrite Hb2.
    simpl in Hinv2.
    rewrite (flip_twice b (data b1) (data b2) (fun x => x)
               (fun yd => height (bmp_info_header b) - 1 - yd)); auto.
    + destruct b; reflexivity.
    + intros y Hy. lia.
Qed.

Lemma fliph_twice b :
  valid_geometry b -> stride_ok b -> fits_counters b ->
  exists b1, fliph b = Ok b1 /\ same_metadata b b1 /\ fliph b1 = Ok b.
Proof.
  intros Hgeo Hst Hfit.
  destruct (fliph_spec b Hgeo Hst Hfit) as (b1 & Hrun1 & Hb1 & Hinv1).
  assert (Hl1 : length (data b1) = length (data b)) by apply Hinv1.
  assert (Hgeo1 : valid_geometry b1).
  { rewrite Hb1. apply valid_geometry_set_data; assumption. }
  rewrite Hb1 in Hgeo1.
  destruct (fliph_spec (set_data b (data b1)) Hgeo1 Hst Hfit)
    as (b2 & Hrun2 & Hb2 & Hinv2).
  exists b1. split; [exact Hrun1|]. split.
  - apply fliph_frame. exact Hrun1.
  - rewrite Hb1 at 1. rewrite Hrun2. f_equal. rewrite Hb2.
    simpl in Hinv2.
    rewrite (flip_twice b (data b1) (data b2)
               (fun x => width (bmp_info_header b) - 1 - x) (fun yd => yd)); auto.
    + destruct b; reflexivity.
    + intros x Hx. lia.
Qed.

(** ** A row the [uint16_t] column counter cannot span *)

Lemma for_loop_body_diverges {S : Type} fuel bound next
    (body : Z -> S -> outcome S) i s :
  (0 < fuel)%nat -> i < bound -> body i s = Diverges ->
  for_loop fuel bound next body i s = Diverges.
Proof.
  intros Hfuel Hi Hbody. destruct fuel as [|f]; [lia|]. simpl.
  destruct (Z.ltb_spec i bound); [|lia]. rewrite Hbody. reflexivity.
Qed.

Lemma sample_wide_length : Z.of_nat (length (data sample_wide)) = 1179684.
Proof.
  unfold sample_wide. cbv [data]. rewrite length_replicate. lia.
Qed.

Lemma sample_wide_geometry : valid_geometry sample_wide.
Proof.
  constructor; try rewrite sample_wide_length;
    cbv [sample_wide imageType bmp_info_header width height row_stride]; lia.
Qed.

Lemma sample_wide_stride : stride_ok sample_wide.
Proof.
  right. cbv [sample_wide imageType bmp_info_header width row_stride]. lia.
Qed.

(** The column loop of a flip on [sample_wide]: the counter wraps below the
    bound 65538 and every copy stays inside the buffer. *)
Lemma sample_wide_columns_diverge (src dst : Z -> Z) d :
  (forall c, 0 <= c < 65536 -> 0 <= src c <= 65535) ->
  (forall c, 0 <= c < 65536 -> 0 <= dst c <= 65538 + 65535) ->
  length d = length (data sample_wide) ->
  for_u16 (width (bmp_info_header sample_wide) * imageType sample_wide)
    (imageType sample_wide)
    (fun x d => copy_pixel sample_wide (src x) (dst x) d) d
  = Diverges.
Proof.
  intros Hsrc Hdst Hl. unfold for_u16.
  apply (for_loop_diverges
           (fun d => length d = length (data sample_wide))
           (fun c => 0 <= c < 65536)).
  - intros c Hc. split.
    + cbv [sample_wide imageType bmp_info_header width]. lia.
    + unfold u16. apply Z.mod_pos_bound. lia.
  - intros c s Hc Hs.
    pose proof sample_wide_length as HL.
    destruct (copy_pixel_spec sample_wide (src c) (dst c) s)
      as (s' & E & Hl' & _).
    + left. reflexivity.
    + apply Hsrc. exact Hc.
    + rewrite HL. specialize (Hsrc c Hc).
      cbv [sample_wide imageType]. lia.
    + apply Hdst. exact Hc.
    + rewrite Hs, HL. specialize (Hdst c Hc).
      cbv [sample_wide imageType]. lia.
    + exists s'. split; [exact E|congruence].
  - lia.
  - exact Hl.
Qed.

Lemma flipv_sample_wide : flipv sample_wide = Diverges.
Proof.
  unfold flipv, for_u16 at 1.
  rewrite for_loop_body_diverges; [reflexivity|lia| |].
  - cbv [sample_wide bmp_info_header height]. lia.
  - apply (sample_wide_columns_diverge
             (fun x => u32 (row_stride sample_wide * 0) + x)
             (fun x => u32 (row_stride sample_wide
                            * u32 (height (bmp_info_header sample_wide) - 1 - 0)) + x)).
    + intros c Hc. change (u32 (row_stride sample_wide * 0)) with 0. lia.
    + intros c Hc.
      change (u32 (row_stride sample_wide
                   * u32 (height (bmp_info_header sample_wide) - 1 - 0)))
        with 65538. lia.
    + reflexivity.
Qed.

Lemma fliph_sample_wide : fliph sample_wide = Diverges.
Proof.
  unfold fliph, for_u16 at 1.
  rewrite for_loop_body_diverges; [reflexivity|lia| |].
  - cbv [sample_wide bmp_info_header height]. lia.
  - apply (sample_wide_columns_diverge
             (fun x => u32 (row_stride sample_wide * 0)
                       + u16 ((width (bmp_info_header sample_wide) - 1)
                              * imageType sample_wide - x))
             (fun x => u32 (row_stride sample_wide * 0) + x)).
    + intros c Hc. change (u32 (row_stride sample_wide * 0)) with 0.
      pose proof (Z.mod_pos_bound
                    ((width (bmp_info_header sample_wide) - 1)
                     * imageType sample_wide - c) 65536 ltac:(lia)).
      unfold u16. lia.
    + intros c Hc. change (u32 (row_stride sample_wide * 0)) with 0. lia.
    + reflexivity.
Qed.

(** ** [make_stride_aligned] *)

(** With [align_stride = 4] the loop leaves through its test: the value
    returned is a multiple of 4. *)
Lemma make_stride_aligned_exits b :
  0 <= row_stride b < 4294967296 ->
  make_stride_aligned b 4 mod 4 = 0.
Proof.
  intros Hr. unfold make_stride_aligned.
  change (Z.to_nat 4) with 4%nat. simpl. unfold u32.
  repeat match goal with
         | |- context [?x mod 4 =? 0] => destruct (Z.eqb_spec (x mod 4) 0); simpl
         end; try assumption.
  exfalso. Z.div_mod_to_equations. lia.
Qed.

Lemma make_stride_aligned_least b :
  0 <= row_stride b <= 4294967292 ->
  row_stride b <= make_stride_aligned b 4 < row_stride b + 4.
Proof.
  intros Hr. unfold make_stride_aligned.
  change (Z.to_nat 4) with 4%nat. simpl. unfold u32.
  repeat match goal with
         | |- context [?x mod 4 =? 0] => destruct (Z.eqb_spec (x mod 4) 0); simpl
         end; Z.div_mod_to_equations; lia.
Qed.

(** ** Fields read from bytes are in the range of their type *)

Lemma byte_at_range bs i : 0 <= byte_at bs i < 256.
Proof. apply byte_val_range. Qed.

Lemma get16_range bs i : 0 <= get16 bs i < 65536.
Proof.
  unfold get16. pose proof (byte_at_range bs i).
  pose proof (byte_at_range bs (i + 1)). lia.
Qed.

Lemma get32_range bs i : 0 <= get32 bs i < 4294967296.
Proof.
  unfold get32. pose proof (byte_at_range bs i).
  pose proof (byte_at_range bs (i + 1)).
  pose proof (byte_at_range bs (i + 2)).
  pose proof (byte_at_range bs (i + 3)). lia.
Qed.

Lemma i32_range z : INT_MIN <= i32 z <= INT_MAX.
Proof.
  unfold i32, u32, INT_MIN, INT_MAX.
  pose proof (Z.mod_pos_bound z 4294967296 ltac:(lia)).
  destruct (Z.ltb_spec (z mod 4294967296) 2147483648); lia.
Qed.

Lemma get32s_range bs i : INT_MIN <= get32s bs i <= INT_MAX.
Proof. apply i32_range. Qed.

(** ** What [operator>>] leaves in [row_stride] *)

Lemma read_headers_continue inp b0 b s :
  read_headers inp b0 = inr (b, s) ->
  imageType b = u16 (Z.quot (bit_count (bmp_info_header b)) 8)
  /\ 0 <= bit_count (bmp_info_header b) < 65536.
Proof.
  unfold read_headers.
  destruct (failbit inp); [discriminate|].
  destruct (negb _); [discriminate|].
  destruct (_ && _); [discriminate|].
  intros [= <- _].
  repeat match goal with
         | |- context [if ?c then _ else _] => destruct c
         end; simpl; (split; [reflexivity|apply get16_range]).
Qed.

Lemma read_headers_row_stride inp b0 b s :
  read_headers inp b0 = inr (b, s) -> row_stride b = row_stride b0.
Proof.
  unfold read_headers.
  destruct (failbit inp); [discriminate|].
  destruct (negb _); [discriminate|].
  destruct (_ && _); [discriminate|].
  intros [= <- _].
  repeat match goal with
         | |- context [if ?c then _ else _] => destruct c
         end; reflexivity.
Qed.

Lemma read_pixels_returned b s b' s' :
  read_pixels b s = (Returned, b', s') ->
  bmp_info_header b' = bmp_info_header b
  /\ imageType b' = imageType b
  /\ (Z.rem (width (bmp_info_header b)) 4 = 0 -> row_stride b' = row_stride b)
  /\ (Z.rem (width (bmp_info_header b)) 4 <> 0 ->
        row_stride b'
        = u32 (Z.quot (width (bmp_info_header b) * bit_count (bmp_info_header b)) 8)
        /\ INT_MIN <= width (bmp_info_header b) * bit_count (bmp_info_header b)
           <= INT_MAX).
Proof.
  unfold read_pixels.
  destruct (bind _ _) as [a| |]; try discriminate.
  destruct (Z.quot a 8 <? 0); [discriminate|].
  destruct (Z.eqb_spec (Z.rem (width (bmp_info_header b)) 4) 0) as [Hz|Hnz].
  - intros [= <- _]. simpl. repeat split; auto; contradiction.
  - destruct (int_mul _ _) as [wb| |] eqn:Ewb; try discriminate.
    destruct (read_rows _ _ _) as [st| |]; try discriminate.
    intros [= <- _]. simpl. apply int_mul_Ok in Ewb as [-> Hr].
    repeat split; auto; try lia; contradiction.
Qed.

Lemma operator_extract_row_stride inp b0 b s :
  operator_extract inp b0 = (Returned, b, s) ->
  (bit_count (bmp_info_header b) = 24 \/ bit_count (bmp_info_header b) = 32) ->
  0 < width (bmp_info_header b) ->
  Z.rem (width (bmp_info_header b)) 4 <> 0 ->
  imageType b = bit_count (bmp_info_header b) / 8
  /\ row_stride b = width (bmp_info_header b) * imageType b
  /\ row_stride b <= 4294967292.
Proof.
  unfold operator_extract.
  destruct (read_headers inp b0) as [ended|[b1 s1]] eqn:Eh.
  - intros ->. unfold read_headers in Eh.
    destruct (failbit inp); [discriminate|].
    destruct (negb _); [discriminate|].
    destruct (_ && _); discriminate.
  - intros Hp Hbc Hw Hrem.
    destruct (read_headers_continue _ _ _ _ Eh) as [Hty _].
    destruct (read_pixels_returned _ _ _ _ Hp) as (Hih & Hit & _ & Hrs).
    rewrite <- Hih in *. rewrite <- Hit in Hty.
    destruct (Hrs Hrem) as [Hstride Hint]. unfold INT_MAX, INT_MIN in Hint.
    assert (Hty' : imageType b = bit_count (bmp_info_header b) / 8).
    { rewrite Hty. destruct Hbc as [-> | ->]; reflexivity. }
    split; [exact Hty'|].
    rewrite Hstride, Hty'. unfold u32.
    destruct Hbc as [E|E]; rewrite E in *.
    + rewrite Z.quot_div_nonneg by lia.
      replace (width (bmp_info_header b) * 24 / 8)
        with (width (bmp_info_header b) * 3)
        by (Z.div_mod_to_equations; lia).
      rewrite Z.mod_small by lia. change (24 / 8) with 3. lia.
    + rewrite Z.quot_div_nonneg by lia.
      replace (width (bmp_info_header b) * 32 / 8)
        with (width (bmp_info_header b) * 4)
        by (Z.div_mod_to_equations; lia).
      rewrite Z.mod_small by lia. change (32 / 8) with 4. lia.
Qed.

(** ** Streams *)

(** For a width that is a multiple of 4 [operator>>] never assigns
    [row_stride]. *)
Lemma operator_extract_row_stride_kept inp b0 b s :
  operator_extract inp b0 = (Returned, b, s) ->
  Z.rem (width (bmp_info_header b)) 4 = 0 ->
  row_stride b = row_stride b0.
Proof.
  unfold operator_extract.
  destruct (read_headers inp b0) as [ended|[b1 s1]] eqn:Eh.
  - intros ->. unfold read_headers in Eh.
    destruct (failbit inp); [discriminate|].
    destruct (negb _); [discriminate|].
    destruct (_ && _); discriminate.
  - intros Hp Hrem.
    destruct (read_pixels_returned _ _ _ _ Hp) as (Hih & _ & Hkeep & _).
    rewrite Hih in Hrem. rewrite (Hkeep Hrem).
    exact (read_headers_row_stride _ _ _ _ Eh).
Qed.

Lemma stream_read_full s n xs rest :
  failbit s = false ->
  drop (gpos s) (content s) = xs ++ rest ->
  length xs = n ->
  stream_read s n
  = (xs, {| content := content s; gpos := (gpos s + n)%nat; failbit := false |}).
Proof.
  intros Hf Hrem Hn. unfold stream_read. rewrite Hf, Hrem.
  rewrite take_app_length' by (symmetry; exact Hn).
  rewrite Hn, Nat.eqb_refl. reflexivity.
Qed.

Lemma drop_after_read (c : list byte) g xs rest :
  drop g c = xs ++ rest -> drop (g + length xs) c = rest.
Proof.
  intros H. rewrite <- drop_drop, H.
  apply drop_app_length.
Qed.

Lemma stream_read_length s n : (length (fst (stream_read s n)) <= n)%nat.
Proof.
  unfold stream_read. destruct (failbit s); simpl; [lia|].
  rewrite length_take. lia.
Qed.

Lemma overlay_full dst got : length got = length dst -> overlay dst 0 got = got.
Proof.
  intros H. unfold overlay. simpl. rewrite H.
  rewrite drop_all. apply app_nil_r.
Qed.

Lemma overlay_length dst off got :
  (off + length got <= length dst)%nat ->
  length (overlay dst off got) = length dst.
Proof.
  intros H. unfold overlay.
  rewrite !length_app, length_take, length_drop. lia.
Qed.

(** A read that ends at or before [k] leaves the buffer from [k] on as it
    was. *)
Lemma overlay_drop dst off got k :
  (off + length got <= k)%nat -> (k <= length dst)%nat ->
  drop k (overlay dst off got) = drop k dst.
Proof.
  intros H Hk. unfold overlay.
  rewrite drop_app_ge by (rewrite length_take; lia).
  rewrite length_take, drop_app_ge by lia.
  rewrite drop_drop. f_equal. lia.
Qed.

(** ** The object representation of the headers *)

Lemma bytes_of_file_header_length h : length (bytes_of_file_header h) = 14%nat.
Proof. reflexivity. Qed.

Lemma bytes_of_info_header_length h : length (bytes_of_info_header h) = 40%nat.
Proof. reflexivity. Qed.

Lemma flat_map_le32_length ws : length (flat_map le32 ws) = (4 * length ws)%nat.
Proof. induction ws as [|v ws IH]; simpl; lia. Qed.

Lemma bytes_of_color_header_length h :
  length (unused h) = 16%nat -> length (bytes_of_color_header h) = 84%nat.
Proof.
  intros H. unfold bytes_of_color_header.
  rewrite !length_app, flat_map_le32_length, H. reflexivity.
Qed.

Lemma le16_value v : 0 <= v < 65536 -> v mod 256 + 256 * ((v / 256) mod 256) = v.
Proof. intros H. Z.div_mod_to_equations. lia. Qed.

Lemma le32_value v :
  v mod 256 + 256 * ((v / 256) mod 256) + 65536 * ((v / 65536) mod 256)
  + 16777216 * ((v / 16777216) mod 256) = v mod 4294967296.
Proof. Z.div_mod_to_equations. lia. Qed.

Lemma i32_u32 v : INT_MIN <= v <= INT_MAX -> i32 v = v.
Proof.
  unfold i32, u32, INT_MIN, INT_MAX. intros H.
  destruct (Z.ltb_spec (v mod 4294967296) 2147483648);
    Z.div_mod_to_equations; lia.
Qed.

Lemma i32_mod v : i32 (v mod 4294967296) = i32 v.
Proof. unfold i32, u32. rewrite Z.mod_mod by lia. reflexivity. Qed.

Lemma file_header_round_trip h :
  file_header_ok h -> file_header_of_bytes (bytes_of_file_header h) = h.
Proof.
  destruct h as [ft fs r1 r2 od]. unfold file_header_ok. simpl.
  intros (Hft & Hfs & Hr1 & Hr2 & Hod).
  unfold file_header_of_bytes, bytes_of_file_header, get16, get32, byte_at, le16, le32.
  cbn [app nth Nat.add file_type file_size reserved1 reserved2 offset_data].
  rewrite !byte_val_of.
  rewrite !le32_value. rewrite !le16_value by assumption.
  rewrite !Z.mod_small by assumption. reflexivity.
Qed.

Lemma info_header_round_trip h :
  info_header_ok h -> info_header_of_bytes (bytes_of_info_header h) = h.
Proof.
  destruct h as [sz w h pl bc co si xp yp cu ci]. unfold info_header_ok. simpl.
  intros (Hsz & Hw & Hh & Hpl & Hbc & Hco & Hsi & Hxp & Hyp & Hcu & Hci).
  unfold info_header_of_bytes, bytes_of_info_header, get16, get32s, get32,
    byte_at, le16, le32.
  cbn [app nth Nat.add size width height planes bit_count compression size_image
         x_pixels_per_meter y_pixels_per_meter colors_used colors_important].
  rewrite !byte_val_of.
  rewrite !le32_value. rewrite !le16_value by assumption.
  rewrite !i32_mod, !i32_u32 by assumption.
  rewrite !Z.mod_small by assumption. reflexivity.
Qed.

Lemma color_header_round_trip h :
  color_header_ok h -> color_header_of_bytes (bytes_of_color_header h) = h.
Proof.
  destruct h as [r g bl a cs u]. unfold color_header_ok. simpl.
  intros (Hr & Hg & Hb & Ha & Hcs & Hlen & Hall).
  do 17 (destruct u as [|? u]; try discriminate).
  repeat match goal with
         | H : Forall _ (_ :: _) |- _ => apply Forall_cons in H as [? H]
         end.
  unfold color_header_of_bytes, bytes_of_color_header, get32, byte_at, le32.
  cbn [app nth Nat.add Nat.mul flat_map map seq red_mask green_mask blue_mask
         alpha_mask color_space_type unused].
  rewrite !byte_val_of.
  rewrite !le32_value.
  rewrite !Z.mod_small by assumption. reflexivity.
Qed.

Lemma file_header_of_bytes_ok bs : file_header_ok (file_header_of_bytes bs).
Proof.
  unfold file_header_ok, file_header_of_bytes. simpl.
  repeat split; try apply get16_range; apply get32_range.
Qed.

Lemma info_header_of_bytes_ok bs : info_header_ok (info_header_of_bytes bs).
Proof.
  unfold info_header_ok, info_header_of_bytes. simpl.
  repeat split; try apply get16_range; try apply get32_range;
    apply get32s_range.
Qed.

Lemma color_header_of_bytes_ok bs : color_header_ok (color_header_of_bytes bs).
Proof.
  unfold color_header_ok, color_header_of_bytes. simpl.
  repeat split; try apply get32_range.
  repeat constructor; try apply get32_range.
Qed.

Lemma BMPColorHeader_init_ok : color_header_ok BMPColorHeader_init.
Proof.
  unfold color_header_ok, BMPColorHeader_init. simpl.
  repeat split; try lia. repeat constructor; lia.
Qed.

(** ** The header phase of [operator>>] *)

Lemma stream_read_at (c : list byte) g n :
  (g + n <= length c)%nat ->
  stream_read {| content := c; gpos := g; failbit := false |} n
  = (take n (drop g c), {| content := c; gpos := (g + n)%nat; failbit := false |}).
Proof.
  intros H.
  apply (stream_read_full {| content := c; gpos := g; failbit := false |} n
           (take n (drop g c)) (drop n (drop g c))).
  - reflexivity.
  - simpl. symmetry. apply take_drop.
  - rewrite length_take, length_drop. lia.
Qed.

Lemma read_headers_ok c :
  (54 <= length c)%nat ->
  file_type (stored_file_header c) = 0x4D42 ->
  (bit_count (stored_info_header c) = 32 ->
     124 <= size (stored_info_header c) /\ (138 <= length c)%nat) ->
  read_headers (istream_of c) Bitmap_init
  = inr (headers_bitmap (stored_file_header c) (stored_info_header c)
           (stored_color_header c),
         {| content := c; gpos := Z.to_nat (offset_data (stored_file_header c));
            failbit := false |}).
Proof.
  intros Hlen Hty H32. unfold read_headers, istream_of.
  change (Z.to_nat sizeof_BMPFileHeader) with 14%nat.
  change (Z.to_nat sizeof_BMPInfoHeader) with 40%nat.
  change (Z.to_nat sizeof_BMPColorHeader) with 84%nat.
  cbn [failbit].
  rewrite (stream_read_at c 0 14) by lia. cbn [fst snd Nat.add].
  change (drop 0 c) with c.
  rewrite overlay_full
    by (rewrite length_take, bytes_of_file_header_length; lia).
  fold (stored_file_header c). rewrite Hty. cbn [negb Z.eqb Pos.eqb].
  cbn [set_file_header row_stride imageType bmp_info_header bmp_color_header data
         file_header Bitmap_init].
  rewrite (stream_read_at c 14 40) by lia. cbn [fst snd Nat.add].
  rewrite overlay_full
    by (rewrite length_take, length_drop, bytes_of_info_header_length; lia).
  fold (stored_info_header c).
  unfold headers_bitmap, header_size.
  destruct (Z.eqb_spec (bit_count (stored_info_header c)) 32) as [E32|N32].
  - destruct (H32 E32) as [Hsz Hlen'].
    destruct (Z.leb_spec (sizeof_BMPInfoHeader + sizeof_BMPColorHeader)
                (size (stored_info_header c))) as [_|Hlt];
      [|unfold sizeof_BMPInfoHeader, sizeof_BMPColorHeader in Hlt; lia].
    cbn [andb negb].
    rewrite (stream_read_at c 54 84) by lia. cbn [fst snd].
    cbn [set_imageType set_info_header set_color_header row_stride imageType
           bmp_info_header bmp_color_header data file_header].
    change (bmp_color_header (set_file_header Bitmap_init (stored_file_header c)))
      with BMPColorHeader_init.
    rewrite overlay_full
      by (rewrite length_take, length_drop,
            (bytes_of_color_header_length BMPColorHeader_init eq_refl); lia).
    fold (stored_color_header c). unfold seekg. cbn [failbit content].
    reflexivity.
  - cbn [andb]. cbn [fst snd]. unfold seekg. cbn [failbit content].
    reflexivity.
Qed.

(** A 32-bit file whose header declares less than the two headers: the
    [BitmapException] is thrown and caught inside [operator>>]. *)
Lemma operator_extract_missing_masks c :
  (54 <= length c)%nat ->
  file_type (stored_file_header c) = 0x4D42 ->
  bit_count (stored_info_header c) = 32 ->
  size (stored_info_header c) < 124 ->
  operator_extract (istream_of c) Bitmap_init
  = (Swallowed (BitmapException 74),
     set_imageType
       (set_info_header (set_file_header Bitmap_init (stored_file_header c))
          (stored_info_header c)) 4,
     {| content := c; gpos := 54; failbit := false |}).
Proof.
  intros Hlen Hty H32 Hsz. unfold operator_extract, read_headers, istream_of.
  change (Z.to_nat sizeof_BMPFileHeader) with 14%nat.
  change (Z.to_nat sizeof_BMPInfoHeader) with 40%nat.
  cbn [failbit].
  rewrite (stream_read_at c 0 14) by lia. cbn [fst snd Nat.add].
  change (drop 0 c) with c.
  rewrite overlay_full
    by (rewrite length_take, bytes_of_file_header_length; lia).
  fold (stored_file_header c). rewrite Hty. cbn [negb Z.eqb Pos.eqb].
  cbn [set_file_header row_stride imageType bmp_info_header bmp_color_header data
         file_header Bitmap_init].
  rewrite (stream_read_at c 14 40) by lia. cbn [fst snd Nat.add].
  rewrite overlay_full
    by (rewrite length_take, length_drop, bytes_of_info_header_length; lia).
  fold (stored_info_header c). rewrite H32. cbn [Z.eqb Pos.eqb andb].
  destruct (Z.leb_spec (sizeof_BMPInfoHeader + sizeof_BMPColorHeader)
              (size (stored_info_header c))) as [Hge|_];
    [unfold sizeof_BMPInfoHeader, sizeof_BMPColorHeader in Hge; lia|].
  reflexivity.
Qed.

(** ** The pixel phase of [operator>>] *)

(** The row loop on any stream: the buffer keeps its size and its bytes
    from [row_stride * height] on. *)
Lemma read_rows_any b pad d s :
  0 <= height (bmp_info_header b) ->
  0 <= row_stride b ->
  row_stride b * height (bmp_info_header b) <= Z.of_nat (length d) ->
  Z.of_nat (length d) < 4294967296 ->
  exists d' s',
    read_rows b pad (d, s) = Ok (d', s')
    /\ length d' = length d
    /\ drop (Z.to_nat (row_stride b * height (bmp_info_header b))) d'
       = drop (Z.to_nat (row_stride b * height (bmp_info_header b))) d.
Proof.
  intros Hh Hrs Hfit Hsz. unfold read_rows.
  set (K := Z.to_nat (row_stride b * height (bmp_info_header b))).
  destruct (for_int_rule
              (fun (_ : Z) (st : list byte * istream) =>
                 length (fst st) = length d /\ drop K (fst st) = drop K d)
              (height (bmp_info_header b))
              (fun y st =>
                 let off := u32 (row_stride b * y) in
                 if off + row_stride b <=? Z.of_nat (length (fst st)) then
                   let r := stream_read (snd st) (Z.to_nat (row_stride b)) in
                   let p := stream_read (snd r) (Z.to_nat pad) in
                   Ok (overlay (fst st) (Z.to_nat off) (fst r), snd p)
                 else Undefined (BufferIndex (off + row_stride b)))
              (d, s))
    as ([d' s'] & Hrun & Hl & Hd); auto.
  - intros y [dy sy] Hy [Hly Hdy]. simpl in Hly, Hdy. cbv zeta. cbn [fst snd].
    assert (Hoff : u32 (row_stride b * y) = row_stride b * y).
    { unfold u32. apply Z.mod_small. nia. }
    rewrite Hoff.
    assert (Hend : row_stride b * y + row_stride b
                   <= row_stride b * height (bmp_info_header b)) by nia.
    destruct (Z.leb_spec (row_stride b * y + row_stride b) (Z.of_nat (length dy)));
      [|lia].
    pose proof (stream_read_length sy (Z.to_nat (row_stride b))) as Hgot.
    eexists. split; [reflexivity|]. cbn [fst]. split.
    + rewrite overlay_length; [exact Hly|]. lia.
    + rewrite overlay_drop; [exact Hdy| |]; subst K; lia.
  - exists d', s'. auto.
Qed.

Section RoundTrip.

Variables (fh : BMPFileHeader) (ih : BMPInfoHeader) (ch : BMPColorHeader).
Hypothesis Hcd : codec_headers fh ih ch.

Let hb : Bitmap := headers_bitmap fh ih ch.

Lemma codec_sizes :
  exists bpp,
    (bpp = 3 \/ bpp = 4)
    /\ bit_count ih = 8 * bpp
    /\ buffer_size ih = 9 * (width ih * height ih * bpp)
    /\ packed_stride ih = width ih * bpp
    /\ u16 (Z.quot (bit_count ih) 8) = bpp
    /\ 72 * (width ih * height ih * bpp) <= INT_MAX
    /\ 0 < width ih * height ih * bpp
    /\ width ih * bpp <= width ih * height ih * bpp.
Proof.
  destruct Hcd as [_ _ _ _ Hbc Hw Hh Hsz].
  unfold buffer_size, packed_stride, u32, INT_MAX in *.
  assert (Hwh : 0 < width ih * height ih) by nia.
  destruct Hbc as [E|E]; rewrite E in *.
  - exists 3. split; [left; reflexivity|]. split; [reflexivity|].
    split; [|split; [|split; [reflexivity|split; [lia|split; [lia|nia]]]]].
    + replace (width ih * 3 * 3 * height ih * 24)
        with (9 * (width ih * height ih * 3) * 8) by ring.
      apply Z.quot_mul. lia.
    + replace (width ih * 24) with (width ih * 3 * 8) by ring.
      rewrite Z.quot_mul by lia. apply Z.mod_small. nia.
  - exists 4. split; [right; reflexivity|]. split; [reflexivity|].
    split; [|split; [|split; [reflexivity|split; [lia|split; [lia|nia]]]]].
    + replace (width ih * 3 * 3 * height ih * 32)
        with (9 * (width ih * height ih * 4) * 8) by ring.
      apply Z.quot_mul. lia.
    + replace (width ih * 32) with (width ih * 4 * 8) by ring.
      rewrite Z.quot_mul by lia. apply Z.mod_small. nia.
Qed.

Lemma size_products :
  int_mul (width ih) 3 = Ok (width ih * 3)
  /\ int_mul (width ih * 3) 3 = Ok (width ih * 3 * 3)
  /\ int_mul (width ih * 3 * 3) (height ih) = Ok (width ih * 3 * 3 * height ih)
  /\ int_mul (width ih * 3 * 3 * height ih) (bit_count ih)
     = Ok (width ih * 3 * 3 * height ih * bit_count ih)
  /\ int_mul (width ih) (bit_count ih) = Ok (width ih * bit_count ih).
Proof.
  destruct Hcd as [_ _ _ _ Hbc Hw Hh Hsz].
  unfold INT_MAX in Hsz.
  assert (0 < bit_count ih) by (destruct Hbc; lia).
  assert (Hwh : 0 < width ih * height ih) by nia.
  repeat split; apply int_mul_in; unfold INT_MIN, INT_MAX; split; nia.
Qed.

Lemma read_pixels_any s :
  exists d s',
    read_pixels hb s = (Returned, pixels_bitmap hb d, s')
    /\ Z.of_nat (length d) = buffer_size ih
    /\ (Z.rem (width ih) 4 <> 0 ->
          drop (Z.to_nat (packed_stride ih * height ih)) d
          = replicate (Z.to_nat (buffer_size ih - packed_stride ih * height ih)) x00).
Proof.
  destruct codec_sizes as (bpp & Hbpp & Hbc & HN & Hrs & _ & Hmax & Hpos & Hrow).
  destruct size_products as (M1 & M2 & M3 & M4 & M5).
  pose proof (cd_width _ _ _ Hcd) as Hw. pose proof (cd_height _ _ _ Hcd) as Hh.
  unfold INT_MAX in Hmax.
  unfold read_pixels, pixels_bitmap. subst hb.
  cbn [headers_bitmap bmp_info_header file_header width height bit_count set_size data].
  rewrite M1. cbn [bind]. rewrite M2. cbn [bind]. rewrite M3. cbn [bind].
  rewrite M4. fold (buffer_size ih).
  destruct (Z.ltb_spec (buffer_size ih) 0) as [Hneg|_]; [lia|].
  unfold resize. rewrite take_nil. cbn [app length Nat.sub set_data data].
  rewrite Nat.sub_0_r.
  set (zeros := replicate (Z.to_nat (buffer_size ih)) x00).
  assert (Hz : length zeros = Z.to_nat (buffer_size ih))
    by apply length_replicate.
  destruct (Z.eqb_spec (Z.rem (width ih) 4) 0) as [Hrem|Hrem].
  - pose proof (stream_read_length s (length zeros)) as Hgot.
    exists (overlay zeros 0 (fst (stream_read s (length zeros)))). eexists.
    split; [reflexivity|]. split; [|contradiction].
    rewrite overlay_length by (simpl; lia). lia.
  - rewrite M5. fold (packed_stride ih).
    cbn [set_row_stride row_stride imageType file_header bmp_info_header
           bmp_color_header data].
    match goal with
    | |- context [read_rows ?b ?pad (?d0, ?s0)] =>
        destruct (read_rows_any b pad d0 s0) as (d' & s' & Hrun & Hl & Hd)
    end.
    + simpl. lia.
    + simpl. lia.
    + simpl. rewrite Hz. nia.
    + simpl. rewrite Hz. lia.
    + rewrite Hrun. exists d', s'. cbn [fst snd]. simpl in Hl.
      split; [reflexivity|]. split; [lia|]. intros _.
      simpl in Hd.
      rewrite Hd. subst zeros. rewrite drop_replicate. f_equal. lia.
Qed.

End RoundTrip.

(** ** The row loops against each other *)

Lemma file_rows_snoc d rs pad k n :
  file_rows d rs pad k (Datatypes.S n)
  = file_rows d rs pad k n
    ++ take rs (drop (rs * (k + n)) d) ++ replicate pad x00.
Proof.
  unfold file_rows. rewrite seq_S, flat_map_app. simpl.
  rewrite app_nil_r. reflexivity.
Qed.

Lemma file_rows_cons d rs pad k n :
  file_rows d rs pad k (Datatypes.S n)
  = take rs (drop (rs * k) d) ++ replicate pad x00
    ++ file_rows d rs pad (Datatypes.S k) n.
Proof.
  unfold file_rows. simpl. rewrite <- app_assoc. reflexivity.
Qed.

Lemma slice_in_range d off n :
  0 <= off -> 0 <= n -> off + n <= Z.of_nat (length d) ->
  slice d off n = Ok (take (Z.to_nat n) (drop (Z.to_nat off) d)).
Proof.
  intros Ho Hn He. unfold slice.
  destruct (Z.leb_spec 0 off); [|lia].
  destruct (Z.leb_spec 0 n); [|lia].
  destruct (Z.leb_spec (off + n) (Z.of_nat (length d))); [|lia].
  reflexivity.
Qed.

(** [operator<<] writes the rows of the buffer one after the other, each
    followed by its padding. *)
Lemma write_rows_spec b pad hdr :
  0 <= height (bmp_info_header b) ->
  0 <= row_stride b ->
  row_stride b * height (bmp_info_header b) <= Z.of_nat (length (data b)) ->
  Z.of_nat (length (data b)) < 4294967296 ->
  write_rows b pad {| written := hdr; badbit := false |}
  = Ok {| written :=
            hdr ++ file_rows (data b) (Z.to_nat (row_stride b)) (Z.to_nat pad)
                     0 (Z.to_nat (height (bmp_info_header b)));
          badbit := false |}.
Proof.
  intros Hh Hrs Hfit Hsz. unfold write_rows.
  destruct (for_int_rule
              (fun y o =>
                 o = {| written :=
                          hdr ++ file_rows (data b) (Z.to_nat (row_stride b))
                                   (Z.to_nat pad) 0 (Z.to_nat y);
                        badbit := false |})
              (height (bmp_info_header b))
              (fun y o =>
                 let* row := slice (data b) (u32 (row_stride b * y)) (row_stride b) in
                 Ok (stream_write (stream_write o row)
                       (replicate (Z.to_nat pad) x00)))
              {| written := hdr; badbit := false |})
    as (o & Hrun & Ho); auto.
  - simpl. rewrite app_nil_r. reflexivity.
  - intros y o Hy ->.
    assert (Hoff : u32 (row_stride b * y) = row_stride b * y).
    { unfold u32. apply Z.mod_small. nia. }
    rewrite Hoff, slice_in_range by nia. cbn [bind].
    eexists. split; [reflexivity|].
    unfold stream_write. cbn [badbit written]. f_equal.
    replace (Z.to_nat (y + 1)) with (Datatypes.S (Z.to_nat y)) by lia.
    rewrite file_rows_snoc. rewrite <- !app_assoc. do 3 f_equal.
    rewrite Z2Nat.inj_mul by lia. reflexivity.
  - rewrite Hrun, Ho. reflexivity.
Qed.

(** [operator>>] reading rows that a stream feeds it one after the other:
    the buffer, zero at first, receives the rows of [d1]. *)
Lemma read_rows_feed b pad (c d1 : list byte) (feed : nat -> list byte) s :
  0 <= height (bmp_info_header b) ->
  0 <= row_stride b -> 0 <= pad ->
  row_stride b * height (bmp_info_header b) <= Z.of_nat (length d1) ->
  Z.of_nat (length d1) < 4294967296 ->
  (forall k, (k < Z.to_nat (height (bmp_info_header b)))%nat ->
     feed k = take (Z.to_nat (row_stride b))
                (drop (Z.to_nat (row_stride b) * k) d1)
              ++ replicate (Z.to_nat pad) x00 ++ feed (Datatypes.S k)) ->
  content s = c -> failbit s = false -> drop (gpos s) c = feed 0%nat ->
  exists s',
    read_rows b pad (replicate (length d1) x00, s)
    = Ok (take (Z.to_nat (row_stride b * height (bmp_info_header b))) d1
          ++ replicate
               (length d1 - Z.to_nat (row_stride b * height (bmp_info_header b)))
               x00,
          s').
Proof.
  intros Hh Hrs Hpad Hfit Hsz Hfeed Hc Hf Hg. unfold read_rows.
  set (rs := Z.to_nat (row_stride b)).
  destruct (for_int_rule
              (fun y (st : list byte * istream) =>
                 fst st = take (rs * Z.to_nat y) d1
                          ++ replicate (length d1 - rs * Z.to_nat y) x00
                 /\ content (snd st) = c /\ failbit (snd st) = false
                 /\ drop (gpos (snd st)) c = feed (Z.to_nat y))
              (height (bmp_info_header b))
              (fun y st =>
                 let off := u32 (row_stride b * y) in
                 if off + row_stride b <=? Z.of_nat (length (fst st)) then
                   let r := stream_read (snd st) (Z.to_nat (row_stride b)) in
                   let p := stream_read (snd r) (Z.to_nat pad) in
                   Ok (overlay (fst st) (Z.to_nat off) (fst r), snd p)
                 else Undefined (BufferIndex (off + row_stride b)))
              (replicate (length d1) x00, s))
    as ([d' s'] & Hrun & Hd & _); auto.
  - cbn [fst snd]. rewrite Nat.mul_0_r, take_0, Nat.sub_0_r. auto.
  - intros y [dy sy] Hy (Hdy & Hcy & Hfy & Hgy). cbn [fst snd] in *.
    cbv zeta. cbn [fst snd].
    set (k := Z.to_nat y) in *.
    assert (Hk : (rs * k + rs <= length d1)%nat).
    { subst rs k. nia. }
    assert (Hoff : u32 (row_stride b * y) = row_stride b * y).
    { unfold u32. apply Z.mod_small. nia. }
    assert (Hoffn : Z.to_nat (row_stride b * y) = (rs * k)%nat).
    { subst rs k. rewrite Z2Nat.inj_mul by lia. reflexivity. }
    assert (Hlen : length dy = length d1).
    { rewrite Hdy, length_app, length_take, length_replicate. lia. }
    rewrite Hoff, Hlen.
    destruct (Z.leb_spec (row_stride b * y + row_stride b) (Z.of_nat (length d1)));
      [|nia].
    rewrite (Hfeed k ltac:(subst k; lia)) in Hgy. fold rs in Hgy |- *.
    rewrite <- Hcy in Hgy.
    rewrite (stream_read_full sy rs _ _ Hfy Hgy)
      by (rewrite length_take, length_drop; lia).
    cbn [fst snd].
    assert (Hg1 : drop (gpos sy + rs) (content sy)
                  = replicate (Z.to_nat pad) x00 ++ feed (Datatypes.S k)).
    { replace rs with (length (take rs (drop (rs * k) d1))) at 1
        by (rewrite length_take, length_drop; lia).
      apply (drop_after_read _ _ _ _ Hgy). }
    rewrite (stream_read_full
               {| content := content sy; gpos := (gpos sy + rs)%nat; failbit := false |}
               (Z.to_nat pad) _ _ eq_refl Hg1)
      by apply length_replicate.
    cbn [fst snd]. eexists. split; [reflexivity|]. cbn [fst snd content failbit gpos].
    replace (Z.to_nat (y + 1)) with (Datatypes.S k) by (subst k; lia).
    split; [|split; [exact Hcy|split; [reflexivity|]]].
    + rewrite Hoffn, Hdy. unfold overlay.
      rewrite take_app_length' by (rewrite length_take; lia).
      rewrite length_take, length_drop.
      replace (rs `min` (length d1 - rs * k))%nat with rs by lia.
      rewrite drop_app_ge by (rewrite length_take; lia).
      rewrite length_take, drop_replicate.
      replace ((rs * k) `min` length d1)%nat with (rs * k)%nat by lia.
      rewrite app_assoc, take_take_drop, Nat.mul_succ_r. f_equal.
      f_equal. lia.
    + rewrite <- Hcy.
      replace (Z.to_nat pad) with (length (replicate (Z.to_nat pad) x00)) at 1
        by apply length_replicate.
      apply (drop_after_read _ _ _ _ Hg1).
  - exists s'. cbn [fst] in Hd. subst rs.
    etransitivity; [exact Hrun|].
    rewrite Hd, Z2Nat.inj_mul by lia. reflexivity.
Qed.

(** ** [operator<<] *)

Lemma write_headers_init b :
  write_headers b ostream_init = {| written := header_bytes b; badbit := false |}.
Proof.
  unfold write_headers, header_bytes, ostream_init, stream_write.
  cbn [badbit written app].
  destruct (bit_count (bmp_info_header b) =? 32); cbn [badbit written].
  - rewrite <- app_assoc. reflexivity.
  - rewrite app_nil_r. reflexivity.
Qed.

Lemma operator_insert_encoded b :
  (bit_count (bmp_info_header b) = 24 \/ bit_count (bmp_info_header b) = 32) ->
  (bit_count (bmp_info_header b) = 24 ->
   Z.rem (width (bmp_info_header b)) 4 <> 0 ->
   0 <= height (bmp_info_header b) /\ 0 <= row_stride b
   /\ row_stride b * height (bmp_info_header b) <= Z.of_nat (length (data b))
   /\ Z.of_nat (length (data b)) < 4294967296) ->
  operator_insert ostream_init b
  = (Broken MissingReturn, {| written := encoded b; badbit := false |}).
Proof.
  intros Hbc Hrows. unfold operator_insert, encoded, write_headers_and_data.
  cbn [badbit ostream_init]. fold ostream_init.
  rewrite write_headers_init. unfold stream_write. cbn [badbit written].
  destruct Hbc as [E|E]; rewrite E in *; cbn [Z.eqb Pos.eqb orb].
  - destruct (Z.eqb_spec (Z.rem (width (bmp_info_header b)) 4) 0) as [Hz|Hnz].
    + reflexivity.
    + destruct (Hrows eq_refl Hnz) as (Hh & Hrs & Hfit & Hsz).
      rewrite write_rows_spec by assumption. reflexivity.
  - reflexivity.
Qed.

(** ** The headers of an encoded file *)

Lemma header_bytes_length b :
  length (unused (bmp_color_header b)) = 16%nat ->
  Z.of_nat (length (header_bytes b))
  = sizeof_BMPFileHeader + header_size (bmp_info_header b).
Proof.
  intros Hu. unfold header_bytes, header_size.
  rewrite !length_app, bytes_of_file_header_length, bytes_of_info_header_length.
  destruct (bit_count (bmp_info_header b) =? 32).
  - rewrite bytes_of_color_header_length by exact Hu. reflexivity.
  - reflexivity.
Qed.

Lemma stored_file_header_encoded b body :
  file_header_ok (file_header b) ->
  stored_file_header (header_bytes b ++ body) = file_header b.
Proof.
  intros Hok. unfold stored_file_header, header_bytes.
  rewrite <- !app_assoc.
  rewrite take_app_length' by reflexivity.
  apply file_header_round_trip. exact Hok.
Qed.

Lemma stored_info_header_encoded b body :
  info_header_ok (bmp_info_header b) ->
  stored_info_header (header_bytes b ++ body) = bmp_info_header b.
Proof.
  intros Hok. unfold stored_info_header, header_bytes.
  rewrite <- !app_assoc.
  rewrite drop_app_length' by reflexivity.
  rewrite take_app_length' by reflexivity.
  apply info_header_round_trip. exact Hok.
Qed.

Lemma stored_color_header_encoded b body :
  bit_count (bmp_info_header b) = 32 ->
  color_header_ok (bmp_color_header b) ->
  stored_color_header (header_bytes b ++ body) = bmp_color_header b.
Proof.
  intros H32 Hok. unfold stored_color_header, header_bytes.
  rewrite H32. cbn [Z.eqb Pos.eqb].
  rewrite <- !app_assoc.
  rewrite (app_assoc (bytes_of_file_header _)).
  rewrite drop_app_length' by reflexivity.
  rewrite take_app_length'
    by (symmetry; apply bytes_of_color_header_length; apply Hok).
  apply color_header_round_trip. exact Hok.
Qed.

Lemma make_stride_aligned_fixed b :
  row_stride b mod 4 = 0 -> make_stride_aligned b 4 = row_stride b.
Proof.
  intros H. unfold make_stride_aligned.
  change (Z.to_nat 4) with 4%nat. simpl. rewrite H. reflexivity.
Qed.

Lemma make_stride_aligned_stride b b' :
  row_stride b' = row_stride b ->
  make_stride_aligned b' 4 = make_stride_aligned b 4.
Proof. intros H. unfold make_stride_aligned. rewrite H. reflexivity. Qed.

Section RoundTripEncoded.

Variables (fh : BMPFileHeader) (ih : BMPInfoHeader) (ch : BMPColorHeader).
Hypothesis Hcd : codec_headers fh ih ch.

Let hb : Bitmap := headers_bitmap fh ih ch.

Variable d : list byte.
Hypothesis Hlen : Z.of_nat (length d) = buffer_size ih.
Hypothesis Htail :
  Z.rem (width ih) 4 <> 0 ->
  drop (Z.to_nat (packed_stride ih * height ih)) d
  = replicate (Z.to_nat (buffer_size ih - packed_stride ih * height ih)) x00.

Let b1 : Bitmap := pixels_bitmap hb d.

Lemma pixels_bitmap_fields :
  bmp_info_header b1 = set_size ih (header_size ih)
  /\ bmp_color_header b1 = (if bit_count ih =? 32 then ch else BMPColorHeader_init)
  /\ imageType b1 = u16 (Z.quot (bit_count ih) 8)
  /\ data b1 = d
  /\ row_stride b1 = (if Z.rem (width ih) 4 =? 0 then 0 else packed_stride ih)
  /\ file_type (file_header b1) = file_type fh
  /\ reserved1 (file_header b1) = reserved1 fh
  /\ reserved2 (file_header b1) = reserved2 fh
  /\ offset_data (file_header b1) = sizeof_BMPFileHeader + header_size ih
  /\ 0 <= file_size (file_header b1) < 4294967296.
Proof.
  subst b1 hb. unfold pixels_bitmap.
  cbn [headers_bitmap bmp_info_header file_header width height set_size].
  destruct (Z.rem (width ih) 4 =? 0); cbn;
    repeat split; try reflexivity; try (apply Z.mod_pos_bound; lia).
Qed.

Lemma b1_file_header_ok : file_header_ok (file_header b1).
Proof.
  destruct pixels_bitmap_fields as (_ & _ & _ & _ & _ & Ht & Hr1 & Hr2 & Ho & Hs).
  destruct (cd_file _ _ _ Hcd) as (Ft & _ & F1 & F2 & _).
  unfold file_header_ok. rewrite Ht, Hr1, Hr2, Ho.
  repeat split; try lia.
  - unfold sizeof_BMPFileHeader, header_size, sizeof_BMPInfoHeader,
      sizeof_BMPColorHeader. destruct (bit_count ih =? 32); lia.
  - unfold sizeof_BMPFileHeader, header_size, sizeof_BMPInfoHeader,
      sizeof_BMPColorHeader. destruct (bit_count ih =? 32); lia.
Qed.

Lemma b1_info_header_ok : info_header_ok (bmp_info_header b1).
Proof.
  destruct pixels_bitmap_fields as (Hi & _).
  rewrite Hi. destruct (cd_info _ _ _ Hcd) as (_ & Hrest).
  unfold info_header_ok. cbn [set_size size width height planes bit_count
    compression size_image x_pixels_per_meter y_pixels_per_meter colors_used
    colors_important].
  split; [|exact Hrest].
  unfold header_size, sizeof_BMPInfoHeader, sizeof_BMPColorHeader.
  destruct (bit_count ih =? 32); lia.
Qed.

Lemma b1_color_header_ok : color_header_ok (bmp_color_header b1).
Proof.
  destruct pixels_bitmap_fields as (_ & Hc & _). rewrite Hc.
  destruct (bit_count ih =? 32);
    [apply (cd_color _ _ _ Hcd)|apply BMPColorHeader_init_ok].
Qed.

(** The header phase on the encoded file rebuilds [hb]. *)
Lemma read_headers_encoded :
  read_headers (istream_of (encoded b1)) Bitmap_init
  = inr (hb, {| content := encoded b1; gpos := length (header_bytes b1);
                failbit := false |}).
Proof.
  destruct pixels_bitmap_fields
    as (Hi & Hc & Hty & Hd & Hrs & Ht & Hr1 & Hr2 & Ho & Hs).
  pose proof b1_file_header_ok as Fok.
  pose proof b1_info_header_ok as Iok.
  pose proof b1_color_header_ok as Cok.
  pose proof (header_bytes_length b1 ltac:(apply Cok)) as Hhl.
  unfold encoded.
  match goal with
  | |- context [header_bytes b1 ++ ?x] => set (body := x)
  end.
  assert (Hbits : bit_count (bmp_info_header b1) = bit_count ih)
    by (rewrite Hi; reflexivity).
  assert (Hhs : header_size (bmp_info_header b1) = header_size ih)
    by (unfold header_size; rewrite Hbits; reflexivity).
  rewrite Hhs in Hhl.
  rewrite read_headers_ok.
  - rewrite stored_file_header_encoded, stored_info_header_encoded by assumption.
    f_equal. f_equal.
    + subst hb. unfold headers_bitmap. rewrite Hhs, Hbits, Ht, Hr1, Hr2.
      rewrite Hi at 1.
      replace (set_size (set_size ih (header_size ih)) (header_size ih))
        with (set_size ih (header_size ih)) by reflexivity.
      destruct (Z.eqb_spec (bit_count ih) 32) as [E|E].
      * rewrite stored_color_header_encoded by (assumption || congruence).
        rewrite Hc. destruct (Z.eqb_spec (bit_count ih) 32); [reflexivity|contradiction].
      * reflexivity.
    + f_equal. rewrite Ho. lia.
  - rewrite length_app.
    unfold sizeof_BMPFileHeader, header_size, sizeof_BMPInfoHeader,
      sizeof_BMPColorHeader in Hhl.
    destruct (bit_count ih =? 32); lia.
  - rewrite stored_file_header_encoded by assumption.
    rewrite Ht. apply (cd_type _ _ _ Hcd).
  - rewrite stored_info_header_encoded by assumption.
    rewrite Hbits. intros E. rewrite Hi. cbn [size set_size].
    rewrite length_app.
    unfold sizeof_BMPFileHeader, header_size, sizeof_BMPInfoHeader,
      sizeof_BMPColorHeader in *.
    rewrite E in *. cbn [Z.eqb Pos.eqb] in *. lia.
Qed.

Lemma encoded_b1_rows :
  Z.rem (width ih) 4 <> 0 ->
  exists feed : nat -> list byte,
    encoded b1 = header_bytes b1 ++ feed 0%nat
    /\ forall k, (k < Z.to_nat (height ih))%nat ->
         feed k = take (Z.to_nat (packed_stride ih))
                    (drop (Z.to_nat (packed_stride ih) * k) d)
                  ++ replicate
                       (Z.to_nat
                          (u32 (make_stride_aligned
                                  (set_row_stride hb (packed_stride ih)) 4
                                - packed_stride ih))) x00
                  ++ feed (Datatypes.S k).
Proof.
  intros Hrem.
  destruct pixels_bitmap_fields
    as (Hi & Hc & Hty & Hd & Hrs & Ht & Hr1 & Hr2 & Ho & Hs).
  destruct (codec_sizes fh ih ch Hcd)
    as (bpp & Hbpp & Hbc & HN & Hps & _ & Hmax & Hpos & Hrow).
  pose proof (cd_width _ _ _ Hcd) as Hw. pose proof (cd_height _ _ _ Hcd) as Hh.
  destruct (Z.eqb_spec (Z.rem (width ih) 4) 0) as [Hz|_]; [contradiction|].
  unfold encoded. rewrite Hi, Hd, Hrs.
  cbn [bit_count width height set_size].
  destruct (Z.eqb_spec (Z.rem (width ih) 4) 0) as [Hz|_]; [contradiction|].
  assert (Hal : make_stride_aligned b1 4
                = make_stride_aligned (set_row_stride hb (packed_stride ih)) 4).
  { apply make_stride_aligned_stride. rewrite Hrs. reflexivity. }
  rewrite Hal.
  destruct (Z.eqb_spec (bit_count ih) 32) as [E32|N32]; cbn [orb].
  - (* 32 bits per pixel: the rows are written without padding *)
    assert (Hpad : u32 (make_stride_aligned
                          (set_row_stride hb (packed_stride ih)) 4
                        - packed_stride ih) = 0).
    { rewrite make_stride_aligned_fixed.
      - cbn [set_row_stride row_stride]. rewrite Z.sub_diag. reflexivity.
      - cbn [set_row_stride row_stride]. rewrite Hps.
        assert (bpp = 4) as -> by lia.
        apply Z.mod_mul. lia. }
    rewrite Hpad.
    exists (fun k => drop (Z.to_nat (packed_stride ih) * k) d). split.
    + rewrite Nat.mul_0_r. reflexivity.
    + intros k Hk. cbn [replicate Z.to_nat app].
      rewrite Nat.mul_succ_r, <- drop_drop. symmetry. apply take_drop.
  - exists (fun k => file_rows d (Z.to_nat (packed_stride ih))
                       (Z.to_nat
                          (u32 (make_stride_aligned
                                  (set_row_stride hb (packed_stride ih)) 4
                                - packed_stride ih)))
                       k (Z.to_nat (height ih) - k)).
    split.
    + rewrite Nat.sub_0_r. reflexivity.
    + intros k Hk.
      replace (Z.to_nat (height ih) - k)%nat
        with (Datatypes.S (Z.to_nat (height ih) - Datatypes.S k)) by lia.
      apply file_rows_cons.
Qed.

(** The pixel phase on the encoded file rebuilds the bitmap. *)
Lemma read_pixels_encoded :
  exists s',
    read_pixels hb {| content := encoded b1; gpos := length (header_bytes b1);
                      failbit := false |}
    = (Returned, b1, s').
Proof.
  destruct pixels_bitmap_fields
    as (Hi & Hc & Hty & Hd & Hrs & Ht & Hr1 & Hr2 & Ho & Hs).
  destruct (codec_sizes fh ih ch Hcd)
    as (bpp & Hbpp & Hbc & HN & Hps & _ & Hmax & Hpos & Hrow).
  destruct (size_products fh ih ch Hcd) as (M1 & M2 & M3 & M4 & M5).
  pose proof (cd_width _ _ _ Hcd) as Hw. pose proof (cd_height _ _ _ Hcd) as Hh.
  unfold INT_MAX in Hmax.
  assert (Eih : bmp_info_header hb = set_size ih (header_size ih)) by reflexivity.
  assert (Edata : data hb = []) by reflexivity.
  unfold read_pixels. rewrite Eih, Edata.
  cbn [width height bit_count set_size].
  rewrite M1. cbn [bind]. rewrite M2. cbn [bind]. rewrite M3. cbn [bind].
  rewrite M4. fold (buffer_size ih).
  destruct (Z.ltb_spec (buffer_size ih) 0) as [Hneg|_]; [lia|].
  unfold resize. rewrite take_nil. cbn [app length Nat.sub].
  rewrite Nat.sub_0_r.
  replace (Z.to_nat (buffer_size ih)) with (length d) by lia.
  destruct (Z.eqb_spec (Z.rem (width ih) 4) 0) as [Hrem|Hrem].
  - (* the buffer was written in one piece *)
    assert (Henc : encoded b1 = header_bytes b1 ++ d).
    { unfold encoded. rewrite Hi, Hd.
      cbn [width set_size]. destruct (Z.eqb_spec (Z.rem (width ih) 4) 0);
        [|contradiction].
      rewrite orb_true_r. reflexivity. }
    rewrite Henc. cbn [set_data data]. rewrite length_replicate.
    rewrite stream_read_at by (rewrite length_app; lia).
    rewrite drop_app_length, take_ge by lia.
    cbn [fst snd]. rewrite overlay_full by (rewrite length_replicate; reflexivity).
    eexists. f_equal. f_equal. unfold b1, pixels_bitmap. rewrite Eih.
    cbn [width set_size].
    destruct (Z.eqb_spec (Z.rem (width ih) 4) 0); [|contradiction].
    reflexivity.
  - (* the buffer was written row by row *)
    destruct (encoded_b1_rows Hrem) as (feed & Henc & Hfeed).
    rewrite M5. fold (packed_stride ih).
    match goal with
    | |- context [read_rows ?b ?pad (?d0, ?s0)] =>
        destruct (read_rows_feed b pad (encoded b1) d feed s0)
          as (s' & Hrun)
    end.
    + simpl. lia.
    + simpl. lia.
    + apply Z.mod_pos_bound. lia.
    + simpl. nia.
    + lia.
    + intros k Hk. exact (Hfeed k Hk).
    + reflexivity.
    + reflexivity.
    + cbn [gpos]. rewrite Henc. apply drop_app_length.
    + assert (Hd' : take (Z.to_nat (packed_stride ih * height ih)) d
                    ++ replicate
                         (length d - Z.to_nat (packed_stride ih * height ih)) x00
                    = d).
      { rewrite <- (take_drop (Z.to_nat (packed_stride ih * height ih)) d) at 3.
        f_equal. rewrite (Htail Hrem). f_equal. lia. }
      cbn [set_row_stride set_data row_stride bmp_info_header] in Hrun.
      rewrite Eih in Hrun. cbn [height set_size] in Hrun.
      rewrite Hd' in Hrun.
      exists s'.
      etransitivity.
      { cbn [set_row_stride set_data row_stride bmp_info_header data].
        rewrite ?Eih. rewrite Hrun. reflexivity. }
      cbn [fst snd]. f_equal. f_equal. unfold b1, pixels_bitmap. rewrite Eih.
      cbn [width set_size].
      destruct (Z.eqb_spec (Z.rem (width ih) 4) 0); [contradiction|].
      reflexivity.
Qed.

(** [operator>>] on the bytes [operator<<] wrote gives the bitmap back. *)
Lemma operator_extract_encoded :
  exists s,
    operator_extract (istream_of (encoded b1)) Bitmap_init = (Returned, b1, s).
Proof.
  unfold operator_extract. rewrite read_headers_encoded.
  exact read_pixels_encoded.
Qed.

Lemma operator_insert_b1 :
  operator_insert ostream_init b1
  = (Broken MissingReturn, {| written := encoded b1; badbit := false |}).
Proof.
  destruct pixels_bitmap_fields
    as (Hi & Hc & Hty & Hd & Hrs & Ht & Hr1 & Hr2 & Ho & Hs).
  destruct (codec_sizes fh ih ch Hcd)
    as (bpp & Hbpp & Hbc & HN & Hps & _ & Hmax & Hpos & Hrow).
  pose proof (cd_width _ _ _ Hcd) as Hw. pose proof (cd_height _ _ _ Hcd) as Hh.
  unfold INT_MAX in Hmax.
  apply operator_insert_encoded.
  - rewrite Hi. apply (cd_depth _ _ _ Hcd).
  - rewrite Hi, Hd, Hrs. cbn [bit_count width height set_size].
    intros _ Hrem.
    destruct (Z.eqb_spec (Z.rem (width ih) 4) 0) as [Hz|_]; [contradiction|].
    rewrite Hps. repeat split; nia.
Qed.

End RoundTripEncoded.

(** ** The round trip *)

Lemma well_formed_codec_headers file :
  well_formed file ->
  codec_headers (stored_file_header file) (stored_info_header file)
    (stored_color_header file).
Proof.
  intros [Hty Hdepth Hw Hh Hsz]. constructor.
  - apply file_header_of_bytes_ok.
  - apply info_header_of_bytes_ok.
  - apply color_header_of_bytes_ok.
  - exact Hty.
  - destruct Hdepth as [[E _]|[E _]]; [left|right]; exact E.
  - exact Hw.
  - exact Hh.
  - exact Hsz.
Qed.

Lemma operator_extract_well_formed file :
  well_formed file ->
  exists d s,
    operator_extract (istream_of file) Bitmap_init
    = (Returned,
       pixels_bitmap
         (headers_bitmap (stored_file_header file) (stored_info_header file)
            (stored_color_header file)) d,
       s)
    /\ Z.of_nat (length d) = buffer_size (stored_info_header file)
    /\ (Z.rem (width (stored_info_header file)) 4 <> 0 ->
          drop (Z.to_nat (packed_stride (stored_info_header file)
                          * height (stored_info_header file))) d
          = replicate
              (Z.to_nat (buffer_size (stored_info_header file)
                         - packed_stride (stored_info_header file)
                           * height (stored_info_header file))) x00).
Proof.
  intros Hwf. pose proof (well_formed_codec_headers file Hwf) as Hcd.
  destruct Hwf as [Hty Hdepth Hw Hh Hsz].
  unfold operator_extract. rewrite read_headers_ok.
  - destruct (read_pixels_any _ _ _ Hcd
                {| content := file;
                   gpos := Z.to_nat (offset_data (stored_file_header file));
                   failbit := false |})
      as (d & s' & Hrun & Hl & Ht).
    exists d, s'. auto.
  - destruct Hdepth as [[_ H]|[_ [_ H]]]; lia.
  - exact Hty.
  - intros E. destruct Hdepth as [[E' _]|[_ [H1 H2]]]; [congruence|auto].
Qed.

(** The decoder stops at the buffer size of a 4000 x 3000 file, whatever
    follows the headers. *)
Lemma operator_extract_4000x3000 tail :
  fst (fst (operator_extract (istream_of (headers_4000x3000 ++ tail)) Bitmap_init))
  = Broken SignedOverflow.
Proof.
  unfold operator_extract. rewrite read_headers_ok.
  - reflexivity.
  - rewrite length_app. change (length headers_4000x3000) with 54%nat. lia.
  - reflexivity.
  - intros E. exfalso. revert E. discriminate.
Qed.

(** ** The sample images *)

Lemma sample_2x2_decoded :
  operator_extract (istream_of stream_2x2) Bitmap_init
  = (Returned, sample_2x2,
     {| content := stream_2x2; gpos := 70; failbit := false |}).
Proof. vm_compute. reflexivity. Qed.

Lemma sample_2x2_geometry : valid_geometry sample_2x2.
Proof.
  constructor; cbn; lia.
Defined.

Lemma sample_2x2_stride : stride_ok sample_2x2.
Proof. right. cbn. lia. Defined.

Lemma sample_1x1_geometry : valid_geometry sample_1x1.
Proof. constructor; cbn; lia. Defined.

Lemma sample_17x17_size : Z.of_nat (length (data sample_17x17)) = 7803.
Proof. vm_compute. reflexivity. Qed.

Lemma sample_17x17_geometry : valid_geometry sample_17x17.
Proof.
  constructor; try rewrite sample_17x17_size; cbn; lia.
Qed.

Lemma sample_2x2_fits : fits_counters sample_2x2.
Proof. split; cbn; lia. Defined.

Lemma stream_2x2_well_formed : well_formed stream_2x2.
Proof.
  constructor.
  - reflexivity.
  - left. split; [reflexivity|]. cbn. lia.
  - reflexivity.
  - reflexivity.
  - vm_compute. discriminate.
Defined.

Lemma sample_2x2_rows : rows_fit_int sample_2x2.
Proof. unfold rows_fit_int, INT_MAX. cbn. lia. Defined.

Lemma rows_fit_int_set_data b d : rows_fit_int b -> rows_fit_int (set_data b d).
Proof. intros H. exact H. Qed.

Lemma fits_counters_rows b : fits_counters b -> rows_fit_int b.
Proof. intros [_ H]. unfold rows_fit_int, INT_MAX. lia. Qed.

(** * Further properties *)

(** ** How [operator>>] ends *)

Lemma byte_val_x42 v : byte_val v = 66 -> v = x42.
Proof. intros H. apply byte_val_inj. rewrite H. reflexivity. Qed.

Lemma byte_val_x4d v : byte_val v = 77 -> v = x4d.
Proof. intros H. apply byte_val_inj. rewrite H. reflexivity. Qed.

(** The signature test.  A stream into a default-constructed bitmap that
    does not begin with the bytes 42 4D, the empty stream and the stream of
    one byte among them, ends in the [runtime_error] for the file format; the
    info header, [imageType] and the buffer have not been touched yet. *)
Theorem operator_extract_signature (c : list byte) :
  (forall rest, c <> x42 :: x4d :: rest) ->
  exists b s,
    operator_extract (istream_of c) Bitmap_init
    = (Thrown runtime_error_format, b, s)
    /\ bmp_info_header b = BMPInfoHeader_init
    /\ bmp_color_header b = BMPColorHeader_init
    /\ imageType b = 0
    /\ row_stride b = 0
    /\ data b = [].
Proof.
  intros Hsig. unfold operator_extract, read_headers.
  cbn [failbit istream_of].
  set (r1 := stream_read (istream_of c) (Z.to_nat sizeof_BMPFileHeader)).
  set (fh := file_header_of_bytes
               (overlay (bytes_of_file_header (file_header Bitmap_init)) 0 (fst r1))).
  assert (Hty : file_type fh <> 0x4D42).
  { subst fh r1. unfold stream_read, istream_of. cbn [failbit content gpos fst].
    change (drop 0 c) with c.
    change (Z.to_nat sizeof_BMPFileHeader) with 14%nat.
    change (bytes_of_file_header (file_header Bitmap_init))
      with (replicate 14 x00).
    destruct c as [|a [|a' rest]].
    - vm_compute. discriminate.
    - cbn [take overlay app length drop replicate file_type
             file_header_of_bytes Nat.add].
      unfold get16, byte_at. cbn [nth Nat.add].
      change (byte_val x00) with 0.
      pose proof (byte_val_range a). lia.
    - cbn [file_type file_header_of_bytes].
      unfold get16, byte_at, overlay. simpl.
      intros E. apply (Hsig rest).
      pose proof (byte_val_range a). pose proof (byte_val_range a').
      assert (byte_val a = 66) by lia. assert (byte_val a' = 77) by lia.
      rewrite (byte_val_x42 a), (byte_val_x4d a') by assumption. reflexivity. }
  destruct (Z.eqb_spec (file_type fh) 0x4D42) as [E|_]; [contradiction|].
  cbn [negb]. do 2 eexists. split; [reflexivity|]. repeat split.
Qed.

Lemma operator_extract_signature_witness :
  (forall rest, @nil byte <> x42 :: x4d :: rest)
  /\ exists b s,
       operator_extract (istream_of []) Bitmap_init
       = (Thrown runtime_error_format, b, s)
       /\ bmp_info_header b = BMPInfoHeader_init
       /\ bmp_color_header b = BMPColorHeader_init
       /\ imageType b = 0
       /\ row_stride b = 0
       /\ data b = [].
Proof.
  assert (H : forall rest, @nil byte <> x42 :: x4d :: rest) by discriminate.
  split; [exact H|]. exact (operator_extract_signature [] H).
Defined.

Lemma int_mul_cases x y :
  (int_mul x y = Ok (x * y) /\ INT_MIN <= x * y <= INT_MAX)
  \/ int_mul x y = Undefined SignedOverflow.
Proof.
  unfold int_mul, in_int.
  destruct (Z.leb_spec INT_MIN (x * y)); simpl; [|right; reflexivity].
  destruct (Z.leb_spec (x * y) INT_MAX); simpl; [|right; reflexivity].
  left. split; [reflexivity|lia].
Qed.

Lemma for_int_empty {S : Type} from bound step (body : Z -> S -> outcome S) s :
  bound <= from -> for_int from bound step body s = Ok s.
Proof.
  intros H. unfold for_int. simpl.
  destruct (Z.ltb_spec from bound); [lia|reflexivity].
Qed.

Lemma resize_length d n : length (resize d n) = n.
Proof.
  unfold resize. rewrite length_app, length_take, length_replicate. lia.
Qed.

(** The fields the header phase has assigned when it goes on to the
    pixels. *)
Lemma read_headers_fields inp b0 b s :
  read_headers inp b0 = inr (b, s) ->
  failbit inp = false
  /\ file_type (file_header b) = 0x4D42
  /\ size (bmp_info_header b) = header_size (bmp_info_header b)
  /\ offset_data (file_header b)
     = sizeof_BMPFileHeader + header_size (bmp_info_header b)
  /\ file_size (file_header b) = offset_data (file_header b).
Proof.
  unfold read_headers.
  destruct (failbit inp); [discriminate|].
  match goal with
  | |- context [negb (?x =? 19778)] => destruct (Z.eqb_spec x 19778) as [Hty|Hty]
  end; [|discriminate].
  cbn [negb].
  match goal with
  | |- context [(?x =? 32) && negb (?y <=? ?z)] =>
      destruct (Z.eqb_spec x 32) as [H32|H32];
      [destruct (Z.leb_spec y z) as [Hsz|Hsz]|]
  end; cbn [andb negb]; try discriminate.
  - intros [= <- _]. unfold header_size.
    cbn [bmp_info_header file_header set_file_header set_info_header
           set_color_header set_imageType set_size set_offset_data set_file_size
           bit_count size offset_data file_size file_type] in *.
    rewrite H32. cbn [Z.eqb Pos.eqb].
    repeat split; auto.
  - intros [= <- _]. unfold header_size.
    cbn [bmp_info_header file_header set_file_header set_info_header
           set_color_header set_imageType set_size set_offset_data set_file_size
           bit_count size offset_data file_size file_type] in *.
    destruct (Z.eqb_spec (bit_count
        (info_header_of_bytes
           (overlay (bytes_of_info_header (bmp_info_header b0)) 0
              (fst (stream_read
                      (snd (stream_read inp (Z.to_nat sizeof_BMPFileHeader)))
                      (Z.to_nat sizeof_BMPInfoHeader)))))) 32); [contradiction|].
    repeat split; auto.
Qed.

(** The pixel phase: the first size that does not fit an [int] is undefined
    behaviour, a negative size makes [resize] throw, and otherwise the phase
    returns: the row loop stays inside the buffer it has sized. *)
Lemma read_pixels_ends b s :
  0 <= bit_count (bmp_info_header b) ->
  (exists b' s',
     read_pixels b s = (Returned, b', s')
     /\ file_type (file_header b') = file_type (file_header b)
     /\ offset_data (file_header b') = offset_data (file_header b)
     /\ bmp_info_header b' = bmp_info_header b
     /\ imageType b' = imageType b
     /\ Z.of_nat (length (data b'))
        = Z.quot (width (bmp_info_header b) * 3 * 3 * height (bmp_info_header b)
                  * bit_count (bmp_info_header b)) 8
     /\ 0 <= width (bmp_info_header b) * 3 * 3 * height (bmp_info_header b)
             * bit_count (bmp_info_header b) <= INT_MAX)
  \/ fst (fst (read_pixels b s)) = Thrown length_error
  \/ fst (fst (read_pixels b s)) = Broken SignedOverflow.
Proof.
  intros Hbc. unfold read_pixels.
  set (w := width (bmp_info_header b)). set (h := height (bmp_info_header b)).
  set (bc := bit_count (bmp_info_header b)) in *.
  destruct (int_mul_cases w 3) as [[-> H1]| ->]; [|right; right; reflexivity].
  cbn [bind].
  destruct (int_mul_cases (w * 3) 3) as [[-> H2]| ->]; [|right; right; reflexivity].
  cbn [bind].
  destruct (int_mul_cases (w * 3 * 3) h) as [[-> H3]| ->];
    [|right; right; reflexivity].
  cbn [bind].
  destruct (int_mul_cases (w * 3 * 3 * h) bc) as [[-> H4]| ->];
    [|right; right; reflexivity].
  set (a := w * 3 * 3 * h * bc) in *.
  destruct (Z.ltb_spec (Z.quot a 8) 0) as [Hneg|Hpos];
    [right; left; reflexivity|].
  assert (Ha : 0 <= a).
  { destruct (Z.le_gt_cases 0 a) as [|Hlt]; [assumption|].
    exfalso. pose proof (Z.quot_opp_l a 8 ltac:(lia)) as E.
    assert (- a = 9 * (- (w * h * bc))) by (subst a; ring).
    assert (8 <= - a) by lia.
    pose proof (Z.quot_le_mono 8 (- a) 8 ltac:(lia) ltac:(lia)) as Hq.
    change (Z.quot 8 8) with 1 in Hq. lia. }
  set (d0 := resize (data b) (Z.to_nat (Z.quot a 8))).
  assert (Hd0 : Z.of_nat (length d0) = Z.quot a 8).
  { subst d0. rewrite resize_length. lia. }
  assert (Hq : Z.quot a 8 = a / 8) by (apply Z.quot_div_nonneg; lia).
  unfold INT_MAX, INT_MIN in *.
  destruct (Z.eqb_spec (Z.rem w 4) 0) as [Hrem|Hrem].
  - left. do 2 eexists. split; [reflexivity|].
    cbn [set_file_header set_data file_header bmp_info_header imageType data
           set_file_size file_type offset_data].
    repeat split; try lia.
    pose proof (stream_read_length s (length d0)).
    rewrite overlay_length by (simpl; lia). exact Hd0.
  - cbn [set_data bmp_info_header].
    destruct (int_mul_cases w bc) as [[-> H5]| ->]; [|right; right; reflexivity].
    unfold INT_MAX, INT_MIN in H5.
    set (b1 := set_row_stride (set_data b d0) (u32 (Z.quot (w * bc) 8))).
    set (pad := u32 (make_stride_aligned b1 4 - row_stride b1)).
    assert (Hrows : exists d' s', read_rows b1 pad (data b1, s) = Ok (d', s')
                                  /\ length d' = length d0).
    { destruct (Z.le_gt_cases h 0) as [Hh|Hh].
      - unfold read_rows. rewrite for_int_empty by exact Hh.
        do 2 eexists. split; reflexivity.
      - assert (Hwb : 0 <= w * bc).
        { destruct (Z.le_gt_cases 0 (w * bc)); [assumption|].
          exfalso. assert (a = 9 * h * (w * bc)) by (subst a; ring). nia. }
        assert (Hrs : row_stride b1 = (w * bc) / 8).
        { subst b1. cbn [row_stride set_row_stride].
          rewrite Z.quot_div_nonneg by lia. unfold u32.
          apply Z.mod_small. Z.div_mod_to_equations. lia. }
        destruct (read_rows_any b1 pad (data b1) s) as (d' & s' & Hrun & Hl & _).
        + subst b1. cbn. fold h. lia.
        + rewrite Hrs. Z.div_mod_to_equations. lia.
        + subst b1. cbn [bmp_info_header set_row_stride set_data data] in *.
          fold h. rewrite Hrs, Hd0, Hq.
          assert (a = 9 * h * (w * bc)) by (subst a; ring).
          assert (w * bc / 8 * h * 8 <= a).
          { assert (w * bc / 8 * 8 <= w * bc)
              by (Z.div_mod_to_equations; lia). nia. }
          Z.div_mod_to_equations. lia.
        + subst b1. cbn [set_row_stride set_data data]. rewrite Hd0, Hq.
          Z.div_mod_to_equations. lia.
        + exists d', s'. split; [exact Hrun|]. exact Hl. }
    destruct Hrows as (d' & s' & Hrun & Hl).
    change (data (set_data b d0)) with (data b1).
    fold b1. fold pad. rewrite Hrun.
    left. do 2 eexists. split; [reflexivity|].
    cbn [set_file_header set_data file_header bmp_info_header imageType data
           set_file_size file_type offset_data fst snd].
    subst b1. cbn [set_row_stride set_data file_header bmp_info_header imageType].
    repeat split; try lia.
Qed.

(** The ways [operator>>] can end, for any stream and any bitmap: it
    returns, throws one of two [runtime_error]s or the [length_error] of
    [resize], swallows its own [BitmapException], or overflows an [int] when
    it sizes the buffer.  It never leaves the buffer, never loops for ever and
    lets no [BitmapException] out; the [runtime_error] for the input is thrown
    exactly for a stream that has failed before the call. *)
Theorem operator_extract_ends (inp : istream) (b : Bitmap) :
  (fst (fst (operator_extract inp b)) = Thrown runtime_error_input
   <-> failbit inp = true)
  /\ (fst (fst (operator_extract inp b)) = Returned
      \/ fst (fst (operator_extract inp b)) = Thrown runtime_error_input
      \/ fst (fst (operator_extract inp b)) = Thrown runtime_error_format
      \/ fst (fst (operator_extract inp b)) = Thrown length_error
      \/ fst (fst (operator_extract inp b)) = Swallowed (BitmapException 74)
      \/ fst (fst (operator_extract inp b)) = Broken SignedOverflow).
Proof.
  unfold operator_extract.
  destruct (read_headers inp b) as [ended|[b1 s1]] eqn:Eh.
  - unfold read_headers in Eh.
    destruct (failbit inp).
    + injection Eh as <-. split; [split; reflexivity|]. right; left; reflexivity.
    + destruct (negb _).
      * injection Eh as <-. split; [split; discriminate|].
        right; right; left; reflexivity.
      * destruct (_ && _); [|discriminate].
        injection Eh as <-. split; [split; discriminate|].
        do 4 right; left; reflexivity.
  - destruct (read_headers_fields _ _ _ _ Eh) as (Hfail & _).
    destruct (read_headers_continue _ _ _ _ Eh) as (_ & Hbc).
    rewrite Hfail.
    destruct (read_pixels_ends b1 s1 ltac:(lia))
      as [(b' & s' & -> & _)|[-> | ->]].
    + split; [split; discriminate|]. left; reflexivity.
    + split; [split; discriminate|]. do 3 right; left; reflexivity.
    + split; [split; discriminate|]. do 5 right; reflexivity.
Qed.

(* The fields after a call that returns. *)
Lemma operator_extract_fields (inp : istream) (b0 b : Bitmap) (s : istream) :
  operator_extract inp b0 = (Returned, b, s) ->
  file_type (file_header b) = 0x4D42
  /\ imageType b = bit_count (bmp_info_header b) / 8
  /\ size (bmp_info_header b)
     = (if bit_count (bmp_info_header b) =? 32 then 124 else 40)
  /\ offset_data (file_header b) = 14 + size (bmp_info_header b)
  /\ Z.of_nat (length (data b))
     = width (bmp_info_header b) * 9 * height (bmp_info_header b)
       * bit_count (bmp_info_header b) / 8
  /\ 0 <= width (bmp_info_header b) * 9 * height (bmp_info_header b)
          * bit_count (bmp_info_header b) <= INT_MAX.
Proof.
  unfold operator_extract.
  destruct (read_headers inp b0) as [ended|[b1 s1]] eqn:Eh.
  - intros ->. unfold read_headers in Eh.
    destruct (failbit inp); [discriminate|].
    destruct (negb _); [discriminate|].
    destruct (_ && _); discriminate.
  - intros Hp.
    destruct (read_headers_fields _ _ _ _ Eh) as (_ & Hty & Hsz & Hoff & _).
    destruct (read_headers_continue _ _ _ _ Eh) as (Hit & Hbc).
    destruct (read_pixels_ends b1 s1 ltac:(lia))
      as [(b' & s' & Hrun & Hty' & Hoff' & Hih & Hit' & Hlen & Hint)|[E|E]];
      try (rewrite Hp in E; discriminate).
    rewrite Hp in Hrun. injection Hrun as <- <-.
    rewrite Hih, Hty', Hoff', Hit'.
    replace (width (bmp_info_header b1) * 9 * height (bmp_info_header b1)
             * bit_count (bmp_info_header b1))
      with (width (bmp_info_header b1) * 3 * 3 * height (bmp_info_header b1)
            * bit_count (bmp_info_header b1)) by ring.
    split; [exact Hty|]. split.
    { rewrite Hit. rewrite Z.quot_div_nonneg by lia. unfold u16.
      apply Z.mod_small. Z.div_mod_to_equations. lia. }
    split; [rewrite Hsz; reflexivity|]. split.
    { rewrite Hoff, <- Hsz. reflexivity. }
    split; [|exact Hint].
    rewrite Hlen. apply Z.quot_div_nonneg; lia.
Qed.

(** What a call of [operator>>] that returns has made of the bitmap, for any
    stream and any bit count: the signature has been read, [imageType] is
    [bit_count / 8], the header size and the data offset are the ones of the
    headers the program writes (40 and 54, or 124 and 138 for 32 bits per
    pixel), and the buffer has [width * 3 * 3 * height * bit_count / 8] bytes,
    nine times the bytes of the pixels. *)
Theorem operator_extract_returned (inp : istream) (b0 b : Bitmap) (s : istream) :
  operator_extract inp b0 = (Returned, b, s) ->
  file_type (file_header b) = 0x4D42
  /\ imageType b = bit_count (bmp_info_header b) / 8
  /\ size (bmp_info_header b)
     = (if bit_count (bmp_info_header b) =? 32 then 124 else 40)
  /\ offset_data (file_header b) = 14 + size (bmp_info_header b)
  /\ Z.of_nat (length (data b))
     = width (bmp_info_header b) * 9 * height (bmp_info_header b)
       * bit_count (bmp_info_header b) / 8
  /\ 0 <= width (bmp_info_header b) * 9 * height (bmp_info_header b)
          * bit_count (bmp_info_header b) <= INT_MAX.
Proof. exact (operator_extract_fields inp b0 b s). Qed.

Lemma operator_extract_returned_witness :
  operator_extract (istream_of stream_2x2) Bitmap_init
  = (Returned, sample_2x2,
     {| content := stream_2x2; gpos := 70; failbit := false |})
  /\ file_type (file_header sample_2x2) = 0x4D42
  /\ imageType sample_2x2 = bit_count (bmp_info_header sample_2x2) / 8
  /\ size (bmp_info_header sample_2x2)
     = (if bit_count (bmp_info_header sample_2x2) =? 32 then 124 else 40)
  /\ offset_data (file_header sample_2x2)
     = 14 + size (bmp_info_header sample_2x2)
  /\ Z.of_nat (length (data sample_2x2))
     = width (bmp_info_header sample_2x2) * 9
       * height (bmp_info_header sample_2x2)
       * bit_count (bmp_info_header sample_2x2) / 8
  /\ 0 <= width (bmp_info_header sample_2x2) * 9
          * height (bmp_info_header sample_2x2)
          * bit_count (bmp_info_header sample_2x2) <= INT_MAX.
Proof.
  assert (H : operator_extract (istream_of stream_2x2) Bitmap_init
              = (Returned, sample_2x2,
                 {| content := stream_2x2; gpos := 70; failbit := false |}))
    by (vm_compute; reflexivity).
  split; [exact H|]. exact (operator_extract_returned _ _ _ _ H).
Defined.

(** ** The bitmap of a decoded file *)

Lemma pixels_bitmap_geometry fh ih ch d :
  codec_headers fh ih ch ->
  Z.of_nat (length d) = buffer_size ih ->
  valid_geometry (pixels_bitmap (headers_bitmap fh ih ch) d)
  /\ stride_ok (pixels_bitmap (headers_bitmap fh ih ch) d).
Proof.
  intros Hcd Hlen.
  destruct (codec_sizes fh ih ch Hcd)
    as (bpp & Hbpp & Hbc & HN & Hrs & Hty & Hmax & Hpos & Hrow).
  destruct (pixels_bitmap_fields fh ih ch d)
    as (Hih & _ & Hit & Hd & Hst & _).
  pose proof (cd_width _ _ _ Hcd) as Hw. pose proof (cd_height _ _ _ Hcd) as Hh.
  unfold INT_MAX in Hmax.
  set (b := pixels_bitmap (headers_bitmap fh ih ch) d) in *.
  assert (Hwd : width (bmp_info_header b) = width ih) by (rewrite Hih; reflexivity).
  assert (Hhd : height (bmp_info_header b) = height ih) by (rewrite Hih; reflexivity).
  assert (Hs : row_stride b = 0 \/ row_stride b = width ih * bpp).
  { rewrite Hst. destruct (Z.rem (width ih) 4 =? 0); [left|right]; congruence. }
  split.
  - constructor.
    + rewrite Hit, Hty. exact Hbpp.
    + lia.
    + lia.
    + destruct Hs as [-> | ->]; nia.
    + intros y Hy. rewrite Hwd, Hit, Hty, Hd, Hlen, HN.
      rewrite Hhd in Hy. destruct Hs as [-> | ->]; nia.
    + rewrite Hd, Hlen, HN. lia.
  - unfold stride_ok. rewrite Hwd, Hit, Hty.
    destruct Hs as [-> | ->]; [left; reflexivity|right; lia].
Qed.

(* The rows of a decoded bitmap are counted within [int]. *)
Lemma pixels_bitmap_rows fh ih ch d :
  codec_headers fh ih ch ->
  rows_fit_int (pixels_bitmap (headers_bitmap fh ih ch) d).
Proof.
  intros Hcd.
  destruct (codec_sizes fh ih ch Hcd)
    as (bpp & Hbpp & Hbc & HN & Hrs & Hty & Hmax & Hpos & Hrow).
  destruct (pixels_bitmap_fields fh ih ch d) as (Hih & _ & Hit & _).
  unfold rows_fit_int. rewrite Hih, Hit, Hty. cbn [width set_size]. lia.
Qed.

(* The geometry of the bitmap of a well-formed file. *)
Lemma well_formed_geometry (file : list byte) :
  well_formed file ->
  exists b s,
    operator_extract (istream_of file) Bitmap_init = (Returned, b, s)
    /\ valid_geometry b
    /\ stride_ok b
    /\ width (bmp_info_header b) = width (stored_info_header file)
    /\ height (bmp_info_header b) = height (stored_info_header file)
    /\ bit_count (bmp_info_header b) = bit_count (stored_info_header file)
    /\ row_stride b
       = (if Z.rem (width (bmp_info_header b)) 4 =? 0 then 0
          else width (bmp_info_header b) * imageType b).
Proof.
  intros Hwf.
  pose proof (well_formed_codec_headers file Hwf) as Hcd.
  destruct (operator_extract_well_formed file Hwf) as (d & s & Hrun & Hl & _).
  destruct (pixels_bitmap_geometry _ _ _ d Hcd Hl) as [Hgeo Hst].
  destruct (pixels_bitmap_fields (stored_file_header file)
              (stored_info_header file) (stored_color_header file) d)
    as (Hih & _ & Hit & _ & Hrs & _).
  destruct (codec_sizes _ _ _ Hcd) as (bpp & _ & _ & _ & Hps & Hty & _).
  do 2 eexists. split; [exact Hrun|].
  split; [exact Hgeo|]. split; [exact Hst|].
  rewrite Hih, Hrs, Hit, Hty, Hps. repeat split.
Qed.

(** Every file with the signature, complete headers, 24 or 32 bits per
    pixel, positive dimensions and a buffer size within [int] decodes to a
    bitmap the filters can work on: its rows lie inside the buffer, and they
    either do not overlap or, for a width that is a multiple of 4, all start
    at the beginning of the buffer, [row_stride] being 0. *)
Theorem decoded_geometry (file : list byte) :
  well_formed file ->
  exists b s,
    operator_extract (istream_of file) Bitmap_init = (Returned, b, s)
    /\ valid_geometry b
    /\ stride_ok b
    /\ width (bmp_info_header b) = width (stored_info_header file)
    /\ height (bmp_info_header b) = height (stored_info_header file)
    /\ bit_count (bmp_info_header b) = bit_count (stored_info_header file)
    /\ row_stride b
       = (if Z.rem (width (bmp_info_header b)) 4 =? 0 then 0
          else width (bmp_info_header b) * imageType b).
Proof. exact (well_formed_geometry file). Qed.

Lemma decoded_geometry_witness :
  well_formed stream_2x2
  /\ exists b s,
       operator_extract (istream_of stream_2x2) Bitmap_init = (Returned, b, s)
       /\ valid_geometry b
       /\ stride_ok b
       /\ width (bmp_info_header b) = width (stored_info_header stream_2x2)
       /\ height (bmp_info_header b) = height (stored_info_header stream_2x2)
       /\ bit_count (bmp_info_header b)
          = bit_count (stored_info_header stream_2x2)
       /\ row_stride b
          = (if Z.rem (width (bmp_info_header b)) 4 =? 0 then 0
             else width (bmp_info_header b) * imageType b).
Proof.
  split; [exact stream_2x2_well_formed|].
  exact (decoded_geometry stream_2x2 stream_2x2_well_formed).
Defined.

(** ** [operator<<] *)

(** [operator<<] throws in two cases only, and then before it writes: the
    [runtime_error] for the output exactly when the stream has failed before
    the call, the one for the bit count exactly when the stream is good and
    the bit count is neither 24 nor 32. *)
Theorem operator_insert_throws (out : ostream) (b : Bitmap) :
  (fst (operator_insert out b) = Thrown runtime_error_output
   <-> badbit out = true)
  /\ (fst (operator_insert out b) = Thrown runtime_error_depth
      <-> badbit out = false
          /\ bit_count (bmp_info_header b) <> 24
          /\ bit_count (bmp_info_header b) <> 32)
  /\ (forall e, fst (operator_insert out b) = Thrown e ->
        (e = runtime_error_output \/ e = runtime_error_depth)
        /\ snd (operator_insert out b) = out).
Proof.
  unfold operator_insert.
  destruct (badbit out).
  { cbn [fst snd]. split; [split; reflexivity|].
    split; [split; [discriminate|intros [? _]; discriminate]|].
    intros e [= <-]. split; [left|]; reflexivity. }
  destruct (Z.eqb_spec (bit_count (bmp_info_header b)) 32) as [H32|H32].
  { cbn [fst snd]. split; [split; discriminate|].
    split; [split; [discriminate|intros (_ & _ & H); contradiction]|].
    intros e. discriminate. }
  destruct (Z.eqb_spec (bit_count (bmp_info_header b)) 24) as [H24|H24].
  - assert (Hno : forall e, fst (if Z.rem (width (bmp_info_header b)) 4 =? 0
                   then (Broken MissingReturn, write_headers_and_data b out)
                   else match write_rows b
                                (u32 (make_stride_aligned b 4 - row_stride b))
                                (write_headers b out) with
                        | Ok o => (Broken MissingReturn, o)
                        | Undefined f => (Broken f, write_headers b out)
                        | Diverges => (Hangs, write_headers b out)
                        end) <> Thrown e).
    { intros e. destruct (Z.rem (width (bmp_info_header b)) 4 =? 0);
        [discriminate|]. destruct (write_rows _ _ _); discriminate. }
    split; [split; [intros E; destruct (Hno _ E)|discriminate]|].
    split; [split; [intros E; destruct (Hno _ E)
                   |intros (_ & H & _); contradiction]|].
    intros e E. destruct (Hno _ E).
  - cbn [fst snd]. split; [split; discriminate|].
    split; [split; auto|].
    intros e [= <-]. split; [right|]; reflexivity.
Qed.

Lemma file_rows_length d rs pad n :
  (rs * n <= length d)%nat ->
  length (file_rows d rs pad 0 n) = (n * (rs + pad))%nat.
Proof.
  induction n as [|n IH]; intros Hfit; [reflexivity|].
  rewrite file_rows_snoc, !length_app, IH by lia.
  rewrite length_take, length_drop, length_replicate. simpl. lia.
Qed.

Lemma file_rows_nth d rs pad n y k :
  (rs * n <= length d)%nat -> (y < n)%nat -> (k < rs + pad)%nat ->
  nth (y * (rs + pad) + k) (file_rows d rs pad 0 n) x00
  = if (k <? rs)%nat then nth (rs * y + k) d x00 else x00.
Proof.
  induction n as [|n IH]; intros Hfit Hy Hk; [lia|].
  rewrite file_rows_snoc.
  assert (Hlen : length (file_rows d rs pad 0 n) = (n * (rs + pad))%nat)
    by (apply file_rows_length; lia).
  destruct (Nat.eq_dec y n) as [->|Hne].
  - rewrite app_nth2 by (rewrite Hlen; lia).
    rewrite Hlen.
    replace (n * (rs + pad) + k - n * (rs + pad))%nat with k by lia.
    simpl (0 + n)%nat.
    destruct (Nat.ltb_spec k rs) as [Hlt|Hge].
    + rewrite app_nth1
        by (rewrite length_take, length_drop; lia).
      rewrite !nth_lookup.
      first [rewrite lookup_take_lt by lia | rewrite lookup_take by lia].
      rewrite lookup_drop. reflexivity.
    + rewrite app_nth2 by (rewrite length_take, length_drop; lia).
      rewrite length_take, length_drop.
      rewrite nth_lookup.
      destruct (replicate pad x00 !! _) as [v|] eqn:E; [|reflexivity].
      apply lookup_replicate in E as [-> _]. reflexivity.
  - rewrite app_nth1 by (rewrite Hlen; nia).
    apply IH; lia.
Qed.

(** The bytes [operator<<] has written when it reaches the end of its body,
    where no [return] gives the stream back, for 24 bits per pixel and a
    width that is not a multiple of 4, on a bitmap with non-negative height
    whose rows of [row_stride] bytes lie inside the buffer: the two headers,
    54 bytes, then for each row its [row_stride] bytes followed by zero bytes
    up to the next multiple of 4. *)
Theorem operator_insert_padded_rows (b : Bitmap) :
  bit_count (bmp_info_header b) = 24 ->
  Z.rem (width (bmp_info_header b)) 4 <> 0 ->
  0 <= height (bmp_info_header b) ->
  0 <= row_stride b <= 4294967292 ->
  row_stride b * height (bmp_info_header b) <= Z.of_nat (length (data b)) ->
  Z.of_nat (length (data b)) < 4294967296 ->
  exists o,
    operator_insert ostream_init b = (Broken MissingReturn, o)
    /\ make_stride_aligned b 4 mod 4 = 0
    /\ row_stride b <= make_stride_aligned b 4 < row_stride b + 4
    /\ Z.of_nat (length (written o))
       = 54 + height (bmp_info_header b) * make_stride_aligned b 4
    /\ take 54 (written o)
       = bytes_of_file_header (file_header b)
         ++ bytes_of_info_header (bmp_info_header b)
    /\ forall y k,
         0 <= y < height (bmp_info_header b) ->
         0 <= k < make_stride_aligned b 4 ->
         peek (written o) (54 + y * make_stride_aligned b 4 + k)
         = if k <? row_stride b then peek (data b) (row_stride b * y + k)
           else 0.
Proof.
  intros H24 Hrem Hh Hrs Hfit Hsz.
  pose proof (make_stride_aligned_exits b ltac:(lia)) as Hmod.
  pose proof (make_stride_aligned_least b Hrs) as Hleast.
  set (stride := make_stride_aligned b 4) in *.
  set (rs := row_stride b) in *. set (h := height (bmp_info_header b)) in *.
  assert (Hpad : u32 (stride - rs) = stride - rs)
    by (unfold u32; apply Z.mod_small; lia).
  assert (Hhdr : header_bytes b
                 = bytes_of_file_header (file_header b)
                   ++ bytes_of_info_header (bmp_info_header b)).
  { unfold header_bytes. rewrite H24. cbn [Z.eqb Pos.eqb].
    rewrite app_nil_r. reflexivity. }
  assert (Hhl : length (header_bytes b) = 54%nat).
  { rewrite Hhdr, length_app, bytes_of_file_header_length,
      bytes_of_info_header_length. reflexivity. }
  assert (Hfit' : (Z.to_nat rs * Z.to_nat h <= length (data b))%nat) by nia.
  eexists. split.
  { apply operator_insert_encoded; [left; exact H24|].
    intros _ _. fold h rs. lia. }
  cbn [written]. unfold encoded. rewrite H24. cbn [Z.eqb Pos.eqb orb].
  destruct (Z.eqb_spec (Z.rem (width (bmp_info_header b)) 4) 0) as [|_];
    [contradiction|].
  fold stride rs h. rewrite Hpad.
  set (rows := file_rows (data b) (Z.to_nat rs) (Z.to_nat (stride - rs)) 0
                 (Z.to_nat h)).
  assert (Hrl : length rows = (Z.to_nat h * (Z.to_nat rs + Z.to_nat (stride - rs)))%nat)
    by (apply file_rows_length; exact Hfit').
  split; [exact Hmod|]. split; [exact Hleast|]. split.
  { rewrite length_app, Hhl, Hrl. nia. }
  split.
  { rewrite take_app_length' by (symmetry; exact Hhl). exact Hhdr. }
  intros y k Hy Hk. unfold peek.
  replace (Z.to_nat (54 + y * stride + k))
    with (length (header_bytes b)
          + (Z.to_nat y * (Z.to_nat rs + Z.to_nat (stride - rs)) + Z.to_nat k))%nat
    by (rewrite Hhl; nia).
  rewrite app_nth2_plus. subst rows.
  rewrite file_rows_nth by (try exact Hfit'; lia).
  destruct (Z.ltb_spec k rs) as [Hlt|Hge];
    destruct (Nat.ltb_spec (Z.to_nat k) (Z.to_nat rs)) as [Hlt'|Hge']; try lia.
  - f_equal. f_equal. nia.
  - reflexivity.
Qed.

Lemma operator_insert_padded_rows_witness :
  bit_count (bmp_info_header sample_2x2) = 24
  /\ Z.rem (width (bmp_info_header sample_2x2)) 4 <> 0
  /\ exists o,
       operator_insert ostream_init sample_2x2 = (Broken MissingReturn, o)
       /\ make_stride_aligned sample_2x2 4 mod 4 = 0
       /\ row_stride sample_2x2 <= make_stride_aligned sample_2x2 4
          < row_stride sample_2x2 + 4
       /\ Z.of_nat (length (written o))
          = 54 + height (bmp_info_header sample_2x2)
                 * make_stride_aligned sample_2x2 4
       /\ take 54 (written o)
          = bytes_of_file_header (file_header sample_2x2)
            ++ bytes_of_info_header (bmp_info_header sample_2x2)
       /\ forall y k,
            0 <= y < height (bmp_info_header sample_2x2) ->
            0 <= k < make_stride_aligned sample_2x2 4 ->
            peek (written o) (54 + y * make_stride_aligned sample_2x2 4 + k)
            = if k <? row_stride sample_2x2
              then peek (data sample_2x2) (row_stride sample_2x2 * y + k)
              else 0.
Proof.
  split; [reflexivity|]. split; [cbn; discriminate|].
  apply (operator_insert_padded_rows sample_2x2);
    [reflexivity|cbn; discriminate|cbn; lia|cbn; lia|cbn; lia|cbn; lia].
Defined.

(** ** The size field of a file written back *)

Lemma pixels_bitmap_file_size fh ih ch d :
  codec_headers fh ih ch ->
  Z.of_nat (length d) = buffer_size ih ->
  file_size (file_header (pixels_bitmap (headers_bitmap fh ih ch) d))
  = sizeof_BMPFileHeader + header_size ih + buffer_size ih
    + (if Z.rem (width ih) 4 =? 0 then 0
       else height ih
            * (make_stride_aligned (pixels_bitmap (headers_bitmap fh ih ch) d) 4
               - packed_stride ih)).
Proof.
  intros Hcd Hlen.
  destruct (codec_sizes fh ih ch Hcd)
    as (bpp & Hbpp & Hbc & HN & Hrs & Hty & Hmax & Hpos & Hrow).
  pose proof (cd_width _ _ _ Hcd) as Hw. pose proof (cd_height _ _ _ Hcd) as Hh.
  unfold INT_MAX in Hmax.
  assert (Hhs : 40 <= header_size ih <= 124).
  { unfold header_size, sizeof_BMPInfoHeader, sizeof_BMPColorHeader.
    destruct (bit_count ih =? 32); lia. }
  destruct (pixels_bitmap_fields fh ih ch d) as (_ & _ & _ & _ & Hst & _).
  revert Hst. unfold pixels_bitmap.
  cbn [headers_bitmap bmp_info_header file_header width height set_size].
  destruct (Z.eqb_spec (Z.rem (width ih) 4) 0) as [Hrem|Hrem]; intros Hst.
  - cbn [set_file_header set_data file_header set_file_size file_size].
    unfold u32, sizeof_BMPFileHeader in *. rewrite Hlen.
    rewrite (Z.mod_small (buffer_size ih)) by lia.
    rewrite Z.mod_small by lia. lia.
  - cbn [set_file_header set_data file_header set_file_size file_size].
    match goal with
    | |- context [make_stride_aligned ?b1 4 - row_stride ?b1] =>
        set (b' := b1);
        match goal with
        | |- context [make_stride_aligned ?b2 4 - packed_stride ih] =>
            assert (Hsame : make_stride_aligned b2 4 = make_stride_aligned b' 4)
              by (apply make_stride_aligned_stride; reflexivity)
        end
    end.
    rewrite Hsame.
    assert (Hrs' : row_stride b' = packed_stride ih) by reflexivity.
    pose proof (make_stride_aligned_least b' ltac:(rewrite Hrs', Hrs; nia)) as Hl.
    rewrite Hrs' in *. rewrite Hrs in *.
    set (pad := make_stride_aligned b' 4 - width ih * bpp) in *.
    unfold u32, sizeof_BMPFileHeader in *. rewrite Hlen.
    rewrite (Z.mod_small pad) by lia.
    rewrite (Z.mod_small (buffer_size ih)) by lia.
    assert (0 <= height ih * pad <= 3 * (width ih * height ih * bpp)) by nia.
    rewrite (Z.mod_small (height ih * pad)) by lia.
    rewrite (Z.mod_small (buffer_size ih + height ih * pad)) by lia.
    rewrite Z.mod_small by lia. lia.
Qed.

(** Decoding a well-formed file and writing the bitmap back: [operator<<]
    writes, and then reaches the end of its body, where no [return] gives the
    stream back.  With 32 bits per pixel, or a width that is a multiple of 4,
    the whole buffer has been written: the file has the headers and nine
    times the bytes of the pixels, and its size field says so.  With 24 bits
    per pixel and any other width the rows have been written padded to a
    multiple of 4, and the size field, which counts the whole buffer, exceeds
    the length of the file by eight times the bytes of the pixels. *)
Theorem reencoded_file_size (file : list byte) :
  well_formed file ->
  exists b s o,
    operator_extract (istream_of file) Bitmap_init = (Returned, b, s)
    /\ operator_insert ostream_init b = (Broken MissingReturn, o)
    /\ (bit_count (bmp_info_header b) = 32
        \/ Z.rem (width (bmp_info_header b)) 4 = 0 ->
        Z.of_nat (length (written o))
        = offset_data (file_header b)
          + 9 * (width (bmp_info_header b) * height (bmp_info_header b)
                 * imageType b)
        /\ file_size (file_header b) = Z.of_nat (length (written o)))
    /\ (bit_count (bmp_info_header b) = 24 ->
        Z.rem (width (bmp_info_header b)) 4 <> 0 ->
        Z.of_nat (length (written o))
        = 54 + height (bmp_info_header b) * make_stride_aligned b 4
        /\ file_size (file_header b)
           = Z.of_nat (length (written o))
             + 8 * (width (bmp_info_header b) * height (bmp_info_header b) * 3)).
Proof.
  intros Hwf.
  pose proof (well_formed_codec_headers file Hwf) as Hcd.
  destruct (operator_extract_well_formed file Hwf) as (d & s & Hrun & Hl & _).
  set (fh := stored_file_header file) in *.
  set (ih := stored_info_header file) in *.
  set (ch := stored_color_header file) in *.
  pose proof (operator_insert_b1 _ _ _ Hcd d Hl) as Hput.
  pose proof (pixels_bitmap_file_size _ _ _ d Hcd Hl) as Hfs.
  destruct (pixels_bitmap_geometry _ _ _ d Hcd Hl) as [Hgeo _].
  destruct (pixels_bitmap_fields fh ih ch d)
    as (Hih & _ & Hit & Hd & Hst & _ & _ & _ & Hoff & _).
  destruct (codec_sizes fh ih ch Hcd)
    as (bpp & Hbpp & Hbc & HN & Hrs & Hty & Hmax & Hpos & Hrow).
  pose proof (cd_width _ _ _ Hcd) as Hw. pose proof (cd_height _ _ _ Hcd) as Hh.
  pose proof (b1_color_header_ok _ _ _ Hcd d) as (_ & _ & _ & _ & _ & Hu & _).
  pose proof (header_bytes_length _ Hu) as Hhl.
  set (b := pixels_bitmap (headers_bitmap fh ih ch) d) in *.
  assert (Hw' : width (bmp_info_header b) = width ih) by (rewrite Hih; reflexivity).
  assert (Hh' : height (bmp_info_header b) = height ih) by (rewrite Hih; reflexivity).
  assert (Hb' : bit_count (bmp_info_header b) = bit_count ih)
    by (rewrite Hih; reflexivity).
  assert (Hhs : header_size (bmp_info_header b) = header_size ih)
    by (unfold header_size; rewrite Hb'; reflexivity).
  rewrite Hhs in Hhl.
  exists b, s. eexists. split; [exact Hrun|]. split; [exact Hput|].
  cbn [written]. unfold encoded. rewrite Hw', Hh', Hb', Hit, Hty, Hoff, Hfs.
  unfold INT_MAX in Hmax. split.
  - intros Hcase. rewrite length_app, Hd.
    assert (Hwhole : (bit_count ih =? 32) || (Z.rem (width ih) 4 =? 0) = true).
    { destruct Hcase as [E|E]; rewrite E; cbn [Z.eqb Pos.eqb orb];
        [reflexivity|apply orb_true_r]. }
    rewrite Hwhole.
    assert (Hnopad : (if Z.rem (width ih) 4 =? 0 then 0
                      else height ih * (make_stride_aligned b 4 - packed_stride ih))
                     = 0).
    { destruct (Z.eqb_spec (Z.rem (width ih) 4) 0) as [|Hrem]; [reflexivity|].
      destruct Hcase as [E|E]; [|contradiction].
      rewrite make_stride_aligned_fixed; [|].
      - rewrite Hst.
        destruct (Z.eqb_spec (Z.rem (width ih) 4) 0); [contradiction|]. lia.
      - rewrite Hst.
        destruct (Z.eqb_spec (Z.rem (width ih) 4) 0); [contradiction|].
        rewrite Hrs. assert (E4 : bpp = 4) by lia. rewrite E4.
        apply Z.mod_mul. lia. }
    rewrite Hnopad. lia.
  - intros E24 Hrem.
    destruct (Z.eqb_spec (Z.rem (width ih) 4) 0) as [|_]; [contradiction|].
    rewrite E24. cbn [Z.eqb Pos.eqb orb].
    assert (E3 : bpp = 3) by lia. rewrite E3 in *.
    assert (Hrsb : row_stride b = width ih * 3).
    { rewrite Hst. destruct (Z.eqb_spec (Z.rem (width ih) 4) 0); [contradiction|].
      exact Hrs. }
    pose proof (make_stride_aligned_least b ltac:(rewrite Hrsb; nia)) as Hleast.
    rewrite Hrsb in *. rewrite Hrs.
    set (stride := make_stride_aligned b 4) in *.
    assert (Hpad : u32 (stride - width ih * 3) = stride - width ih * 3)
      by (unfold u32; apply Z.mod_small; lia).
    rewrite Hpad, length_app, file_rows_length by (rewrite Hd; nia).
    assert (Hhdr : header_size ih = 40).
    { unfold header_size. rewrite E24. reflexivity. }
    rewrite Hhdr in *. unfold sizeof_BMPFileHeader in *. nia.
Qed.

Lemma reencoded_file_size_witness :
  well_formed stream_2x2
  /\ exists b s o,
       operator_extract (istream_of stream_2x2) Bitmap_init = (Returned, b, s)
       /\ operator_insert ostream_init b = (Broken MissingReturn, o)
       /\ (bit_count (bmp_info_header b) = 32
           \/ Z.rem (width (bmp_info_header b)) 4 = 0 ->
           Z.of_nat (length (written o))
           = offset_data (file_header b)
             + 9 * (width (bmp_info_header b) * height (bmp_info_header b)
                    * imageType b)
           /\ file_size (file_header b) = Z.of_nat (length (written o)))
       /\ (bit_count (bmp_info_header b) = 24 ->
           Z.rem (width (bmp_info_header b)) 4 <> 0 ->
           Z.of_nat (length (written o))
           = 54 + height (bmp_info_header b) * make_stride_aligned b 4
           /\ file_size (file_header b)
              = Z.of_nat (length (written o))
                + 8 * (width (bmp_info_header b) * height (bmp_info_header b)
                       * 3)).
Proof.
  split; [exact stream_2x2_well_formed|].
  exact (reencoded_file_size stream_2x2 stream_2x2_well_formed).
Defined.

(** ** [Bitmap::make_stride_aligned] for any alignment *)

Lemma round_up_multiple a x :
  0 < a -> 0 <= x ->
  (x mod a = 0 -> (x + a - 1) / a * a = x)
  /\ (x mod a <> 0 ->
      x < (x + a - 1) / a * a /\ (x + 1 + a - 1) / a = (x + a - 1) / a).
Proof.
  intros Ha Hx.
  pose proof (Z.div_mod x a ltac:(lia)) as Hdm.
  pose proof (Z.mod_pos_bound x a Ha) as Hr.
  split.
  - intros H0.
    assert (E : (x + a - 1) / a = x / a).
    { symmetry. apply (Z.div_unique _ _ _ (a - 1)); lia. }
    rewrite E. lia.
  - intros Hne.
    assert (E : (x + a - 1) / a = x / a + 1).
    { symmetry. apply (Z.div_unique _ _ _ (x mod a - 1)); lia. }
    assert (E' : (x + 1 + a - 1) / a = x / a + 1).
    { symmetry. apply (Z.div_unique _ _ _ (x mod a)); lia. }
    rewrite E, E'. split; [nia|reflexivity].
Qed.

Lemma make_stride_aligned_loop_spec a fuel :
  0 < a ->
  forall x, 0 <= x < 4294967296 ->
    (x + a - 1) / a * a - x <= Z.of_nat fuel ->
    make_stride_aligned_loop fuel a x
    = if (x + a - 1) / a * a <? 4294967296 then (x + a - 1) / a * a else 0.
Proof.
  intros Ha. induction fuel as [|f IH]; intros x Hx Hfuel.
  - destruct (round_up_multiple a x Ha ltac:(lia)) as [H0 Hn].
    destruct (Z.eq_dec (x mod a) 0) as [E|E].
    + rewrite (H0 E). simpl. destruct (Z.ltb_spec x 4294967296); [reflexivity|lia].
    + destruct (Hn E). lia.
  - destruct (round_up_multiple a x Ha ltac:(lia)) as [H0 Hn].
    cbn [make_stride_aligned_loop].
    destruct (Z.eqb_spec (x mod a) 0) as [E|E]; cbn [negb].
    + rewrite (H0 E). destruct (Z.ltb_spec x 4294967296); [reflexivity|lia].
    + destruct (Hn E) as [Hlt Hsame]. unfold u32.
      destruct (Z.eq_dec (x + 1) 4294967296) as [Hwrap|Hno].
      * rewrite Hwrap. change (4294967296 mod 4294967296) with 0.
        destruct (Z.ltb_spec ((x + a - 1) / a * a) 4294967296); [lia|].
        destruct f; [reflexivity|]. cbn [make_stride_aligned_loop].
        rewrite Z.mod_0_l by lia. reflexivity.
      * rewrite Z.mod_small by lia.
        rewrite IH by lia. rewrite Hsame. reflexivity.
Qed.

(** For every alignment between 1 and [2^32 - 1],
    [make_stride_aligned] returns the least multiple of the alignment that is
    not below [row_stride], if that fits [uint32_t]; if not, the counter wraps
    and the result is 0. *)
Theorem make_stride_aligned_rounds_up (b : Bitmap) (align_stride : Z) :
  0 < align_stride < 4294967296 ->
  0 <= row_stride b < 4294967296 ->
  make_stride_aligned b align_stride
  = (if (row_stride b + align_stride - 1) / align_stride * align_stride
        <? 4294967296
     then (row_stride b + align_stride - 1) / align_stride * align_stride
     else 0)
  /\ make_stride_aligned b align_stride mod align_stride = 0
  /\ (make_stride_aligned b align_stride <> 0 ->
      row_stride b <= make_stride_aligned b align_stride
      < row_stride b + align_stride).
Proof.
  intros Ha Hx.
  assert (E : make_stride_aligned b align_stride
              = (if (row_stride b + align_stride - 1) / align_stride * align_stride
                    <? 4294967296
                 then (row_stride b + align_stride - 1) / align_stride
                      * align_stride
                 else 0)).
  { unfold make_stride_aligned. apply make_stride_aligned_loop_spec; [lia|lia|].
    pose proof (Z.div_mod (row_stride b + align_stride - 1) align_stride
                  ltac:(lia)).
    pose proof (Z.mod_pos_bound (row_stride b + align_stride - 1) align_stride
                  ltac:(lia)).
    lia. }
  split; [exact E|]. rewrite E.
  pose proof (Z.div_mod (row_stride b + align_stride - 1) align_stride
                ltac:(lia)) as Hdm.
  pose proof (Z.mod_pos_bound (row_stride b + align_stride - 1) align_stride
                ltac:(lia)) as Hr.
  destruct (Z.ltb_spec ((row_stride b + align_stride - 1) / align_stride
                        * align_stride) 4294967296).
  - split; [apply Z.mod_mul; lia|]. intros _. lia.
  - split; [apply Z.mod_0_l; lia|]. intros H0. contradiction.
Qed.

Lemma make_stride_aligned_rounds_up_witness :
  0 < 4 < 4294967296
  /\ 0 <= row_stride sample_2x2 < 4294967296
  /\ make_stride_aligned sample_2x2 4
     = (if (row_stride sample_2x2 + 4 - 1) / 4 * 4 <? 4294967296
        then (row_stride sample_2x2 + 4 - 1) / 4 * 4
        else 0)
  /\ make_stride_aligned sample_2x2 4 mod 4 = 0
  /\ (make_stride_aligned sample_2x2 4 <> 0 ->
      row_stride sample_2x2 <= make_stride_aligned sample_2x2 4
      < row_stride sample_2x2 + 4).
Proof.
  split; [lia|]. split; [cbn; lia|].
  apply (make_stride_aligned_rounds_up sample_2x2 4); [lia|cbn; lia].
Defined.

(** ** What the filters leave alone *)

Lemma for_loop_preserves_on {S : Type} (P : S -> Prop) (R : Z -> Prop)
    fuel bound next (body : Z -> S -> outcome S) :
  (forall c, R c -> c < bound -> R (next c)) ->
  (forall c s s', R c -> c < bound -> body c s = Ok s' -> P s -> P s') ->
  forall i s s', R i -> for_loop fuel bound next body i s = Ok s' -> P s -> P s'.
Proof.
  intros Hnext Hbody.
  induction fuel as [|f IH]; intros i s s' Hi Hrun Hs; simpl in Hrun.
  - discriminate.
  - destruct (Z.ltb_spec i bound) as [Hlt|Hge].
    + destruct (body i s) as [s1| |] eqn:E; simpl in Hrun; try discriminate.
      apply (IH (next i) s1 s'); [apply Hnext; assumption|exact Hrun|].
      eapply Hbody; eauto.
    + injection Hrun as <-. exact Hs.
Qed.

Lemma for_int_preserves {S : Type} (P : S -> Prop) from bound step
    (body : Z -> S -> outcome S) s s' :
  0 <= step ->
  (forall c s s', from <= c < bound -> body c s = Ok s' -> P s -> P s') ->
  for_int from bound step body s = Ok s' -> P s -> P s'.
Proof.
  intros Hstep Hbody. unfold for_int.
  apply (for_loop_preserves_on P (fun c => from <= c)).
  - intros c Hc _. lia.
  - intros c t t' Hc Hlt. apply Hbody. lia.
  - lia.
Qed.

Lemma for_u8_preserves {S : Type} (P : S -> Prop) bound step
    (body : Z -> S -> outcome S) s s' :
  (forall c s s', 0 <= c < bound -> body c s = Ok s' -> P s -> P s') ->
  for_u8 bound step body s = Ok s' -> P s -> P s'.
Proof.
  intros Hbody. unfold for_u8.
  apply (for_loop_preserves_on P (fun c => 0 <= c)).
  - intros c Hc _. unfold u8. apply Z.mod_pos_bound. lia.
  - intros c t t' Hc Hlt. apply Hbody. lia.
  - lia.
Qed.

Lemma for_u16_preserves {S : Type} (P : S -> Prop) bound step
    (body : Z -> S -> outcome S) s s' :
  (forall c s s', 0 <= c < bound -> body c s = Ok s' -> P s -> P s') ->
  for_u16 bound step body s = Ok s' -> P s -> P s'.
Proof.
  intros Hbody. unfold for_u16.
  apply (for_loop_preserves_on P (fun c => 0 <= c)).
  - intros c Hc _. unfold u16. apply Z.mod_pos_bound. lia.
  - intros c t t' Hc Hlt. apply Hbody. lia.
  - lia.
Qed.

Lemma kept_outside_refl F d : kept_outside F d d.
Proof. split; [reflexivity|]. intros i _. right. reflexivity. Qed.

Lemma store_kept F d0 d i v d' :
  store d i v = Ok d' -> F i -> kept_outside F d0 d -> kept_outside F d0 d'.
Proof.
  intros Hst Hi [Hl Hk]. apply store_Ok in Hst as [Hr ->]. split.
  - rewrite length_insert. exact Hl.
  - intros j Hj. destruct (Z.eq_dec i j) as [<-|Hne]; [left; exact Hi|].
    rewrite peek_insert_ne by lia. apply Hk. exact Hj.
Qed.

Lemma kept_outside_not F d0 d i :
  kept_outside F d0 d -> 0 <= i -> ~ F i -> peek d i = peek d0 i.
Proof. intros [_ Hk] Hi Hn. destruct (Hk i Hi); [contradiction|assumption]. Qed.

Lemma image_bytes_row b x y ch :
  valid_geometry b ->
  0 <= x < width (bmp_info_header b) ->
  0 <= y < height (bmp_info_header b) ->
  0 <= ch < imageType b ->
  image_bytes b (u32 (row_stride b * y) + x * imageType b + ch).
Proof.
  intros Hgeo Hx Hy Hch. exists x, y, ch.
  rewrite (u32_row b y Hgeo Hy). repeat split; try lia.
Qed.

Lemma cellShade_footprint b b' :
  valid_geometry b -> cellShade b = Ok b' ->
  kept_outside (image_bytes b) (data b) (data b').
Proof.
  intros Hgeo H. unfold cellShade in H.
  apply bind_Ok in H as (d' & Hrun & H). injection H as <-. cbn [data set_data].
  eapply (for_int_preserves (kept_outside (image_bytes b) (data b)));
    [|
     |exact Hrun
     |apply kept_outside_refl]; [lia|].
  intros y d1 d2 Hy Hrow Hk1. cbv zeta in Hrow.
  eapply (for_int_preserves (kept_outside (image_bytes b) (data b)));
    [| |exact Hrow|exact Hk1]; [lia|].
  intros x d3 d4 Hx Hpix Hk3.
  apply bind_Ok in Hpix as (off & Eoff & Hpix).
  apply int_mul_Ok in Eoff as [-> _].
  unfold cellShade_pixel in Hpix.
  eapply (for_u8_preserves (kept_outside (image_bytes b) (data b)));
    [|exact Hpix|exact Hk3].
  intros ch d5 d6 Hch Hst Hk.
  apply bind_Ok in Hst as (v & _ & Hst).
  eapply store_kept; [exact Hst| |exact Hk].
  apply image_bytes_row; auto; lia.
Qed.

(* Quantizing twice. *)
Lemma cellShade_twice (b : Bitmap) :
  valid_geometry b -> rows_fit_int b ->
  exists b1,
    cellShade b = Ok b1
    /\ cellShade b1 = Ok b1
    /\ forall i, 0 <= i -> ~ image_bytes b i ->
         peek (data b1) i = peek (data b) i.
Proof.
  intros Hgeo Hint.
  destruct (cellShade_spec b Hgeo Hint) as (b1 & Hrun1 & Hb1 & Hl1 & _ & Hq1).
  assert (Hgeo1 : valid_geometry b1).
  { rewrite Hb1. apply valid_geometry_set_data; assumption. }
  assert (Hint1 : rows_fit_int b1).
  { rewrite Hb1. apply rows_fit_int_set_data. exact Hint. }
  destruct (cellShade_spec b1 Hgeo1 Hint1) as (b2 & Hrun2 & Hb2 & Hl2 & _ & Hq2).
  pose proof (cellShade_footprint b b1 Hgeo Hrun1) as Hk1.
  pose proof (cellShade_footprint b1 b2 Hgeo1 Hrun2) as [_ Hk2].
  exists b1. split; [exact Hrun1|].
  split; [|intros i; apply (kept_outside_not _ _ _ _ Hk1)].
  rewrite Hrun2. f_equal. rewrite Hb2.
  replace (data b2) with (data b1); [rewrite Hb1; reflexivity|].
  symmetry. apply peek_ext; [exact Hl2|].
  intros i Hi.
  destruct (Hk2 i ltac:(lia)) as [Hin1|Hsame]; [|exact Hsame].
  assert (Hin : image_bytes b i) by (rewrite Hb1 in Hin1; exact Hin1).
  destruct Hin1 as (x & y & ch & Hx & Hy & Hch & E).
  rewrite (Hq2 i ltac:(lia)) by (exists x, y, ch; auto).
  destruct Hin as (x' & y' & ch' & Hx' & Hy' & Hch' & E').
  rewrite (Hq1 i ltac:(lia)) by (exists x', y', ch'; auto).
  apply nearesetNumber_idem. pose proof (peek_range (data b) i). lia.
Qed.

(** On a bitmap whose rows lie inside the buffer and have at most [INT_MAX]
    bytes of pixels, [cellShade] completes; applied to its own result it
    changes nothing, and the first application leaves every byte of the
    buffer that is not a channel of a pixel of the image as it was. *)
Theorem cellShade_idempotent (b : Bitmap) :
  valid_geometry b -> rows_fit_int b ->
  exists b1,
    cellShade b = Ok b1
    /\ cellShade b1 = Ok b1
    /\ forall i, 0 <= i -> ~ image_bytes b i ->
         peek (data b1) i = peek (data b) i.
Proof. exact (cellShade_twice b). Qed.

Lemma cellShade_idempotent_witness :
  valid_geometry sample_2x2 /\ rows_fit_int sample_2x2
  /\ exists b1,
       cellShade sample_2x2 = Ok b1
       /\ cellShade b1 = Ok b1
       /\ forall i, 0 <= i -> ~ image_bytes sample_2x2 i ->
            peek (data b1) i = peek (data sample_2x2) i.
Proof.
  split; [exact sample_2x2_geometry|]. split; [exact sample_2x2_rows|].
  exact (cellShade_idempotent sample_2x2 sample_2x2_geometry sample_2x2_rows).
Defined.

Lemma grayscale_footprint b b' :
  valid_geometry b -> grayscale b = Ok b' ->
  kept_outside (image_bytes b) (data b) (data b').
Proof.
  intros Hgeo H. unfold grayscale in H.
  apply bind_Ok in H as (d' & Hrun & H). injection H as <-. cbn [data set_data].
  eapply (for_int_preserves (kept_outside (image_bytes b) (data b)));
    [| |exact Hrun|apply kept_outside_refl]; [lia|].
  intros y d1 d2 Hy Hrow Hk1. cbv zeta in Hrow.
  eapply (for_int_preserves (kept_outside (image_bytes b) (data b)));
    [| |exact Hrow|exact Hk1]; [lia|].
  intros x d3 d4 Hx Hpix Hk3.
  assert (Hin : forall ch, 0 <= ch < imageType b ->
            image_bytes b (u32 (row_stride b * y) + x * imageType b + ch))
    by (intros ch Hch; apply image_bytes_row; auto; lia).
  apply bind_Ok in Hpix as (off & Eoff & Hpix).
  apply int_mul_Ok in Eoff as [-> _].
  unfold grayscale_pixel in Hpix.
  apply bind_Ok in Hpix as (p0 & _ & H). apply bind_Ok in H as (p1 & _ & H).
  apply bind_Ok in H as (p2 & _ & H). apply bind_Ok in H as (gd & Egd & H).
  apply bind_Ok in H as (e1 & S1 & H). apply bind_Ok in H as (e2 & S2 & H).
  assert (Hbpp : imageType b = 3 \/ imageType b = 4) by apply (vg_type b Hgeo).
  assert (Hgd : kept_outside (image_bytes b) (data b) (snd gd)).
  { destruct (Z.eqb_spec (imageType b) 3) as [E3|E3].
    - injection Egd as <-. exact Hk3.
    - apply bind_Ok in Egd as (p3 & _ & Egd).
      destruct (imageType b =? 0); [discriminate|].
      apply bind_Ok in Egd as (e0 & S0 & Egd). injection Egd as <-.
      cbn [snd]. eapply store_kept; [exact S0|apply Hin; lia|exact Hk3]. }
  eapply store_kept; [exact H| |].
  { replace (u32 (row_stride b * y) + x * imageType b)
      with (u32 (row_stride b * y) + x * imageType b + 0) by lia.
    apply Hin. lia. }
  eapply store_kept; [exact S2|apply Hin; lia|].
  eapply store_kept; [exact S1|apply Hin; lia|exact Hgd].
Qed.

(** On a bitmap whose rows lie inside the buffer, coincide or do not
    overlap, and have at most [INT_MAX] bytes of pixels, [grayscale]
    completes; applied to its own result it changes nothing, and the first
    application leaves every byte of the buffer that is not a channel of a
    pixel of the image as it was. *)
Theorem grayscale_idempotent (b : Bitmap) :
  valid_geometry b -> stride_ok b -> rows_fit_int b ->
  exists b1,
    grayscale b = Ok b1
    /\ grayscale b1 = Ok b1
    /\ forall i, 0 <= i -> ~ image_bytes b i ->
         peek (data b1) i = peek (data b) i.
Proof.
  intros Hgeo Hst Hint.
  destruct (grayscale_spec b Hgeo Hst Hint) as (b1 & Hrun1 & Hl1 & _ & Hg1).
  pose proof (grayscale_frame b b1 Hrun1) as (Hfh & Hih & Hch & Hrs & Hit & _).
  assert (Hb1 : b1 = set_data b (data b1)).
  { clear - Hfh Hih Hch Hrs Hit. destruct b1, b. unfold set_data. cbn in *.
    subst. reflexivity. }
  assert (Hgeo1 : valid_geometry b1).
  { rewrite Hb1. apply valid_geometry_set_data; assumption. }
  assert (Hst1 : stride_ok b1).
  { rewrite Hb1. apply stride_ok_set_data. exact Hst. }
  assert (Hint1 : rows_fit_int b1).
  { rewrite Hb1. apply rows_fit_int_set_data. exact Hint. }
  destruct (grayscale_spec b1 Hgeo1 Hst1 Hint1) as (b2 & Hrun2 & Hl2 & _ & Hg2).
  pose proof (grayscale_frame b1 b2 Hrun2) as (Hfh2 & Hih2 & Hch2 & Hrs2 & Hit2 & _).
  pose proof (grayscale_footprint b b1 Hgeo Hrun1) as Hk1.
  pose proof (grayscale_footprint b1 b2 Hgeo1 Hrun2) as [_ Hk2].
  exists b1. split; [exact Hrun1|].
  split; [|intros i; apply (kept_outside_not _ _ _ _ Hk1)].
  rewrite Hrun2. f_equal.
  assert (Hd : data b2 = data b1).
  { apply peek_ext; [exact Hl2|].
    intros i Hi.
    destruct (Hk2 i ltac:(lia)) as [Hin1|Hsame]; [|exact Hsame].
    destruct Hin1 as (x & y & ch & Hx & Hy & Hch' & ->).
    assert (Hslot1 : pixel_slot b1 (channel_addr b1 x y 0))
      by (exists x, y; auto).
    assert (Hslot : pixel_slot b (channel_addr b x y 0))
      by (exists x, y; rewrite <- Hih; auto).
    assert (Haddr : forall k, channel_addr b1 x y k = channel_addr b1 x y 0 + k)
      by (intros k; unfold channel_addr; lia).
    assert (Hsame : channel_addr b1 x y 0 = channel_addr b x y 0)
      by (unfold channel_addr; rewrite Hrs, Hit; reflexivity).
    rewrite (Haddr ch).
    rewrite (Hg2 _ Hslot1 Hslot1 ch Hch').
    rewrite Hsame.
    rewrite (Hg1 _ Hslot Hslot ch) by (rewrite <- Hit; exact Hch').
    apply average_flat; [apply (vg_type b1 Hgeo1)|].
    intros k Hk. apply (Hg1 _ Hslot Hslot k). rewrite <- Hit. exact Hk. }
  clear - Hfh2 Hih2 Hch2 Hrs2 Hit2 Hd. destruct b1, b2. cbn in *.
  subst. reflexivity.
Qed.

Lemma grayscale_idempotent_witness :
  valid_geometry sample_2x2 /\ stride_ok sample_2x2 /\ rows_fit_int sample_2x2
  /\ exists b1,
       grayscale sample_2x2 = Ok b1
       /\ grayscale b1 = Ok b1
       /\ forall i, 0 <= i -> ~ image_bytes sample_2x2 i ->
            peek (data b1) i = peek (data sample_2x2) i.
Proof.
  split; [exact sample_2x2_geometry|]. split; [exact sample_2x2_stride|].
  split; [exact sample_2x2_rows|].
  exact (grayscale_idempotent sample_2x2 sample_2x2_geometry sample_2x2_stride
           sample_2x2_rows).
Defined.

(** ** [nearesetNumber] as a function of the byte *)

(** On bytes, [nearesetNumber] is the step function with steps after 64 and
    after 191: it is monotone, moves no value by more than 64, and maps each
    of its three results to itself. *)
Theorem nearesetNumber_steps (v v' : Z) :
  0 <= v <= 255 -> 0 <= v' <= 255 ->
  nearesetNumber v = (if v <=? 64 then 0 else if v <=? 191 then 128 else 255)
  /\ (v <= v' -> nearesetNumber v <= nearesetNumber v')
  /\ Z.abs (nearesetNumber v - v) <= 64
  /\ nearesetNumber (nearesetNumber v) = nearesetNumber v.
Proof.
  intros Hv Hv'.
  rewrite (nearesetNumber_idem v Hv).
  rewrite (nearesetNumber_cases v Hv), (nearesetNumber_cases v' Hv').
  split; [reflexivity|].
  destruct (Z.leb_spec v 64); [|destruct (Z.leb_spec v 191)];
    (destruct (Z.leb_spec v' 64); [|destruct (Z.leb_spec v' 191)]);
    repeat split; lia.
Qed.

Lemma nearesetNumber_steps_witness :
  0 <= 64 <= 255 /\ 0 <= 65 <= 255
  /\ nearesetNumber 64
     = (if 64 <=? 64 then 0 else if 64 <=? 191 then 128 else 255)
  /\ (64 <= 65 -> nearesetNumber 64 <= nearesetNumber 65)
  /\ Z.abs (nearesetNumber 64 - 64) <= 64
  /\ nearesetNumber (nearesetNumber 64) = nearesetNumber 64.
Proof.
  split; [lia|]. split; [lia|].
  apply (nearesetNumber_steps 64 65); lia.
Defined.

(** ** The flips, pixel by pixel *)

(** [flipv] puts into row [y] the pixels of row [height - 1 - y], and
    leaves every byte that is not a channel of a pixel as it was. *)
Theorem flipv_reverses_rows (b : Bitmap) :
  valid_geometry b -> stride_ok b -> fits_counters b ->
  exists b',
    flipv b = Ok b'
    /\ (forall x y ch,
          0 <= x < width (bmp_info_header b) ->
          0 <= y < height (bmp_info_header b) ->
          0 <= ch < imageType b ->
          peek (data b') (channel_addr b x y ch)
          = peek (data b)
              (channel_addr b x (height (bmp_info_header b) - 1 - y) ch))
    /\ (forall i, 0 <= i -> ~ image_bytes b i ->
          peek (data b') i = peek (data b) i).
Proof.
  intros Hgeo Hst Hfit.
  destruct (flipv_spec b Hgeo Hst Hfit) as (b' & Hrun & _ & _ & Hdone & Hrest).
  exists b'. split; [exact Hrun|]. split.
  - intros x y ch Hx Hy Hch. apply Hdone; auto.
  - intros i Hi Hout.
    destruct (Hrest i Hi) as [(x & y & ch & Hx & Hy & Hch & _ & E)|E];
      [|exact E].
    exfalso. apply Hout. exists x, y, ch. auto.
Qed.

Lemma flipv_reverses_rows_witness :
  valid_geometry sample_2x2 /\ stride_ok sample_2x2 /\ fits_counters sample_2x2
  /\ exists b',
       flipv sample_2x2 = Ok b'
       /\ (forall x y ch,
             0 <= x < width (bmp_info_header sample_2x2) ->
             0 <= y < height (bmp_info_header sample_2x2) ->
             0 <= ch < imageType sample_2x2 ->
             peek (data b') (channel_addr sample_2x2 x y ch)
             = peek (data sample_2x2)
                 (channel_addr sample_2x2 x
                    (height (bmp_info_header sample_2x2) - 1 - y) ch))
       /\ (forall i, 0 <= i -> ~ image_bytes sample_2x2 i ->
             peek (data b') i = peek (data sample_2x2) i).
Proof.
  split; [exact sample_2x2_geometry|]. split; [exact sample_2x2_stride|].
  split; [exact sample_2x2_fits|].
  exact (flipv_reverses_rows sample_2x2 sample_2x2_geometry sample_2x2_stride
           sample_2x2_fits).
Defined.

(** [fliph] puts into column [x] of every row the pixel of column
    [width - 1 - x] of that row, and leaves every byte that is not a channel
    of a pixel as it was. *)
Theorem fliph_reverses_columns (b : Bitmap) :
  valid_geometry b -> stride_ok b -> fits_counters b ->
  exists b',
    fliph b = Ok b'
    /\ (forall x y ch,
          0 <= x < width (bmp_info_header b) ->
          0 <= y < height (bmp_info_header b) ->
          0 <= ch < imageType b ->
          peek (data b') (channel_addr b x y ch)
          = peek (data b)
              (channel_addr b (width (bmp_info_header b) - 1 - x) y ch))
    /\ (forall i, 0 <= i -> ~ image_bytes b i ->
          peek (data b') i = peek (data b) i).
Proof.
  intros Hgeo Hst Hfit.
  destruct (fliph_spec b Hgeo Hst Hfit) as (b' & Hrun & _ & _ & Hdone & Hrest).
  exists b'. split; [exact Hrun|]. split.
  - intros x y ch Hx Hy Hch. apply Hdone; auto.
  - intros i Hi Hout.
    destruct (Hrest i Hi) as [(x & y & ch & Hx & Hy & Hch & _ & E)|E];
      [|exact E].
    exfalso. apply Hout. exists x, y, ch. auto.
Qed.

Lemma fliph_reverses_columns_witness :
  valid_geometry sample_2x2 /\ stride_ok sample_2x2 /\ fits_counters sample_2x2
  /\ exists b',
       fliph sample_2x2 = Ok b'
       /\ (forall x y ch,
             0 <= x < width (bmp_info_header sample_2x2) ->
             0 <= y < height (bmp_info_header sample_2x2) ->
             0 <= ch < imageType sample_2x2 ->
             peek (data b') (channel_addr sample_2x2 x y ch)
             = peek (data sample_2x2)
                 (channel_addr sample_2x2
                    (width (bmp_info_header sample_2x2) - 1 - x) y ch))
       /\ (forall i, 0 <= i -> ~ image_bytes sample_2x2 i ->
             peek (data b') i = peek (data sample_2x2) i).
Proof.
  split; [exact sample_2x2_geometry|]. split; [exact sample_2x2_stride|].
  split; [exact sample_2x2_fits|].
  exact (fliph_reverses_columns sample_2x2 sample_2x2_geometry sample_2x2_stride
           sample_2x2_fits).
Defined.

(** Two flips one after the other. *)
Lemma flip_compose b d1 d2 (sx1 sy1 sx2 sy2 : Z -> Z) :
  (forall x, 0 <= x < width (bmp_info_header b) ->
     0 <= sx2 x < width (bmp_info_header b)) ->
  (forall y, 0 <= y < height (bmp_info_header b) ->
     0 <= sy2 y < height (bmp_info_header b)) ->
  flip_inv b sx1 sy1 (fun _ _ => True) d1 ->
  flip_inv (set_data b d1) sx2 sy2 (fun _ _ => True) d2 ->
  flip_inv b (fun x => sx1 (sx2 x)) (fun y => sy1 (sy2 y)) (fun _ _ => True) d2.
Proof.
  intros Hsx Hsy (Hl1 & Hdone1 & Hrest1) (Hl2 & Hdone2 & Hrest2).
  cbn [set_data data bmp_info_header imageType] in Hl2, Hdone2, Hrest2.
  assert (Hcell : forall x y ch,
            0 <= x < width (bmp_info_header b) ->
            0 <= y < height (bmp_info_header b) ->
            0 <= ch < imageType b ->
            peek d2 (channel_addr b x y ch)
            = peek (data b) (channel_addr b (sx1 (sx2 x)) (sy1 (sy2 y)) ch)).
  { intros x y ch Hx Hy Hch.
    pose proof (Hdone2 x y ch Hx Hy Hch I) as E2.
    unfold channel_addr in E2 |- *. cbn [set_data row_stride imageType] in E2.
    rewrite E2.
    apply (Hdone1 (sx2 x) (sy2 y) ch (Hsx x Hx) (Hsy y Hy) Hch I). }
  split; [congruence|]. split.
  - intros x y ch Hx Hy Hch _. apply Hcell; assumption.
  - intros i Hi.
    destruct (Hrest2 i Hi) as [(x & y & ch & Hx & Hy & Hch & _ & E)|E2].
    + left. exists x, y, ch. repeat split; try assumption; try lia.
    + destruct (Hrest1 i Hi) as [(x & y & ch & Hx & Hy & Hch & _ & E)|E1].
      * left. exists x, y, ch. repeat split; try assumption; lia.
      * right. congruence.
Qed.

(** A finished flip determines the buffer. *)
Lemma flip_inv_unique b d d' (sx sy : Z -> Z) :
  flip_inv b sx sy (fun _ _ => True) d ->
  flip_inv b sx sy (fun _ _ => True) d' ->
  d = d'.
Proof.
  intros (Hl & Hdone & Hrest) (Hl' & Hdone' & Hrest').
  apply peek_ext; [congruence|].
  intros i Hi.
  assert (Hcell : forall x y ch,
            0 <= x < width (bmp_info_header b) ->
            0 <= y < height (bmp_info_header b) ->
            0 <= ch < imageType b ->
            peek d (channel_addr b x y ch) = peek d' (channel_addr b x y ch)).
  { intros x y ch Hx Hy Hch.
    rewrite (Hdone x y ch Hx Hy Hch I), (Hdone' x y ch Hx Hy Hch I). reflexivity. }
  destruct (Hrest i ltac:(lia)) as [(x & y & ch & Hx & Hy & Hch & _ & ->)|E].
  - apply Hcell; assumption.
  - destruct (Hrest' i ltac:(lia)) as [(x & y & ch & Hx & Hy & Hch & _ & ->)|E'].
    + apply Hcell; assumption.
    + congruence.
Qed.

(** [flipv] after [fliph] and [fliph] after [flipv] give the same bitmap,
    the image turned by 180 degrees: pixel [(x, y)] holds the old pixel
    [(width - 1 - x, height - 1 - y)]. *)
Theorem flips_commute (b : Bitmap) :
  valid_geometry b -> stride_ok b -> fits_counters b ->
  exists b1 b2 b3,
    fliph b = Ok b1 /\ flipv b1 = Ok b2
    /\ flipv b = Ok b3 /\ fliph b3 = Ok b2
    /\ forall x y ch,
         0 <= x < width (bmp_info_header b) ->
         0 <= y < height (bmp_info_header b) ->
         0 <= ch < imageType b ->
         peek (data b2) (channel_addr b x y ch)
         = peek (data b)
             (channel_addr b (width (bmp_info_header b) - 1 - x)
                (height (bmp_info_header b) - 1 - y) ch).
Proof.
  intros Hgeo Hst Hfit.
  destruct (fliph_spec b Hgeo Hst Hfit) as (b1 & Hrun1 & Hb1 & Hinv1).
  destruct (flipv_spec b Hgeo Hst Hfit) as (b3 & Hrun3 & Hb3 & Hinv3).
  assert (Hgeo1 : valid_geometry b1).
  { rewrite Hb1. apply valid_geometry_set_data; [assumption|apply Hinv1]. }
  assert (Hgeo3 : valid_geometry b3).
  { rewrite Hb3. apply valid_geometry_set_data; [assumption|apply Hinv3]. }
  assert (Hst1 : stride_ok b1) by (rewrite Hb1; apply stride_ok_set_data, Hst).
  assert (Hst3 : stride_ok b3) by (rewrite Hb3; apply stride_ok_set_data, Hst).
  assert (Hfit1 : fits_counters b1)
    by (rewrite Hb1; apply fits_counters_set_data, Hfit).
  assert (Hfit3 : fits_counters b3)
    by (rewrite Hb3; apply fits_counters_set_data, Hfit).
  destruct (flipv_spec b1 Hgeo1 Hst1 Hfit1) as (b2 & Hrun2 & Hb2 & Hinv2).
  destruct (fliph_spec b3 Hgeo3 Hst3 Hfit3) as (b4 & Hrun4 & Hb4 & Hinv4).
  rewrite Hb1 in Hinv2. rewrite Hb3 in Hinv4.
  cbn [set_data bmp_info_header] in Hinv2, Hinv4.
  assert (Hboth : flip_inv b
            (fun x => width (bmp_info_header b) - 1 - x)
            (fun y => height (bmp_info_header b) - 1 - y)
            (fun _ _ => True) (data b2)).
  { apply (flip_compose b (data b1) (data b2)
             (fun x => width (bmp_info_header b) - 1 - x) (fun y => y)
             (fun x => x) (fun y => height (bmp_info_header b) - 1 - y));
      [intros x Hx; lia|intros y Hy; lia|exact Hinv1|exact Hinv2]. }
  assert (Hboth' : flip_inv b
            (fun x => width (bmp_info_header b) - 1 - x)
            (fun y => height (bmp_info_header b) - 1 - y)
            (fun _ _ => True) (data b4)).
  { apply (flip_compose b (data b3) (data b4)
             (fun x => x) (fun y => height (bmp_info_header b) - 1 - y)
             (fun x => width (bmp_info_header b) - 1 - x) (fun y => y));
      [intros x Hx; lia|intros y Hy; lia|exact Hinv3|exact Hinv4]. }
  assert (Hd : data b4 = data b2)
    by (apply (flip_inv_unique b _ _ _ _ Hboth' Hboth)).
  assert (Hb42 : b4 = b2).
  { rewrite Hb4, Hb2, Hd. rewrite Hb3, Hb1. reflexivity. }
  exists b1, b2, b3.
  split; [exact Hrun1|]. split; [exact Hrun2|]. split; [exact Hrun3|].
  split; [rewrite <- Hb42; exact Hrun4|].
  intros x y ch Hx Hy Hch.
  destruct Hboth as (_ & Hdone & _). apply Hdone; auto.
Qed.

Lemma flips_commute_witness :
  valid_geometry sample_2x2 /\ stride_ok sample_2x2 /\ fits_counters sample_2x2
  /\ exists b1 b2 b3,
       fliph sample_2x2 = Ok b1 /\ flipv b1 = Ok b2
       /\ flipv sample_2x2 = Ok b3 /\ fliph b3 = Ok b2
       /\ forall x y ch,
            0 <= x < width (bmp_info_header sample_2x2) ->
            0 <= y < height (bmp_info_header sample_2x2) ->
            0 <= ch < imageType sample_2x2 ->
            peek (data b2) (channel_addr sample_2x2 x y ch)
            = peek (data sample_2x2)
                (channel_addr sample_2x2
                   (width (bmp_info_header sample_2x2) - 1 - x)
                   (height (bmp_info_header sample_2x2) - 1 - y) ch).
Proof.
  split; [exact sample_2x2_geometry|]. split; [exact sample_2x2_stride|].
  split; [exact sample_2x2_fits|].
  exact (flips_commute sample_2x2 sample_2x2_geometry sample_2x2_stride
           sample_2x2_fits).
Defined.

(** ** The filters on a decoded image whose width is a multiple of 4 *)

Lemma flipv_without_stride b :
  valid_geometry b -> fits_counters b -> row_stride b = 0 -> flipv b = Ok b.
Proof.
  intros Hgeo Hfit Hrs.
  destruct (flipv_spec b Hgeo (or_introl Hrs) Hfit)
    as (b' & Hrun & Hb' & Hl & Hdone & Hrest).
  rewrite Hrun. f_equal. rewrite Hb'.
  replace (data b') with (data b); [apply set_data_data|].
  symmetry. apply peek_ext; [exact Hl|].
  intros i Hi.
  destruct (Hrest i ltac:(lia)) as [(x & y & ch & Hx & Hy & Hch & _ & ->)|E];
    [|exact E].
  rewrite (Hdone x y ch Hx Hy Hch I).
  unfold channel_addr. rewrite Hrs. f_equal.
Qed.

(** [operator>>] does not assign [row_stride] for a width that is a
    multiple of 4, so the bitmap of such a file has [row_stride = 0] and every
    row address is the address of the first row: [flipv] returns the bitmap
    as it was, and [cellShade] changes no byte after the first
    [width * imageType] bytes of the buffer. *)
Theorem filters_after_decoding_aligned_width (file : list byte) :
  well_formed file ->
  Z.rem (width (stored_info_header file)) 4 = 0 ->
  height (stored_info_header file) <= 65535 ->
  width (stored_info_header file) * (bit_count (stored_info_header file) / 8)
  <= 65535 ->
  exists b s,
    operator_extract (istream_of file) Bitmap_init = (Returned, b, s)
    /\ row_stride b = 0
    /\ flipv b = Ok b
    /\ exists b',
         cellShade b = Ok b'
         /\ forall i, width (bmp_info_header b) * imageType b <= i ->
              peek (data b') i = peek (data b) i.
Proof.
  intros Hwf Hrem Hh Hw.
  destruct (well_formed_geometry file Hwf)
    as (b & s & Hrun & Hgeo & Hst & Hwd & Hhd & Hbc & Hrs).
  destruct (operator_extract_fields _ _ _ _ Hrun) as (_ & Hit & _).
  rewrite Hwd, Hrem in Hrs. cbn [Z.eqb] in Hrs.
  assert (Hfit : fits_counters b).
  { split; [rewrite Hhd; exact Hh|]. rewrite Hwd, Hit, Hbc. exact Hw. }
  exists b, s. split; [exact Hrun|]. split; [exact Hrs|].
  split; [apply flipv_without_stride; assumption|].
  destruct (cellShade_twice b Hgeo (fits_counters_rows b Hfit))
    as (b' & Hc & _ & Hout).
  exists b'. split; [exact Hc|].
  intros i Hi. apply Hout.
  - pose proof (vg_width b Hgeo).
    assert (0 < imageType b) by (destruct (vg_type b Hgeo); lia). nia.
  - intros (x & y & ch & Hx & Hy & Hch & E).
    unfold channel_addr in E. rewrite Hrs in E. nia.
Qed.

Lemma stream_4x2_well_formed : well_formed stream_4x2.
Proof.
  constructor.
  - reflexivity.
  - left. split; [reflexivity|]. cbn. lia.
  - reflexivity.
  - reflexivity.
  - vm_compute. discriminate.
Defined.

Lemma filters_after_decoding_aligned_width_witness :
  well_formed stream_4x2
  /\ Z.rem (width (stored_info_header stream_4x2)) 4 = 0
  /\ exists b s,
       operator_extract (istream_of stream_4x2) Bitmap_init = (Returned, b, s)
       /\ row_stride b = 0
       /\ flipv b = Ok b
       /\ exists b',
            cellShade b = Ok b'
            /\ forall i, width (bmp_info_header b) * imageType b <= i ->
                 peek (data b') i = peek (data b) i.
Proof.
  split; [exact stream_4x2_well_formed|]. split; [reflexivity|].
  apply (filters_after_decoding_aligned_width stream_4x2
           stream_4x2_well_formed);
    [reflexivity|vm_compute; discriminate|vm_compute; discriminate].
Defined.

(** ** [pixelate] *)

(** A loop whose body returns the state it is given returns that state. *)
Lemma for_loop_skip {S : Type} fuel bound step (body : Z -> S -> outcome S) s :
  0 < step ->
  forall i,
    (forall c, i <= c < bound -> body c s = Ok s) ->
    (Z.to_nat (bound - i) < fuel)%nat ->
    for_loop fuel bound (fun c => c + step) body i s = Ok s.
Proof.
  intros Hstep. induction fuel as [|f IH]; intros i Hbody Hfuel; [lia|].
  simpl. destruct (Z.ltb_spec i bound) as [Hlt|Hge]; [|reflexivity].
  rewrite Hbody by lia. simpl. apply IH.
  - intros c Hc. apply Hbody. lia.
  - lia.
Qed.

Lemma for_int_skip {S : Type} from bound step (body : Z -> S -> outcome S) s :
  0 < step ->
  (forall c, from <= c < bound -> body c s = Ok s) ->
  for_int from bound step body s = Ok s.
Proof.
  intros Hstep Hbody. unfold for_int. apply for_loop_skip; auto; lia.
Qed.

(* An image without a block for [pixelate]. *)
Lemma pixelate_no_block (b : Bitmap) :
  valid_geometry b ->
  height (bmp_info_header b) <= 16 \/ width (bmp_info_header b) <= 16 ->
  pixelate b = Ok b.
Proof.
  intros Hgeo Hsmall. unfold pixelate.
  match goal with
  | |- bind ?m _ = _ => assert (Hrun : m = Ok (data b))
  end.
  { destruct Hsmall as [Hh|Hw].
    - apply for_int_empty. lia.
    - apply for_int_skip; [lia|]. intros y Hy. apply for_int_empty. lia. }
  rewrite Hrun. cbn [bind]. rewrite set_data_data. reflexivity.
Qed.

(** [pixelate] works on the blocks around the points [(8, 8)], [(16, 8)],
    ... that are more than 8 pixels away from the last row and column: an
    image of at most 16 rows or at most 16 columns has none, and [pixelate]
    returns it as it is. *)
Theorem pixelate_small_image (b : Bitmap) :
  valid_geometry b ->
  height (bmp_info_header b) <= 16 \/ width (bmp_info_header b) <= 16 ->
  pixelate b = Ok b.
Proof. exact (pixelate_no_block b). Qed.

Lemma pixelate_small_image_witness :
  valid_geometry sample_2x2
  /\ (height (bmp_info_header sample_2x2) <= 16
      \/ width (bmp_info_header sample_2x2) <= 16)
  /\ pixelate sample_2x2 = Ok sample_2x2.
Proof.
  assert (H : height (bmp_info_header sample_2x2) <= 16
              \/ width (bmp_info_header sample_2x2) <= 16)
    by (left; cbn; lia).
  split; [exact sample_2x2_geometry|]. split; [exact H|].
  exact (pixelate_small_image sample_2x2 sample_2x2_geometry H).
Defined.

Lemma for_loop_prefix {S : Type} (count : nat) :
  forall (I : nat -> S -> Prop) fuel bound next (body : Z -> S -> outcome S)
         step i s,
    (forall n, (n < count)%nat ->
       i + Z.of_nat n * step < bound
       /\ next (i + Z.of_nat n * step) = i + (Z.of_nat n + 1) * step) ->
    I 0%nat s ->
    (forall n s, (n < count)%nat -> I n s ->
       exists s', body (i + Z.of_nat n * step) s = Ok s' /\ I (Datatypes.S n) s') ->
    exists s',
      I count s'
      /\ for_loop (count + fuel) bound next body i s
         = for_loop fuel bound next body (i + Z.of_nat count * step) s'.
Proof.
  induction count as [|c IH]; intros I fuel bound next body step i s Hcnt H0 Hbody.
  - exists s. split; [exact H0|]. simpl. f_equal. lia.
  - destruct (Hcnt 0%nat ltac:(lia)) as [Hlt Hnext].
    replace (i + Z.of_nat 0 * step) with i in * by lia.
    destruct (Hbody 0%nat s ltac:(lia) H0) as [s1 [Hb1 H1]].
    replace (i + Z.of_nat 0 * step) with i in * by lia.
    replace ((Z.of_nat 0 + 1) * step) with step in Hnext by lia.
    destruct (IH (fun n => I (Datatypes.S n)) fuel bound next body step
                (i + step) s1) as (s' & Hs' & Hrun).
    + intros n Hn. destruct (Hcnt (Datatypes.S n) ltac:(lia)) as [Ha Hb].
      replace (i + step + Z.of_nat n * step)
        with (i + Z.of_nat (Datatypes.S n) * step) by lia.
      split; [exact Ha|]. rewrite Hb. lia.
    + exact H1.
    + intros n t Hn Ht.
      destruct (Hbody (Datatypes.S n) t ltac:(lia) Ht) as [t' [E Ht']].
      exists t'. split; [|exact Ht'].
      replace (i + step + Z.of_nat n * step)
        with (i + Z.of_nat (Datatypes.S n) * step) by lia.
      exact E.
    + exists s'. split; [exact Hs'|].
      cbn [Nat.add for_loop].
      destruct (Z.ltb_spec i bound); [|lia].
      rewrite Hb1. cbn [bind]. rewrite Hnext, Hrun. f_equal. lia.
Qed.

Lemma for_loop_first_fails {S : Type} fuel bound next
    (body : Z -> S -> outcome S) i s f :
  i < bound -> body i s = Undefined f ->
  for_loop (Datatypes.S fuel) bound next body i s = Undefined f.
Proof.
  intros Hlt Hb. cbn [for_loop].
  destruct (Z.ltb_spec i bound); [|lia]. rewrite Hb. reflexivity.
Qed.

Lemma for_int_first_fails {S : Type} from bound step
    (body : Z -> S -> outcome S) s f :
  from < bound -> body from s = Undefined f ->
  for_int from bound step body s = Undefined f.
Proof. intros Hlt Hb. unfold for_int. apply for_loop_first_fails; assumption. Qed.

Lemma table_pixelate_offset i :
  0 <= i < 16 -> table pixelate_offset i = Ok (i - 8).
Proof.
  intros Hi. unfold table.
  destruct (Z.ltb_spec i 0); [lia|].
  replace i with (Z.of_nat (Z.to_nat i)) at 2 by lia.
  assert (Hn : (Z.to_nat i < 16)%nat) by lia.
  revert Hn. generalize (Z.to_nat i). intros n Hn.
  do 16 (destruct n as [|n]; [reflexivity|]). lia.
Qed.

Lemma pixel_in_buffer b x y k :
  valid_geometry b ->
  0 <= x < width (bmp_info_header b) ->
  0 <= y < height (bmp_info_header b) ->
  0 <= k < imageType b ->
  0 <= u32 (row_stride b * y) + x * imageType b + k
  < Z.of_nat (length (data b)).
Proof.
  intros Hgeo Hx Hy Hk. rewrite (u32_row b y Hgeo Hy).
  pose proof (vg_rows b Hgeo y Hy). pose proof (vg_stride b Hgeo). nia.
Qed.

Lemma pixelate_sum_Ok b x y :
  valid_geometry b ->
  (x + 8) * imageType b <= INT_MAX ->
  8 <= x <= width (bmp_info_header b) - 8 ->
  8 <= y <= height (bmp_info_header b) - 8 ->
  exists value, pixelate_sum b x y = Ok value.
Proof.
  intros Hgeo Hxi Hx Hy. unfold pixelate_sum.
  assert (Hbpp : imageType b = 3 \/ imageType b = 4) by apply (vg_type b Hgeo).
  match goal with
  | |- exists value, for_int 0 16 1 ?body ?s = Ok value =>
      destruct (for_int_rule (fun _ (_ : Z * Z * Z * Z) => True) 16 body s)
        as (v & Hrun & _)
  end; [lia|exact I| |eauto].
  intros oY value HoY _. cbv beta.
  rewrite table_pixelate_offset by lia. cbn [bind]. cbv zeta.
  match goal with
  | |- exists s', for_int 0 16 1 ?body ?s = Ok s' /\ True =>
      destruct (for_int_rule (fun _ (_ : Z * Z * Z * Z) => True) 16 body s)
        as (v' & Hrun' & _)
  end; [lia|exact I| |eauto].
  intros oX [[[v0 v1] v2] v3] HoX _. cbv beta iota.
  rewrite table_pixelate_offset by lia. cbn [bind].
  rewrite (int_mul_index (x + (oX - 8)) (x + 8)) by lia. cbn [bind]. cbv zeta.
  assert (Hin : forall k, 0 <= k < imageType b ->
            0 <= u32 (row_stride b * (y + (oY - 8)))
                 + (x + (oX - 8)) * imageType b + k
            < Z.of_nat (length (data b)))
    by (intros k Hk; apply pixel_in_buffer; auto; lia).
  pose proof (Hin 0 ltac:(lia)) as H0. rewrite Z.add_0_r in H0.
  rewrite (load_in_range _ _ H0). cbn [bind].
  rewrite (load_in_range _ _ (Hin 1 ltac:(lia))). cbn [bind].
  rewrite (load_in_range _ _ (Hin 2 ltac:(lia))). cbn [bind].
  destruct (Z.eqb_spec (imageType b) 4) as [E4|E4].
  - rewrite (load_in_range _ _ (Hin 3 ltac:(lia))). cbn [bind].
    eexists. split; [reflexivity|exact I].
  - eexists. split; [reflexivity|exact I].
Qed.

Lemma pixelate_fill_fails b x y value d :
  valid_geometry b ->
  (x + 8) * imageType b <= INT_MAX ->
  length d = length (data b) ->
  8 <= x <= width (bmp_info_header b) - 8 ->
  8 <= y <= height (bmp_info_header b) - 8 ->
  pixelate_fill b x y value d = Undefined (TableIndex 16).
Proof.
  intros Hgeo Hxi Hl Hx Hy. destruct value as [[[v0 v1] v2] v3].
  unfold pixelate_fill. apply for_int_first_fails; [lia|].
  rewrite table_pixelate_offset by lia. cbn [bind]. cbv zeta.
  unfold for_int.
  change (Datatypes.S (Z.to_nat (17 - 0))) with (16 + 2)%nat.
  assert (Hbpp : imageType b = 3 \/ imageType b = 4) by apply (vg_type b Hgeo).
  match goal with
  | |- for_loop _ _ _ ?body _ _ = _ =>
      destruct (for_loop_prefix 16
                  (fun _ (e : list byte) => length e = length (data b))
                  2%nat 17 (fun c => c + 1) body 1 0 d)
        as (d' & Hd' & ->)
  end.
  - intros n Hn. lia.
  - exact Hl.
  - intros n e Hn He.
    rewrite table_pixelate_offset by lia. cbn [bind].
    rewrite (int_mul_index (x + (0 + Z.of_nat n * 1 - 8)) (x + 8)) by lia.
    cbn [bind]. cbv zeta.
    assert (Hin : forall k, 0 <= k < imageType b ->
              0 <= u32 (row_stride b * (y + (0 - 8)))
                   + (x + (0 + Z.of_nat n * 1 - 8)) * imageType b + k
              < Z.of_nat (length (data b)))
      by (intros k Hk; apply pixel_in_buffer; auto; lia).
    pose proof (Hin 0 ltac:(lia)) as H0. rewrite Z.add_0_r in H0.
    destruct (store_spec e _ v0 ltac:(rewrite He; exact H0))
      as (e1 & -> & L1 & _). cbn [bind].
    destruct (store_spec e1 _ v1 ltac:(rewrite L1, He; exact (Hin 1 ltac:(lia))))
      as (e2 & -> & L2 & _). cbn [bind].
    destruct (store_spec e2 _ v2
                ltac:(rewrite L2, L1, He; exact (Hin 2 ltac:(lia))))
      as (e3 & -> & L3 & _). cbn [bind].
    destruct (Z.eqb_spec (imageType b) 4) as [E4|E4].
    + destruct (store_spec e3 _ v3
                  ltac:(rewrite L3, L2, L1, He; exact (Hin 3 ltac:(lia))))
        as (e4 & -> & L4 & _).
      exists e4. split; [reflexivity|congruence].
    + exists e3. split; [reflexivity|congruence].
  - apply for_loop_first_fails; [lia|].
    change (0 + Z.of_nat 16 * 1) with 16. reflexivity.
Qed.

(* The first block of [pixelate]. *)
Lemma pixelate_first_block (b : Bitmap) :
  valid_geometry b ->
  16 < height (bmp_info_header b) ->
  16 < width (bmp_info_header b) ->
  pixelate b = Undefined (TableIndex 16).
Proof.
  intros Hgeo Hh Hw. unfold pixelate.
  match goal with
  | |- bind ?m _ = _ => assert (Hrun : m = Undefined (TableIndex 16))
  end.
  { apply for_int_first_fails; [lia|].
    apply for_int_first_fails; [lia|].
    assert (Hxi : (8 + 8) * imageType b <= INT_MAX)
      by (destruct (vg_type b Hgeo) as [E|E]; rewrite E; unfold INT_MAX; lia).
    destruct (pixelate_sum_Ok b 8 8 Hgeo Hxi ltac:(lia) ltac:(lia))
      as ([[[v0 v1] v2] v3] & ->).
    cbn [bind]. cbv zeta.
    apply pixelate_fill_fails; auto; lia. }
  rewrite Hrun. reflexivity.
Qed.

(** On every image of 24 or 32 bits per pixel with more than 16 rows and
    more than 16 columns inside its buffer, [pixelate] sums the first block
    and then, writing it back, reads element 16 of its 16-entry offset
    table. *)
Theorem pixelate_leaves_offset_table (b : Bitmap) :
  valid_geometry b ->
  16 < height (bmp_info_header b) ->
  16 < width (bmp_info_header b) ->
  pixelate b = Undefined (TableIndex 16).
Proof. exact (pixelate_first_block b). Qed.

Lemma pixelate_leaves_offset_table_witness :
  valid_geometry sample_17x17
  /\ 16 < height (bmp_info_header sample_17x17)
  /\ 16 < width (bmp_info_header sample_17x17)
  /\ pixelate sample_17x17 = Undefined (TableIndex 16).
Proof.
  assert (Hh : 16 < height (bmp_info_header sample_17x17)) by (cbn; lia).
  assert (Hw : 16 < width (bmp_info_header sample_17x17)) by (cbn; lia).
  split; [exact sample_17x17_geometry|]. split; [exact Hh|]. split; [exact Hw|].
  exact (pixelate_leaves_offset_table sample_17x17 sample_17x17_geometry Hh Hw).
Defined.

(** ** [blur] *)

(* No pixel to compute. *)
Lemma blur_no_interior (b : Bitmap) :
  valid_geometry b ->
  height (bmp_info_header b) <= 5 \/ width (bmp_info_header b) <= 5 ->
  blur b = Ok b.
Proof.
  intros Hgeo Hsmall. unfold blur.
  match goal with
  | |- bind ?m _ = _ => assert (Hrun : m = Ok (data b))
  end.
  { destruct Hsmall as [Hh|Hw].
    - apply for_int_empty. lia.
    - apply for_int_skip; [lia|]. intros y Hy. apply for_int_empty. lia. }
  rewrite Hrun. cbn [bind]. rewrite set_data_data. reflexivity.
Qed.

(** [blur] computes the pixels from row and column 2 up to, but not
    including, row [height - 3] and column [width - 3]: an image of at most 5
    rows or at most 5 columns has none, and [blur] returns it as it is. *)
Theorem blur_small_image (b : Bitmap) :
  valid_geometry b ->
  height (bmp_info_header b) <= 5 \/ width (bmp_info_header b) <= 5 ->
  blur b = Ok b.
Proof. exact (blur_no_interior b). Qed.

Lemma blur_small_image_witness :
  valid_geometry sample_2x2
  /\ (height (bmp_info_header sample_2x2) <= 5
      \/ width (bmp_info_header sample_2x2) <= 5)
  /\ blur sample_2x2 = Ok sample_2x2.
Proof.
  assert (H : height (bmp_info_header sample_2x2) <= 5
              \/ width (bmp_info_header sample_2x2) <= 5)
    by (left; cbn; lia).
  split; [exact sample_2x2_geometry|]. split; [exact H|].
  exact (blur_small_image sample_2x2 sample_2x2_geometry H).
Defined.

Lemma table_blur_offset i : 0 <= i < 5 -> table blur_offset i = Ok (i - 2).
Proof.
  intros Hi. unfold table.
  destruct (Z.ltb_spec i 0); [lia|].
  replace i with (Z.of_nat (Z.to_nat i)) at 2 by lia.
  assert (Hn : (Z.to_nat i < 5)%nat) by lia.
  revert Hn. generalize (Z.to_nat i). intros n Hn.
  do 5 (destruct n as [|n]; [reflexivity|]). lia.
Qed.

Lemma table2_blur_filter i j :
  0 <= i < 5 -> 0 <= j < 5 -> exists k, table2 blur_filter i j = Ok k.
Proof.
  intros Hi Hj.
  assert (Hi' : i = 0 \/ i = 1 \/ i = 2 \/ i = 3 \/ i = 4) by lia.
  assert (Hj' : j = 0 \/ j = 1 \/ j = 2 \/ j = 3 \/ j = 4) by lia.
  destruct Hi' as [->|[->|[->|[->| ->]]]];
    destruct Hj' as [->|[->|[->|[->| ->]]]]; eexists; reflexivity.
Qed.

Lemma blur_sum_Ok b x y d :
  valid_geometry b ->
  height (bmp_info_header b) <= 4294967296 ->
  length d = length (data b) ->
  2 <= x < width (bmp_info_header b) - 2 ->
  2 <= y < height (bmp_info_header b) - 2 ->
  exists f0 f1 f2 f3, blur_sum b x y d = Ok [f0; f1; f2; f3].
Proof.
  intros Hgeo Hhmax Hl Hx Hy. unfold blur_sum.
  set (four := fun (_ : Z) (fv : list Z) =>
                 exists f0 f1 f2 f3, fv = [f0; f1; f2; f3]).
  match goal with
  | |- context [for_int 0 5 1 ?body ?s] =>
      destruct (for_int_rule four 5 body s) as (fv & Hrun & Hfv)
  end.
  - lia.
  - exists 0, 0, 0, 0. reflexivity.
  - intros xOff fv HxOff Hfv. cbv beta.
    match goal with
    | |- context [for_int 0 5 1 ?body ?s] =>
        destruct (for_int_rule four 5 body s) as (fv' & Hrun' & Hfv')
    end.
    + lia.
    + exact Hfv.
    + intros yOff fv1 HyOff (f0 & f1 & f2 & f3 & ->). cbv beta.
      rewrite !table_blur_offset by lia. cbn [bind]. cbv zeta.
      destruct (table2_blur_filter yOff xOff HyOff HxOff) as (k & ->).
      cbn [bind].
      change (table [f0; f1; f2; f3] 0) with (@Ok Z f0).
      change (table [f0; f1; f2; f3] 1) with (@Ok Z f1).
      change (table [f0; f1; f2; f3] 2) with (@Ok Z f2).
      change (table [f0; f1; f2; f3] 3) with (@Ok Z f3).
      cbn [bind].
      assert (Hu1 : u32 (y + (yOff - 2)) = y + (yOff - 2)).
      { unfold u32. apply Z.mod_small. lia. }
      assert (Hbpp : imageType b = 3 \/ imageType b = 4) by apply (vg_type b Hgeo).
      assert (Hin : forall c, 0 <= c < imageType b ->
                0 <= u32 (row_stride b * (y + (yOff - 2)))
                     + (x + (xOff - 2)) * imageType b + c
                < Z.of_nat (length (data b)))
        by (intros c Hc; apply pixel_in_buffer; auto; lia).
      assert (Hw : width (bmp_info_header b) * imageType b < 4294967296).
      { pose proof (vg_rows b Hgeo 0 ltac:(lia)). pose proof (vg_size b Hgeo).
        lia. }
      assert (Hu2 : u32 (x + (xOff - 2)) = x + (xOff - 2)).
      { unfold u32. apply Z.mod_small. nia. }
      assert (Hu3 : u32 ((x + (xOff - 2)) * imageType b)
                    = (x + (xOff - 2)) * imageType b).
      { unfold u32. apply Z.mod_small. nia. }
      rewrite Hu1, Hu2, Hu3.
      pose proof (Hin 0 ltac:(lia)) as H0. rewrite Z.add_0_r in H0.
      rewrite (load_in_range d _ ltac:(rewrite Hl; exact H0)). cbn [bind].
      rewrite (load_in_range d _ ltac:(rewrite Hl; exact (Hin 1 ltac:(lia)))).
      cbn [bind].
      rewrite (load_in_range d _ ltac:(rewrite Hl; exact (Hin 2 ltac:(lia)))).
      cbn [bind].
      destruct (Z.eqb_spec (imageType b) 4) as [E4|E4].
      * rewrite (load_in_range d _ ltac:(rewrite Hl; exact (Hin 3 ltac:(lia)))).
        cbn [bind]. eexists. split; [reflexivity|].
        do 4 eexists. reflexivity.
      * eexists. split; [reflexivity|]. do 4 eexists. reflexivity.
    + exists fv'. split; [exact Hrun'|exact Hfv'].
  - destruct Hfv as (f0 & f1 & f2 & f3 & ->).
    exists f0, f1, f2, f3. exact Hrun.
Qed.

Lemma for_int_from_rule {S : Type} (I : S -> Prop) from bound
    (body : Z -> S -> outcome S) s :
  I s ->
  (forall c s, from <= c < bound -> I s -> exists s', body c s = Ok s' /\ I s') ->
  exists s', for_int from bound 1 body s = Ok s' /\ I s'.
Proof.
  intros H0 Hbody.
  destruct (Z.le_gt_cases bound from) as [Hle|Hgt].
  { exists s. split; [apply for_int_empty; exact Hle|exact H0]. }
  unfold for_int.
  destruct (for_loop_steps (Z.to_nat (bound - from)) (fun _ => I)
              (Datatypes.S (Z.to_nat (bound - from))) bound (fun c => c + 1)
              body 1 from s) as (s' & Hrun & Hs').
  - intros n Hn. lia.
  - lia.
  - lia.
  - exact H0.
  - intros n t Hn Ht. apply Hbody; [lia|exact Ht].
  - exists s'. split; assumption.
Qed.

Lemma channel_addr_inj b x y ch x' y' ch' :
  valid_geometry b ->
  width (bmp_info_header b) * imageType b <= row_stride b ->
  0 <= x < width (bmp_info_header b) -> 0 <= ch < imageType b ->
  0 <= x' < width (bmp_info_header b) -> 0 <= ch' < imageType b ->
  0 <= y -> 0 <= y' ->
  channel_addr b x y ch = channel_addr b x' y' ch' ->
  x = x' /\ y = y' /\ ch = ch'.
Proof.
  intros Hgeo Hwide Hx Hch Hx' Hch' Hy Hy'. unfold channel_addr. intros E.
  assert ((x + 1) * imageType b <= width (bmp_info_header b) * imageType b) by nia.
  assert ((x' + 1) * imageType b <= width (bmp_info_header b) * imageType b) by nia.
  assert (0 <= x * imageType b) by nia.
  assert (0 <= x' * imageType b) by nia.
  assert (Hyy : y = y').
  { destruct (Z.lt_trichotomy y y') as [Hlt|[Heq|Hgt]]; [|exact Heq|].
    - assert (row_stride b * y + row_stride b <= row_stride b * y') by nia. lia.
    - assert (row_stride b * y' + row_stride b <= row_stride b * y) by nia. lia. }
  subst y'.
  assert (Hxx : x = x').
  { destruct (Z.lt_trichotomy x x') as [Hlt|[Heq|Hgt]]; [|exact Heq|].
    - assert (x * imageType b + imageType b <= x' * imageType b) by nia. lia.
    - assert (x' * imageType b + imageType b <= x * imageType b) by nia. lia. }
  subst x'. repeat split; lia.
Qed.

(* Rows that do not overlap and fit the buffer three times over are shorter
   than [INT_MAX] bytes. *)
Lemma stacked_rows_fit_int b :
  valid_geometry b ->
  width (bmp_info_header b) * imageType b <= row_stride b ->
  3 <= height (bmp_info_header b) ->
  rows_fit_int b.
Proof.
  intros Hgeo Hwide Hh.
  pose proof (vg_rows b Hgeo (height (bmp_info_header b) - 1) ltac:(lia)) as Hr.
  pose proof (vg_size b Hgeo) as Hsz. pose proof (vg_stride b Hgeo) as Hrs.
  pose proof (vg_width b Hgeo) as Hw.
  assert (Hbpp : 0 < imageType b) by (destruct (vg_type b Hgeo); lia).
  assert (0 <= width (bmp_info_header b) * imageType b)
    by (apply Z.mul_nonneg_nonneg; lia).
  assert (row_stride b * 2 <= row_stride b * (height (bmp_info_header b) - 1))
    by (apply Z.mul_le_mono_nonneg_l; lia).
  unfold rows_fit_int, INT_MAX. lia.
Qed.

Lemma blur_pixel_step b x y d :
  valid_geometry b -> rows_fit_int b ->
  height (bmp_info_header b) <= 4294967296 ->
  kept_outside (blur_interior b) (data b) d ->
  2 <= x < width (bmp_info_header b) - 3 ->
  2 <= y < height (bmp_info_header b) - 3 ->
  exists d', blur_pixel b x y d = Ok d'
    /\ kept_outside (blur_interior b) (data b) d'.
Proof.
  intros Hgeo Hint Hhmax Hk Hx Hy. unfold blur_pixel.
  rewrite (int_mul_index x (width (bmp_info_header b)))
    by (unfold rows_fit_int in Hint; destruct (vg_type b Hgeo); lia).
  cbn [bind].
  destruct (blur_sum_Ok b x y d Hgeo Hhmax (proj1 Hk) ltac:(lia) ltac:(lia))
    as (f0 & f1 & f2 & f3 & ->).
  cbn [bind].
  assert (Hbpp : imageType b = 3 \/ imageType b = 4) by apply (vg_type b Hgeo).
  apply (for_u8_rule (fun _ e => kept_outside (blur_interior b) (data b) e));
    [lia|exact Hk|].
  intros c e Hc He.
  assert (Hin : 0 <= u32 (row_stride b * y) + x * imageType b + c
                < Z.of_nat (length (data b)))
    by (apply pixel_in_buffer; auto; lia).
  assert (Htab : exists v, table [f0; f1; f2; f3] c = Ok v).
  { assert (c = 0 \/ c = 1 \/ c = 2 \/ c = 3) as [->|[->|[->| ->]]] by lia;
      eexists; reflexivity. }
  destruct Htab as (v & ->). cbn [bind].
  rewrite store_in_range by (rewrite (proj1 He); exact Hin).
  eexists. split; [reflexivity|].
  eapply store_kept; [apply store_in_range; rewrite (proj1 He); exact Hin| |exact He].
  exists x, y, c. rewrite (u32_row b y Hgeo ltac:(lia)).
  repeat split; try lia.
Qed.

(* [blur] completes and writes the pixels it computes only. *)
Lemma blur_runs_bounded (b : Bitmap) :
  valid_geometry b -> rows_fit_int b ->
  height (bmp_info_header b) <= 4294967296 ->
  exists d', blur b = Ok (set_data b d')
    /\ kept_outside (blur_interior b) (data b) d'.
Proof.
  intros Hgeo Hint Hhmax. unfold blur.
  match goal with
  | |- context [for_int 2 ?bound 1 ?body ?s] =>
      destruct (for_int_from_rule
                  (kept_outside (blur_interior b) (data b)) 2 bound body s)
        as (d' & Hd' & Hk)
  end.
  - apply kept_outside_refl.
  - intros y d Hy Hd. cbv beta.
    apply (for_int_from_rule (kept_outside (blur_interior b) (data b)));
      [exact Hd|].
    intros x e Hx He. apply blur_pixel_step; auto.
  - exists d'. rewrite Hd'. split; [reflexivity|exact Hk].
Qed.

(* [blur] completes on rows that do not overlap. *)
Lemma blur_runs (b : Bitmap) :
  valid_geometry b ->
  width (bmp_info_header b) * imageType b <= row_stride b ->
  exists d', blur b = Ok (set_data b d')
    /\ kept_outside (blur_interior b) (data b) d'.
Proof.
  intros Hgeo Hwide.
  destruct (Z.le_gt_cases (height (bmp_info_header b)) 5) as [Hh|Hh].
  { exists (data b). rewrite set_data_data.
    split; [apply blur_no_interior; auto|apply kept_outside_refl]. }
  destruct (Z.le_gt_cases (width (bmp_info_header b)) 5) as [Hw|Hw].
  { exists (data b). rewrite set_data_data.
    split; [apply blur_no_interior; auto|apply kept_outside_refl]. }
  assert (Hhmax : height (bmp_info_header b) <= 4294967296).
  { pose proof (vg_rows b Hgeo (height (bmp_info_header b) - 1) ltac:(lia)).
    pose proof (vg_size b Hgeo).
    assert (0 < imageType b) by (destruct (vg_type b Hgeo); lia). nia. }
  pose proof (stacked_rows_fit_int b Hgeo Hwide ltac:(lia)) as Hint.
  apply blur_runs_bounded; assumption.
Qed.

(** [blur] stays inside the buffer and returns, for every image of 24 or 32
    bits per pixel whose rows lie inside the buffer without overlapping; it
    leaves the pixels of the first 2 and the last 3 rows and columns, and
    every byte that belongs to no pixel, as they were. *)
Theorem blur_keeps_border (b : Bitmap) :
  valid_geometry b ->
  width (bmp_info_header b) * imageType b <= row_stride b ->
  exists b',
    blur b = Ok b'
    /\ (forall x y ch,
          0 <= x < width (bmp_info_header b) ->
          0 <= y < height (bmp_info_header b) ->
          0 <= ch < imageType b ->
          x < 2 \/ width (bmp_info_header b) - 3 <= x
          \/ y < 2 \/ height (bmp_info_header b) - 3 <= y ->
          peek (data b') (channel_addr b x y ch)
          = peek (data b) (channel_addr b x y ch))
    /\ (forall i, 0 <= i -> ~ image_bytes b i ->
          peek (data b') i = peek (data b) i).
Proof.
  intros Hgeo Hwide.
  destruct (blur_runs b Hgeo Hwide) as (d' & Hrun & Hl & Hk).
  exists (set_data b d'). split; [exact Hrun|]. cbn [data set_data]. split.
  - intros x y ch Hx Hy Hch Hborder.
    assert (Hi : 0 <= channel_addr b x y ch).
    { unfold channel_addr. pose proof (vg_stride b Hgeo). nia. }
    destruct (Hk _ Hi) as [(x' & y' & ch' & Hx' & Hy' & Hch' & E)|E];
      [|exact E].
    exfalso.
    destruct (channel_addr_inj b x y ch x' y' ch' Hgeo Hwide)
      as (-> & -> & _); auto; lia.
  - intros i Hi Hout.
    destruct (Hk _ Hi) as [(x' & y' & ch' & Hx' & Hy' & Hch' & E)|E];
      [|exact E].
    exfalso. apply Hout. exists x', y', ch'. repeat split; auto; lia.
Qed.

Lemma sample_6x6_geometry : valid_geometry sample_6x6.
Proof. constructor; cbn; lia. Defined.

Lemma blur_keeps_border_witness :
  valid_geometry sample_6x6
  /\ width (bmp_info_header sample_6x6) * imageType sample_6x6
     <= row_stride sample_6x6
  /\ exists b',
       blur sample_6x6 = Ok b'
       /\ (forall x y ch,
             0 <= x < width (bmp_info_header sample_6x6) ->
             0 <= y < height (bmp_info_header sample_6x6) ->
             0 <= ch < imageType sample_6x6 ->
             x < 2 \/ width (bmp_info_header sample_6x6) - 3 <= x
             \/ y < 2 \/ height (bmp_info_header sample_6x6) - 3 <= y ->
             peek (data b') (channel_addr sample_6x6 x y ch)
             = peek (data sample_6x6) (channel_addr sample_6x6 x y ch))
       /\ (forall i, 0 <= i -> ~ image_bytes sample_6x6 i ->
             peek (data b') i = peek (data sample_6x6) i).
Proof.
  assert (H : width (bmp_info_header sample_6x6) * imageType sample_6x6
              <= row_stride sample_6x6) by (cbn; lia).
  split; [exact sample_6x6_geometry|]. split; [exact H|].
  exact (blur_keeps_border sample_6x6 sample_6x6_geometry H).
Defined.

(** ** The pixels [operator>>] reads *)

Lemma peek_take_drop (c : list byte) g n k :
  0 <= k < Z.of_nat n ->
  peek (take n (drop g c)) k = peek c (Z.of_nat g + k).
Proof.
  intros Hk. unfold peek. rewrite !nth_lookup.
  first [rewrite lookup_take_lt by lia | rewrite lookup_take by lia].
  rewrite lookup_drop. do 3 f_equal. lia.
Qed.

Lemma peek_overlay dst off got i :
  0 <= i -> (off + length got <= length dst)%nat ->
  peek (overlay dst off got) i
  = if (Z.of_nat off <=? i) && (i <? Z.of_nat off + Z.of_nat (length got))
    then peek got (i - Z.of_nat off) else peek dst i.
Proof.
  intros Hi Hfit. unfold peek, overlay.
  destruct (Z.leb_spec (Z.of_nat off) i) as [Hge|Hlt]; cbn [andb].
  - rewrite app_nth2 by (rewrite length_take; lia).
    rewrite length_take.
    replace (off `min` length dst)%nat with off by lia.
    destruct (Z.ltb_spec i (Z.of_nat off + Z.of_nat (length got))) as [Hin|Hout].
    + rewrite app_nth1 by lia. do 2 f_equal. lia.
    + rewrite app_nth2 by lia. rewrite !nth_lookup, lookup_drop.
      do 3 f_equal. lia.
  - rewrite app_nth1 by (rewrite length_take; lia).
    rewrite !nth_lookup.
    first [rewrite lookup_take_lt by lia | rewrite lookup_take by lia].
    reflexivity.
Qed.

(** The row loop on a stream that holds all the rows: row [y] of the buffer
    receives the [row_stride] bytes that follow [y] padded rows. *)
Lemma read_rows_content b pad (c d0 : list byte) g :
  0 <= height (bmp_info_header b) ->
  0 <= row_stride b -> 0 <= pad ->
  row_stride b * height (bmp_info_header b) <= Z.of_nat (length d0) ->
  Z.of_nat (length d0) < 4294967296 ->
  Z.of_nat g + height (bmp_info_header b) * (row_stride b + pad)
  <= Z.of_nat (length c) ->
  exists d' s',
    read_rows b pad (d0, {| content := c; gpos := g; failbit := false |})
    = Ok (d', s')
    /\ length d' = length d0
    /\ (forall y k, 0 <= y < height (bmp_info_header b) ->
          0 <= k < row_stride b ->
          peek d' (row_stride b * y + k)
          = peek c (Z.of_nat g + y * (row_stride b + pad) + k))
    /\ (forall i, row_stride b * height (bmp_info_header b) <= i ->
          peek d' i = peek d0 i).
Proof.
  intros Hh Hrs Hpad Hfit Hsz Hlong. unfold read_rows.
  set (rs := row_stride b) in *. set (h := height (bmp_info_header b)) in *.
  destruct (for_int_rule
              (fun y (st : list byte * istream) =>
                 length (fst st) = length d0
                 /\ snd st = {| content := c;
                                gpos := (g + Z.to_nat (y * (rs + pad)))%nat;
                                failbit := false |}
                 /\ (forall y' k, 0 <= y' < y -> 0 <= k < rs ->
                       peek (fst st) (rs * y' + k)
                       = peek c (Z.of_nat g + y' * (rs + pad) + k))
                 /\ (forall i, rs * y <= i -> peek (fst st) i = peek d0 i))
              h
              (fun y st =>
                 let off := u32 (rs * y) in
                 if off + rs <=? Z.of_nat (length (fst st)) then
                   let r := stream_read (snd st) (Z.to_nat rs) in
                   let p := stream_read (snd r) (Z.to_nat pad) in
                   Ok (overlay (fst st) (Z.to_nat off) (fst r), snd p)
                 else Undefined (BufferIndex (off + rs)))
              (d0, {| content := c; gpos := g; failbit := false |}))
    as ([d' s'] & Hrun & Hl & _ & Hrows & Hrest).
  - exact Hh.
  - cbn [fst snd]. split; [reflexivity|]. split.
    + f_equal. rewrite Z.mul_0_l. simpl. lia.
    + split; [intros; lia|reflexivity].
  - intros y [dy sy] Hy (Hly & Hsy & Hdone & Htail). cbn [fst snd] in *.
    cbv zeta. cbn [fst snd].
    assert (Hoff : u32 (rs * y) = rs * y).
    { unfold u32. apply Z.mod_small. nia. }
    rewrite Hoff, Hly.
    destruct (Z.leb_spec (rs * y + rs) (Z.of_nat (length d0))); [|nia].
    subst sy.
    assert (Hpos : 0 <= y * (rs + pad)) by nia.
    assert (Hnext : (y + 1) * (rs + pad) <= h * (rs + pad)) by nia.
    rewrite stream_read_at by lia. cbn [fst snd].
    rewrite stream_read_at by lia. cbn [fst snd].
    eexists. split; [reflexivity|]. cbn [fst snd].
    assert (Hgot : length (take (Z.to_nat rs)
                             (drop (g + Z.to_nat (y * (rs + pad))) c))
                   = Z.to_nat rs).
    { rewrite length_take, length_drop. lia. }
    split; [rewrite overlay_length; [exact Hly|rewrite Hgot; lia]|].
    split; [f_equal; lia|]. split.
    + intros y' k Hy' Hk.
      rewrite peek_overlay by (try rewrite Hgot; nia).
      rewrite Hgot.
      destruct (Z.eq_dec y' y) as [->|Hne].
      * destruct (Z.leb_spec (Z.of_nat (Z.to_nat (rs * y))) (rs * y + k));
          [|lia].
        destruct (Z.ltb_spec (rs * y + k)
                    (Z.of_nat (Z.to_nat (rs * y)) + Z.of_nat (Z.to_nat rs)));
          [|lia].
        cbn [andb]. rewrite peek_take_drop by lia. f_equal. lia.
      * assert (rs * y' + rs <= rs * y) by nia.
        destruct (Z.leb_spec (Z.of_nat (Z.to_nat (rs * y))) (rs * y' + k));
          [lia|].
        cbn [andb]. apply Hdone; lia.
    + intros i Hi.
      rewrite peek_overlay by (try rewrite Hgot; nia).
      rewrite Hgot.
      destruct (Z.ltb_spec i (Z.of_nat (Z.to_nat (rs * y)) + Z.of_nat (Z.to_nat rs)));
        [lia|].
      rewrite andb_false_r. apply Htail. lia.
  - exists d', s'. cbn [fst snd] in *. auto.
Qed.

Lemma peek_zeros n i : peek (replicate n x00) i = 0.
Proof.
  unfold peek. rewrite nth_lookup.
  destruct (replicate n x00 !! Z.to_nat i) as [v|] eqn:E; [|reflexivity].
  apply lookup_replicate in E as [-> _]. reflexivity.
Qed.

Lemma well_formed_headers_read file :
  well_formed file ->
  read_headers (istream_of file) Bitmap_init
  = inr (headers_bitmap (stored_file_header file) (stored_info_header file)
           (stored_color_header file),
         {| content := file;
            gpos := Z.to_nat (offset_data (stored_file_header file));
            failbit := false |}).
Proof.
  intros [Hty Hdepth Hw Hh Hsz]. apply read_headers_ok.
  - destruct Hdepth as [[_ H]|[_ [_ H]]]; lia.
  - exact Hty.
  - intros E. destruct Hdepth as [[E' _]|[_ [H1 H2]]]; [congruence|auto].
Qed.

(* The rows of a file, one by one. *)
Lemma well_formed_rows_read file :
  well_formed file ->
  Z.rem (width (stored_info_header file)) 4 <> 0 ->
  offset_data (stored_file_header file)
  + height (stored_info_header file)
    * ((width (stored_info_header file)
        * (bit_count (stored_info_header file) / 8) + 3) / 4 * 4)
  <= Z.of_nat (length file) ->
  exists b s,
    operator_extract (istream_of file) Bitmap_init = (Returned, b, s)
    /\ imageType b = bit_count (stored_info_header file) / 8
    /\ row_stride b = width (stored_info_header file) * imageType b
    /\ (forall x y ch,
          0 <= x < width (stored_info_header file) ->
          0 <= y < height (stored_info_header file) ->
          0 <= ch < imageType b ->
          peek (data b) (channel_addr b x y ch)
          = peek file
              (offset_data (stored_file_header file)
               + y * ((row_stride b + 3) / 4 * 4)
               + x * imageType b + ch))
    /\ (forall i, row_stride b * height (stored_info_header file) <= i ->
          peek (data b) i = 0).
Proof.
  intros Hwf Hrem Hlong.
  pose proof (well_formed_codec_headers file Hwf) as Hcd.
  set (fh := stored_file_header file) in *.
  set (ih := stored_info_header file) in *.
  set (ch := stored_color_header file) in *.
  destruct (codec_sizes fh ih ch Hcd)
    as (bpp & Hbpp & Hbc & HN & Hrs & Hty & Hmax & Hpos & Hrow).
  destruct (size_products fh ih ch Hcd) as (M1 & M2 & M3 & M4 & M5).
  pose proof (cd_width _ _ _ Hcd) as Hw. pose proof (cd_height _ _ _ Hcd) as Hh.
  pose proof (cd_file _ _ _ Hcd) as (_ & _ & _ & _ & Hoffr).
  unfold INT_MAX in Hmax.
  assert (Hq : bit_count ih / 8 = bpp).
  { rewrite Hbc, Z.mul_comm. apply Z.div_mul. lia. }
  rewrite Hq in Hlong.
  unfold operator_extract. rewrite (well_formed_headers_read file Hwf).
  fold fh ih ch. unfold read_pixels.
  cbn [headers_bitmap bmp_info_header file_header width height bit_count
         set_size data].
  rewrite M1. cbn [bind]. rewrite M2. cbn [bind]. rewrite M3. cbn [bind].
  rewrite M4. fold (buffer_size ih).
  destruct (Z.ltb_spec (buffer_size ih) 0) as [Hneg|_]; [lia|].
  unfold resize. rewrite take_nil. cbn [app length Nat.sub set_data data].
  rewrite Nat.sub_0_r.
  set (zeros := replicate (Z.to_nat (buffer_size ih)) x00).
  assert (Hz : length zeros = Z.to_nat (buffer_size ih))
    by apply length_replicate.
  destruct (Z.eqb_spec (Z.rem (width ih) 4) 0) as [|_]; [contradiction|].
  rewrite M5. fold (packed_stride ih).
  cbn [set_row_stride row_stride imageType file_header bmp_info_header
         bmp_color_header data].
  match goal with
  | |- context [read_rows ?b1 ?pad (?d0, ?s0)] =>
      set (b1' := b1); set (pad' := pad)
  end.
  assert (Hrs1 : row_stride b1' = width ih * bpp) by (subst b1'; exact Hrs).
  assert (Hh1 : height (bmp_info_header b1') = height ih) by reflexivity.
  assert (Hstride : make_stride_aligned b1' 4 = (width ih * bpp + 3) / 4 * 4).
  { unfold make_stride_aligned. rewrite Hrs1.
    rewrite make_stride_aligned_loop_spec; [| lia | nia |].
    - replace (width ih * bpp + 4 - 1) with (width ih * bpp + 3) by lia.
      destruct (Z.ltb_spec ((width ih * bpp + 3) / 4 * 4) 4294967296);
        [reflexivity|].
      exfalso. Z.div_mod_to_equations. nia.
    - change (Z.of_nat (Z.to_nat 4)) with 4. Z.div_mod_to_equations. lia. }
  assert (Hpad : pad' = (width ih * bpp + 3) / 4 * 4 - width ih * bpp).
  { assert (E : pad' = u32 (make_stride_aligned b1' 4 - row_stride b1'))
      by reflexivity.
    rewrite E, Hstride, Hrs1. unfold u32. apply Z.mod_small.
    Z.div_mod_to_equations. lia. }
  destruct (read_rows_content b1' pad' file zeros
              (Z.to_nat (offset_data fh)))
    as (d' & s' & Hrun & Hl & Hrows & Hrest).
  - rewrite Hh1. lia.
  - rewrite Hrs1. nia.
  - rewrite Hpad. Z.div_mod_to_equations. lia.
  - rewrite Hrs1, Hh1, Hz. nia.
  - rewrite Hz. lia.
  - rewrite Hrs1, Hh1, Hpad. rewrite Z2Nat.id by lia.
    replace (width ih * bpp + ((width ih * bpp + 3) / 4 * 4 - width ih * bpp))
      with ((width ih * bpp + 3) / 4 * 4) by lia.
    exact Hlong.
  - match goal with
    | |- context [read_rows ?a ?p ?st] =>
        replace (read_rows a p st) with (@Ok (list byte * istream) (d', s'))
          by (symmetry; exact Hrun)
    end.
    cbn [fst snd].
    match goal with
    | |- exists b s, (Returned, ?B, ?S) = _ /\ _ => exists B, S; set (bb := B)
    end.
    assert (Eit : imageType bb = u16 (Z.quot (bit_count ih) 8)) by reflexivity.
    assert (Ers : row_stride bb = packed_stride ih) by reflexivity.
    assert (Ed : data bb = d') by reflexivity.
    rewrite Hrs1, Hh1 in *.
    split; [reflexivity|]. unfold channel_addr.
    rewrite Eit, Ers, Ed, Hty, Hq, Hrs.
    split; [reflexivity|]. split; [reflexivity|]. split.
    + intros x y c Hx Hy Hc.
      replace (width ih * bpp * y + x * bpp + c)
        with (width ih * bpp * y + (x * bpp + c)) by lia.
      rewrite Hrows by nia.
      rewrite Hpad. f_equal. rewrite Z2Nat.id by lia. lia.
    + intros i Hi. rewrite Hrest by exact Hi.
      apply peek_zeros.
Qed.

(** The pixels of a file whose width is not a multiple of 4, when the file
    holds all its rows: [operator>>] reads them from the data offset of the
    file header, row by row, and skips the bytes that pad each row to a
    multiple of 4.  The buffer holds the rows without padding, and zeros
    after them. *)
Theorem operator_extract_reads_rows (file : list byte) :
  well_formed file ->
  Z.rem (width (stored_info_header file)) 4 <> 0 ->
  offset_data (stored_file_header file)
  + height (stored_info_header file)
    * ((width (stored_info_header file)
        * (bit_count (stored_info_header file) / 8) + 3) / 4 * 4)
  <= Z.of_nat (length file) ->
  exists b s,
    operator_extract (istream_of file) Bitmap_init = (Returned, b, s)
    /\ imageType b = bit_count (stored_info_header file) / 8
    /\ row_stride b = width (stored_info_header file) * imageType b
    /\ (forall x y ch,
          0 <= x < width (stored_info_header file) ->
          0 <= y < height (stored_info_header file) ->
          0 <= ch < imageType b ->
          peek (data b) (channel_addr b x y ch)
          = peek file
              (offset_data (stored_file_header file)
               + y * ((row_stride b + 3) / 4 * 4)
               + x * imageType b + ch))
    /\ (forall i, row_stride b * height (stored_info_header file) <= i ->
          peek (data b) i = 0).
Proof. exact (well_formed_rows_read file). Qed.

Lemma operator_extract_reads_rows_witness :
  well_formed stream_2x2
  /\ Z.rem (width (stored_info_header stream_2x2)) 4 <> 0
  /\ exists b s,
       operator_extract (istream_of stream_2x2) Bitmap_init = (Returned, b, s)
       /\ imageType b = bit_count (stored_info_header stream_2x2) / 8
       /\ row_stride b = width (stored_info_header stream_2x2) * imageType b
       /\ (forall x y ch,
             0 <= x < width (stored_info_header stream_2x2) ->
             0 <= y < height (stored_info_header stream_2x2) ->
             0 <= ch < imageType b ->
             peek (data b) (channel_addr b x y ch)
             = peek stream_2x2
                 (offset_data (stored_file_header stream_2x2)
                  + y * ((row_stride b + 3) / 4 * 4)
                  + x * imageType b + ch))
       /\ (forall i,
             row_stride b * height (stored_info_header stream_2x2) <= i ->
             peek (data b) i = 0).
Proof.
  assert (H : Z.rem (width (stored_info_header stream_2x2)) 4 <> 0)
    by (vm_compute; discriminate).
  split; [exact stream_2x2_well_formed|]. split; [exact H|].
  apply (operator_extract_reads_rows stream_2x2 stream_2x2_well_formed H).
  vm_compute. discriminate.
Defined.

(** The pixels of a file whose width is a multiple of 4: [operator>>]
    fills the buffer with one read of its whole size, nine times the bytes of
    the pixels, from the data offset: byte [i] of the buffer is byte
    [offset + i] of the file, and 0 where the file has ended. *)
Theorem operator_extract_reads_block (file : list byte) :
  well_formed file ->
  Z.rem (width (stored_info_header file)) 4 = 0 ->
  exists b s,
    operator_extract (istream_of file) Bitmap_init = (Returned, b, s)
    /\ row_stride b = 0
    /\ Z.of_nat (length (data b))
       = 9 * (width (stored_info_header file) * height (stored_info_header file)
              * imageType b)
    /\ forall i,
         0 <= i < Z.of_nat (length (data b)) ->
         peek (data b) i
         = if offset_data (stored_file_header file) + i
              <? Z.of_nat (length file)
           then peek file (offset_data (stored_file_header file) + i)
           else 0.
Proof.
  intros Hwf Hrem.
  pose proof (well_formed_codec_headers file Hwf) as Hcd.
  set (fh := stored_file_header file) in *.
  set (ih := stored_info_header file) in *.
  set (ch := stored_color_header file) in *.
  destruct (codec_sizes fh ih ch Hcd)
    as (bpp & Hbpp & Hbc & HN & Hrs & Hty & Hmax & Hpos & Hrow).
  destruct (size_products fh ih ch Hcd) as (M1 & M2 & M3 & M4 & M5).
  pose proof (cd_file _ _ _ Hcd) as (_ & _ & _ & _ & Hoffr).
  unfold INT_MAX in Hmax.
  unfold operator_extract. rewrite (well_formed_headers_read file Hwf).
  fold fh ih ch. unfold read_pixels.
  cbn [headers_bitmap bmp_info_header file_header width height bit_count
         set_size data].
  rewrite M1. cbn [bind]. rewrite M2. cbn [bind]. rewrite M3. cbn [bind].
  rewrite M4. fold (buffer_size ih).
  destruct (Z.ltb_spec (buffer_size ih) 0) as [Hneg|_]; [lia|].
  unfold resize. rewrite take_nil. cbn [app length Nat.sub set_data data].
  rewrite Nat.sub_0_r.
  set (zeros := replicate (Z.to_nat (buffer_size ih)) x00).
  assert (Hz : length zeros = Z.to_nat (buffer_size ih))
    by apply length_replicate.
  destruct (Z.eqb_spec (Z.rem (width ih) 4) 0) as [_|]; [|contradiction].
  unfold stream_read. cbn [failbit content gpos fst snd].
  set (got := take (length zeros) (drop (Z.to_nat (offset_data fh)) file)).
  assert (Hgot : (length got <= length zeros)%nat)
    by (subst got; rewrite length_take; lia).
  match goal with
  | |- exists b s, (Returned, ?B, ?S) = _ /\ _ => exists B, S; set (bb := B)
  end.
  assert (Eit : imageType bb = u16 (Z.quot (bit_count ih) 8)) by reflexivity.
  assert (Ers : row_stride bb = 0) by reflexivity.
  assert (Ed : data bb = overlay zeros 0 got) by reflexivity.
  split; [reflexivity|]. split; [exact Ers|].
  rewrite Ed, Eit, Hty, overlay_length by (simpl; lia).
  split; [lia|].
  intros i Hi. rewrite peek_overlay by (simpl; lia).
  change (Z.of_nat 0) with 0. rewrite Z.sub_0_r.
  destruct (Z.leb_spec 0 i); [|lia]. cbn [andb].
  assert (Hlg : Z.of_nat (length got)
                = Z.min (buffer_size ih)
                    (Z.max 0 (Z.of_nat (length file) - offset_data fh))).
  { subst got. rewrite length_take, length_drop. lia. }
  destruct (Z.ltb_spec i (0 + Z.of_nat (length got))) as [Hin|Hout];
    destruct (Z.ltb_spec (offset_data fh + i) (Z.of_nat (length file)));
    try lia.
  - subst got. rewrite peek_take_drop by lia. f_equal. lia.
  - apply peek_zeros.
Qed.

Lemma operator_extract_reads_block_witness :
  well_formed stream_4x2
  /\ Z.rem (width (stored_info_header stream_4x2)) 4 = 0
  /\ exists b s,
       operator_extract (istream_of stream_4x2) Bitmap_init = (Returned, b, s)
       /\ row_stride b = 0
       /\ Z.of_nat (length (data b))
          = 9 * (width (stored_info_header stream_4x2)
                 * height (stored_info_header stream_4x2) * imageType b)
       /\ forall i,
            0 <= i < Z.of_nat (length (data b)) ->
            peek (data b) i
            = if offset_data (stored_file_header stream_4x2) + i
                 <? Z.of_nat (length stream_4x2)
              then peek stream_4x2
                     (offset_data (stored_file_header stream_4x2) + i)
              else 0.
Proof.
  assert (H : Z.rem (width (stored_info_header stream_4x2)) 4 = 0)
    by reflexivity.
  split; [exact stream_4x2_well_formed|]. split; [exact H|].
  exact (operator_extract_reads_block stream_4x2 stream_4x2_well_formed H).
Defined.

(** ** The flips on an image their [uint16_t] counters cannot span *)

Lemma row_addr_bound b y :
  valid_geometry b -> 0 <= y < height (bmp_info_header b) ->
  0 <= u32 (row_stride b * u32 y)
  /\ u32 (row_stride b * u32 y)
     + width (bmp_info_header b) * imageType b
     <= Z.of_nat (length (data b)).
Proof.
  intros Hgeo Hy.
  pose proof (vg_rows b Hgeo y Hy) as Hrow. pose proof (vg_stride b Hgeo) as Hs.
  pose proof (vg_size b Hgeo) as Hsz. pose proof (vg_width b Hgeo) as Hw.
  assert (0 < imageType b) by (destruct (vg_type b Hgeo); lia).
  destruct (Z.eq_dec (row_stride b) 0) as [E|E].
  - rewrite E in *. rewrite Z.mul_0_l in *. change (u32 0) with 0. lia.
  - assert (Hy32 : u32 y = y) by (unfold u32; apply Z.mod_small; nia).
    rewrite Hy32, (u32_row b y Hgeo Hy). nia.
Qed.

Lemma flip_columns_diverge b body (src dst : Z -> Z) d :
  (forall x e, body x e = copy_pixel b (src x) (dst x) e) ->
  valid_geometry b ->
  65535 < width (bmp_info_header b) * imageType b ->
  length d = length (data b) ->
  (forall c, 0 <= c -> c + imageType b <= width (bmp_info_header b) * imageType b ->
     0 <= src c /\ src c + imageType b <= Z.of_nat (length (data b))) ->
  (forall c, 0 <= c -> c + imageType b <= width (bmp_info_header b) * imageType b ->
     0 <= dst c /\ dst c + imageType b <= Z.of_nat (length (data b))) ->
  for_u16 (width (bmp_info_header b) * imageType b) (imageType b) body d
  = Diverges.
Proof.
  intros Hbody Hgeo Hwide Hl Hsrc Hdst. unfold for_u16.
  assert (Hbpp : imageType b = 3 \/ imageType b = 4) by apply (vg_type b Hgeo).
  apply (for_loop_diverges
           (fun e => length e = length (data b))
           (fun c => 0 <= c < 65536 /\ (imageType b = 4 -> c mod 4 = 0))).
  - intros c [Hc Hm]. split; [lia|]. split.
    + unfold u16. apply Z.mod_pos_bound. lia.
    + intros E4. specialize (Hm E4). unfold u16. rewrite E4.
      Z.div_mod_to_equations. lia.
  - intros c e [Hc Hm] He.
    assert (Hfit : c + imageType b <= width (bmp_info_header b) * imageType b).
    { destruct Hbpp as [E|E]; rewrite E in *.
      - Z.div_mod_to_equations. lia.
      - specialize (Hm eq_refl). Z.div_mod_to_equations. lia. }
    destruct (Hsrc c ltac:(lia) Hfit) as [Hs0 Hs1].
    destruct (Hdst c ltac:(lia) Hfit) as [Hd0 Hd1].
    destruct (copy_pixel_spec b (src c) (dst c) e Hbpp Hs0 Hs1 Hd0
                ltac:(rewrite He; exact Hd1)) as (e' & E & Hl' & _).
    exists e'. split; [rewrite Hbody; exact E|congruence].
  - split; [lia|]. intros _. reflexivity.
  - exact Hl.
Qed.

Lemma flip_columns_Ok b body (src dst : Z -> Z) d :
  (forall x e, body x e = copy_pixel b (src x) (dst x) e) ->
  valid_geometry b ->
  width (bmp_info_header b) * imageType b <= 65535 ->
  length d = length (data b) ->
  (forall c, 0 <= c -> c + imageType b <= width (bmp_info_header b) * imageType b ->
     0 <= src c /\ src c + imageType b <= Z.of_nat (length (data b))) ->
  (forall c, 0 <= c -> c + imageType b <= width (bmp_info_header b) * imageType b ->
     0 <= dst c /\ dst c + imageType b <= Z.of_nat (length (data b))) ->
  exists d',
    for_u16 (width (bmp_info_header b) * imageType b) (imageType b) body d
    = Ok d'
    /\ length d' = length (data b).
Proof.
  intros Hbody Hgeo Hfits Hl Hsrc Hdst.
  assert (Hbpp : imageType b = 3 \/ imageType b = 4) by apply (vg_type b Hgeo).
  apply (for_u16_step_rule (fun _ e => length e = length (data b)));
    [lia|apply (vg_width b Hgeo)|exact Hfits|exact Hl|].
  intros n e Hn He.
  assert (Hfit : n * imageType b + imageType b
                 <= width (bmp_info_header b) * imageType b) by nia.
  destruct (Hsrc (n * imageType b) ltac:(nia) Hfit) as [Hs0 Hs1].
  destruct (Hdst (n * imageType b) ltac:(nia) Hfit) as [Hd0 Hd1].
  destruct (copy_pixel_spec b _ _ e Hbpp Hs0 Hs1 Hd0
              ltac:(rewrite He; exact Hd1)) as (e' & E & Hl' & _).
  exists e'. split; [rewrite Hbody; exact E|congruence].
Qed.

(* The addresses [flipv] copies between lie inside the buffer. *)
Lemma flipv_addresses b y c :
  valid_geometry b ->
  0 <= y < height (bmp_info_header b) ->
  0 <= c ->
  c + imageType b <= width (bmp_info_header b) * imageType b ->
  (0 <= u32 (row_stride b * y) + c
   /\ u32 (row_stride b * y) + c + imageType b
      <= Z.of_nat (length (data b)))
  /\ (0 <= u32 (row_stride b
                * u32 (height (bmp_info_header b) - 1 - y)) + c
      /\ u32 (row_stride b
              * u32 (height (bmp_info_header b) - 1 - y)) + c
         + imageType b <= Z.of_nat (length (data b))).
Proof.
  intros Hgeo Hy Hc Hfit.
  pose proof (row_addr_bound b (height (bmp_info_header b) - 1 - y) Hgeo
                ltac:(lia)) as [Ha Hb].
  pose proof (vg_rows b Hgeo y Hy) as Hrow.
  pose proof (vg_stride b Hgeo) as Hs.
  rewrite (u32_row b y Hgeo Hy).
  assert (0 <= row_stride b * y) by (apply Z.mul_nonneg_nonneg; lia).
  split; lia.
Qed.

(* The addresses [fliph] reads lie inside the buffer. *)
Lemma fliph_addresses b y c :
  valid_geometry b ->
  0 <= y < height (bmp_info_header b) ->
  0 <= c ->
  c + imageType b <= width (bmp_info_header b) * imageType b ->
  0 <= u32 (row_stride b * y)
       + u16 ((width (bmp_info_header b) - 1) * imageType b - c)
  /\ u32 (row_stride b * y)
     + u16 ((width (bmp_info_header b) - 1) * imageType b - c)
     + imageType b <= Z.of_nat (length (data b)).
Proof.
  intros Hgeo Hy Hc Hfit.
  assert (Hbpp : imageType b = 3 \/ imageType b = 4) by apply (vg_type b Hgeo).
  pose proof (vg_rows b Hgeo y Hy) as Hrow.
  pose proof (vg_stride b Hgeo) as Hs.
  rewrite (u32_row b y Hgeo Hy).
  assert (0 <= row_stride b * y) by (apply Z.mul_nonneg_nonneg; lia).
  assert (Hoff : 0 <= u16 ((width (bmp_info_header b) - 1) * imageType b - c)
                 /\ u16 ((width (bmp_info_header b) - 1) * imageType b - c)
                    + imageType b
                    <= width (bmp_info_header b) * imageType b).
  { unfold u16.
    destruct (Z.le_gt_cases (width (bmp_info_header b) * imageType b) 65535).
    - rewrite Z.mod_small by lia. lia.
    - pose proof (Z.mod_pos_bound
                    ((width (bmp_info_header b) - 1) * imageType b - c)
                    65536 ltac:(lia)).
      destruct Hbpp as [E|E]; rewrite E in *; [lia|].
      Z.div_mod_to_equations. lia. }
  lia.
Qed.

(** Neither flip returns when the image has more than 65535 rows, or has a
    row and more than 65535 bytes of pixels in it (and at most [INT_MAX], so
    that the bound of the column loop is defined): the [uint16_t] counter of
    the row loop, or of the column loop, wraps before it reaches its bound,
    with every copy still inside the buffer. *)
Theorem flips_never_return (b : Bitmap) :
  valid_geometry b -> rows_fit_int b ->
  65535 < height (bmp_info_header b)
  \/ (0 < height (bmp_info_header b)
      /\ 65535 < width (bmp_info_header b) * imageType b) ->
  flipv b = Diverges /\ fliph b = Diverges.
Proof.
  intros Hgeo Hint Hbig.
  assert (Hbpp : imageType b = 3 \/ imageType b = 4) by apply (vg_type b Hgeo).
  pose proof (vg_width b Hgeo) as Hw0.
  assert (Hmul : int_mul (width (bmp_info_header b)) (imageType b)
                 = Ok (width (bmp_info_header b) * imageType b)).
  { apply (int_mul_index _ (width (bmp_info_header b))); [lia|lia|exact Hint]. }
  assert (Hlast : int_mul (width (bmp_info_header b) - 1) (imageType b)
                  = Ok ((width (bmp_info_header b) - 1) * imageType b)).
  { apply int_mul_in. unfold rows_fit_int, INT_MAX in Hint. unfold INT_MIN, INT_MAX.
    assert (0 <= width (bmp_info_header b) * imageType b)
      by (apply Z.mul_nonneg_nonneg; lia).
    destruct Hbpp as [E|E]; rewrite E in *; lia. }
  pose proof (fun y c => flipv_addresses b y c Hgeo) as Hv.
  pose proof (fun y c => fliph_addresses b y c Hgeo) as Hh.
  destruct (Z.le_gt_cases (width (bmp_info_header b) * imageType b) 65535)
    as [Hfits|Hwide].
  - assert (Hrows : 65535 < height (bmp_info_header b)) by lia.
    split.
    + unfold flipv. unfold for_u16 at 1.
      rewrite (for_loop_diverges (fun e => length e = length (data b))
                 (fun c => 0 <= c < 65536)); [reflexivity| | | |reflexivity].
      * intros c Hc. split; [lia|]. unfold u16. apply Z.mod_pos_bound. lia.
      * intros y e Hy He. rewrite Hmul. cbn [bind].
        apply (flip_columns_Ok b _
                 (fun x => u32 (row_stride b * y) + x)
                 (fun x => u32 (row_stride b
                                * u32 (height (bmp_info_header b) - 1 - y)) + x));
          auto.
        -- intros c Hc Hfit. apply (Hv y c); lia.
        -- intros c Hc Hfit. apply (Hv y c); lia.
      * lia.
    + unfold fliph. unfold for_u16 at 1.
      rewrite (for_loop_diverges (fun e => length e = length (data b))
                 (fun c => 0 <= c < 65536)); [reflexivity| | | |reflexivity].
      * intros c Hc. split; [lia|]. unfold u16. apply Z.mod_pos_bound. lia.
      * intros y e Hy He. rewrite Hmul. cbn [bind].
        apply (flip_columns_Ok b _
                 (fun x => u32 (row_stride b * y)
                           + u16 ((width (bmp_info_header b) - 1) * imageType b
                                  - x))
                 (fun x => u32 (row_stride b * y) + x));
          auto.
        -- intros x e0. rewrite Hlast. reflexivity.
        -- intros c Hc Hfit. apply (Hh y c); lia.
        -- intros c Hc Hfit. apply (Hv y c); lia.
      * lia.
  - assert (Hrow : 0 < height (bmp_info_header b)) by lia.
    split.
    + unfold flipv. unfold for_u16 at 1.
      rewrite for_loop_body_diverges; [reflexivity|lia|lia|].
      rewrite Hmul. cbn [bind].
      apply (flip_columns_diverge b _
               (fun x => u32 (row_stride b * 0) + x)
               (fun x => u32 (row_stride b
                              * u32 (height (bmp_info_header b) - 1 - 0)) + x));
        auto.
      * intros c Hc Hfit. apply (Hv 0 c); lia.
      * intros c Hc Hfit. apply (Hv 0 c); lia.
    + unfold fliph. unfold for_u16 at 1.
      rewrite for_loop_body_diverges; [reflexivity|lia|lia|].
      rewrite Hmul. cbn [bind].
      apply (flip_columns_diverge b _
               (fun x => u32 (row_stride b * 0)
                         + u16 ((width (bmp_info_header b) - 1) * imageType b
                                - x))
               (fun x => u32 (row_stride b * 0) + x));
        auto.
      * intros x e0. rewrite Hlast. reflexivity.
      * intros c Hc Hfit. apply (Hh 0 c); lia.
      * intros c Hc Hfit. apply (Hv 0 c); lia.
Qed.

Lemma sample_wide_rows : rows_fit_int sample_wide.
Proof.
  unfold rows_fit_int, INT_MAX.
  cbv [sample_wide bmp_info_header width imageType]. lia.
Defined.

Lemma flips_never_return_witness :
  valid_geometry sample_wide /\ rows_fit_int sample_wide
  /\ (65535 < height (bmp_info_header sample_wide)
      \/ (0 < height (bmp_info_header sample_wide)
          /\ 65535 < width (bmp_info_header sample_wide) * imageType sample_wide))
  /\ flipv sample_wide = Diverges /\ fliph sample_wide = Diverges.
Proof.
  assert (H : 65535 < height (bmp_info_header sample_wide)
              \/ (0 < height (bmp_info_header sample_wide)
                  /\ 65535 < width (bmp_info_header sample_wide)
                             * imageType sample_wide)).
  { right. cbv [sample_wide bmp_info_header height width imageType]. lia. }
  split; [exact sample_wide_geometry|]. split; [exact sample_wide_rows|].
  split; [exact H|].
  exact (flips_never_return sample_wide sample_wide_geometry sample_wide_rows H).
Defined.

(** ** [scaleDown] and [scaleUp], pixel by pixel *)

Lemma scale_copy_spec original bpp src dst x (idx : Z -> Z) base d :
  (bpp = 3 \/ bpp = 4) ->
  (forall k, 0 <= k < 4 -> idx k = base + k) ->
  0 <= src + x * bpp ->
  src + x * bpp + bpp <= Z.of_nat (length (data original)) ->
  0 <= dst + base -> dst + base + bpp <= Z.of_nat (length d) ->
  exists d', scale_copy original bpp src dst x idx d = Ok d'
    /\ length d' = length d
    /\ (forall k, 0 <= k < bpp ->
          peek d' (dst + base + k) = peek (data original) (src + x * bpp + k))
    /\ (forall j, 0 <= j -> j < dst + base \/ dst + base + bpp <= j ->
          peek d' j = peek d j).
Proof.
  intros Hbpp Hidx Hs Hse Hd Hde. unfold scale_copy.
  rewrite (Hidx 0), (Hidx 1), (Hidx 2), (Hidx 3) by lia.
  set (o := data original) in *.
  set (s0 := src + x * bpp) in *.
  replace (src + (x * bpp + 0)) with s0 by (subst s0; lia).
  replace (src + (x * bpp + 1)) with (s0 + 1) by (subst s0; lia).
  replace (src + (x * bpp + 2)) with (s0 + 2) by (subst s0; lia).
  replace (src + (x * bpp + 3)) with (s0 + 3) by (subst s0; lia).
  set (t := dst + base) in *.
  replace (dst + (base + 0)) with t by (subst t; lia).
  replace (dst + (base + 1)) with (t + 1) by (subst t; lia).
  replace (dst + (base + 2)) with (t + 2) by (subst t; lia).
  replace (dst + (base + 3)) with (t + 3) by (subst t; lia).
  pose proof (peek_range o s0). pose proof (peek_range o (s0 + 1)).
  pose proof (peek_range o (s0 + 2)). pose proof (peek_range o (s0 + 3)).
  rewrite (load_in_range o s0) by lia. cbn [bind].
  destruct (store_spec d t (peek o s0) ltac:(lia)) as (d1 & S1 & L1 & V1 & O1).
  rewrite S1. cbn [bind].
  rewrite (load_in_range o (s0 + 1)) by lia. cbn [bind].
  destruct (store_spec d1 (t + 1) (peek o (s0 + 1)) ltac:(lia))
    as (d2 & S2 & L2 & V2 & O2).
  rewrite S2. cbn [bind].
  rewrite (load_in_range o (s0 + 2)) by lia. cbn [bind].
  destruct (store_spec d2 (t + 2) (peek o (s0 + 2)) ltac:(lia))
    as (d3 & S3 & L3 & V3 & O3).
  rewrite S3. cbn [bind].
  rewrite Z.mod_small in V1, V2, V3 by lia.
  destruct Hbpp as [E|E]; rewrite E in *; cbn [Z.eqb Pos.eqb].
  - exists d3. split; [reflexivity|]. split; [lia|]. split.
    + intros k Hk.
      assert (k = 0 \/ k = 1 \/ k = 2) as [->|[->| ->]] by lia.
      * rewrite !Z.add_0_r. rewrite O3, O2 by lia. exact V1.
      * rewrite O3 by lia. exact V2.
      * exact V3.
    + intros j Hj Hout. rewrite O3, O2, O1 by lia. reflexivity.
  - rewrite (load_in_range o (s0 + 3)) by lia. cbn [bind].
    destruct (store_spec d3 (t + 3) (peek o (s0 + 3)) ltac:(lia))
      as (d4 & S4 & L4 & V4 & O4).
    rewrite S4. rewrite Z.mod_small in V4 by lia.
    exists d4. split; [reflexivity|]. split; [lia|]. split.
    + intros k Hk.
      assert (k = 0 \/ k = 1 \/ k = 2 \/ k = 3) as [->|[->|[->| ->]]] by lia.
      * rewrite !Z.add_0_r. rewrite O4, O3, O2 by lia. exact V1.
      * rewrite O4, O3 by lia. exact V2.
      * rewrite O4 by lia. exact V3.
      * exact V4.
    + intros j Hj Hout. rewrite O4, O3, O2, O1 by lia. reflexivity.
Qed.

Lemma scale_zero_spec bpp dst (idx : Z -> Z) base d :
  (bpp = 3 \/ bpp = 4) ->
  (forall k, 0 <= k < 4 -> idx k = base + k) ->
  0 <= dst + base -> dst + base + bpp <= Z.of_nat (length d) ->
  exists d', scale_zero bpp dst idx d = Ok d'
    /\ length d' = length d
    /\ (forall k, 0 <= k < bpp -> peek d' (dst + base + k) = 0)
    /\ (forall j, 0 <= j -> j < dst + base \/ dst + base + bpp <= j ->
          peek d' j = peek d j).
Proof.
  intros Hbpp Hidx Hd Hde. unfold scale_zero.
  rewrite (Hidx 0), (Hidx 1), (Hidx 2), (Hidx 3) by lia.
  set (t := dst + base) in *.
  replace (dst + (base + 0)) with t by (subst t; lia).
  replace (dst + (base + 1)) with (t + 1) by (subst t; lia).
  replace (dst + (base + 2)) with (t + 2) by (subst t; lia).
  replace (dst + (base + 3)) with (t + 3) by (subst t; lia).
  destruct (store_spec d t 0 ltac:(lia)) as (d1 & S1 & L1 & V1 & O1).
  rewrite S1. cbn [bind].
  destruct (store_spec d1 (t + 1) 0 ltac:(lia)) as (d2 & S2 & L2 & V2 & O2).
  rewrite S2. cbn [bind].
  destruct (store_spec d2 (t + 2) 0 ltac:(lia)) as (d3 & S3 & L3 & V3 & O3).
  rewrite S3. cbn [bind].
  change (0 mod 256) with 0 in *.
  destruct Hbpp as [E|E]; rewrite E in *; cbn [Z.eqb Pos.eqb].
  - exists d3. split; [reflexivity|]. split; [lia|]. split.
    + intros k Hk.
      assert (k = 0 \/ k = 1 \/ k = 2) as [->|[->| ->]] by lia.
      * rewrite !Z.add_0_r. rewrite O3, O2 by lia. exact V1.
      * rewrite O3 by lia. exact V2.
      * exact V3.
    + intros j Hj Hout. rewrite O3, O2, O1 by lia. reflexivity.
  - destruct (store_spec d3 (t + 3) 0 ltac:(lia)) as (d4 & S4 & L4 & V4 & O4).
    rewrite S4. change (0 mod 256) with 0 in *.
    exists d4. split; [reflexivity|]. split; [lia|]. split.
    + intros k Hk.
      assert (k = 0 \/ k = 1 \/ k = 2 \/ k = 3) as [->|[->|[->| ->]]] by lia.
      * rewrite !Z.add_0_r. rewrite O4, O3, O2 by lia. exact V1.
      * rewrite O4, O3 by lia. exact V2.
      * rewrite O4 by lia. exact V3.
      * exact V4.
    + intros j Hj Hout. rewrite O4, O3, O2, O1 by lia. reflexivity.
Qed.

(** The column loop of [scaleDown] on one source row: destination column
    [c] receives source column [2 c + 1]. *)
Lemma scaleDown_columns_spec original b src dst :
  (imageType b = 3 \/ imageType b = 4) ->
  0 <= width (bmp_info_header original) <= 65535 ->
  width (bmp_info_header original) / 2 < row_stride b ->
  0 <= src ->
  src + width (bmp_info_header original) * imageType b
  <= Z.of_nat (length (data original)) ->
  0 <= dst ->
  forall fuel x d,
    0 <= x <= width (bmp_info_header original) ->
    (Z.to_nat (width (bmp_info_header original) - x) < fuel)%nat ->
    dst + width (bmp_info_header original) / 2 * imageType b
    <= Z.of_nat (length d) ->
    exists d',
      scaleDown_columns fuel original b src dst x (d, x / 2)
      = Ok (d', width (bmp_info_header original) / 2)
      /\ length d' = length d
      /\ (forall c k,
            x / 2 <= c < width (bmp_info_header original) / 2 ->
            0 <= k < imageType b ->
            peek d' (dst + c * imageType b + k)
            = peek (data original) (src + (2 * c + 1) * imageType b + k))
      /\ (forall j, 0 <= j ->
            j < dst + x / 2 * imageType b
            \/ dst + width (bmp_info_header original) / 2 * imageType b <= j ->
            peek d' j = peek d j).
Proof.
  intros Hbpp HW Hnb Hs Hse Hd.
  set (W := width (bmp_info_header original)) in *.
  set (bpp := imageType b) in *.
  induction fuel as [|f IH]; intros x d Hx Hfuel Hde; [lia|].
  cbn [scaleDown_columns]. fold W. cbn [fst snd].
  destruct (Z.ltb_spec x W) as [Hlt|Hge].
  - assert (Hx2 : x / 2 <= (W - 1) / 2) by (apply Z.div_le_mono; lia).
    assert (HW2 : (W - 1) / 2 <= W / 2) by (apply Z.div_le_mono; lia).
    destruct (Z.leb_spec (row_stride b) (x / 2)) as [Hbrk|_]; [lia|].
    assert (Hu : u16 (x + 1) = x + 1) by (unfold u16; apply Z.mod_small; lia).
    rewrite Z.rem_mod_nonneg by lia.
    destruct (Z.eqb_spec (x mod 2) 0) as [Hev|Hodd].
    + rewrite Hu.
      assert (E : (x + 1) / 2 = x / 2) by (Z.div_mod_to_equations; lia).
      destruct (IH (x + 1) d ltac:(lia) ltac:(lia) Hde)
        as (d' & Hrun & Hl & Hcols & Hrest).
      rewrite E in Hrun, Hcols, Hrest. exists d'. auto.
    + fold bpp.
      assert (Hc : 2 * (x / 2) + 1 = x) by (Z.div_mod_to_equations; lia).
      assert (Hcw : x / 2 < W / 2) by (Z.div_mod_to_equations; lia).
      destruct (scale_copy_spec original bpp src dst x
                  (fun k => x / 2 * bpp + k) (x / 2 * bpp) d Hbpp
                  ltac:(intros; reflexivity)
                  ltac:(nia) ltac:(nia) ltac:(nia) ltac:(nia))
        as (d1 & S1 & L1 & V1 & O1).
      rewrite S1. cbn [bind]. rewrite Hu.
      assert (E : (x + 1) / 2 = x / 2 + 1) by (Z.div_mod_to_equations; lia).
      assert (Hu' : u16 (x / 2 + 1) = (x + 1) / 2).
      { rewrite E. unfold u16. apply Z.mod_small. lia. }
      rewrite Hu'.
      destruct (IH (x + 1) d1 ltac:(lia) ltac:(lia) ltac:(rewrite L1; exact Hde))
        as (d' & Hrun & Hl & Hcols & Hrest).
      exists d'. split; [exact Hrun|]. split; [congruence|]. split.
      * intros c k Hck Hk.
        destruct (Z.eq_dec c (x / 2)) as [->|Hne].
        -- rewrite Hrest by nia.
           rewrite Hc. apply V1. exact Hk.
        -- apply Hcols; lia.
      * intros j Hj Hout. rewrite Hrest by (try rewrite E; nia).
        apply O1; [exact Hj|nia].
  - assert (x = W) by lia. subst x.
    exists d. split; [reflexivity|]. split; [reflexivity|]. split.
    + intros c k Hc. lia.
    + intros; reflexivity.
Qed.

(** The loop that clears the columns from [n0] up to the new width. *)
Lemma scale_clear_columns bpp dst wd fuel (idx : Z -> Z -> Z) next n0 d :
  (bpp = 3 \/ bpp = 4) ->
  (forall c k, 0 <= c < wd -> 0 <= k < 4 -> idx c k = c * bpp + k) ->
  (forall c, 0 <= c < wd -> next c = c + 1) ->
  0 <= n0 <= wd -> (Z.to_nat (wd - n0) < fuel)%nat ->
  0 <= dst -> dst + wd * bpp <= Z.of_nat (length d) ->
  exists d',
    for_loop fuel wd next (fun c e => scale_zero bpp dst (idx c) e) n0 d = Ok d'
    /\ length d' = length d
    /\ (forall c k, n0 <= c < wd -> 0 <= k < bpp ->
          peek d' (dst + c * bpp + k) = 0)
    /\ (forall j, 0 <= j -> j < dst + n0 * bpp \/ dst + wd * bpp <= j ->
          peek d' j = peek d j).
Proof.
  intros Hbpp Hidx Hnext Hn Hfuel Hd Hde.
  destruct (for_loop_steps (Z.to_nat (wd - n0))
              (fun n e =>
                 length e = length d
                 /\ (forall c k, n0 <= c < n0 + Z.of_nat n -> 0 <= k < bpp ->
                       peek e (dst + c * bpp + k) = 0)
                 /\ (forall j, 0 <= j ->
                       j < dst + n0 * bpp
                       \/ dst + (n0 + Z.of_nat n) * bpp <= j ->
                       peek e j = peek d j))
              fuel wd next (fun c e => scale_zero bpp dst (idx c) e) 1 n0 d)
    as (d' & Hrun & Hl & Hz & Hrest).
  - intros n Hn'. split; [lia|]. rewrite Hnext by lia. lia.
  - lia.
  - exact Hfuel.
  - split; [reflexivity|]. split; [intros; lia|intros; reflexivity].
  - intros n e Hn' (Hle & Hze & Hre).
    replace (n0 + Z.of_nat n * 1) with (n0 + Z.of_nat n) by lia.
    set (c := n0 + Z.of_nat n) in *.
    destruct (scale_zero_spec bpp dst (idx c) (c * bpp) e Hbpp
                ltac:(intros k Hk; apply Hidx; lia)
                ltac:(nia) ltac:(rewrite Hle; nia))
      as (e' & S1 & L1 & V1 & O1).
    exists e'. split; [exact S1|]. split; [congruence|]. split.
    + intros c' k Hc' Hk.
      destruct (Z.eq_dec c' c) as [->|Hne].
      * apply V1. exact Hk.
      * rewrite O1 by nia. apply Hze; lia.
    + intros j Hj Hout. rewrite O1 by nia. apply Hre; [exact Hj|nia].
  - exists d'. split; [exact Hrun|]. split; [exact Hl|]. split.
    + intros c k Hc Hk. apply Hz; lia.
    + intros j Hj Hout. apply Hrest; [exact Hj|].
      replace (n0 + Z.of_nat (Z.to_nat (wd - n0))) with wd by lia. exact Hout.
Qed.

Lemma scaleDown_header_fields b :
  0 <= width (bmp_info_header b) <= 65535 ->
  0 <= height (bmp_info_header b) ->
  bit_count (bmp_info_header b) = 8 * imageType b ->
  (imageType b = 3 \/ imageType b = 4) ->
  width (bmp_info_header (scaleDown_fields b))
  = width (bmp_info_header b) / 2 + (width (bmp_info_header b) / 2) mod 4
  /\ height (bmp_info_header (scaleDown_fields b))
     = height (bmp_info_header b) / 2
  /\ row_stride (scaleDown_fields b)
     = (width (bmp_info_header b) / 2 + (width (bmp_info_header b) / 2) mod 4)
       * imageType b
  /\ imageType (scaleDown_fields b) = imageType b
  /\ data (scaleDown_fields b) = data b
  /\ file_header (scaleDown_fields b) = file_header b.
Proof.
  intros Hw Hh Hbc Hbpp. unfold scaleDown_fields.
  cbn [bmp_info_header set_info_header set_row_stride set_width set_height
         width height bit_count row_stride imageType data file_header].
  rewrite (Z.quot_div_nonneg (width (bmp_info_header b)) 2) by lia.
  set (n := width (bmp_info_header b) / 2).
  assert (Hn : 0 <= n <= 32767) by (subst n; Z.div_mod_to_equations; lia).
  rewrite (Z.rem_mod_nonneg n 4) by lia.
  pose proof (Z.mod_pos_bound n 4 ltac:(lia)).
  rewrite (Z.quot_div_nonneg (height (bmp_info_header b)) 2) by lia.
  split; [reflexivity|]. split; [reflexivity|]. split; [|auto].
  rewrite Hbc.
  replace ((n + n mod 4) * (8 * imageType b))
    with ((n + n mod 4) * imageType b * 8) by ring.
  rewrite Z.quot_mul by lia. unfold u32. apply Z.mod_small. nia.
Qed.

(* [scaleDown_header] within the range of [int]. *)
Lemma scaleDown_header_Ok b :
  0 <= width (bmp_info_header b) <= 65535 ->
  bit_count (bmp_info_header b) = 8 * imageType b ->
  (imageType b = 3 \/ imageType b = 4) ->
  scaleDown_header b = Ok (scaleDown_fields b).
Proof.
  intros Hw Hbc Hbpp. unfold scaleDown_header, scaleDown_fields.
  cbn [bmp_info_header set_info_header set_row_stride set_width set_height
         width height bit_count row_stride imageType data file_header].
  pose proof (Z.quot_div_nonneg (width (bmp_info_header b)) 2 ltac:(lia)
                ltac:(lia)) as Eq.
  set (n := Z.quot (width (bmp_info_header b)) 2) in *.
  assert (Hn : 0 <= n <= 32767) by (rewrite Eq; Z.div_mod_to_equations; lia).
  pose proof (Z.rem_mod_nonneg n 4 ltac:(lia) ltac:(lia)) as Er.
  pose proof (Z.mod_pos_bound n 4 ltac:(lia)) as Hm.
  rewrite int_add_in by (unfold INT_MIN, INT_MAX; lia). cbn [bind width].
  rewrite int_mul_in; [reflexivity|].
  rewrite Hbc. unfold INT_MIN, INT_MAX.
  destruct Hbpp as [E|E]; rewrite E; lia.
Qed.

(* Bounds of the address of a channel in rows of [wd] pixels. *)
Lemma slot_bounds (wd bpp r r' c k : Z) :
  0 <= r < r' -> 0 <= c < wd -> 0 <= k < bpp ->
  0 <= wd * bpp * r + c * bpp + k < wd * bpp * r'.
Proof.
  intros Hr Hc Hk.
  assert (0 <= c * bpp) by (apply Z.mul_nonneg_nonneg; lia).
  assert ((c + 1) * bpp <= wd * bpp) by (apply Z.mul_le_mono_nonneg_r; lia).
  assert (0 <= wd * bpp * r) by (apply Z.mul_nonneg_nonneg; lia).
  assert (wd * bpp * (r + 1) <= wd * bpp * r')
    by (apply Z.mul_le_mono_nonneg_l; lia).
  lia.
Qed.

(* A channel of column [c] lies before column [n], for [c < n]. *)
Lemma column_slot_lt (bpp c n k : Z) :
  0 <= k < bpp -> 0 <= c < n -> 0 <= c * bpp + k < n * bpp.
Proof.
  intros Hk Hc.
  assert (0 <= c * bpp) by (apply Z.mul_nonneg_nonneg; lia).
  assert ((c + 1) * bpp <= n * bpp) by (apply Z.mul_le_mono_nonneg_r; lia).
  lia.
Qed.

(* What [scaleDown] computes. *)
Lemma scaleDown_result (b : Bitmap) :
  valid_geometry b ->
  bit_count (bmp_info_header b) = 8 * imageType b ->
  2 <= width (bmp_info_header b) <= 65535 ->
  height (bmp_info_header b) <= 65535 ->
  (width (bmp_info_header b) / 2 + (width (bmp_info_header b) / 2) mod 4)
  * imageType b * (height (bmp_info_header b) / 2)
  <= Z.of_nat (length (data b)) ->
  exists b',
    scaleDown b = Ok b'
    /\ b' = set_data (scaleDown_fields b) (data b')
    /\ length (data b') = length (data b)
    /\ (forall x y ch,
          0 <= x < width (bmp_info_header b') ->
          0 <= y < height (bmp_info_header b') ->
          0 <= ch < imageType b' ->
          peek (data b') (channel_addr b' x y ch)
          = if x <? width (bmp_info_header b) / 2
            then peek (data b) (channel_addr b (2 * x + 1) (2 * y + 1) ch)
            else 0)
    /\ (forall j,
          row_stride b' * height (bmp_info_header b') <= j ->
          peek (data b') j = peek (data b) j).
Proof.
  intros Hgeo Hbc Hw Hh Hfit.
  assert (Hbpp : imageType b = 3 \/ imageType b = 4) by apply (vg_type b Hgeo).
  pose proof (vg_height b Hgeo) as Hh0. pose proof (vg_size b Hgeo) as Hsz.
  destruct (scaleDown_header_fields b ltac:(lia) Hh0 Hbc Hbpp)
    as (Ew & Eh & Ers & Eit & Ed & _).
  set (nb := scaleDown_fields b) in *.
  set (n := width (bmp_info_header b) / 2) in *.
  set (bpp := imageType b) in *.
  set (wd := n + n mod 4) in *.
  set (h2 := height (bmp_info_header b) / 2) in *.
  assert (Hn : 1 <= n <= 32767) by (subst n; Z.div_mod_to_equations; lia).
  pose proof (Z.mod_pos_bound n 4 ltac:(lia)) as Hm.
  assert (Hh2 : 0 <= h2) by (subst h2; Z.div_mod_to_equations; lia).
  unfold scaleDown.
  rewrite (scaleDown_header_Ok b ltac:(lia) Hbc Hbpp). cbn [bind].
  fold nb. rewrite Eit, Ed. fold bpp.
  match goal with
  | |- context [for_u16 ?bound 1 ?body ?s] =>
      destruct (for_u16_rule
                  (fun y (st : list byte * Z) =>
                     snd st = y / 2
                     /\ length (fst st) = length (data b)
                     /\ (forall r c k,
                           0 <= r < y / 2 -> 0 <= c < wd -> 0 <= k < bpp ->
                           peek (fst st) (wd * bpp * r + c * bpp + k)
                           = if c <? n
                             then peek (data b)
                                    (row_stride b * (2 * r + 1)
                                     + (2 * c + 1) * bpp + k)
                             else 0)
                     /\ (forall j, 0 <= j -> wd * bpp * (y / 2) <= j ->
                           peek (fst st) j = peek (data b) j))
                  bound body s)
        as ([d' r'] & Hrun & Hr' & Hl' & Hrows & Hrest)
  end.
  - lia.
  - cbn [fst snd]. split; [reflexivity|]. split; [reflexivity|].
    split; [intros r c k Hr; change (0 / 2) with 0 in Hr; lia|reflexivity].
  - intros y [d r] Hy (Hr & Hl & Hdone & Hkeep). cbn [fst snd] in *.
    rewrite Z.rem_mod_nonneg by lia.
    destruct (Z.eqb_spec (y mod 2) 0) as [Hev|Hodd].
    + assert (E : (y + 1) / 2 = y / 2) by (Z.div_mod_to_equations; lia).
      eexists. split; [reflexivity|]. cbn [fst snd]. rewrite E. auto.
    + assert (E : (y + 1) / 2 = y / 2 + 1) by (Z.div_mod_to_equations; lia).
      assert (Hy2 : 2 * (y / 2) + 1 = y) by (Z.div_mod_to_equations; lia).
      assert (Hrh : y / 2 + 1 <= h2)
        by (subst h2; Z.div_mod_to_equations; lia).
      assert (Hyd : 0 <= y / 2) by (Z.div_mod_to_equations; lia).
      subst r. rewrite Ers. fold n wd bpp.
      assert (Hpix : u32 (wd * bpp * (y / 2)) = wd * bpp * (y / 2)).
      { unfold u32. apply Z.mod_small. nia. }
      rewrite Hpix, (u32_row b y Hgeo ltac:(lia)).
      pose proof (vg_rows b Hgeo y ltac:(lia)) as Hrow.
      pose proof (vg_stride b Hgeo) as Hst.
      destruct (scaleDown_columns_spec b nb (row_stride b * y)
                  (wd * bpp * (y / 2))
                  ltac:(rewrite Eit; exact Hbpp) ltac:(lia)
                  ltac:(rewrite Ers; fold n wd bpp; nia)
                  ltac:(nia) ltac:(rewrite Eit; exact Hrow) ltac:(nia)
                  (Z.to_nat 65537) 0 d ltac:(lia) ltac:(lia)
                  ltac:(rewrite Eit, Hl; fold n bpp; nia))
        as (d1 & Hcol & L1 & V1 & O1).
      change (0 / 2) with 0 in Hcol, V1, O1.
      rewrite Hcol. cbn [bind fst snd]. rewrite Ew. fold n wd.
      rewrite Eit in V1, O1. fold n bpp in V1, O1.
      destruct (scale_clear_columns bpp (wd * bpp * (y / 2)) wd
                  (Z.to_nat 65537) (fun c k => c * bpp + k)
                  (fun c => u16 (c + 1)) n d1 Hbpp
                  ltac:(intros; reflexivity)
                  ltac:(intros c Hc; unfold u16; apply Z.mod_small; lia)
                  ltac:(lia) ltac:(lia) ltac:(nia)
                  ltac:(rewrite L1, Hl; nia))
        as (d2 & Hclr & L2 & V2 & O2).
      rewrite Hclr. cbn [bind].
      eexists. split; [reflexivity|]. cbn [fst snd].
      split; [rewrite E; unfold u16; apply Z.mod_small; lia|].
      split; [congruence|]. split.
      * intros r c k Hr Hc Hk. rewrite E in Hr.
        assert (Hbase : 0 <= wd * bpp * (y / 2))
          by (apply Z.mul_nonneg_nonneg; lia).
        destruct (Z.eq_dec r (y / 2)) as [->|Hne].
        -- destruct (Z.ltb_spec c n) as [Hlt|Hge].
           ++ pose proof (column_slot_lt bpp c n k Hk ltac:(lia)) as Hsl.
              rewrite O2 by lia. rewrite V1 by lia. rewrite Hy2.
              f_equal; lia.
           ++ apply V2; lia.
        -- pose proof (slot_bounds wd bpp r (y / 2) c k ltac:(lia) Hc Hk)
             as Hsl.
           rewrite O2 by lia. rewrite O1 by lia. apply Hdone; lia.
      * intros j Hj Hout. rewrite E in Hout.
        assert (Hnw : n * bpp <= wd * bpp)
          by (apply Z.mul_le_mono_nonneg_r; lia).
        assert (Hwb : 0 <= wd * bpp) by lia.
        rewrite O2 by lia. rewrite O1 by lia. apply Hkeep; lia.
  - rewrite Hrun. cbn [bind fst].
    exists (set_data nb d'). split; [reflexivity|].
    cbn [data set_data] in *. split; [reflexivity|]. split; [exact Hl'|].
    change (bmp_info_header (set_data nb d')) with (bmp_info_header nb).
    change (imageType (set_data nb d')) with (imageType nb).
    change (row_stride (set_data nb d')) with (row_stride nb).
    rewrite Ew, Eh, Eit, Ers. fold n wd bpp h2. split.
    + intros x y ch Hx Hy Hch. unfold channel_addr.
      change (row_stride (set_data nb d')) with (row_stride nb).
      change (imageType (set_data nb d')) with (imageType nb).
      rewrite Ers, Eit. fold n wd bpp.
      rewrite Hrows by (subst h2; lia). reflexivity.
    + intros j Hj. apply Hrest; [nia|]. subst h2. exact Hj.
Qed.

(** [scaleDown] on an image of at least 2 and at most 65535 columns and at
    most 65535 rows, with room in the buffer for the new rows: the new width
    is [width / 2] plus its remainder modulo 4, the new height [height / 2],
    the new stride the new width in bytes; pixel [(x, y)] of the result is
    pixel [(2 x + 1, 2 y + 1)] of the original for [x < width / 2] and black
    in the columns added to the width; the buffer keeps its size, the bytes
    after the new rows and the file header are as they were. *)
Theorem scaleDown_samples (b : Bitmap) :
  valid_geometry b ->
  bit_count (bmp_info_header b) = 8 * imageType b ->
  2 <= width (bmp_info_header b) <= 65535 ->
  height (bmp_info_header b) <= 65535 ->
  (width (bmp_info_header b) / 2 + (width (bmp_info_header b) / 2) mod 4)
  * imageType b * (height (bmp_info_header b) / 2)
  <= Z.of_nat (length (data b)) ->
  exists b',
    scaleDown b = Ok b'
    /\ width (bmp_info_header b')
       = width (bmp_info_header b) / 2 + (width (bmp_info_header b) / 2) mod 4
    /\ height (bmp_info_header b') = height (bmp_info_header b) / 2
    /\ row_stride b' = width (bmp_info_header b') * imageType b
    /\ imageType b' = imageType b
    /\ file_header b' = file_header b
    /\ length (data b') = length (data b)
    /\ (forall x y ch,
          0 <= x < width (bmp_info_header b') ->
          0 <= y < height (bmp_info_header b') ->
          0 <= ch < imageType b ->
          peek (data b') (channel_addr b' x y ch)
          = if x <? width (bmp_info_header b) / 2
            then peek (data b) (channel_addr b (2 * x + 1) (2 * y + 1) ch)
            else 0)
    /\ (forall j,
          row_stride b' * height (bmp_info_header b') <= j ->
          peek (data b') j = peek (data b) j).
Proof.
  intros Hgeo Hbc Hw Hh Hfit.
  destruct (scaleDown_result b Hgeo Hbc Hw Hh Hfit)
    as (b' & Hrun & Hb' & Hl & Hpix & Hrest).
  destruct (scaleDown_header_fields b ltac:(lia) (vg_height b Hgeo) Hbc
              (vg_type b Hgeo)) as (Ew & Eh & Ers & Eit & _ & Efh).
  assert (Ew' : width (bmp_info_header b')
                = width (bmp_info_header (scaleDown_fields b)))
    by (rewrite Hb'; reflexivity).
  assert (Eh' : height (bmp_info_header b')
                = height (bmp_info_header (scaleDown_fields b)))
    by (rewrite Hb'; reflexivity).
  assert (Ers' : row_stride b' = row_stride (scaleDown_fields b))
    by (rewrite Hb'; reflexivity).
  assert (Eit' : imageType b' = imageType (scaleDown_fields b))
    by (rewrite Hb'; reflexivity).
  assert (Efh' : file_header b' = file_header (scaleDown_fields b))
    by (rewrite Hb'; reflexivity).
  exists b'. split; [exact Hrun|].
  split; [congruence|]. split; [congruence|].
  split; [rewrite Ers', Ers, Ew', Ew; reflexivity|].
  split; [congruence|]. split; [congruence|]. split; [exact Hl|].
  split; [|exact Hrest].
  intros x y ch Hx Hy Hch. apply Hpix; auto. rewrite Eit', Eit. exact Hch.
Qed.

Lemma scaleDown_samples_witness :
  valid_geometry sample_2x2
  /\ exists b',
       scaleDown sample_2x2 = Ok b'
       /\ width (bmp_info_header b')
          = width (bmp_info_header sample_2x2) / 2
            + (width (bmp_info_header sample_2x2) / 2) mod 4
       /\ height (bmp_info_header b') = height (bmp_info_header sample_2x2) / 2
       /\ row_stride b' = width (bmp_info_header b') * imageType sample_2x2
       /\ imageType b' = imageType sample_2x2
       /\ file_header b' = file_header sample_2x2
       /\ length (data b') = length (data sample_2x2)
       /\ (forall x y ch,
             0 <= x < width (bmp_info_header b') ->
             0 <= y < height (bmp_info_header b') ->
             0 <= ch < imageType sample_2x2 ->
             peek (data b') (channel_addr b' x y ch)
             = if x <? width (bmp_info_header sample_2x2) / 2
               then peek (data sample_2x2)
                      (channel_addr sample_2x2 (2 * x + 1) (2 * y + 1) ch)
               else 0)
       /\ (forall j,
             row_stride b' * height (bmp_info_header b') <= j ->
             peek (data b') j = peek (data sample_2x2) j).
Proof.
  split; [exact sample_2x2_geometry|].
  apply (scaleDown_samples sample_2x2 sample_2x2_geometry);
    [reflexivity|cbn; lia|cbn; lia|vm_compute; discriminate].
Defined.

Lemma scaleUp_header_fields b :
  0 <= width (bmp_info_header b) <= 32766 ->
  bit_count (bmp_info_header b) = 8 * imageType b ->
  (imageType b = 3 \/ imageType b = 4) ->
  width (bmp_info_header (scaleUp_fields b))
  = 2 * width (bmp_info_header b) + (2 * width (bmp_info_header b)) mod 4
  /\ height (bmp_info_header (scaleUp_fields b))
     = 2 * height (bmp_info_header b)
  /\ row_stride (scaleUp_fields b)
     = (2 * width (bmp_info_header b) + (2 * width (bmp_info_header b)) mod 4)
       * imageType b
  /\ imageType (scaleUp_fields b) = imageType b
  /\ data (scaleUp_fields b) = data b
  /\ file_header (scaleUp_fields b) = file_header b.
Proof.
  intros Hw Hbc Hbpp. unfold scaleUp_fields.
  cbn [bmp_info_header set_info_header set_row_stride set_width set_height
         width height bit_count row_stride imageType data file_header].
  replace (width (bmp_info_header b) * 2)
    with (2 * width (bmp_info_header b)) by lia.
  set (n := 2 * width (bmp_info_header b)).
  rewrite (Z.rem_mod_nonneg n 4) by lia.
  pose proof (Z.mod_pos_bound n 4 ltac:(lia)).
  split; [reflexivity|]. split; [lia|]. split; [|auto].
  rewrite Hbc.
  replace ((n + n mod 4) * (8 * imageType b))
    with ((n + n mod 4) * imageType b * 8) by ring.
  rewrite Z.quot_mul by lia. unfold u32. apply Z.mod_small. nia.
Qed.

(** The column loops of [scaleUp] for one destination row: destination
    column [c] receives source column [c / 2], for [c] up to twice the new
    width. *)
Lemma scaleUp_columns_spec original bpp wd src dst d :
  (bpp = 3 \/ bpp = 4) ->
  0 <= wd <= 65535 ->
  0 <= src -> src + wd * bpp <= Z.of_nat (length (data original)) ->
  0 <= dst -> dst + 2 * wd * bpp <= Z.of_nat (length d) ->
  exists d',
    for_u16 wd 1
      (fun x (dc : list byte * Z) =>
         for_u16 2 1
           (fun cCount (dc : list byte * Z) =>
              let c := snd dc in
              let* d := scale_copy original bpp src dst x
                          (fun k => u32 (u32 (c * bpp) + k)) (fst dc) in
              Ok (d, u32 (c + 1)))
           dc)
      (d, 0)
    = Ok (d', 2 * wd)
    /\ length d' = length d
    /\ (forall c k, 0 <= c < 2 * wd -> 0 <= k < bpp ->
          peek d' (dst + c * bpp + k)
          = peek (data original) (src + c / 2 * bpp + k))
    /\ (forall j, 0 <= j -> j < dst \/ dst + 2 * wd * bpp <= j ->
          peek d' j = peek d j).
Proof.
  intros Hbpp Hwd Hs Hse Hd Hde.
  set (I := fun (n : Z) (dc : list byte * Z) =>
              snd dc = n
              /\ length (fst dc) = length d
              /\ (forall c k, 0 <= c < n -> 0 <= k < bpp ->
                    peek (fst dc) (dst + c * bpp + k)
                    = peek (data original) (src + c / 2 * bpp + k))
              /\ (forall j, 0 <= j -> j < dst \/ dst + n * bpp <= j ->
                    peek (fst dc) j = peek d j)).
  match goal with
  | |- context [for_u16 wd 1 ?body ?s] =>
      destruct (for_u16_rule (fun x dc => I (2 * x) dc) wd body s)
        as ([d' c'] & Hrun & Hc' & Hl' & Hcols & Hrest)
  end.
  - exact Hwd.
  - unfold I. cbn [fst snd]. split; [reflexivity|]. split; [reflexivity|].
    split; [intros; lia|intros; reflexivity].
  - intros x dc Hx Hdc. cbv beta.
    match goal with
    | |- context [for_u16 2 1 ?body ?s] =>
        destruct (for_u16_rule (fun cc e => I (2 * x + cc) e) 2 body s)
          as (e' & Hrun' & He')
    end.
    + lia.
    + replace (2 * x + 0) with (2 * x) by lia. exact Hdc.
    + intros cc [e c] Hcc (Hc & Hl & Hcols & Hrest). cbn [fst snd] in *.
      cbv zeta. cbn [fst snd]. subst c.
      set (c := 2 * x + cc) in *.
      assert (Hidx : forall k, 0 <= k < 4 ->
                u32 (u32 (c * bpp) + k) = c * bpp + k).
      { intros k Hk. unfold u32.
        rewrite (Z.mod_small (c * bpp)) by nia. apply Z.mod_small. nia. }
      assert (Hc2 : c / 2 = x) by (subst c; Z.div_mod_to_equations; lia).
      destruct (scale_copy_spec original bpp src dst x
                  (fun k => u32 (u32 (c * bpp) + k)) (c * bpp) e Hbpp Hidx
                  ltac:(nia) ltac:(nia) ltac:(nia) ltac:(rewrite Hl; nia))
        as (e1 & S1 & L1 & V1 & O1).
      rewrite S1. cbn [bind]. eexists. split; [reflexivity|].
      unfold I. cbn [fst snd].
      split; [unfold u32; rewrite Z.mod_small by lia; subst c; lia|].
      split; [congruence|]. split.
      * intros c0 k Hc0 Hk.
        destruct (Z.eq_dec c0 c) as [->|Hne].
        -- rewrite Hc2. apply V1. exact Hk.
        -- rewrite O1 by nia. apply Hcols; lia.
      * intros j Hj Hout. rewrite O1 by nia. apply Hrest; [exact Hj|nia].
    + exists e'. split; [exact Hrun'|].
      replace (2 * (x + 1)) with (2 * x + 2) by lia. exact He'.
  - cbn [fst snd] in *. subst c'. exists d'. split; [exact Hrun|].
    split; [exact Hl'|]. split.
    + intros c k Hc Hk. apply Hcols; lia.
    + intros j Hj Hout. apply Hrest; [exact Hj|]. nia.
Qed.

(* [scaleUp_header] within the range of [int]. *)
Lemma scaleUp_header_Ok b :
  0 <= width (bmp_info_header b) <= 32766 ->
  0 <= height (bmp_info_header b) <= 65535 ->
  bit_count (bmp_info_header b) = 8 * imageType b ->
  (imageType b = 3 \/ imageType b = 4) ->
  scaleUp_header b = Ok (scaleUp_fields b).
Proof.
  intros Hw Hh Hbc Hbpp. unfold scaleUp_header, scaleUp_fields.
  cbn [bmp_info_header set_info_header set_row_stride set_width set_height
         width height bit_count row_stride imageType data file_header].
  rewrite int_mul_in by (unfold INT_MIN, INT_MAX; lia). cbn [bind width].
  set (n := width (bmp_info_header b) * 2) in *.
  pose proof (Z.rem_mod_nonneg n 4 ltac:(lia) ltac:(lia)) as Er.
  pose proof (Z.mod_pos_bound n 4 ltac:(lia)) as Hm.
  rewrite int_add_in by (unfold INT_MIN, INT_MAX; lia). cbn [bind width].
  rewrite int_mul_in
    by (rewrite Hbc; unfold INT_MIN, INT_MAX;
        destruct Hbpp as [E|E]; rewrite E; lia).
  cbn [bind]. cbn [height set_width].
  rewrite int_mul_in by (unfold INT_MIN, INT_MAX; lia). reflexivity.
Qed.

(* What [scaleUp] computes. *)
Lemma scaleUp_result (b : Bitmap) :
  valid_geometry b ->
  bit_count (bmp_info_header b) = 8 * imageType b ->
  width (bmp_info_header b) <= 32766 ->
  height (bmp_info_header b) <= 65535 ->
  (forall y, 0 <= y < height (bmp_info_header b) ->
     row_stride b * y
     + (2 * width (bmp_info_header b) + (2 * width (bmp_info_header b)) mod 4)
       * imageType b
     <= Z.of_nat (length (data b))) ->
  (2 * width (bmp_info_header b) + (2 * width (bmp_info_header b)) mod 4)
  * imageType b * (2 * height (bmp_info_header b) + 1)
  <= Z.of_nat (length (data b)) ->
  exists b',
    scaleUp b = Ok b'
    /\ b' = set_data (scaleUp_fields b) (data b')
    /\ length (data b') = length (data b)
    /\ (forall x y ch,
          0 <= x < width (bmp_info_header b') ->
          0 <= y < height (bmp_info_header b') ->
          0 <= ch < imageType b' ->
          peek (data b') (channel_addr b' x y ch)
          = peek (data b) (channel_addr b (x / 2) (y / 2) ch))
    /\ (forall j,
          row_stride b' * (height (bmp_info_header b') + 1) <= j ->
          peek (data b') j = peek (data b) j).
Proof.
  intros Hgeo Hbc Hw Hh Hreads Hwrites.
  assert (Hbpp : imageType b = 3 \/ imageType b = 4) by apply (vg_type b Hgeo).
  pose proof (vg_height b Hgeo) as Hh0. pose proof (vg_width b Hgeo) as Hw0.
  pose proof (vg_size b Hgeo) as Hsz. pose proof (vg_stride b Hgeo) as Hst.
  destruct (scaleUp_header_fields b ltac:(lia) Hbc Hbpp)
    as (Ew & Eh & Ers & Eit & Ed & _).
  set (nb := scaleUp_fields b) in *.
  set (bpp := imageType b) in *.
  set (wd := 2 * width (bmp_info_header b)
             + (2 * width (bmp_info_header b)) mod 4) in *.
  set (h := height (bmp_info_header b)) in *.
  pose proof (Z.mod_pos_bound (2 * width (bmp_info_header b)) 4 ltac:(lia)) as Hm.
  assert (Hwd : 0 <= wd <= 65535).
  { subst wd. split; [lia|]. Z.div_mod_to_equations. lia. }
  set (J := fun (R : Z) (st : list byte * Z) =>
              snd st = R
              /\ length (fst st) = length (data b)
              /\ (forall r c k, 0 <= r < R -> 0 <= c < wd -> 0 <= k < bpp ->
                    peek (fst st) (wd * bpp * r + c * bpp + k)
                    = peek (data b) (row_stride b * (r / 2) + c / 2 * bpp + k))
              /\ (forall j, 0 <= j -> wd * bpp * (R + 1) <= j ->
                    peek (fst st) j = peek (data b) j)).
  unfold scaleUp.
  rewrite (scaleUp_header_Ok b ltac:(lia) ltac:(lia) Hbc Hbpp). cbn [bind].
  fold nb. rewrite Eit, Ed, Ew, Ers. fold bpp wd h.
  match goal with
  | |- context [for_u16 h 1 ?body ?s] =>
      destruct (for_u16_rule (fun y st => J (2 * y) st) h body s)
        as ([d' r'] & Hrun & Hr' & Hl' & Hrows & Hrest)
  end.
  - lia.
  - unfold J. cbn [fst snd]. split; [reflexivity|]. split; [reflexivity|].
    split; [intros; lia|intros; reflexivity].
  - intros y st Hy Hst0. cbv beta zeta.
    rewrite (u32_row b y Hgeo Hy).
    match goal with
    | |- context [for_u16 2 1 ?body ?s] =>
        destruct (for_u16_rule (fun rc e => J (2 * y + rc) e) 2 body s)
          as (e' & Hrun' & He')
    end.
    + lia.
    + replace (2 * y + 0) with (2 * y) by lia. exact Hst0.
    + intros rc [d r] Hrc (Hr & Hl & Hdone & Hkeep). cbn [fst snd] in *.
      cbv beta zeta. cbn [fst snd].
      subst r. set (R := 2 * y + rc) in *.
      assert (HR : 0 <= R <= 2 * h - 1) by (subst R; lia).
      assert (HR2 : R / 2 = y) by (subst R; Z.div_mod_to_equations; lia).
      assert (Hpix : u32 (wd * bpp * R) = wd * bpp * R).
      { unfold u32. apply Z.mod_small. nia. }
      rewrite Hpix.
      pose proof (Hreads y Hy) as Hread.
      destruct (scaleUp_columns_spec b bpp wd (row_stride b * y)
                  (wd * bpp * R) d Hbpp Hwd ltac:(nia) Hread ltac:(nia)
                  ltac:(rewrite Hl; nia))
        as (d1 & Hcol & L1 & V1 & O1).
      match goal with
      | |- context [bind ?m _] =>
          replace m with (@Ok (list byte * Z) (d1, 2 * wd))
            by (symmetry; exact Hcol)
      end.
      cbn [bind fst snd].
      assert (Hu : u32 wd = wd) by (unfold u32; apply Z.mod_small; lia).
      rewrite Hu. cbn [for_loop].
      destruct (Z.ltb_spec (2 * wd) wd) as [Hlt|_]; [lia|].
      cbn [bind]. eexists. split; [reflexivity|].
      unfold J. cbn [fst snd].
      split; [unfold u32; rewrite Z.mod_small by lia; subst R; lia|].
      split; [congruence|]. split.
      * intros r c k Hr Hc Hk.
        destruct (Z.eq_dec r R) as [->|Hne].
        -- rewrite HR2. apply V1; lia.
        -- rewrite O1 by nia. apply Hdone; lia.
      * intros j Hj Hout. rewrite O1 by nia. apply Hkeep; [exact Hj|nia].
    + exists e'. split; [exact Hrun'|].
      replace (2 * (y + 1)) with (2 * y + 2) by lia. exact He'.
  - rewrite Hrun. cbn [bind fst].
    exists (set_data nb d'). split; [reflexivity|].
    cbn [data set_data fst snd] in *. split; [reflexivity|]. split; [exact Hl'|].
    change (bmp_info_header (set_data nb d')) with (bmp_info_header nb).
    change (imageType (set_data nb d')) with (imageType nb).
    change (row_stride (set_data nb d')) with (row_stride nb).
    rewrite Ew, Eh, Eit, Ers. fold bpp wd h. split.
    + intros x y ch Hx Hy Hch. unfold channel_addr.
      change (row_stride (set_data nb d')) with (row_stride nb).
      change (imageType (set_data nb d')) with (imageType nb).
      rewrite Ers, Eit. fold bpp wd.
      apply Hrows; lia.
    + intros j Hj. apply Hrest; [nia|]. exact Hj.
Qed.

(** [scaleUp] on an image of at most 32766 columns and 65535 rows whose
    buffer has room for one row more than the new image, and for reading the
    new width from every old row: the new width is twice the old one plus
    its remainder modulo 4, a multiple of 4, the new height twice the old
    one, the new stride the new width in bytes; pixel [(x, y)] of the result
    is what the original buffer holds at pixel [(x / 2, y / 2)], which for
    the columns added to an odd width lies after the end of the old row.  The
    buffer keeps its size; the bytes after the row that follows the new
    image, and the file header, are as they were. *)
Theorem scaleUp_doubles (b : Bitmap) :
  valid_geometry b ->
  bit_count (bmp_info_header b) = 8 * imageType b ->
  width (bmp_info_header b) <= 32766 ->
  height (bmp_info_header b) <= 65535 ->
  (forall y, 0 <= y < height (bmp_info_header b) ->
     row_stride b * y
     + (2 * width (bmp_info_header b) + (2 * width (bmp_info_header b)) mod 4)
       * imageType b
     <= Z.of_nat (length (data b))) ->
  (2 * width (bmp_info_header b) + (2 * width (bmp_info_header b)) mod 4)
  * imageType b * (2 * height (bmp_info_header b) + 1)
  <= Z.of_nat (length (data b)) ->
  exists b',
    scaleUp b = Ok b'
    /\ width (bmp_info_header b')
       = 2 * width (bmp_info_header b) + (2 * width (bmp_info_header b)) mod 4
    /\ width (bmp_info_header b') mod 4 = 0
    /\ height (bmp_info_header b') = 2 * height (bmp_info_header b)
    /\ row_stride b' = width (bmp_info_header b') * imageType b
    /\ imageType b' = imageType b
    /\ file_header b' = file_header b
    /\ length (data b') = length (data b)
    /\ (forall x y ch,
          0 <= x < width (bmp_info_header b') ->
          0 <= y < height (bmp_info_header b') ->
          0 <= ch < imageType b ->
          peek (data b') (channel_addr b' x y ch)
          = peek (data b) (channel_addr b (x / 2) (y / 2) ch))
    /\ (forall j,
          row_stride b' * (height (bmp_info_header b') + 1) <= j ->
          peek (data b') j = peek (data b) j).
Proof.
  intros Hgeo Hbc Hw Hh Hreads Hwrites.
  destruct (scaleUp_result b Hgeo Hbc Hw Hh Hreads Hwrites)
    as (b' & Hrun & Hb' & Hl & Hpix & Hrest).
  destruct (scaleUp_header_fields b
              ltac:(pose proof (vg_width b Hgeo); lia) Hbc (vg_type b Hgeo))
    as (Ew & Eh & Ers & Eit & _ & Efh).
  assert (Ew' : width (bmp_info_header b')
                = width (bmp_info_header (scaleUp_fields b)))
    by (rewrite Hb'; reflexivity).
  assert (Eh' : height (bmp_info_header b')
                = height (bmp_info_header (scaleUp_fields b)))
    by (rewrite Hb'; reflexivity).
  assert (Ers' : row_stride b' = row_stride (scaleUp_fields b))
    by (rewrite Hb'; reflexivity).
  assert (Eit' : imageType b' = imageType (scaleUp_fields b))
    by (rewrite Hb'; reflexivity).
  assert (Efh' : file_header b' = file_header (scaleUp_fields b))
    by (rewrite Hb'; reflexivity).
  exists b'. split; [exact Hrun|].
  split; [congruence|]. split.
  { rewrite Ew', Ew. Z.div_mod_to_equations. lia. }
  split; [congruence|].
  split; [rewrite Ers', Ers, Ew', Ew; reflexivity|].
  split; [congruence|]. split; [congruence|]. split; [exact Hl|].
  split; [|exact Hrest].
  intros x y ch Hx Hy Hch. apply Hpix; auto. rewrite Eit', Eit. exact Hch.
Qed.

Lemma scaleUp_doubles_witness :
  valid_geometry sample_2x2
  /\ exists b',
       scaleUp sample_2x2 = Ok b'
       /\ width (bmp_info_header b')
          = 2 * width (bmp_info_header sample_2x2)
            + (2 * width (bmp_info_header sample_2x2)) mod 4
       /\ width (bmp_info_header b') mod 4 = 0
       /\ height (bmp_info_header b') = 2 * height (bmp_info_header sample_2x2)
       /\ row_stride b' = width (bmp_info_header b') * imageType sample_2x2
       /\ imageType b' = imageType sample_2x2
       /\ file_header b' = file_header sample_2x2
       /\ length (data b') = length (data sample_2x2)
       /\ (forall x y ch,
             0 <= x < width (bmp_info_header b') ->
             0 <= y < height (bmp_info_header b') ->
             0 <= ch < imageType sample_2x2 ->
             peek (data b') (channel_addr b' x y ch)
             = peek (data sample_2x2)
                 (channel_addr sample_2x2 (x / 2) (y / 2) ch))
       /\ (forall j,
             row_stride b' * (height (bmp_info_header b') + 1) <= j ->
             peek (data b') j = peek (data sample_2x2) j).
Proof.
  split; [exact sample_2x2_geometry|].
  apply (scaleUp_doubles sample_2x2 sample_2x2_geometry);
    [reflexivity|cbn; lia|cbn; lia| |vm_compute; discriminate].
  intros y Hy. cbn in Hy. assert (y = 0 \/ y = 1) as [->| ->] by lia;
    vm_compute; discriminate.
Defined.

(* [scaleUp] and then [scaleDown]: both complete; the header and the pixels. *)
Lemma scale_round_trip_result (b : Bitmap) :
  valid_geometry b ->
  bit_count (bmp_info_header b) = 8 * imageType b ->
  1 <= width (bmp_info_header b) <= 32766 ->
  height (bmp_info_header b) <= 32767 ->
  (forall y, 0 <= y < height (bmp_info_header b) ->
     row_stride b * y
     + (2 * width (bmp_info_header b) + (2 * width (bmp_info_header b)) mod 4)
       * imageType b
     <= Z.of_nat (length (data b))) ->
  (2 * width (bmp_info_header b) + (2 * width (bmp_info_header b)) mod 4)
  * imageType b * (2 * height (bmp_info_header b) + 1)
  <= Z.of_nat (length (data b)) ->
  exists b1 b2,
    scaleUp b = Ok b1
    /\ scaleDown b1 = Ok b2
    /\ height (bmp_info_header b2) = height (bmp_info_header b)
    /\ width (bmp_info_header b2)
       = (2 * width (bmp_info_header b) + (2 * width (bmp_info_header b)) mod 4)
         / 2
         + ((2 * width (bmp_info_header b)
             + (2 * width (bmp_info_header b)) mod 4) / 2) mod 4
    /\ forall x y ch,
         0 <= x < width (bmp_info_header b) ->
         0 <= y < height (bmp_info_header b) ->
         0 <= ch < imageType b ->
         peek (data b2) (channel_addr b2 x y ch)
         = peek (data b) (channel_addr b x y ch).
Proof.
  intros Hgeo Hbc Hw Hh Hreads Hwrites.
  assert (Hbpp : imageType b = 3 \/ imageType b = 4) by apply (vg_type b Hgeo).
  pose proof (vg_height b Hgeo) as Hh0. pose proof (vg_size b Hgeo) as Hsz.
  destruct (scaleUp_result b Hgeo Hbc ltac:(lia) ltac:(lia) Hreads Hwrites)
    as (b1 & Hrun1 & Hb1 & Hl1 & Hpix1 & _).
  destruct (scaleUp_header_fields b ltac:(lia) Hbc Hbpp)
    as (Ew & Eh & Ers & Eit & _ & _).
  assert (Ebc : bit_count (bmp_info_header (scaleUp_fields b))
                = bit_count (bmp_info_header b)) by reflexivity.
  assert (Ew1 : width (bmp_info_header b1)
                = width (bmp_info_header (scaleUp_fields b)))
    by (rewrite Hb1; reflexivity).
  assert (Eh1 : height (bmp_info_header b1)
                = height (bmp_info_header (scaleUp_fields b)))
    by (rewrite Hb1; reflexivity).
  assert (Ers1 : row_stride b1 = row_stride (scaleUp_fields b))
    by (rewrite Hb1; reflexivity).
  assert (Eit1 : imageType b1 = imageType (scaleUp_fields b))
    by (rewrite Hb1; reflexivity).
  assert (Ebc1 : bit_count (bmp_info_header b1)
                 = bit_count (bmp_info_header (scaleUp_fields b)))
    by (rewrite Hb1; reflexivity).
  rewrite Ew in Ew1. rewrite Eh in Eh1. rewrite Ers in Ers1.
  rewrite Eit in Eit1. rewrite Ebc in Ebc1.
  set (w := width (bmp_info_header b)) in *.
  set (h := height (bmp_info_header b)) in *.
  set (bpp := imageType b) in *.
  pose proof (Z.mod_pos_bound (2 * w) 4 ltac:(lia)) as Hm.
  set (w1 := 2 * w + (2 * w) mod 4) in *.
  assert (Hw1 : 2 * w <= w1 <= 65535)
    by (subst w1; split; [lia|Z.div_mod_to_equations; lia]).
  assert (Hhalf : w <= w1 / 2 <= w + 1)
    by (subst w1; Z.div_mod_to_equations; lia).
  pose proof (Z.mod_pos_bound (w1 / 2) 4 ltac:(lia)) as Hm2.
  assert (Hgeo1 : valid_geometry b1).
  { constructor.
    - rewrite Eit1. exact Hbpp.
    - rewrite Ew1. lia.
    - rewrite Eh1. lia.
    - rewrite Ers1. nia.
    - intros y Hy. rewrite Eh1 in Hy. rewrite Ers1, Ew1, Eit1, Hl1. nia.
    - rewrite Hl1. exact Hsz. }
  destruct (scaleDown_result b1 Hgeo1) as (b2 & Hrun2 & Hb2 & Hl2 & Hpix2 & _).
  - rewrite Ebc1, Eit1. exact Hbc.
  - rewrite Ew1. lia.
  - rewrite Eh1. lia.
  - rewrite Ew1, Eit1, Eh1, Hl1.
    replace (2 * h / 2) with h by (Z.div_mod_to_equations; lia).
    assert (Hle : w1 / 2 + (w1 / 2) mod 4 <= 2 * w1)
      by (Z.div_mod_to_equations; lia).
    assert (Hbh : 0 <= bpp * h) by (apply Z.mul_nonneg_nonneg; lia).
    assert (Hwb : 0 <= w1 * bpp) by (apply Z.mul_nonneg_nonneg; lia).
    assert (Hmul : (w1 / 2 + (w1 / 2) mod 4) * (bpp * h) <= 2 * w1 * (bpp * h))
      by (apply Z.mul_le_mono_nonneg_r; [exact Hbh|exact Hle]).
    lia.
  - destruct (scaleDown_header_fields b1 ltac:(rewrite Ew1; lia)
                ltac:(rewrite Eh1; lia)
                ltac:(rewrite Ebc1, Eit1; exact Hbc)
                ltac:(rewrite Eit1; exact Hbpp))
      as (Ew2 & Eh2 & Ers2 & Eit2 & _ & _).
    assert (Ew2' : width (bmp_info_header b2)
                   = width (bmp_info_header (scaleDown_fields b1)))
      by (rewrite Hb2; reflexivity).
    assert (Eh2' : height (bmp_info_header b2)
                   = height (bmp_info_header (scaleDown_fields b1)))
      by (rewrite Hb2; reflexivity).
    assert (Eit2' : imageType b2 = imageType (scaleDown_fields b1))
      by (rewrite Hb2; reflexivity).
    rewrite Ew2, Ew1 in Ew2'. rewrite Eh2, Eh1 in Eh2'.
    rewrite Eit2, Eit1 in Eit2'.
    replace (2 * h / 2) with h in Eh2' by (Z.div_mod_to_equations; lia).
    exists b1, b2. split; [exact Hrun1|]. split; [exact Hrun2|].
    split; [exact Eh2'|]. split; [exact Ew2'|].
    intros x y ch Hx Hy Hch.
    rewrite Hpix2 by (rewrite ?Ew2', ?Eh2', ?Eit2'; lia).
    rewrite Ew1.
    destruct (Z.ltb_spec x (w1 / 2)) as [_|Hge]; [|lia].
    rewrite Hpix1 by (rewrite ?Ew1, ?Eh1, ?Eit1; lia).
    replace ((2 * x + 1) / 2) with x by (Z.div_mod_to_equations; lia).
    replace ((2 * y + 1) / 2) with y by (Z.div_mod_to_equations; lia).
    reflexivity.
Qed.


(** [scaleUp] and then [scaleDown] give back the pixels of the image: the
    height is the original one, the width at least the original one, and
    every pixel [(x, y)] of the original image is at [(x, y)] of the
    result. *)
Theorem scale_round_trip_pixels (b : Bitmap) :
  valid_geometry b ->
  bit_count (bmp_info_header b) = 8 * imageType b ->
  1 <= width (bmp_info_header b) <= 32766 ->
  height (bmp_info_header b) <= 32767 ->
  (forall y, 0 <= y < height (bmp_info_header b) ->
     row_stride b * y
     + (2 * width (bmp_info_header b) + (2 * width (bmp_info_header b)) mod 4)
       * imageType b
     <= Z.of_nat (length (data b))) ->
  (2 * width (bmp_info_header b) + (2 * width (bmp_info_header b)) mod 4)
  * imageType b * (2 * height (bmp_info_header b) + 1)
  <= Z.of_nat (length (data b)) ->
  exists b1 b2,
    scaleUp b = Ok b1
    /\ scaleDown b1 = Ok b2
    /\ height (bmp_info_header b2) = height (bmp_info_header b)
    /\ width (bmp_info_header b) <= width (bmp_info_header b2)
    /\ forall x y ch,
         0 <= x < width (bmp_info_header b) ->
         0 <= y < height (bmp_info_header b) ->
         0 <= ch < imageType b ->
         peek (data b2) (channel_addr b2 x y ch)
         = peek (data b) (channel_addr b x y ch).
Proof.
  intros Hgeo Hbc Hw Hh Hreads Hwrites.
  destruct (scale_round_trip_result b Hgeo Hbc Hw Hh Hreads Hwrites)
    as (b1 & b2 & Hrun1 & Hrun2 & Eh & Ew & Hpix).
  exists b1, b2. split; [exact Hrun1|]. split; [exact Hrun2|].
  split; [exact Eh|]. split; [|exact Hpix].
  rewrite Ew. Z.div_mod_to_equations. lia.
Qed.

Lemma scale_round_trip_pixels_witness :
  valid_geometry sample_2x2
  /\ exists b1 b2,
       scaleUp sample_2x2 = Ok b1
       /\ scaleDown b1 = Ok b2
       /\ height (bmp_info_header b2) = height (bmp_info_header sample_2x2)
       /\ width (bmp_info_header sample_2x2) <= width (bmp_info_header b2)
       /\ forall x y ch,
            0 <= x < width (bmp_info_header sample_2x2) ->
            0 <= y < height (bmp_info_header sample_2x2) ->
            0 <= ch < imageType sample_2x2 ->
            peek (data b2) (channel_addr b2 x y ch)
            = peek (data sample_2x2) (channel_addr sample_2x2 x y ch).
Proof.
  split; [exact sample_2x2_geometry|].
  apply (scale_round_trip_pixels sample_2x2 sample_2x2_geometry);
    [reflexivity|cbn; lia|cbn; lia| |vm_compute; discriminate].
  intros y Hy. cbn in Hy. assert (y = 0 \/ y = 1) as [->| ->] by lia;
    vm_compute; discriminate.
Defined.

(** ** A 32-bit file without the color header *)

(** For every stream of at least 54 bytes with the signature, 32 bits per
    pixel and a declared header size below 124, [operator>>] on a
    default-constructed bitmap throws its [BitmapException] and catches it:
    no exception leaves the call, and the bitmap is left with the file
    header and the info header as read from the stream, not adjusted,
    [imageType = 4], and an empty buffer. *)
Theorem operator_extract_swallows_missing_masks (c : list byte) :
  (54 <= length c)%nat ->
  file_type (stored_file_header c) = 0x4D42 ->
  bit_count (stored_info_header c) = 32 ->
  size (stored_info_header c) < 124 ->
  exists b s,
    operator_extract (istream_of c) Bitmap_init
    = (Swallowed (BitmapException 74), b, s)
    /\ file_header b = stored_file_header c
    /\ bmp_info_header b = stored_info_header c
    /\ bmp_color_header b = BMPColorHeader_init
    /\ imageType b = 4
    /\ row_stride b = 0
    /\ data b = []
    /\ gpos s = 54%nat.
Proof.
  intros Hlen Hty H32 Hsz.
  rewrite (operator_extract_missing_masks c Hlen Hty H32 Hsz).
  do 2 eexists. split; [reflexivity|]. repeat split.
Qed.

Lemma operator_extract_swallows_missing_masks_witness :
  (54 <= length stream_no_masks)%nat
  /\ exists b s,
       operator_extract (istream_of stream_no_masks) Bitmap_init
       = (Swallowed (BitmapException 74), b, s)
       /\ file_header b = stored_file_header stream_no_masks
       /\ bmp_info_header b = stored_info_header stream_no_masks
       /\ bmp_color_header b = BMPColorHeader_init
       /\ imageType b = 4
       /\ row_stride b = 0
       /\ data b = []
       /\ gpos s = 54%nat.
Proof.
  assert (H : (54 <= length stream_no_masks)%nat) by (cbn; lia).
  split; [exact H|].
  apply (operator_extract_swallows_missing_masks stream_no_masks H);
    [reflexivity|reflexivity|vm_compute; reflexivity].
Defined.

(** ** A filtered image written and read back *)

Lemma pixels_bitmap_set_data hb d d' :
  length d' = length d ->
  set_data (pixels_bitmap hb d) d' = pixels_bitmap hb d'.
Proof.
  intros Hl. unfold pixels_bitmap.
  destruct (Z.rem (width (bmp_info_header hb)) 4 =? 0);
    cbn [set_data set_file_header set_row_stride]; rewrite Hl; reflexivity.
Qed.

Lemma peek_drop k (d : list byte) i :
  0 <= i -> peek (drop k d) i = peek d (Z.of_nat k + i).
Proof.
  intros Hi. unfold peek. rewrite !nth_lookup, lookup_drop.
  do 3 f_equal. lia.
Qed.

Lemma drop_peek_ext k (d d' : list byte) :
  length d' = length d ->
  (forall i, Z.of_nat k <= i -> peek d' i = peek d i) ->
  drop k d' = drop k d.
Proof.
  intros Hl Hsame. apply peek_ext.
  - rewrite !length_drop. lia.
  - intros i Hi. rewrite !peek_drop by lia. apply Hsame. lia.
Qed.

(* A buffer changed inside the image only goes through the codec. *)
Lemma kept_image_round_trip file d d' :
  well_formed file ->
  Z.of_nat (length d) = buffer_size (stored_info_header file) ->
  (Z.rem (width (stored_info_header file)) 4 <> 0 ->
   drop (Z.to_nat (packed_stride (stored_info_header file)
                   * height (stored_info_header file))) d
   = replicate
       (Z.to_nat (buffer_size (stored_info_header file)
                  - packed_stride (stored_info_header file)
                    * height (stored_info_header file))) x00) ->
  kept_outside
    (image_bytes
       (pixels_bitmap
          (headers_bitmap (stored_file_header file) (stored_info_header file)
             (stored_color_header file)) d))
    d d' ->
  exists o s',
    operator_insert ostream_init
      (pixels_bitmap
         (headers_bitmap (stored_file_header file) (stored_info_header file)
            (stored_color_header file)) d')
    = (Broken MissingReturn, o)
    /\ operator_extract (istream_of (written o)) Bitmap_init
       = (Returned,
          pixels_bitmap
            (headers_bitmap (stored_file_header file) (stored_info_header file)
               (stored_color_header file)) d',
          s').
Proof.
  intros Hwf Hl Ht [Hl' Hk].
  pose proof (well_formed_codec_headers file Hwf) as Hcd.
  set (fh := stored_file_header file) in *.
  set (ih := stored_info_header file) in *.
  set (ch := stored_color_header file) in *.
  destruct (codec_sizes fh ih ch Hcd)
    as (bpp & Hbpp & Hbc & HN & Hrs & Hty & Hmax & Hpos & Hrow).
  pose proof (cd_width _ _ _ Hcd) as Hw. pose proof (cd_height _ _ _ Hcd) as Hh.
  destruct (pixels_bitmap_fields fh ih ch d)
    as (Hih & _ & Hit & _ & Hst & _).
  assert (Hl2 : Z.of_nat (length d') = buffer_size ih) by lia.
  assert (Ht2 : Z.rem (width ih) 4 <> 0 ->
                drop (Z.to_nat (packed_stride ih * height ih)) d'
                = replicate
                    (Z.to_nat (buffer_size ih - packed_stride ih * height ih))
                    x00).
  { intros Hrem. rewrite <- (Ht Hrem). apply drop_peek_ext; [exact Hl'|].
    intros i Hi.
    destruct (Hk i ltac:(lia)) as [(x & y & c & Hx & Hy & Hc & E)|E];
      [|exact E].
    exfalso. unfold channel_addr in E.
    rewrite Hih, Hit, Hst, Hty in *. cbn [width height set_size] in *.
    destruct (Z.eqb_spec (Z.rem (width ih) 4) 0); [contradiction|].
    rewrite Hrs in *. nia. }
  destruct (operator_extract_encoded fh ih ch Hcd d' Hl2 Ht2) as (s' & Hback).
  pose proof (operator_insert_b1 fh ih ch Hcd d' Hl2) as Hput.
  do 2 eexists. split; [exact Hput|]. exact Hback.
Qed.

(** Decoding a well-formed file, applying [cellShade] or [grayscale] and
    writing the result with [operator<<]: the call reaches the end of its
    body, where no [return] gives the stream back, and the bytes written up
    to there decode to the filtered bitmap again. *)
Theorem filtered_image_round_trip (file : list byte) :
  well_formed file ->
  exists b s,
    operator_extract (istream_of file) Bitmap_init = (Returned, b, s)
    /\ (exists b' o s',
          cellShade b = Ok b'
          /\ operator_insert ostream_init b' = (Broken MissingReturn, o)
          /\ operator_extract (istream_of (written o)) Bitmap_init
             = (Returned, b', s'))
    /\ (exists b' o s',
          grayscale b = Ok b'
          /\ operator_insert ostream_init b' = (Broken MissingReturn, o)
          /\ operator_extract (istream_of (written o)) Bitmap_init
             = (Returned, b', s')).
Proof.
  intros Hwf.
  pose proof (well_formed_codec_headers file Hwf) as Hcd.
  destruct (operator_extract_well_formed file Hwf) as (d & s & Hrun & Hl & Ht).
  destruct (pixels_bitmap_geometry _ _ _ d Hcd Hl) as [Hgeo Hst].
  pose proof (pixels_bitmap_rows _ _ _ d Hcd) as Hint.
  destruct (pixels_bitmap_fields (stored_file_header file)
              (stored_info_header file) (stored_color_header file) d)
    as (_ & _ & _ & Hd & _).
  set (b := pixels_bitmap
              (headers_bitmap (stored_file_header file)
                 (stored_info_header file) (stored_color_header file)) d) in *.
  exists b, s. split; [exact Hrun|]. split.
  - destruct (cellShade_spec b Hgeo Hint) as (b' & Hc & Hb' & _).
    pose proof (cellShade_footprint b b' Hgeo Hc) as Hk.
    rewrite Hd in Hk.
    destruct (kept_image_round_trip file d (data b') Hwf Hl Ht Hk)
      as (o & s' & Hput & Hback).
    assert (E : b' = pixels_bitmap
                       (headers_bitmap (stored_file_header file)
                          (stored_info_header file) (stored_color_header file))
                       (data b')).
    { rewrite Hb' at 1. apply pixels_bitmap_set_data. exact (proj1 Hk). }
    rewrite <- E in Hput, Hback.
    exists b', o, s'. split; [exact Hc|]. split; [exact Hput|exact Hback].
  - destruct (grayscale_spec b Hgeo Hst Hint) as (b' & Hc & _).
    pose proof (grayscale_footprint b b' Hgeo Hc) as Hk.
    pose proof (grayscale_frame b b' Hc) as (Hfh & Hih & Hch & Hrs & Hit & _).
    assert (Hb' : b' = set_data b (data b')).
    { clear - Hfh Hih Hch Hrs Hit. destruct b', b. unfold set_data. cbn in *.
      subst. reflexivity. }
    rewrite Hd in Hk.
    destruct (kept_image_round_trip file d (data b') Hwf Hl Ht Hk)
      as (o & s' & Hput & Hback).
    assert (E : b' = pixels_bitmap
                       (headers_bitmap (stored_file_header file)
                          (stored_info_header file) (stored_color_header file))
                       (data b')).
    { rewrite Hb' at 1. apply pixels_bitmap_set_data. exact (proj1 Hk). }
    rewrite <- E in Hput, Hback.
    exists b', o, s'. split; [exact Hc|]. split; [exact Hput|exact Hback].
Qed.

Lemma filtered_image_round_trip_witness :
  well_formed stream_2x2
  /\ exists b s,
       operator_extract (istream_of stream_2x2) Bitmap_init = (Returned, b, s)
       /\ (exists b' o s',
             cellShade b = Ok b'
             /\ operator_insert ostream_init b' = (Broken MissingReturn, o)
             /\ operator_extract (istream_of (written o)) Bitmap_init
                = (Returned, b', s'))
       /\ (exists b' o s',
             grayscale b = Ok b'
             /\ operator_insert ostream_init b' = (Broken MissingReturn, o)
             /\ operator_extract (istream_of (written o)) Bitmap_init
                = (Returned, b', s')).
Proof.
  split; [exact stream_2x2_well_formed|].
  exact (filtered_image_round_trip stream_2x2 stream_2x2_well_formed).
Defined.

(** ** [blur] on a flat image *)

Lemma table2_blur_weight xOff yOff :
  0 <= xOff < 5 -> 0 <= yOff < 5 ->
  table2 blur_filter yOff xOff
  = Ok (nth (Z.to_nat (5 * xOff + yOff)) blur_weights 0)
  /\ blur_partial (Z.to_nat (5 * xOff + (yOff + 1)))
     = blur_partial (Z.to_nat (5 * xOff + yOff))
       + nth (Z.to_nat (5 * xOff + yOff)) blur_weights 0
  /\ 0 <= nth (Z.to_nat (5 * xOff + yOff)) blur_weights 0
  /\ 0 <= blur_partial (Z.to_nat (5 * xOff + yOff))
  /\ blur_partial (Z.to_nat (5 * xOff + (yOff + 1))) <= 256.
Proof.
  intros Hx Hy.
  assert (Hx' : xOff = 0 \/ xOff = 1 \/ xOff = 2 \/ xOff = 3 \/ xOff = 4) by lia.
  assert (Hy' : yOff = 0 \/ yOff = 1 \/ yOff = 2 \/ yOff = 3 \/ yOff = 4) by lia.
  destruct Hx' as [->|[->|[->|[->| ->]]]];
    destruct Hy' as [->|[->|[->|[->| ->]]]];
    vm_compute; repeat split; discriminate.
Qed.

Lemma store_same d i v :
  0 <= i < Z.of_nat (length d) -> 0 <= v < 256 -> peek d i = v ->
  store d i v = Ok d.
Proof.
  intros Hi Hv Hp. rewrite store_in_range by exact Hi. f_equal.
  apply list_insert_id. unfold peek in Hp.
  destruct (lookup_lt_is_Some_2 d (Z.to_nat i) ltac:(lia)) as [x Hx].
  rewrite Hx. f_equal. rewrite (nth_lookup_Some _ _ _ _ Hx) in Hp.
  apply byte_val_inj. rewrite byte_val_of, Hp. rewrite Z.mod_small by lia.
  reflexivity.
Qed.

Lemma blur_sum_flat b x y v :
  valid_geometry b ->
  height (bmp_info_header b) <= 4294967296 ->
  (forall i, image_bytes b i -> peek (data b) i = v) ->
  0 <= v <= 254 ->
  2 <= x < width (bmp_info_header b) - 2 ->
  2 <= y < height (bmp_info_header b) - 2 ->
  blur_sum b x y (data b)
  = Ok [256 * v; 256 * v; 256 * v; if imageType b =? 4 then 256 * v else 0].
Proof.
  intros Hgeo Hhmax Hflat Hv Hx Hy. unfold blur_sum.
  assert (Hbpp : imageType b = 3 \/ imageType b = 4) by apply (vg_type b Hgeo).
  set (state := fun (n : Z) (fv : list Z) =>
                  fv = [v * blur_partial (Z.to_nat n);
                        v * blur_partial (Z.to_nat n);
                        v * blur_partial (Z.to_nat n);
                        if imageType b =? 4
                        then v * blur_partial (Z.to_nat n) else 0]).
  match goal with
  | |- for_int 0 5 1 ?body ?s = _ =>
      destruct (for_int_rule (fun xOff fv => state (5 * xOff) fv) 5 body s)
        as (fv & Hrun & Hfv)
  end.
  - lia.
  - unfold state. change (blur_partial (Z.to_nat (5 * 0))) with 0.
    rewrite Z.mul_0_r. destruct (imageType b =? 4); reflexivity.
  - intros xOff fv HxOff Hfv. cbv beta.
    match goal with
    | |- context [for_int 0 5 1 ?body ?s] =>
        destruct (for_int_rule (fun yOff e => state (5 * xOff + yOff) e) 5
                    body s) as (fv' & Hrun' & Hfv')
    end.
    + lia.
    + replace (5 * xOff + 0) with (5 * xOff) by lia. exact Hfv.
    + intros yOff fv1 HyOff Hfv1. cbv beta. unfold state in Hfv1. subst fv1.
      rewrite !table_blur_offset by lia. cbn [bind]. cbv zeta.
      destruct (table2_blur_weight xOff yOff HxOff HyOff)
        as (-> & Hnext & Hk0 & Hp0 & Hp1).
      cbn [bind].
      set (P := blur_partial (Z.to_nat (5 * xOff + yOff))) in *.
      set (k := nth (Z.to_nat (5 * xOff + yOff)) blur_weights 0) in *.
      match goal with
      | |- context [table ?l 0] =>
          change (table l 0) with (@Ok Z (v * P));
          change (table l 1) with (@Ok Z (v * P));
          change (table l 2) with (@Ok Z (v * P));
          change (table l 3)
            with (@Ok Z (if imageType b =? 4 then v * P else 0))
      end.
      cbn [bind].
      assert (Hu1 : u32 (y + (yOff - 2)) = y + (yOff - 2))
        by (unfold u32; apply Z.mod_small; lia).
      assert (Hin : forall c, 0 <= c < imageType b ->
                0 <= u32 (row_stride b * (y + (yOff - 2)))
                     + (x + (xOff - 2)) * imageType b + c
                < Z.of_nat (length (data b)))
        by (intros c Hc; apply pixel_in_buffer; auto; lia).
      assert (Hval : forall c, 0 <= c < imageType b ->
                peek (data b)
                  (u32 (row_stride b * (y + (yOff - 2)))
                   + (x + (xOff - 2)) * imageType b + c) = v)
        by (intros c Hc; apply Hflat, image_bytes_row; auto; lia).
      assert (Hw : width (bmp_info_header b) * imageType b < 4294967296).
      { pose proof (vg_rows b Hgeo 0 ltac:(lia)). pose proof (vg_size b Hgeo).
        lia. }
      assert (Hu2 : u32 (x + (xOff - 2)) = x + (xOff - 2))
        by (unfold u32; apply Z.mod_small; nia).
      assert (Hu3 : u32 ((x + (xOff - 2)) * imageType b)
                    = (x + (xOff - 2)) * imageType b)
        by (unfold u32; apply Z.mod_small; nia).
      rewrite Hu1, Hu2, Hu3.
      pose proof (Hin 0 ltac:(lia)) as H0. rewrite Z.add_0_r in H0.
      pose proof (Hval 0 ltac:(lia)) as V0. rewrite Z.add_0_r in V0.
      rewrite (load_in_range _ _ H0), V0. cbn [bind].
      rewrite (load_in_range _ _ (Hin 1 ltac:(lia))), (Hval 1) by lia.
      cbn [bind].
      rewrite (load_in_range _ _ (Hin 2 ltac:(lia))), (Hval 2) by lia.
      cbn [bind].
      assert (Hacc : u16 (v * P + v * k)
                     = v * blur_partial (Z.to_nat (5 * xOff + (yOff + 1)))).
      { rewrite Hnext. fold P k. unfold u16. rewrite Z.mod_small by nia. ring. }
      destruct (Z.eqb_spec (imageType b) 4) as [E4|E4].
      * rewrite (load_in_range _ _ (Hin 3 ltac:(lia))), (Hval 3) by lia.
        cbn [bind]. eexists. split; [reflexivity|].
        unfold state. rewrite !Hacc.
        destruct (Z.eqb_spec (imageType b) 4); [reflexivity|contradiction].
      * eexists. split; [reflexivity|].
        unfold state. rewrite !Hacc.
        destruct (Z.eqb_spec (imageType b) 4); [contradiction|reflexivity].
    + exists fv'. split; [exact Hrun'|].
      replace (5 * (xOff + 1)) with (5 * xOff + 5) by lia. exact Hfv'.
  - rewrite Hrun. unfold state in Hfv. rewrite Hfv.
    change (blur_partial (Z.to_nat (5 * 5))) with 256.
    rewrite (Z.mul_comm v 256). reflexivity.
Qed.

Lemma blur_pixel_flat b x y v :
  valid_geometry b -> rows_fit_int b ->
  height (bmp_info_header b) <= 4294967296 ->
  (forall i, image_bytes b i -> peek (data b) i = v) ->
  0 <= v <= 254 ->
  2 <= x < width (bmp_info_header b) - 3 ->
  2 <= y < height (bmp_info_header b) - 3 ->
  blur_pixel b x y (data b) = Ok (data b).
Proof.
  intros Hgeo Hint Hhmax Hflat Hv Hx Hy. unfold blur_pixel.
  rewrite (int_mul_index x (width (bmp_info_header b)))
    by (unfold rows_fit_int in Hint; destruct (vg_type b Hgeo); lia).
  cbn [bind].
  rewrite (blur_sum_flat b x y v Hgeo Hhmax Hflat Hv ltac:(lia) ltac:(lia)).
  cbn [bind].
  assert (Hbpp : imageType b = 3 \/ imageType b = 4) by apply (vg_type b Hgeo).
  assert (Hq : u16 (256 * v / 255) = v).
  { assert (256 * v / 255 = v) as -> by (Z.div_mod_to_equations; lia).
    unfold u16. apply Z.mod_small. lia. }
  destruct (for_u8_rule (fun _ e => e = data b) (imageType b)
              (fun ch e =>
                 let* v0 := table [256 * v; 256 * v; 256 * v;
                                   if imageType b =? 4 then 256 * v else 0] ch in
                 store e (u32 (row_stride b * y) + x * imageType b + ch)
                   (u16 (v0 / 255)))
              (data b)) as (d' & Hrun & ->); [lia|reflexivity| |exact Hrun].
  intros ch e Hch ->.
  assert (Htab : table [256 * v; 256 * v; 256 * v;
                        if imageType b =? 4 then 256 * v else 0] ch
                 = Ok (256 * v)).
  { assert (ch = 0 \/ ch = 1 \/ ch = 2 \/ ch = 3) as [->|[->|[->| ->]]] by lia;
      try reflexivity.
    destruct (Z.eqb_spec (imageType b) 4); [reflexivity|lia]. }
  rewrite Htab. cbn [bind]. rewrite Hq.
  exists (data b). split; [|reflexivity].
  apply store_same.
  - apply pixel_in_buffer; auto; lia.
  - lia.
  - apply Hflat, image_bytes_row; auto; lia.
Qed.

(** [blur] returns a flat image as it is, if the value of its bytes is at
    most 254: the weighted sum [256 v] divided by 255 is [v] again.  (For 255
    the quotient is 256, which the byte does not hold.) *)
Theorem blur_flat_image (b : Bitmap) (v : Z) :
  valid_geometry b ->
  width (bmp_info_header b) * imageType b <= row_stride b ->
  (forall i, image_bytes b i -> peek (data b) i = v) ->
  0 <= v <= 254 ->
  blur b = Ok b.
Proof.
  intros Hgeo Hwide Hflat Hv.
  destruct (Z.le_gt_cases (height (bmp_info_header b)) 5) as [Hh|Hh];
    [apply blur_no_interior; auto|].
  destruct (Z.le_gt_cases (width (bmp_info_header b)) 5) as [Hw|Hw];
    [apply blur_no_interior; auto|].
  assert (Hhmax : height (bmp_info_header b) <= 4294967296).
  { pose proof (vg_rows b Hgeo (height (bmp_info_header b) - 1) ltac:(lia)).
    pose proof (vg_size b Hgeo).
    assert (0 < imageType b) by (destruct (vg_type b Hgeo); lia). nia. }
  pose proof (stacked_rows_fit_int b Hgeo Hwide ltac:(lia)) as Hint.
  unfold blur.
  match goal with
  | |- context [for_int 2 ?bound 1 ?body ?s] =>
      destruct (for_int_from_rule (fun e => e = data b) 2 bound body s)
        as (d' & Hd' & ->)
  end.
  - reflexivity.
  - intros y d Hy ->. cbv beta.
    apply (for_int_from_rule (fun e => e = data b)); [reflexivity|].
    intros x e Hx ->. exists (data b). split; [|reflexivity].
    apply (blur_pixel_flat b x y v); auto.
  - rewrite Hd'. cbn [bind]. rewrite set_data_data. reflexivity.
Qed.

Lemma blur_flat_image_witness :
  valid_geometry sample_17x17
  /\ width (bmp_info_header sample_17x17) * imageType sample_17x17
     <= row_stride sample_17x17
  /\ 0 <= 7 <= 254
  /\ blur sample_17x17 = Ok sample_17x17.
Proof.
  assert (Hs : width (bmp_info_header sample_17x17) * imageType sample_17x17
               <= row_stride sample_17x17) by (cbn; lia).
  assert (Hv : 0 <= 7 <= 254) by lia.
  split; [exact sample_17x17_geometry|]. split; [exact Hs|]. split; [exact Hv|].
  apply (blur_flat_image sample_17x17 7 sample_17x17_geometry Hs); [|exact Hv].
  intros i (x & y & ch & Hx & Hy & Hch & ->).
  cbn in Hx, Hy, Hch. unfold channel_addr. cbn [row_stride imageType sample_17x17].
  unfold peek.
  assert (Hr : (Z.to_nat (51 * y + x * 3 + ch) < 867)%nat) by lia.
  revert Hr. generalize (Z.to_nat (51 * y + x * 3 + ch)). intros n Hn.
  assert (Hall : forallb (fun k => byte_val (nth k (data sample_17x17) x00) =? 7)
                   (seq 0 867) = true) by (vm_compute; reflexivity).
  rewrite forallb_forall in Hall.
  apply Z.eqb_eq. apply Hall. apply in_seq. lia.
Defined.

(** ** The flips applied twice *)

(** For a bitmap whose rows lie inside the buffer and coincide or do not
    overlap, of at most 65535 rows and 65535 bytes of pixels per row,
    [flipv] completes and applied once more gives back the original buffer,
    and so does [fliph]; the width and the height may be even or odd. *)
Theorem flips_are_involutions (b : Bitmap) :
  valid_geometry b -> stride_ok b -> fits_counters b ->
  (exists b1 b2, flipv b = Ok b1 /\ flipv b1 = Ok b2 /\ data b2 = data b)
  /\ (exists b1 b2, fliph b = Ok b1 /\ fliph b1 = Ok b2 /\ data b2 = data b).
Proof.
  intros Hgeo Hst Hfit. split.
  - destruct (flipv_twice b Hgeo Hst Hfit) as (b1 & H1 & _ & H2).
    exists b1, b. auto.
  - destruct (fliph_twice b Hgeo Hst Hfit) as (b1 & H1 & _ & H2).
    exists b1, b. auto.
Qed.

Lemma flips_are_involutions_witness :
  valid_geometry sample_2x2 /\ stride_ok sample_2x2 /\ fits_counters sample_2x2
  /\ (exists b1 b2, flipv sample_2x2 = Ok b1 /\ flipv b1 = Ok b2
        /\ data b2 = data sample_2x2)
  /\ (exists b1 b2, fliph sample_2x2 = Ok b1 /\ fliph b1 = Ok b2
        /\ data b2 = data sample_2x2).
Proof.
  split; [exact sample_2x2_geometry|]. split; [exact sample_2x2_stride|].
  split; [exact sample_2x2_fits|].
  exact (flips_are_involutions sample_2x2 sample_2x2_geometry sample_2x2_stride
           sample_2x2_fits).
Defined.

(** ** The in-place filters that complete keep the headers *)

(* [grayscale] completes on rows inside the buffer, overlapping or not. *)
Lemma grayscale_runs b :
  valid_geometry b -> rows_fit_int b -> exists b', grayscale b = Ok b'.
Proof.
  intros Hgeo Hint. unfold grayscale.
  assert (Hbpp : imageType b = 3 \/ imageType b = 4) by apply (vg_type b Hgeo).
  match goal with
  | |- context [for_int 0 ?bound 1 ?body ?s] =>
      destruct (for_int_from_rule (fun e => length e = length (data b))
                  0 bound body s) as (d' & Hd' & _)
  end.
  - reflexivity.
  - intros y d Hy Hd. cbv beta.
    apply (for_int_from_rule (fun e => length e = length (data b)));
      [exact Hd|].
    intros x e Hx He.
    rewrite (int_mul_index x (width (bmp_info_header b)))
      by (unfold rows_fit_int in Hint; lia).
    cbn [bind].
    pose proof (pixel_in_buffer b x y 0 Hgeo Hx Hy ltac:(lia)) as H0.
    pose proof (pixel_in_buffer b x y (imageType b - 1) Hgeo Hx Hy ltac:(lia))
      as H1.
    destruct (grayscale_pixel_spec b e
                (u32 (row_stride b * y) + x * imageType b) Hbpp
                ltac:(lia) ltac:(rewrite He; lia)) as (e' & E & L & _).
    exists e'. split; [exact E|congruence].
  - rewrite Hd'. cbn [bind]. eexists. reflexivity.
Qed.

(* The flips complete when their counters can span the image. *)
Lemma flips_run b :
  valid_geometry b -> fits_counters b ->
  (exists b', flipv b = Ok b') /\ (exists b', fliph b = Ok b').
Proof.
  intros Hgeo Hfit.
  assert (Hbpp : imageType b = 3 \/ imageType b = 4) by apply (vg_type b Hgeo).
  pose proof (vg_width b Hgeo) as Hw0. pose proof (vg_height b Hgeo) as Hh0.
  pose proof (fits_counters_rows b Hfit) as Hint.
  destruct Hfit as [Hfh Hfw].
  assert (Hmul : int_mul (width (bmp_info_header b)) (imageType b)
                 = Ok (width (bmp_info_header b) * imageType b)).
  { apply (int_mul_index _ (width (bmp_info_header b))); [lia|lia|exact Hint]. }
  assert (Hlast : int_mul (width (bmp_info_header b) - 1) (imageType b)
                  = Ok ((width (bmp_info_header b) - 1) * imageType b)).
  { apply int_mul_in. unfold INT_MIN, INT_MAX.
    assert (0 <= width (bmp_info_header b) * imageType b)
      by (apply Z.mul_nonneg_nonneg; lia).
    destruct Hbpp as [E|E]; rewrite E in *; lia. }
  split.
  - unfold flipv.
    match goal with
    | |- context [for_u16 ?bound 1 ?body ?s] =>
        destruct (for_u16_rule (fun _ e => length e = length (data b))
                    bound body s) as (d' & Hd' & _)
    end.
    + lia.
    + reflexivity.
    + intros y e Hy He. cbv beta. rewrite Hmul. cbn [bind].
      apply (flip_columns_Ok b _
               (fun x => u32 (row_stride b * y) + x)
               (fun x => u32 (row_stride b
                              * u32 (height (bmp_info_header b) - 1 - y)) + x));
        auto.
      * intros c Hc Hc'. apply (flipv_addresses b y c Hgeo Hy Hc Hc').
      * intros c Hc Hc'. apply (flipv_addresses b y c Hgeo Hy Hc Hc').
    + rewrite Hd'. cbn [bind]. eexists. reflexivity.
  - unfold fliph.
    match goal with
    | |- context [for_u16 ?bound 1 ?body ?s] =>
        destruct (for_u16_rule (fun _ e => length e = length (data b))
                    bound body s) as (d' & Hd' & _)
    end.
    + lia.
    + reflexivity.
    + intros y e Hy He. cbv beta. rewrite Hmul. cbn [bind].
      apply (flip_columns_Ok b _
               (fun x => u32 (row_stride b * y)
                         + u16 ((width (bmp_info_header b) - 1) * imageType b
                                - x))
               (fun x => u32 (row_stride b * y) + x));
        auto.
      * intros x e0. rewrite Hlast. reflexivity.
      * intros c Hc Hc'. apply (fliph_addresses b y c Hgeo Hy Hc Hc').
      * intros c Hc Hc'. apply (flipv_addresses b y c Hgeo Hy Hc Hc').
    + rewrite Hd'. cbn [bind]. eexists. reflexivity.
Qed.

(** [cellShade], [grayscale] and [blur] complete on every bitmap whose rows
    lie inside the buffer and have at most [INT_MAX] bytes of pixels, whether
    the rows overlap or not, and so do [flipv] and [fliph] when the image has
    at most 65535 rows and 65535 bytes of pixels per row; each of the five
    leaves the three headers, [row_stride], [imageType] and the length of the
    buffer as they were.  ([pixelate] completes only where it changes
    nothing.) *)
Theorem in_place_filters_keep_metadata (b : Bitmap) :
  valid_geometry b -> rows_fit_int b ->
  height (bmp_info_header b) <= INT_MAX ->
  (exists b', cellShade b = Ok b' /\ same_metadata b b')
  /\ (exists b', grayscale b = Ok b' /\ same_metadata b b')
  /\ (exists b', blur b = Ok b' /\ same_metadata b b')
  /\ (fits_counters b ->
      (exists b', flipv b = Ok b' /\ same_metadata b b')
      /\ (exists b', fliph b = Ok b' /\ same_metadata b b')).
Proof.
  intros Hgeo Hint Hh.
  split; [|split; [|split]].
  - destruct (cellShade_spec b Hgeo Hint) as (b' & Hrun & _).
    exists b'. split; [exact Hrun|apply cellShade_frame; exact Hrun].
  - destruct (grayscale_runs b Hgeo Hint) as (b' & Hrun).
    exists b'. split; [exact Hrun|apply grayscale_frame; exact Hrun].
  - destruct (blur_runs_bounded b Hgeo Hint ltac:(unfold INT_MAX in Hh; lia))
      as (d' & Hrun & _).
    exists (set_data b d'). split; [exact Hrun|apply blur_frame; exact Hrun].
  - intros Hfit. destruct (flips_run b Hgeo Hfit) as [(b1 & H1) (b2 & H2)].
    split.
    + exists b1. split; [exact H1|apply flipv_frame; exact H1].
    + exists b2. split; [exact H2|apply fliph_frame; exact H2].
Qed.

Lemma sample_6x6_rows : rows_fit_int sample_6x6.
Proof. unfold rows_fit_int, INT_MAX. cbn. lia. Defined.

Lemma in_place_filters_keep_metadata_witness :
  valid_geometry sample_6x6 /\ rows_fit_int sample_6x6
  /\ height (bmp_info_header sample_6x6) <= INT_MAX
  /\ fits_counters sample_6x6
  /\ (exists b', cellShade sample_6x6 = Ok b' /\ same_metadata sample_6x6 b')
  /\ (exists b', grayscale sample_6x6 = Ok b' /\ same_metadata sample_6x6 b')
  /\ (exists b', blur sample_6x6 = Ok b' /\ same_metadata sample_6x6 b')
  /\ (exists b', flipv sample_6x6 = Ok b' /\ same_metadata sample_6x6 b')
  /\ (exists b', fliph sample_6x6 = Ok b' /\ same_metadata sample_6x6 b').
Proof.
  assert (Hh : height (bmp_info_header sample_6x6) <= INT_MAX)
    by (unfold INT_MAX; cbn; lia).
  assert (Hfit : fits_counters sample_6x6) by (split; cbn; lia).
  pose proof (in_place_filters_keep_metadata sample_6x6 sample_6x6_geometry
                sample_6x6_rows Hh) as (H1 & H2 & H3 & H4).
  split; [exact sample_6x6_geometry|]. split; [exact sample_6x6_rows|].
  split; [exact Hh|]. split; [exact Hfit|].
  split; [exact H1|]. split; [exact H2|]. split; [exact H3|].
  exact (H4 Hfit).
Defined.
(** * The specification, statement by statement *)

(** C6. For a bitmap of 24 or 32 bits per pixel whose rows lie inside the
    buffer and have at most [INT_MAX] bytes of pixels, [cellShade] completes
    and replaces every channel of every pixel of [0, width) x [0, height) by
    [nearesetNumber] of its old value, which is the level of 0, 128, 255
    closest to that value, the first of these in that order among equally
    close ones; 64 becomes 0. *)
Theorem cellShade_quantizes (b : Bitmap) :
  valid_geometry b -> rows_fit_int b ->
  exists b', cellShade b = Ok b'
    /\ forall x y ch,
         0 <= x < width (bmp_info_header b) ->
         0 <= y < height (bmp_info_header b) ->
         0 <= ch < imageType b ->
         let old := peek (data b) (channel_addr b x y ch) in
         let new := peek (data b') (channel_addr b x y ch) in
         new = nearesetNumber old
         /\ closest_first old new
         /\ (old = 64 -> new = 0).
Proof.
  intros Hgeo Hint.
  destruct (cellShade_spec b Hgeo Hint) as (b' & Hrun & _ & _ & _ & HD).
  exists b'. split; [exact Hrun|].
  intros x y ch Hx Hy Hch old new.
  assert (Hnew : new = nearesetNumber old).
  { apply HD.
    - unfold channel_addr. pose proof (vg_stride b Hgeo).
      assert (0 < imageType b) by (destruct (vg_type b Hgeo); lia). nia.
    - exists x, y, ch. repeat split; lia. }
  pose proof (peek_range (data b) (channel_addr b x y ch)) as Hr.
  fold old in Hr.
  split; [exact Hnew|]. split.
  - rewrite Hnew. apply nearesetNumber_closest. lia.
  - intros E. rewrite Hnew, E. reflexivity.
Qed.

Lemma cellShade_quantizes_witness :
  valid_geometry sample_2x2 /\ rows_fit_int sample_2x2
  /\ exists b', cellShade sample_2x2 = Ok b'
       /\ forall x y ch,
            0 <= x < width (bmp_info_header sample_2x2) ->
            0 <= y < height (bmp_info_header sample_2x2) ->
            0 <= ch < imageType sample_2x2 ->
            let old := peek (data sample_2x2) (channel_addr sample_2x2 x y ch) in
            let new := peek (data b') (channel_addr sample_2x2 x y ch) in
            new = nearesetNumber old
            /\ closest_first old new
            /\ (old = 64 -> new = 0).
Proof.
  split; [exact sample_2x2_geometry|]. split; [exact sample_2x2_rows|].
  exact (cellShade_quantizes sample_2x2 sample_2x2_geometry sample_2x2_rows).
Defined.

Lemma sample_reused_geometry : valid_geometry sample_reused.
Proof. constructor; cbn; lia. Qed.

(** C7, as stated, fails on a [Bitmap] object that is read into twice, first
    from a file of one 32-bit pixel, then from the 4 x 2 file of 24 bits per
    pixel: [operator>>] leaves [row_stride] at the 4 of the first file, the
    rows of 12 bytes overlap, and after [grayscale] the pixel (1, 0) holds
    B = 50 and G = 60. *)
Lemma grayscale_overlapping_rows :
  fst (operator_extract (istream_of stream_1x1_32) Bitmap_init)
  = (Returned, decoded stream_1x1_32)
  /\ fst (operator_extract (istream_of stream_4x2) (decoded stream_1x1_32))
     = (Returned, sample_reused)
  /\ valid_geometry sample_reused
  /\ rows_fit_int sample_reused
  /\ row_stride sample_reused = 4
  /\ width (bmp_info_header sample_reused) * imageType sample_reused = 12
  /\ exists b', grayscale sample_reused = Ok b'
       /\ peek (data b') (channel_addr sample_reused 1 0 0) = 50
       /\ peek (data b') (channel_addr sample_reused 1 0 1) = 60.
Proof.
  split; [vm_compute; reflexivity|].
  split; [vm_compute; reflexivity|].
  split; [exact sample_reused_geometry|].
  split; [unfold rows_fit_int, INT_MAX; cbn; lia|].
  split; [reflexivity|]. split; [reflexivity|].
  eexists. split; [vm_compute; reflexivity|].
  split; vm_compute; reflexivity.
Qed.

(** C7, amended. For a bitmap of 24 or 32 bits per pixel whose rows lie
    inside the buffer, do not overlap
    ([row_stride >= width * bytes_per_pixel]) and have at most [INT_MAX]
    bytes of pixels, [grayscale] completes and leaves in every pixel
    B = G = R = the integer average of the pixel's old channels:
    (B + G + R) / 3 for 24 bits per pixel, (B + G + R + A) / 4 for 32 bits
    per pixel, where A receives the same value. *)
Theorem grayscale_averages (b : Bitmap) :
  valid_geometry b ->
  width (bmp_info_header b) * imageType b <= row_stride b ->
  rows_fit_int b ->
  exists b', grayscale b = Ok b'
    /\ forall x y,
         0 <= x < width (bmp_info_header b) ->
         0 <= y < height (bmp_info_header b) ->
         let a := channel_addr b x y 0 in
         let avg :=
           if imageType b =? 3
           then (peek (data b) a + peek (data b) (a + 1) + peek (data b) (a + 2)) / 3
           else (peek (data b) a + peek (data b) (a + 1) + peek (data b) (a + 2)
                 + peek (data b) (a + 3)) / 4 in
         peek (data b') a = avg
         /\ peek (data b') (a + 1) = avg
         /\ peek (data b') (a + 2) = avg
         /\ (imageType b = 4 -> peek (data b') (a + 3) = avg).
Proof.
  intros Hgeo Hst Hint.
  destruct (grayscale_spec b Hgeo (or_intror Hst) Hint)
    as (b' & Hrun & _ & _ & HD).
  exists b'. split; [exact Hrun|].
  intros x y Hx Hy a avg.
  assert (Hslot : pixel_slot b a) by (exists x, y; repeat split; lia).
  specialize (HD a Hslot Hslot). fold (average b (data b) a) in avg.
  pose proof (HD 0) as H0. rewrite Z.add_0_r in H0.
  destruct (vg_type b Hgeo) as [E|E].
  - repeat split; [apply H0|apply HD|apply HD|]; lia.
  - repeat split; [apply H0|apply HD|apply HD|intros _; apply HD]; lia.
Qed.

Lemma grayscale_averages_witness :
  valid_geometry sample_2x2
  /\ width (bmp_info_header sample_2x2) * imageType sample_2x2
     <= row_stride sample_2x2
  /\ rows_fit_int sample_2x2
  /\ exists b', grayscale sample_2x2 = Ok b'
       /\ forall x y,
            0 <= x < width (bmp_info_header sample_2x2) ->
            0 <= y < height (bmp_info_header sample_2x2) ->
            let a := channel_addr sample_2x2 x y 0 in
            let avg :=
              if imageType sample_2x2 =? 3
              then (peek (data sample_2x2) a + peek (data sample_2x2) (a + 1)
                    + peek (data sample_2x2) (a + 2)) / 3
              else (peek (data sample_2x2) a + peek (data sample_2x2) (a + 1)
                    + peek (data sample_2x2) (a + 2)
                    + peek (data sample_2x2) (a + 3)) / 4 in
            peek (data b') a = avg
            /\ peek (data b') (a + 1) = avg
            /\ peek (data b') (a + 2) = avg
            /\ (imageType sample_2x2 = 4 -> peek (data b') (a + 3) = avg).
Proof.
  assert (Hst : width (bmp_info_header sample_2x2) * imageType sample_2x2
                <= row_stride sample_2x2) by (cbn; lia).
  split; [exact sample_2x2_geometry|]. split; [exact Hst|].
  split; [exact sample_2x2_rows|].
  exact (grayscale_averages sample_2x2 sample_2x2_geometry Hst sample_2x2_rows).
Defined.

(** C3. Two decoded bitmaps with rows inside the buffer on which a filter
    leaves the bounds: on the 17 x 17 image [pixelate] reads entry 16 of its
    16-entry offset table; on the 1 x 1 image, whose buffer has 27 bytes,
    [scaleUp] writes element 27. *)
Theorem filters_leave_bounds :
  fst (operator_extract (istream_of stream_17x17) Bitmap_init)
  = (Returned, sample_17x17)
  /\ valid_geometry sample_17x17
  /\ width (bmp_info_header sample_17x17) * imageType sample_17x17
     <= row_stride sample_17x17
  /\ length pixelate_offset = 16%nat
  /\ pixelate sample_17x17 = Undefined (TableIndex 16)
  /\ fst (operator_extract (istream_of stream_1x1) Bitmap_init)
     = (Returned, sample_1x1)
  /\ valid_geometry sample_1x1
  /\ width (bmp_info_header sample_1x1) * imageType sample_1x1
     <= row_stride sample_1x1
  /\ length (data sample_1x1) = 27%nat
  /\ scaleUp sample_1x1 = Undefined (BufferIndex 27).
Proof.
  split; [vm_compute; reflexivity|].
  split; [exact sample_17x17_geometry|].
  split; [vm_compute; discriminate|].
  split; [reflexivity|].
  split; [vm_compute; reflexivity|].
  split; [vm_compute; reflexivity|].
  split; [exact sample_1x1_geometry|].
  split; [vm_compute; discriminate|].
  split; [reflexivity|].
  vm_compute; reflexivity.
Qed.

(** C5. On the decoded 6 x 6 white image the pixel (2, 2) has a white
    neighbourhood, the weighted sum of each channel is 255 * 256 and its
    quotient by 256 is 255; [blur] stores 0 there, the sum divided by 255
    being 256, which does not fit the byte. *)
Theorem blur_divides_by_255 :
  fst (operator_extract (istream_of stream_6x6) Bitmap_init)
  = (Returned, sample_6x6)
  /\ valid_geometry sample_6x6
  /\ (forall ch, 0 <= ch < 3 ->
        kernel_sum sample_6x6 (data sample_6x6) 2 2 ch / 256 = 255)
  /\ exists b', blur sample_6x6 = Ok b'
       /\ forall ch, 0 <= ch < 3 ->
            peek (data b') (channel_addr sample_6x6 2 2 ch) = 0.
Proof.
  split; [vm_compute; reflexivity|].
  split; [constructor; cbn; lia|].
  split.
  - intros ch Hch.
    assert (ch = 0 \/ ch = 1 \/ ch = 2) as [->|[->| ->]] by lia;
      vm_compute; reflexivity.
  - eexists. split; [vm_compute; reflexivity|].
    intros ch Hch.
    assert (ch = 0 \/ ch = 1 \/ ch = 2) as [->|[->| ->]] by lia;
      vm_compute; reflexivity.
Qed.

(** C10. On the decoded 17 x 17 image [cellShade], [grayscale], [blur],
    [flipv] and [fliph] complete and leave the headers, [row_stride],
    [imageType] and the length of the buffer as they were, but [pixelate]
    reads entry 16 of its 16-entry offset table and writes through the value
    found there: the call is undefined and nothing is known of the bitmap
    after it.  So it is on every bitmap with rows inside the buffer, more
    than 16 rows and more than 16 columns; on the others [pixelate] has no
    block to work on and returns the bitmap as it is. *)
Theorem pixelate_breaks_frame :
  fst (operator_extract (istream_of stream_17x17) Bitmap_init)
  = (Returned, sample_17x17)
  /\ valid_geometry sample_17x17
  /\ pixelate sample_17x17 = Undefined (TableIndex 16)
  /\ (forall b, valid_geometry b ->
        pixelate b
        = if (height (bmp_info_header b) <=? 16)
             || (width (bmp_info_header b) <=? 16)
          then Ok b else Undefined (TableIndex 16))
  /\ (exists b', cellShade sample_17x17 = Ok b'
        /\ same_metadata sample_17x17 b')
  /\ (exists b', grayscale sample_17x17 = Ok b'
        /\ same_metadata sample_17x17 b')
  /\ (exists b', blur sample_17x17 = Ok b' /\ same_metadata sample_17x17 b')
  /\ (exists b', flipv sample_17x17 = Ok b' /\ same_metadata sample_17x17 b')
  /\ (exists b', fliph sample_17x17 = Ok b' /\ same_metadata sample_17x17 b').
Proof.
  pose proof sample_17x17_geometry as Hgeo.
  assert (Hint : rows_fit_int sample_17x17)
    by (unfold rows_fit_int, INT_MAX; cbn; lia).
  assert (Hfit : fits_counters sample_17x17) by (split; cbn; lia).
  split; [vm_compute; reflexivity|]. split; [exact Hgeo|].
  split; [apply pixelate_first_block; [exact Hgeo|cbn; lia|cbn; lia]|].
  split.
  { intros b Hb.
    destruct (Z.leb_spec (height (bmp_info_header b)) 16) as [Hh|Hh];
      [exact (pixelate_no_block b Hb (or_introl Hh))|].
    destruct (Z.leb_spec (width (bmp_info_header b)) 16) as [Hw|Hw];
      [exact (pixelate_no_block b Hb (or_intror Hw))|].
    exact (pixelate_first_block b Hb Hh Hw). }
  split.
  { destruct (cellShade_spec sample_17x17 Hgeo Hint) as (b' & Hrun & _).
    exists b'. split; [exact Hrun|apply cellShade_frame; exact Hrun]. }
  split.
  { destruct (grayscale_runs sample_17x17 Hgeo Hint) as (b' & Hrun).
    exists b'. split; [exact Hrun|apply grayscale_frame; exact Hrun]. }
  split.
  { destruct (blur_runs_bounded sample_17x17 Hgeo Hint ltac:(cbn; lia))
      as (d' & Hrun & _).
    eexists. split; [exact Hrun|apply blur_frame; exact Hrun]. }
  destruct (flips_run sample_17x17 Hgeo Hfit) as [(b1 & H1) (b2 & H2)].
  split.
  - exists b1. split; [exact H1|apply flipv_frame; exact H1].
  - exists b2. split; [exact H2|apply fliph_frame; exact H2].
Qed.

(** C9, as stated, fails on the decoded 2 x 2 image: [scaleUp] makes the
    width 4 and [scaleDown] leaves it 4. *)
Lemma scale_round_trip_width_changes :
  exists b1 b2, scaleUp sample_2x2 = Ok b1 /\ scaleDown b1 = Ok b2
    /\ width (bmp_info_header sample_2x2) = 2
    /\ width (bmp_info_header b2) = 4.
Proof.
  do 2 eexists. split; [vm_compute; reflexivity|].
  split; [vm_compute; reflexivity|]. split; reflexivity.
Qed.

(** C9, amended. For a bitmap of 24 or 32 bits per pixel whose rows lie
    inside the buffer, of width 1 to 32766 and height at most 32767, whose
    buffer has room for the doubled image and one more row (and for reading
    the new width from every old row), [scaleUp] and then [scaleDown]
    complete; the height is the original height, and the width is the
    original width exactly when that is a multiple of 4. *)
Theorem scale_round_trip_dimensions (b : Bitmap) :
  valid_geometry b ->
  bit_count (bmp_info_header b) = 8 * imageType b ->
  1 <= width (bmp_info_header b) <= 32766 ->
  height (bmp_info_header b) <= 32767 ->
  (forall y, 0 <= y < height (bmp_info_header b) ->
     row_stride b * y
     + (2 * width (bmp_info_header b) + (2 * width (bmp_info_header b)) mod 4)
       * imageType b
     <= Z.of_nat (length (data b))) ->
  (2 * width (bmp_info_header b) + (2 * width (bmp_info_header b)) mod 4)
  * imageType b * (2 * height (bmp_info_header b) + 1)
  <= Z.of_nat (length (data b)) ->
  exists b1 b2,
    scaleUp b = Ok b1
    /\ scaleDown b1 = Ok b2
    /\ height (bmp_info_header b2) = height (bmp_info_header b)
    /\ (width (bmp_info_header b2) = width (bmp_info_header b)
        <-> Z.rem (width (bmp_info_header b)) 4 = 0).
Proof.
  intros Hgeo Hbc Hw Hh Hreads Hwrites.
  destruct (scale_round_trip_result b Hgeo Hbc Hw Hh Hreads Hwrites)
    as (b1 & b2 & Hrun1 & Hrun2 & Eh & Ew & _).
  exists b1, b2. split; [exact Hrun1|]. split; [exact Hrun2|].
  split; [exact Eh|].
  rewrite Ew, Z.rem_mod_nonneg by lia.
  split; intros H; Z.div_mod_to_equations; lia.
Qed.

Lemma scale_round_trip_dimensions_witness :
  valid_geometry sample_2x2
  /\ exists b1 b2,
       scaleUp sample_2x2 = Ok b1
       /\ scaleDown b1 = Ok b2
       /\ height (bmp_info_header b2) = height (bmp_info_header sample_2x2)
       /\ (width (bmp_info_header b2) = width (bmp_info_header sample_2x2)
           <-> Z.rem (width (bmp_info_header sample_2x2)) 4 = 0).
Proof.
  split; [exact sample_2x2_geometry|].
  apply (scale_round_trip_dimensions sample_2x2 sample_2x2_geometry);
    [reflexivity|cbn; lia|cbn; lia| |vm_compute; discriminate].
  intros y Hy. cbn in Hy. assert (y = 0 \/ y = 1) as [->| ->] by lia;
    vm_compute; discriminate.
Defined.

(** C8. On a 21846 x 2 image of 24 bits per pixel (both dimensions even,
    rows inside the buffer and not overlapping) a row has 65538 bytes: the
    column counter of the flips, a [uint16_t] where [cellShade] and
    [grayscale] count in [int], wraps before it reaches that bound, and
    neither [flipv] nor [fliph] returns. *)
Theorem flips_hang_on_wide_image :
  Z.even (width (bmp_info_header sample_wide)) = true
  /\ Z.even (height (bmp_info_header sample_wide)) = true
  /\ valid_geometry sample_wide
  /\ stride_ok sample_wide
  /\ flipv sample_wide = Diverges
  /\ fliph sample_wide = Diverges.
Proof.
  split; [reflexivity|]. split; [reflexivity|].
  split; [exact sample_wide_geometry|]. split; [exact sample_wide_stride|].
  split; [exact flipv_sample_wide|exact fliph_sample_wide].
Qed.

(** C2. On the file of 4 x 2 pixels of 24 bits per pixel, the example of
    the specification, [operator>>] returns with [row_stride = 0], below the
    12 bytes of a row: the branch for a width that is a multiple of 4 does
    not assign [row_stride], which the other branch does, as on the 2 x 2
    file, where it is 6. *)
Theorem decoded_row_stride_unassigned :
  (exists b s,
     operator_extract (istream_of stream_4x2) Bitmap_init = (Returned, b, s)
     /\ width (bmp_info_header b) = 4
     /\ height (bmp_info_header b) = 2
     /\ bit_count (bmp_info_header b) = 24
     /\ row_stride b = 0
     /\ ~ row_stride b
          >= width (bmp_info_header b) * (bit_count (bmp_info_header b) / 8))
  /\ fst (operator_extract (istream_of stream_2x2) Bitmap_init)
     = (Returned, sample_2x2)
  /\ row_stride sample_2x2
     = width (bmp_info_header sample_2x2)
       * (bit_count (bmp_info_header sample_2x2) / 8).
Proof.
  split.
  - do 2 eexists. split; [vm_compute; reflexivity|].
    split; [reflexivity|]. split; [reflexivity|]. split; [reflexivity|].
    split; [reflexivity|]. vm_compute. intros H. apply H. reflexivity.
  - split; [vm_compute; reflexivity|reflexivity].
Qed.

(** C4. On the file of 32 bits per pixel whose header declares 40 bytes,
    [operator>>] throws the [BitmapException] and catches it itself: nothing
    reaches the caller, and the caller's bitmap holds the file header, the
    info header and [imageType] that were read, with an empty buffer. *)
Theorem missing_masks_swallowed :
  exists b s,
    operator_extract (istream_of stream_no_masks) Bitmap_init
    = (Swallowed (BitmapException 74), b, s)
    /\ b <> Bitmap_init
    /\ file_type (file_header b) = 0x4D42
    /\ size (bmp_info_header b) = 40
    /\ size (bmp_info_header b)
       < sizeof_BMPInfoHeader + sizeof_BMPColorHeader
    /\ bit_count (bmp_info_header b) = 32
    /\ width (bmp_info_header b) = 1
    /\ height (bmp_info_header b) = 1
    /\ imageType b = 4
    /\ data b = [].
Proof.
  do 2 eexists. split; [vm_compute; reflexivity|].
  split; [discriminate|]. repeat split.
Qed.

(** C1. [operator<<] has no [return] statement: on every bitmap and every
    stream, a call that does not throw flows off the end of a function that
    returns the stream, where [operator>>] ends in [return in].  On the
    decoded 2 x 2 image the call writes bytes that decode to the same bitmap,
    and then does not return.  The first decode itself stops on a file of
    4000 x 3000 pixels, the product [4000 * 3 * 3 * 3000 * 24] for the size
    of the buffer being outside [int]. *)
Theorem codec_round_trip_does_not_return :
  (forall out b, fst (operator_insert out b) <> Returned)
  /\ (exists b1 s1 o s2,
        operator_extract (istream_of stream_2x2) Bitmap_init = (Returned, b1, s1)
        /\ operator_insert ostream_init b1 = (Broken MissingReturn, o)
        /\ operator_extract (istream_of (written o)) Bitmap_init
           = (Returned, b1, s2))
  /\ file_type (stored_file_header stream_4000x3000) = 0x4D42
  /\ bit_count (stored_info_header stream_4000x3000) = 24
  /\ width (stored_info_header stream_4000x3000) = 4000
  /\ height (stored_info_header stream_4000x3000) = 3000
  /\ Z.of_nat (length stream_4000x3000) = 54 + 4000 * 3000 * 3
  /\ fst (fst (operator_extract (istream_of stream_4000x3000) Bitmap_init))
     = Broken SignedOverflow.
Proof.
  split.
  { intros out b. unfold operator_insert.
    destruct (badbit out); [discriminate|].
    destruct (bit_count (bmp_info_header b) =? 32); [discriminate|].
    destruct (bit_count (bmp_info_header b) =? 24); [|discriminate].
    destruct (Z.rem (width (bmp_info_header b)) 4 =? 0); [discriminate|].
    destruct (write_rows _ _ _); discriminate. }
  split.
  { pose proof stream_2x2_well_formed as Hwf.
    pose proof (well_formed_codec_headers _ Hwf) as Hcd.
    destruct (operator_extract_well_formed _ Hwf) as (d & s1 & Hrun & Hl & Ht).
    destruct (operator_extract_encoded _ _ _ Hcd d Hl Ht) as (s2 & Hback).
    pose proof (operator_insert_b1 _ _ _ Hcd d Hl) as Hput.
    do 4 eexists. split; [exact Hrun|]. split; [exact Hput|exact Hback]. }
  split; [reflexivity|]. split; [reflexivity|]. split; [reflexivity|].
  split; [reflexivity|].
  split.
  - unfold stream_4000x3000. rewrite length_app, length_replicate.
    change (length headers_4000x3000) with 54%nat. lia.
  - apply operator_extract_4000x3000.
Qed.
